(* ===== verification/_CoqProject ===== *)
-Q . S2P
Prelude.v
Str.v
Utf8.v
RsFloat.v
Frame.v
RateLimit.v
Actions.v
Clipboard.v
Process.v
Network.v
Gpu.v
Snapshots.v
Wire.v
Client.v
Server.v
Remote.v
Keymap.v
Ui.v
KubeView.v
Palette.v
App.v
AppSafety.v
AppViews.v
Num.v
Cluster.v
KubeEngine.v
KubeClient.v
Docker.v
Collector.v
Terminal.v
Addr.v
Tls.v
Startup.v
ServerMain.v
ClientMain.v
Amd.v
Nvml.v
IoRegistry.v
AppleGpu.v
GpuHost.v
Theme.v
FloatFacts.v
Canvas.v
Columns.v
Table.v
Meters.v
View.v
ProcessesView.v
NetworkView.v
ContainersView.v
GpuView.v
KubeTable.v
GeneralView.v
InspectorView.v
Overlays.v
Chrome.v
Root.v
Shown.v
Session.v
DockerCalls.v
KubeWidths.v
Lifetime.v
Link.v
