(* ===== verification/Prelude.v ===== *)
(** * Muxtop: a verification development for the muxtop system monitor

    muxtop shows processes, network interfaces, containers, a Kubernetes
    cluster and GPUs in a terminal, on the local machine or, through a small
    server and a framed binary protocol, on a remote one.  Four crates make it
    up: muxtop-core collects, muxtop-proto carries, muxtop-server serves and
    muxtop-tui shows and acts.  This library models their logic as executable
    definitions and proves what makes it correct.

    ** How the parts interact

    The collector (Collector.v) polls the container engine (Docker.v), the
    Kubernetes engine (KubeEngine.v, Cluster.v) and the GPU engine, each in a
    loop of its own, and publishes a [SystemSnapshot] (Snapshots.v, Process.v,
    Network.v, Gpu.v).  Locally it goes straight to the application; on a server
    a relay encodes it once (Server.v, Wire.v) and each client session
    (Client.v) sends it, as frames (Frame.v), to a [RemoteCollector] (Remote.v)
    that hands it to an application in remote mode.  The application (App.v)
    keeps the state of the screen; a key is resolved by the keymap (Keymap.v) or
    by the palette (Palette.v) into an action, a dangerous action opens a
    confirmation dialog, and only a confirmed dialog reaches the kernel
    (Actions.v) or a container engine (a [Task] of App.v).  After every turn
    [draw_root] (Root.v) draws the state of the application: chrome, the view of
    the tab, an overlay and the confirmation, as widgets of a frame.  What is
    started, and with which arguments, is decided by the two programs
    (ClientMain.v, ServerMain.v).

    ** Files, and the code they model

    - Prelude.v (this file): results, record updates, machine integers, lists.
    - Str.v: strings as Unicode scalar values, searching, comparing; Utf8.v:
      reading UTF-8.
    - RsFloat.v: [f32] and [f64] as IEEE-754 numbers, [Duration], [Instant].
    - Frame.v: muxtop-proto/src/frame.rs and error.rs.
    - RateLimit.v: muxtop-server/src/rate_limit.rs.
    - Actions.v: muxtop-core/src/actions.rs and error.rs.
    - Clipboard.v: muxtop-tui/src/clipboard.rs.
    - Process.v: muxtop-core/src/process.rs.
    - Network.v: muxtop-core/src/network.rs.
    - Gpu.v: muxtop-core/src/gpu.rs and gpu_engine.rs.
    - Snapshots.v: muxtop-core/src/containers.rs, kube.rs and system.rs.
    - Num.v: the parsing of numbers of the standard library.
    - Cluster.v: muxtop-core/src/cluster_engine.rs.
    - KubeEngine.v: muxtop-core/src/kube_engine.rs; KubeClient.v: its requests,
      timeouts and loops; KubeWidths.v: how its numbers are read, and their widths.
    - Docker.v: muxtop-core/src/container_engine.rs and docker_engine.rs;
      DockerCalls.v: their calls, and the futures of app.rs that make them.
    - Collector.v: muxtop-core/src/collector.rs.
    - Amd.v, Nvml.v, IoRegistry.v, AppleGpu.v: the GPU backends of muxtop-core
      (amd_engine.rs, nvml_engine.rs and apple/), and GpuHost.v, their merge.
    - Wire.v: muxtop-proto/src/wire.rs.
    - Client.v: muxtop-server/src/client.rs.
    - Server.v: the relay and accept loop of muxtop-server/src/server.rs.
    - Remote.v: muxtop-proto/src/remote.rs.
    - Keymap.v: muxtop-tui/src/keymap.rs.
    - Ui.v: muxtop-tui/src/notify.rs, ui/sanitize.rs, ui/widgets/mod.rs and the
      theme names of ui/theme.rs.
    - Addr.v: the addresses of the standard library; Tls.v: tls.rs of
      muxtop-proto and of muxtop-server.
    - Startup.v, ServerMain.v, ClientMain.v: main.rs of muxtop-server and of
      the terminal program, and what they share.
    - Terminal.v: muxtop-tui/src/terminal.rs and [run] of lib.rs.
    - KubeView.v: the view computation of muxtop-tui/src/ui/kube.rs.
    - Palette.v: the commands and the palette of muxtop-tui/src/app.rs.
    - App.v: the rest of muxtop-tui/src/app.rs, the loop of lib.rs and
      [poll_event] of event.rs; AppSafety.v, AppViews.v and Shown.v hold its
      theorems.
    - Theme.v: ui/theme.rs and ui/glyphs.rs; FloatFacts.v: facts on rounding.
    - Canvas.v (frames, layouts, panels, popups), Columns.v, Table.v, Meters.v:
      muxtop-tui/src/ui/widgets/; View.v: what every view is given and promises.
    - ProcessesView.v, NetworkView.v, ContainersView.v, GpuView.v, KubeTable.v,
      GeneralView.v: the tabs of muxtop-tui/src/ui/; InspectorView.v,
      Overlays.v, Chrome.v: what is drawn around and over them; Root.v: the
      whole screen (ui/mod.rs).
    - Session.v: what a whole session can put on the screen, and the orders the
      tables are sorted by; Lifetime.v: the tasks of the server around their token
      and channel, the run of the terminal program from the start of its interface
      to its exit code, and how both programs end (main.rs of both, with
      Collector.v, Server.v and Terminal.v inside);
      Link.v: the way of a snapshot from a server's collector, through its
      sessions, a connection and the remote collector, to the application.

    Definitions keep the names of the code; where two types of the code have a
    constructor or a field of the same name, an enumeration lives in a Module of
    its own ([Tab.Kube], [Action.Kill]) or a field takes a prefix ([ctr_id],
    [pod_name]).  A method takes [self] and returns the new one.  Every
    [Definition] is executable: the witnesses evaluate them.

    ** State and effects

    Mutable state is passed explicitly.  Fallible code returns [result].  What
    the program does to the outside is a trace: [Syscall]s in Actions.v, sent
    messages in Client.v, waits and deliveries in Remote.v, and the ghost fields
    [syscalls], [tasks] and [clipboard_writes] of [AppState].  What the outside
    decides is an input: the events of the accept loop, the outcomes of a
    connection attempt, the time of each turn of the application's loop.

    ** Interfaces

    Code outside the repository is a class stating what its documentation
    promises: [Unicode] (the case tables behind [to_lowercase]), [UnstableSort]
    ([sort_unstable_by]), [Os] (what a system call answers), [Bincode] and
    [DebugFmt] (serialisation), [AsyncRead], [AsyncWrite] and [Semaphore]
    (tokio), [BufferUnordered] (futures), [Sysfs] and [NvmlLib] (the drivers of
    AMD and NVIDIA), [Layouts] (ratatui's solver: the areas of a split lie in
    it), and [Host], [TlsHost] and [ClientHost] (files, terminals, certificates
    and engines when a program starts).  Each has an instance that the witnesses
    use.  The fuzzy score of the palette, the texts of error messages, the
    host's name and the capabilities of the terminal are parameters.

    ** What the theorems show

    - Frames and messages: decoding inverts encoding exactly, consumes nothing
      it should not, and refuses an oversized header before reading the payload;
      what is written to a connection is read back from it.
    - The server: nothing but a refusal is sent before authentication; the
      client limit is exact, handshakes included; a relayed frame decodes to
      the snapshot published; the rate limiter stays within its memory and its
      sweep cannot be observed; with all its tasks running in any order, nothing
      is broadcast that was not collected, and Ctrl-C always ends it.
    - End to end: whatever a remote screen shows was collected by the server it
      is connected to, unaltered, and nothing reaches an unauthenticated peer,
      whatever is lost, cut or delayed on the way.
    - The remote collector delivers only after TLS and a Welcome, and waits
      between one and thirty seconds between attempts.
    - The core: no signal is ever sent to a group or to everyone; the process
      tree shows each process once and is shaped by the parent links; sorting,
      searching, histories and the GPU merge are what they claim.
    - The engines and the collector: what is published is determined by what
      the engines answered, a failed poll replacing old data; cancelling ends
      every loop, and only cancelling does; a failing container costs its own
      row; a guessed socket is never a symbolic link; an accepted namespace is
      one plain path segment, and the rows cached belong to the scope shown; no
      server delays a poll, fills the memory, or puts a number out of its type
      into a snapshot; what a list says is in the cache eight seconds later;
      quantities are read as they are written; a confirmed container action is
      answered in ten seconds.
    - The GPU backends: no CoreFoundation object is used after its release or
      released twice, and none is left behind but the one view the code keeps on
      purpose; a process is shown on its own card.
    - Starting: a server that starts has a token and a rate within bounds; a
      generated key replaces no link and is private when its file is new; the
      terminal program watches this machine or a verified server, never both, and
      opens nothing of this machine in the second case; however it ends, if the
      calls that restore the terminal work it is restored, and success means that
      the session and its collector ended.
    - The screen: through any session, drawing never panics, stays on the screen
      and writes no control character but those of the few texts taken as they
      come, and the tables are sorted by orders unless a load is a NaN; a tab
      counts the rows of its table, where the findings do not say otherwise; the
      tables, connectors, columns, meters, wrapped texts, help and palette are what
      they claim.
    - The application: a remote session is read-only; a local one acts on a
      process or a container only when its dialog is answered yes, and does exactly
      what the dialog asked; Ctrl+C always leaves;
      the cached views are never stale; the process cursor is on a row;
      container histories do not leak; the palette, the keymap, the help and
      the footer agree.

    ** Bounds and fuel

    Machine integers are [Z] with their wrap-around or saturation written out.
    Recursion is structural.  The process tree descends at most the code's own
    [MAX_DEPTH] levels, and what lies deeper is re-rooted as in the code; a
    loop over inputs (the tasks of the server, a client session, the reconnection
    loop, the application's loop) takes one step for each input and ends with
    them; reading a stream to its end takes a number of frames, which the
    theorem about it instantiates with the number written plus the final end
    of stream; a capped body is read with one unit of fuel for each byte of
    its limit, which is enough as every read takes one.

    ** What is not modelled

    The inside of libraries: rustls, clap, bollard, kube-rs, sysinfo, NVML,
    IOKit, and ratatui's solver and terminal backend; a frame is the list of
    widgets rendered into it, not the cells they become.  What the code adds to
    a call into them is modelled, and the call is an argument or an interface.
    The sign of a NaN is not represented, so [total_cmp] takes every NaN as
    positive; [sort_by] with a comparison that is no order is an insertion sort by
    that comparison, where the library leaves the result unspecified or panics
    ([consistent_on] and Session.v say when it cannot).  Changing the namespace
    of the Kubernetes engine is one step, two locks in the code.  What the programs
    write to their log is left out.  Benchmarks, examples and tests are not part
    of the program. *)

From Stdlib Require Export ZArith Lia Sorted Permutation Strings.Byte.
From stdpp Require Export base list strings gmap.

#[global] Set Default Goal Selector "!".

(** ** Results

    Rust's [Result<T, E>], with the [?] operator as a notation. *)

Inductive result (A E : Type) : Type :=
| Ok (a : A)
| Err (e : E).
Arguments Ok {A E} a.
Arguments Err {A E} e.

Definition result_bind {A B E} (r : result A E) (k : A → result B E) : result B E :=
  match r with Ok a => k a | Err e => Err e end.

Definition map_err {A E F} (f : E → F) (r : result A E) : result A F :=
  match r with Ok a => Ok a | Err e => Err (f e) end.

Definition ok_or {A E} (o : option A) (e : E) : result A E :=
  match o with Some a => Ok a | None => Err e end.

Definition is_ok {A E} (r : result A E) : bool :=
  match r with Ok _ => true | Err _ => false end.

Definition unwrap_or {A E} (r : result A E) (d : A) : A :=
  match r with Ok a => a | Err _ => d end.

Declare Scope rust_scope.
Delimit Scope rust_scope with rust.
Notation "x '<-?' c ; k" := (result_bind c (λ x, k))
  (at level 20, c at level 100, k at level 200, right associativity) : rust_scope.
Notation "' p '<-?' c ; k" := (result_bind c (λ p, k))
  (at level 20, p pattern, c at level 100, k at level 200, right associativity) : rust_scope.

Lemma result_bind_Ok {A B E} (r : result A E) (k : A → result B E) b :
  result_bind r k = Ok b ↔ ∃ a, r = Ok a ∧ k a = Ok b.
Proof. destruct r; simpl; split; [eauto | intros (?&?&?); congruence | done | intros (?&?&?); congruence]. Qed.

Lemma map_err_Ok {A E F} (f : E → F) (r : result A E) a :
  map_err f r = Ok a ↔ r = Ok a.
Proof. destruct r; naive_solver. Qed.

(** ** Record update

    [r <| f := v |>] replaces the field [f] of [r].  A record type opts in with
    an [Eta] instance, its eta expansion; the setter of a field is then found by
    abstracting that field out of the expansion. *)

Class Eta (R : Type) := eta_of : R → R.
Class Setter {R T : Type} (proj : R → T) := set_field : (T → T) → R → R.

Ltac solve_setter :=
  match goal with
  | |- @Setter ?R ?T ?proj =>
      let f := fresh "f" in
      let r := fresh "r" in
      intros f r;
      let h := constr:(_ : Eta R) in
      let e := eval red in (h r) in
      let e := eval pattern (proj r) in e in
      match e with ?g _ => let t := eval cbv beta in (g (f (proj r))) in exact t end
  end.

#[global] Hint Extern 0 (Setter _) => solve_setter : typeclass_instances.

Declare Scope record_scope.
Delimit Scope record_scope with record.
Notation "r <| f := v |>" := (set_field (proj := f) (λ _, v) r)
  (at level 1, left associativity, format "r  <| f  :=  v |>") : record_scope.
Notation "r <| f ::= g |>" := (set_field (proj := f) g r)
  (at level 1, left associativity, format "r  <| f  ::=  g |>") : record_scope.

(** ** Machine integers

    An unsigned [w]-bit integer is a [Z] in [0, 2^w); the operations write the
    wrap-around or the saturation out. *)

Definition u8_max : Z := 255.
Definition u16_max : Z := 65535.
Definition u32_max : Z := 4294967295.
Definition u64_max : Z := 18446744073709551615.
Definition i32_max : Z := 2147483647.

Definition is_u16 (z : Z) : Prop := (0 ≤ z ≤ u16_max)%Z.
Definition is_u32 (z : Z) : Prop := (0 ≤ z ≤ u32_max)%Z.
Definition is_u64 (z : Z) : Prop := (0 ≤ z ≤ u64_max)%Z.

(** [z as u32] on a wider unsigned integer: truncation. *)
Definition as_u32 (z : Z) : Z := (z mod 2 ^ 32)%Z.

Lemma as_u32_small z : is_u32 z → as_u32 z = z.
Proof. unfold is_u32, u32_max, as_u32. intros. apply Z.mod_small. lia. Qed.

Definition u64_saturating_add (a b : Z) : Z := Z.min (a + b) u64_max.
Definition u16_saturating_add (a b : Z) : Z := Z.min (a + b) u16_max.
(** [saturating_sub] of any unsigned type. *)
Definition saturating_sub (a b : Z) : Z := Z.max 0 (a - b).

(** Bytes: [u8] is the standard library's [byte], with its value in [0, 256). *)
Abbreviation u8 := Byte.byte.

Definition u8_val (b : u8) : Z := Z.of_N (Byte.to_N b).
Definition u8_of (z : Z) : u8 :=
  match Byte.of_N (Z.to_N (z mod 256)) with Some b => b | None => x00 end.

Lemma u8_val_bounds b : (0 ≤ u8_val b < 256)%Z.
Proof. unfold u8_val. pose proof (Byte.to_N_bounded b). lia. Qed.

Lemma u8_val_of z : u8_val (u8_of z) = (z mod 256)%Z.
Proof.
  unfold u8_val, u8_of.
  pose proof (Z.mod_pos_bound z 256 ltac:(lia)) as Hb.
  destruct (Byte.of_N _) eqn:E.
  - apply Byte.to_of_N in E. rewrite E. lia.
  - apply Byte.of_N_None_iff in E. lia.
Qed.

Lemma u8_of_val b : u8_of (u8_val b) = b.
Proof.
  unfold u8_of, u8_val. pose proof (Byte.to_N_bounded b).
  rewrite Z.mod_small by lia. rewrite N2Z.id, Byte.of_to_N. done.
Qed.

#[global] Instance u8_eq_dec : EqDecision u8.
Proof. intros a b. destruct (Byte.byte_eq_dec a b); [left | right]; done. Defined.

#[global] Instance u8_inj : Inj (=) (=) u8_val.
Proof. intros a b E. rewrite <- (u8_of_val a), <- (u8_of_val b). by rewrite E. Qed.

(** ** Generic list lemmas *)

Lemma take_app_exact {A} (l k : list A) n : n = length l → take n (l ++ k) = l.
Proof. intros ->. apply take_app_length. Qed.

Lemma drop_app_exact {A} (l k : list A) n : n = length l → drop n (l ++ k) = k.
Proof. intros ->. apply drop_app_length. Qed.

(** ** Automation *)

Create HintDb muxtop.
Create Rewrite HintDb muxtop.
#[export] Hint Rewrite @length_app @length_take @length_drop @length_map
  @length_replicate : muxtop.

(** Case analysis on every [match] or [if] in sight, then arithmetic. *)
Ltac crush_cases :=
  repeat (case_match || case_decide); simplify_eq/=; try done; try lia.

(** ** Errors of [std::io] *)

Inductive ErrorKind : Type :=
| UnexpectedEof
| Unsupported
| OsError (code : Z)
| OtherKind.

#[global] Instance ErrorKind_eq_dec : EqDecision ErrorKind.
Proof. solve_decision. Defined.

(** [io::Error]: its kind, and the raw OS error code when it has one. *)
Record io_error := mkIoError { kind : ErrorKind; raw_os_error : option Z }.
