(* ===== verification/Str.v ===== *)
(** * Strings

    Rust's [str] as the sequence of its Unicode scalar values, with the
    standard-library operations the code calls on it.  Only the Unicode case
    tables are left abstract: the [Unicode] class states the documented
    behaviour of [str::to_lowercase] the code relies on. *)

From S2P Require Import Prelude.
From stdpp Require Import pretty.
Local Open Scope Z_scope.

Abbreviation str := (list Z).

(** ** Literals: the UTF-8 bytes of a Rocq string, decoded *)

Fixpoint string_bytes (s : string) : list Z :=
  match s with
  | EmptyString => []
  | String a s => Z.of_N (Ascii.N_of_ascii a) :: string_bytes s
  end.

(** [need] continuation bytes are still to come for the character [acc]. *)
Fixpoint utf8_decode (need : nat) (acc : Z) (bs : list Z) : str :=
  match bs with
  | [] => []
  | b :: bs =>
    match need with
    | O =>
        if b <? 128 then b :: utf8_decode 0 0 bs
        else if b <? 224 then utf8_decode 1 (b - 192) bs
        else if b <? 240 then utf8_decode 2 (b - 224) bs
        else utf8_decode 3 (b - 240) bs
    | 1%nat => (acc * 64 + (b - 128)) :: utf8_decode 0 0 bs
    | S n => utf8_decode n (acc * 64 + (b - 128)) bs
    end
  end.

Definition lit (s : string) : str := utf8_decode 0 0 (string_bytes s).
Arguments lit _%_string.

Example lit_ascii : lit "ok" = [111; 107].
Proof. reflexivity. Qed.
Example lit_dash : lit "a—b" = [97; 8212; 98].
Proof. reflexivity. Qed.

(** ** Characters *)

(** [char::len_utf8] and [str::len], the length in bytes. *)
Definition len_utf8 (c : Z) : nat :=
  if c <? 128 then 1 else if c <? 2048 then 2 else if c <? 65536 then 3 else 4.

Definition str_len (s : str) : nat := sum_list_with len_utf8 s.

(** [str::as_bytes]: the UTF-8 encoding. *)
Definition utf8_char (c : Z) : list Z :=
  if c <? 128 then [c]
  else if c <? 2048 then [192 + c / 64; 128 + c mod 64]
  else if c <? 65536 then [224 + c / 4096; 128 + (c / 64) mod 64; 128 + c mod 64]
  else [240 + c / 262144; 128 + (c / 4096) mod 64; 128 + (c / 64) mod 64; 128 + c mod 64].

Definition as_bytes (s : str) : list Z := concat (utf8_char <$> s).

(** A [char] is a scalar value below 0x110000, a byte a value below 256. *)
Definition is_char (c : Z) : Prop := 0 ≤ c < 1114112.
Definition is_byte (b : Z) : Prop := 0 ≤ b < 256.

Definition is_ascii_char (c : Z) : bool := c <? 128.
Definition is_ascii (s : str) : bool := forallb is_ascii_char s.

Definition is_ascii_uppercase (c : Z) : bool := (65 <=? c) && (c <=? 90).
Definition to_ascii_lowercase (c : Z) : Z := if is_ascii_uppercase c then c + 32 else c.
Definition eq_ignore_ascii_case (a b : Z) : bool :=
  to_ascii_lowercase a =? to_ascii_lowercase b.

(** [char::is_whitespace]: the Unicode White_Space property. *)
Definition is_whitespace (c : Z) : bool :=
  ((9 <=? c) && (c <=? 13)) || (c =? 32) || (c =? 133) || (c =? 160) || (c =? 5760)
  || ((8192 <=? c) && (c <=? 8202)) || (c =? 8232) || (c =? 8233) || (c =? 8239)
  || (c =? 8287) || (c =? 12288).

(** ** The case tables *)

Class Unicode := {
  to_lowercase : str → str;
  to_lowercase_ascii : ∀ s, is_ascii s = true → to_lowercase s = to_ascii_lowercase <$> s;
  to_lowercase_no_upper : ∀ s, Forall (λ c, is_ascii_uppercase c = false) (to_lowercase s);
}.

Lemma to_ascii_lowercase_not_upper c : is_ascii_uppercase (to_ascii_lowercase c) = false.
Proof.
  unfold to_ascii_lowercase. destruct (is_ascii_uppercase c) eqn:E; [|done].
  unfold is_ascii_uppercase in *. lia.
Qed.

(** The tables restricted to ASCII: the instance the witnesses run on. *)
Definition ascii_tables : Unicode.
Proof.
  refine {| to_lowercase s := to_ascii_lowercase <$> s |}; [done|].
  intros s. apply Forall_fmap, Forall_true. intros c. apply to_ascii_lowercase_not_upper.
Defined.

(** ** Searching and cutting *)

Fixpoint starts_with (s p : str) {struct p} : bool :=
  match p, s with
  | [], _ => true
  | _, [] => false
  | a :: p, b :: s => (a =? b) && starts_with s p
  end.

Fixpoint contains (s needle : str) : bool :=
  starts_with s needle ||
  match s with [] => false | _ :: s => contains s needle end.

Fixpoint trim_start (s : str) : str :=
  match s with
  | c :: s' => if is_whitespace c then trim_start s' else s
  | [] => []
  end.

Definition trim (s : str) : str := reverse (trim_start (reverse (trim_start s))).

(** [s.split_once(char::is_whitespace)]. *)
Fixpoint split_once_whitespace (s : str) : option (str * str) :=
  match s with
  | [] => None
  | c :: s =>
      if is_whitespace c then Some ([], s)
      else '(h, t) ← split_once_whitespace s; Some (c :: h, t)
  end.

(** [Vec<&str>::join]. *)
Fixpoint join (sep : str) (l : list str) : str :=
  match l with
  | [] => []
  | [s] => s
  | s :: l => s ++ sep ++ join sep l
  end.

(** [Display] of an integer. *)
Definition show (z : Z) : str := lit (pretty z).

(** ** [Ord for str]: bytewise, which on UTF-8 is by scalar value *)

Fixpoint str_cmp (a b : str) : comparison :=
  match a, b with
  | [], [] => Eq
  | [], _ => Lt
  | _, [] => Gt
  | x :: a, y :: b =>
      match x ?= y with Eq => str_cmp a b | c => c end
  end.

(** ** Lemmas *)

Lemma starts_with_spec s p : starts_with s p = true ↔ ∃ k, s = p ++ k.
Proof.
  revert s. induction p as [|a p IH]; intros s; simpl; [split; eauto|].
  destruct s as [|b s]; [split; [done|by intros [? ?]]|].
  rewrite andb_true_iff, Z.eqb_eq, IH.
  split; [intros [-> [k ->]]; by exists k|intros [k E]; simplify_eq/=; eauto].
Qed.

Lemma contains_spec s n : contains s n = true ↔ ∃ a b, s = a ++ n ++ b.
Proof.
  induction s as [|c s IH]; simpl.
  - rewrite orb_false_r, starts_with_spec. split.
    + intros [k E]. exists [], k. done.
    + intros (a & b & E). symmetry in E. apply app_eq_nil in E as [-> E]. eauto.
  - rewrite orb_true_iff, IH, starts_with_spec. split.
    + intros [[k ->]|(a & b & ->)]; [by exists [], k|by exists (c :: a), b].
    + intros ([|x a] & b & E); simplify_eq/=; eauto 6.
Qed.

Lemma contains_nil_r s : contains s [] = true.
Proof. by destruct s. Qed.

Lemma eq_ignore_ascii_case_spec a b :
  eq_ignore_ascii_case a b = true ↔ to_ascii_lowercase a = to_ascii_lowercase b.
Proof. apply Z.eqb_eq. Qed.

Lemma to_ascii_lowercase_idemp c :
  to_ascii_lowercase (to_ascii_lowercase c) = to_ascii_lowercase c.
Proof.
  unfold to_ascii_lowercase, is_ascii_uppercase.
  repeat match goal with |- context [if ?b then _ else _] => destruct b eqn:? end; lia.
Qed.

Lemma str_cmp_refl a : str_cmp a a = Eq.
Proof. induction a as [|x a IH]; simpl; [done|]. by rewrite Z.compare_refl. Qed.

Lemma str_cmp_eq a b : str_cmp a b = Eq ↔ a = b.
Proof.
  split; [|intros ->; apply str_cmp_refl].
  revert b. induction a as [|x a IH]; intros [|y b]; simpl; try done.
  destruct (Z.compare_spec x y) as [->| |]; try done. intros E. f_equal. auto.
Qed.

Lemma str_cmp_antisym a b : str_cmp b a = CompOpp (str_cmp a b).
Proof.
  revert b. induction a as [|x a IH]; intros [|y b]; simpl; try done.
  rewrite (Z.compare_antisym x y). destruct (x ?= y); simpl; auto.
Qed.

Lemma str_cmp_trans a b c : str_cmp a b ≠ Gt → str_cmp b c ≠ Gt → str_cmp a c ≠ Gt.
Proof.
  revert b c. induction a as [|x a IH]; intros [|y b] [|z c]; simpl; try done.
  destruct (Z.compare_spec x y), (Z.compare_spec y z), (Z.compare_spec x z);
    try done; try lia. apply IH.
Qed.

(** ** The encoding *)

Lemma utf8_char_bytes c : is_char c → Forall is_byte (utf8_char c).
Proof.
  unfold is_char, utf8_char. intros Hc.
  repeat match goal with |- context [?a <? ?b] => destruct (Z.ltb_spec a b) end;
    repeat constructor; unfold is_byte; Z.div_mod_to_equations; lia.
Qed.

Lemma as_bytes_bytes s : Forall is_char s → Forall is_byte (as_bytes s).
Proof.
  intros Hs. unfold as_bytes. apply Forall_concat. apply Forall_fmap.
  eapply Forall_impl; [done|]. intros c. apply utf8_char_bytes.
Qed.

Lemma length_as_bytes s : length (as_bytes s) = str_len s.
Proof.
  unfold as_bytes, str_len. induction s as [|c s IH]; [done|].
  rewrite fmap_cons. cbn [concat sum_list_with].
  rewrite length_app, IH. f_equal. unfold utf8_char, len_utf8. by repeat case_match.
Qed.

(** Decoding is the inverse of encoding: [lit] and [as_bytes] agree. *)
Lemma utf8_decode_encode s : Forall is_char s → utf8_decode 0 0 (as_bytes s) = s.
Proof.
  induction 1 as [|c s Hc Hs IH]; [done|]. unfold as_bytes in *.
  rewrite fmap_cons. cbn [concat].
  unfold is_char in Hc. revert IH. generalize (concat (utf8_char <$> s)). intros l IH.
  unfold utf8_char. destruct (Z.ltb_spec c 128) as [H1|H1]; [|destruct (Z.ltb_spec c 2048) as [H2|H2];
    [|destruct (Z.ltb_spec c 65536) as [H3|H3]]]; cbn [app utf8_decode];
    repeat match goal with |- context [if ?a <? ?b then _ else _] =>
      destruct (Z.ltb_spec a b); try (exfalso; Z.div_mod_to_equations; lia) end;
    rewrite IH; f_equal; Z.div_mod_to_equations; lia.
Qed.
