(* ===== verification/Utf8.v ===== *)
(** * UTF-8

    [String::from_utf8_lossy], which replaces what is not UTF-8, and
    [String::from_utf8], which refuses it. *)

From S2P Require Import Prelude Str.
Local Open Scope Z_scope.

(** ** Decoding *)

Definition REPLACEMENT : Z := 65533.

(** A sequence under way: its value so far, the bytes to come, and the bounds of
    the next one. *)
Abbreviation partial := (option (Z * nat * Z * Z)).

Definition lossy_start (b : Z) : str * partial :=
  if b <? 128 then ([b], None)
  else if (194 <=? b) && (b <=? 223) then ([], Some (b - 192, 1%nat, 128, 191))
  else if b =? 224 then ([], Some (0, 2%nat, 160, 191))
  else if b =? 237 then ([], Some (13, 2%nat, 128, 159))
  else if (225 <=? b) && (b <=? 239) then ([], Some (b - 224, 2%nat, 128, 191))
  else if b =? 240 then ([], Some (0, 3%nat, 144, 191))
  else if b =? 244 then ([], Some (4, 3%nat, 128, 143))
  else if (241 <=? b) && (b <=? 243) then ([], Some (b - 240, 3%nat, 128, 191))
  else ([REPLACEMENT], None).

Fixpoint lossy (st : partial) (bs : list Z) : str :=
  match bs with
  | [] => match st with Some _ => [REPLACEMENT] | None => [] end
  | b :: bs =>
      match st with
      | Some (acc, need, lo, hi) =>
          if (lo <=? b) && (b <=? hi) then
            let acc := acc * 64 + (b - 128) in
            match need with
            | S (S n) => lossy (Some (acc, S n, 128, 191)) bs
            | _ => acc :: lossy None bs
            end
          else REPLACEMENT :: (let '(o, st) := lossy_start b in o ++ lossy st bs)
      | None => let '(o, st) := lossy_start b in o ++ lossy st bs
      end
  end.

(** Valid is what loses nothing. *)
Definition from_utf8 (bs : list Z) : option str :=
  let s := lossy None bs in if bool_decide (as_bytes s = bs) then Some s else None.

(** ** Properties *)

Lemma in_range lo hi b : lo ≤ b ≤ hi → (lo <=? b) && (b <=? hi) = true.
Proof. intros [??]. apply andb_true_intro. split; by apply Z.leb_le. Qed.

(** The bytes that follow the first of a sequence under way. *)
Lemma lossy_next acc n lo hi b bs :
  lo ≤ b ≤ hi → lossy (Some (acc, S (S n), lo, hi)) (b :: bs)
              = lossy (Some (acc * 64 + (b - 128), S n, 128, 191)) bs.
Proof. intros Hb. cbn [lossy]. by rewrite in_range. Qed.

Lemma lossy_last acc lo hi b bs :
  lo ≤ b ≤ hi → lossy (Some (acc, 1%nat, lo, hi)) (b :: bs) = (acc * 64 + (b - 128)) :: lossy None bs.
Proof. intros Hb. cbn [lossy]. by rewrite in_range. Qed.

Lemma lossy_first b bs :
  lossy None (b :: bs) = let '(o, st) := lossy_start b in o ++ lossy st bs.
Proof. done. Qed.

Ltac in_branch :=
  match goal with
  | |- context [if ?b then _ else _] =>
      let E := fresh in
      destruct b eqn:E;
      rewrite ?andb_true_iff, ?andb_false_iff, ?Z.ltb_lt, ?Z.ltb_ge, ?Z.leb_le, ?Z.leb_gt, ?Z.eqb_eq,
        ?Z.eqb_neq in E
  end.

Lemma lossy_char c bs :
  is_char c → ¬ (55296 ≤ c ≤ 57343) → lossy None (utf8_char c ++ bs) = c :: lossy None bs.
Proof.
  unfold is_char. intros Hc Hs. unfold utf8_char.
  destruct (Z.ltb_spec c 128).
  { simpl. unfold lossy_start. by rewrite (proj2 (Z.ltb_lt c 128)). }
  destruct (Z.ltb_spec c 2048); [|destruct (Z.ltb_spec c 65536)].
  - pose proof (Z.div_mod c 64). pose proof (Z.mod_pos_bound c 64). cbn [app].
    rewrite lossy_first. unfold lossy_start. repeat (in_branch; try lia). cbn [app].
    rewrite lossy_last by lia. f_equal. lia.
  - replace (c / 4096) with (c / 64 / 64) by (rewrite Z.div_div; [done|lia..]).
    pose proof (Z.div_mod c 64). pose proof (Z.mod_pos_bound c 64).
    pose proof (Z.div_mod (c / 64) 64). pose proof (Z.mod_pos_bound (c / 64) 64). cbn [app].
    rewrite lossy_first. unfold lossy_start. repeat (in_branch; try lia); cbn [app];
      rewrite lossy_next, lossy_last by lia; f_equal; lia.
  - replace (c / 262144) with (c / 64 / 64 / 64) by (rewrite !Z.div_div; [done|lia..]).
    replace (c / 4096) with (c / 64 / 64) by (rewrite Z.div_div; [done|lia..]).
    pose proof (Z.div_mod c 64). pose proof (Z.mod_pos_bound c 64).
    pose proof (Z.div_mod (c / 64) 64). pose proof (Z.mod_pos_bound (c / 64) 64).
    pose proof (Z.div_mod (c / 64 / 64) 64). pose proof (Z.mod_pos_bound (c / 64 / 64) 64). cbn [app].
    rewrite lossy_first. unfold lossy_start. repeat (in_branch; try lia); cbn [app];
      rewrite !lossy_next, lossy_last by lia; f_equal; lia.
Qed.

(** What is valid UTF-8 is read as it is. *)
Lemma lossy_valid s :
  Forall (λ c, is_char c ∧ ¬ (55296 ≤ c ≤ 57343)) s → lossy None (as_bytes s) = s.
Proof.
  induction 1 as [|c s [Hc Hs] _ IH]; [done|].
  change (as_bytes (c :: s)) with (utf8_char c ++ as_bytes s). by rewrite lossy_char, IH.
Qed.

(** A surrogate is no scalar value, and no [char]. *)
Definition is_text (s : str) : Prop := Forall (λ c, is_char c ∧ ¬ (55296 ≤ c ≤ 57343)) s.

Lemma from_utf8_text s : is_text s → from_utf8 (as_bytes s) = Some s.
Proof. intros Hs. unfold from_utf8. rewrite lossy_valid by done. by rewrite bool_decide_eq_true_2. Qed.

Lemma from_utf8_bytes bs s : from_utf8 bs = Some s → as_bytes s = bs.
Proof. unfold from_utf8. case_bool_decide; [|done]. by intros [= <-]. Qed.

Example not_utf8 : from_utf8 [195; 40] = None ∧ from_utf8 [237; 160; 128] = None ∧ from_utf8 [226; 128; 148] = Some (lit "—").
Proof. split_and!; vm_compute; reflexivity. Qed.
