(* ===== verification/RsFloat.v ===== *)
(** * Floating point and durations

    [f32] and [f64] are IEEE-754 binary32 and binary64, computed by the
    standard library's executable specification [SpecFloat]: every operation
    below rounds exactly as the hardware does.  [Duration] and [Instant] are
    nanosecond counts. *)

From S2P Require Import Prelude.
From Stdlib Require Export Floats.SpecFloat.
Local Open Scope Z_scope.

Abbreviation f32 := spec_float.
Abbreviation f64 := spec_float.

Definition f32_of_Z (z : Z) : f32 := binary_normalize 24 128 z 0 false.
Definition f32_add : f32 → f32 → f32 := SFadd 24 128.
Definition f32_sub : f32 → f32 → f32 := SFsub 24 128.
Definition f32_mul : f32 → f32 → f32 := SFmul 24 128.
Definition f32_div : f32 → f32 → f32 := SFdiv 24 128.

Definition f64_of_Z (z : Z) : f64 := binary_normalize 53 1024 z 0 false.
Definition f64_add : f64 → f64 → f64 := SFadd 53 1024.
Definition f64_mul : f64 → f64 → f64 := SFmul 53 1024.
Definition f64_div : f64 → f64 → f64 := SFdiv 53 1024.

(** [x as f32] on an [f64]: round to nearest. *)
Definition f64_as_f32 (x : f64) : f32 :=
  match x with
  | S754_finite s m e => binary_normalize 24 128 (cond_Zopp s (Zpos m)) e s
  | _ => x
  end.

Example f64_as_f32_third :
  f64_as_f32 (f64_div (f64_of_Z 1) (f64_of_Z 3)) = f32_div (f32_of_Z 1) (f32_of_Z 3).
Proof. reflexivity. Qed.

(** Comparison operators and [PartialOrd::partial_cmp]: the same for both
    widths; every comparison with a NaN is false or [None]. *)
Definition float_partial_cmp : spec_float → spec_float → option comparison := SFcompare.
Definition float_eq : spec_float → spec_float → bool := SFeqb.
Definition float_lt : spec_float → spec_float → bool := SFltb.
Definition float_le : spec_float → spec_float → bool := SFleb.
Definition float_ge (a b : spec_float) : bool := SFleb b a.
Definition float_gt (a b : spec_float) : bool := SFltb b a.

Definition is_nan (x : spec_float) : bool :=
  match x with S754_nan => true | _ => false end.

Definition is_finite (x : spec_float) : bool :=
  match x with S754_finite _ _ _ | S754_zero _ => true | _ => false end.

(** [f32::min] / [f32::max]: a NaN operand yields the other one. *)
Definition float_min (a b : spec_float) : spec_float :=
  if is_nan a then b else if is_nan b then a else if float_lt b a then b else a.
Definition float_max (a b : spec_float) : spec_float :=
  if is_nan a then b else if is_nan b then a else if float_lt a b then b else a.

Definition f32_zero : f32 := S754_zero false.
Definition f32_one : f32 := f32_of_Z 1.

(** ** Durations, in nanoseconds *)

Abbreviation Duration := Z.
Abbreviation Instant := Z.

Definition NANOS_PER_SEC : Z := 1000000000.
Definition from_secs (s : Z) : Duration := s * NANOS_PER_SEC.
Definition from_millis (ms : Z) : Duration := ms * 1000000.

(** [Instant::duration_since] and [elapsed] saturate to zero. *)
Definition duration_since (now earlier : Instant) : Duration := Z.max 0 (now - earlier).

(** A future: when it is ready, and with what; [None] is never.
    [tokio::time::timeout] looks at it before it looks at the clock. *)
Abbreviation Future A := (option (Duration * A)).

Definition timeout {A} (limit : Duration) (f : Future A) : option A :=
  match f with
  | Some (t, a) => if t <=? limit then Some a else None
  | None => None
  end.

(** How long the caller waits. *)
Definition waited {A} (limit : Duration) (f : Future A) : Duration :=
  match f with
  | Some (t, _) => Z.min t limit
  | None => limit
  end.

Definition as_secs_f32 (d : Duration) : f32 :=
  f32_add (f32_of_Z (d / NANOS_PER_SEC))
          (f32_div (f32_of_Z (d mod NANOS_PER_SEC)) (f32_of_Z NANOS_PER_SEC)).

Definition as_secs_f64 (d : Duration) : f64 :=
  f64_add (f64_of_Z (d / NANOS_PER_SEC))
          (f64_div (f64_of_Z (d mod NANOS_PER_SEC)) (f64_of_Z NANOS_PER_SEC)).

Example as_secs_f32_half : as_secs_f32 (from_millis 1500) = f32_div (f32_of_Z 3) (f32_of_Z 2).
Proof. reflexivity. Qed.

(** ** Order *)

Lemma pos_compare_cont_antisym m n :
  Pos.compare_cont Eq n m = CompOpp (Pos.compare_cont Eq m n).
Proof. apply Pos.compare_antisym. Qed.

Lemma SFcompare_antisym x y : SFcompare y x = CompOpp <$> SFcompare x y.
Proof.
  destruct x as [s|s| |s m e], y as [s'|s'| |s' m' e']; simpl; try done;
    repeat match goal with b : bool |- _ => destruct b end; try done; simpl;
    rewrite (Z.compare_antisym e e'), (pos_compare_cont_antisym m m');
    destruct (e ?= e'), (Pos.compare_cont Eq m m'); done.
Qed.

Lemma SFcompare_total x y :
  is_nan x = false → is_nan y = false → ∃ c, SFcompare x y = Some c.
Proof. destruct x, y; simpl; eauto; done. Qed.

Lemma SFcompare_refl x : is_nan x = false → SFcompare x x = Some Eq.
Proof.
  destruct x as [s|s| |s m e]; try done; intros _; destruct s; simpl; try done;
    rewrite Z.compare_refl; rewrite (Pos.compare_refl m : Pos.compare_cont Eq m m = Eq); done.
Qed.

Lemma float_lt_not_ge x y :
  is_nan x = false → is_nan y = false → float_lt x y = negb (float_ge x y).
Proof.
  intros Hx Hy. unfold float_lt, float_ge, SFltb, SFleb. rewrite (SFcompare_antisym x y).
  destruct (SFcompare_total x y Hx Hy) as [[] ->]; done.
Qed.

Lemma float_le_refl x : is_nan x = false → float_le x x = true.
Proof. intros Hx. unfold float_le, SFleb. by rewrite SFcompare_refl. Qed.

Lemma float_min_not_nan x y : is_nan y = false → is_nan (float_min x y) = false.
Proof.
  intros Hy. unfold float_min. destruct (is_nan x) eqn:E; [done|]. rewrite Hy.
  by destruct (float_lt y x).
Qed.

Lemma float_min_le_r x y : is_nan y = false → float_le (float_min x y) y = true.
Proof.
  intros Hy. unfold float_min. destruct (is_nan x) eqn:E; [by apply float_le_refl|].
  rewrite Hy. destruct (float_lt y x) eqn:Hlt; [by apply float_le_refl|].
  rewrite float_lt_not_ge in Hlt by done. by apply negb_false_iff in Hlt.
Qed.

(** A minimum that is not below the cap is the cap, up to the sign of zero. *)
Lemma float_min_ge_cap x y :
  is_nan y = false → float_lt (float_min x y) y = false →
  float_min x y = y ∨ SFcompare x y = Some Eq.
Proof.
  intros Hy. unfold float_min. destruct (is_nan x) eqn:E; [by left|]. rewrite Hy.
  destruct (float_lt y x) eqn:Hlt; [by left|]. intros Hge. right.
  unfold float_lt, SFltb in *. rewrite (SFcompare_antisym x y) in Hlt.
  destruct (SFcompare_total x y E Hy) as [c Hc]. rewrite Hc in *. by destruct c.
Qed.

Lemma f32_add_zero_r x : is_nan x = false → float_eq x f32_zero = false →
  f32_add x f32_zero = x.
Proof. destruct x as [s|s| |s m e]; done. Qed.

Lemma SFcompare_Eq_nonzero x y :
  SFcompare x y = Some Eq → float_eq y f32_zero = false → x = y.
Proof.
  unfold float_eq, SFeqb.
  destruct x as [s|s| |s m e], y as [s'|s'| |s' m' e']; simpl; intros E Hy;
    repeat match goal with b : bool |- _ => destruct b end; try done; simpl in *;
    destruct (Z.compare_spec e e') as [->| |]; try done;
    destruct (Pos.compare_cont Eq m m') eqn:Em; try done;
    apply (Pos.compare_eq m m') in Em as ->; done.
Qed.

Lemma float_min_saturated x y :
  is_nan y = false → float_eq y f32_zero = false →
  float_lt (float_min x y) y = false → float_min x y = y.
Proof.
  intros Hy Hz Hge. destruct (float_min_ge_cap x y Hy Hge) as [?|Heq]; [done|].
  apply SFcompare_Eq_nonzero in Heq as ->; [|done].
  unfold float_min. rewrite Hy. by destruct (float_lt y y).
Qed.

Lemma float_min_idemp y : is_nan y = false → float_min y y = y.
Proof. intros Hy. unfold float_min. rewrite Hy. by destruct (float_lt y y). Qed.
