(* ===== verification/Frame.v ===== *)
(** * Length-framed messages

    Models crates/muxtop-proto/src/frame.rs and error.rs: the frame codec on
    byte buffers, and the frame reader and writer on asynchronous streams.
    tokio's [AsyncRead]/[AsyncWrite] are interfaces: a class with the
    operations the code calls and their documented behaviour. *)

From S2P Require Import Prelude.
Local Open Scope Z_scope.
Local Open Scope rust_scope.

(** ** Constants and errors *)

Definition MSG_SNAPSHOT : u8 := x01.
Definition MSG_HEARTBEAT : u8 := x02.
Definition MSG_ERROR : u8 := x03.
Definition MSG_HELLO : u8 := x04.
Definition MSG_WELCOME : u8 := x05.

Definition MAX_FRAME_SIZE : Z := 4 * 1024 * 1024.
Definition HEADER_SIZE : nat := 4.

(** bincode's error values are opaque: [Encode] and [Decode] carry a tag. *)
Inductive ProtoError : Type :=
| Io (e : io_error)
| Encode (e : nat)
| Decode (e : nat)
| UnknownMessageType (t : u8)
| FrameTooLarge (size max : Z)
| IncompleteFrame (expected actual : Z).

Record Frame := mkFrame { msg_type : u8; payload : list u8 }.

(** ** Big-endian 32-bit integers *)

Definition u32_to_be_bytes (z : Z) : list u8 :=
  [u8_of (z / 2 ^ 24); u8_of (z / 2 ^ 16); u8_of (z / 2 ^ 8); u8_of z].

Definition u32_from_be_bytes (l : list u8) : Z :=
  fold_left (λ acc b, acc * 256 + u8_val b) l 0.

Lemma u32_be_roundtrip z :
  is_u32 z → u32_from_be_bytes (u32_to_be_bytes z) = z.
Proof.
  unfold is_u32, u32_max. intros Hz. cbn -[Z.pow Z.div Z.modulo].
  rewrite !u8_val_of. change (2 ^ 24) with 16777216. change (2 ^ 16) with 65536.
  change (2 ^ 8) with 256.
  Z.div_mod_to_equations. lia.
Qed.

Lemma u32_be_roundtrip' l :
  length l = 4%nat → u32_to_be_bytes (u32_from_be_bytes l) = l.
Proof.
  intros Hl. destruct l as [|a [|b [|c [|d [|]]]]]; try done.
  unfold u32_to_be_bytes. cbn -[Z.pow Z.div Z.modulo].
  pose proof (u8_val_bounds a). pose proof (u8_val_bounds b).
  pose proof (u8_val_bounds c). pose proof (u8_val_bounds d).
  change (2 ^ 24) with 16777216. change (2 ^ 16) with 65536. change (2 ^ 8) with 256.
  assert (∀ z x : Z, ∀ e : u8, z = 256 * x + u8_val e → u8_of z = e) as Hof.
  { intros z x e Hz. rewrite <- (u8_of_val e). apply (inj u8_val). rewrite !u8_val_of.
    pose proof (u8_val_bounds e). rewrite Hz.
    rewrite (Z.mul_comm 256), Z.add_comm, Z.mod_add by lia. done. }
  f_equal; [|f_equal; [|f_equal; [|f_equal]]].
  - apply (Hof _ 0). Z.div_mod_to_equations; lia.
  - apply (Hof _ (u8_val a)). Z.div_mod_to_equations; lia.
  - apply (Hof _ (u8_val a * 256 + u8_val b)). Z.div_mod_to_equations; lia.
  - apply (Hof _ ((u8_val a * 256 + u8_val b) * 256 + u8_val c)). lia.
Qed.

Lemma u32_from_be_bounds l :
  length l = 4%nat → is_u32 (u32_from_be_bytes l).
Proof.
  intros Hl. destruct l as [|a [|b [|c [|d [|]]]]]; try done.
  pose proof (u8_val_bounds a). pose proof (u8_val_bounds b).
  pose proof (u8_val_bounds c). pose proof (u8_val_bounds d).
  unfold is_u32, u32_max. cbn. lia.
Qed.

(** ** The codec on buffers *)

Definition content_len (f : Frame) : Z := 1 + Z.of_nat (length (payload f)).

Definition encode_frame (frame : Frame) : result (list u8) ProtoError :=
  let content_len := 1 + Z.of_nat (length (payload frame)) in
  if content_len >? MAX_FRAME_SIZE
  then Err (FrameTooLarge (as_u32 content_len) MAX_FRAME_SIZE)
  else Ok (u32_to_be_bytes (as_u32 content_len) ++ [msg_type frame] ++ payload frame).

Definition decode_frame (buf : list u8) : result (Frame * nat) ProtoError :=
  if bool_decide (length buf < HEADER_SIZE)%nat
  then Err (IncompleteFrame (Z.of_nat HEADER_SIZE) (Z.of_nat (length buf)))
  else
  let content_len := u32_from_be_bytes (take HEADER_SIZE buf) in
  if content_len >? MAX_FRAME_SIZE
  then Err (FrameTooLarge content_len MAX_FRAME_SIZE)
  else
  let total := (HEADER_SIZE + Z.to_nat content_len)%nat in
  if bool_decide (length buf < total)%nat
  then Err (IncompleteFrame (Z.of_nat total) (Z.of_nat (length buf)))
  else if content_len =? 0
  then Err (IncompleteFrame (Z.of_nat HEADER_SIZE + 1) (Z.of_nat HEADER_SIZE))
  else
  let msg_type := nth HEADER_SIZE buf x00 in
  (* buf[HEADER_SIZE + 1..total] *)
  let payload := drop (HEADER_SIZE + 1) (take total buf) in
  Ok (mkFrame msg_type payload, total).

(** ** Streams *)

(** What the code relies on of [tokio::io::AsyncReadExt::read_exact]: it yields
    exactly the next [n] bytes the peer delivers, or, when the stream ends
    first, the error the stream ends with ([UnexpectedEof] at end of file). *)
Class AsyncRead (R : Type) := {
  pending : R → list u8;
  ends_with : R → io_error;
  read_exact : nat → R → result (list u8) io_error * R;
  read_exact_full : ∀ n r, (n ≤ length (pending r))%nat →
    (read_exact n r).1 = Ok (take n (pending r)) ∧
    pending (read_exact n r).2 = drop n (pending r) ∧
    ends_with (read_exact n r).2 = ends_with r;
  read_exact_short : ∀ n r, (length (pending r) < n)%nat →
    (read_exact n r).1 = Err (ends_with r) ∧
    pending (read_exact n r).2 = [] ∧
    ends_with (read_exact n r).2 = ends_with r;
}.

(** [write_all] appends all its bytes or, on error, some prefix of them;
    [flush] adds nothing. *)
Class AsyncWrite (W : Type) := {
  written : W → list u8;
  write_all : list u8 → W → result unit io_error * W;
  flush : W → result unit io_error * W;
  write_all_spec : ∀ bs w,
    match (write_all bs w).1 with
    | Ok _ => written (write_all bs w).2 = written w ++ bs
    | Err _ => ∃ p, p `prefix_of` bs ∧ written (write_all bs w).2 = written w ++ p
    end;
  flush_spec : ∀ w, written (flush w).2 = written w;
}.

Section Reader.
Context {R : Type} `{!AsyncRead R}.

Definition read_frame_with_max_payload (max_payload : Z) (r : R) :
    result (option Frame) ProtoError * R :=
  match read_exact HEADER_SIZE r with
  | (Err e, r1) =>
      if bool_decide (kind e = UnexpectedEof) then (Ok None, r1) else (Err (Io e), r1)
  | (Ok header, r1) =>
    let content_len := u32_from_be_bytes header in
    if content_len >? MAX_FRAME_SIZE
    then (Err (FrameTooLarge content_len MAX_FRAME_SIZE), r1)
    else if content_len =? 0
    then (Err (IncompleteFrame 1 0), r1)
    else
    let payload_len := content_len - 1 in
    if payload_len >? max_payload
    then (Err (FrameTooLarge content_len
                 (Z.min (u64_saturating_add max_payload 1) u32_max)), r1)
    else
    match read_exact 1 r1 with
    | (Err e, r2) => (Err (Io e), r2)
    | (Ok type_buf, r2) =>
      let msg_type := nth 0 type_buf x00 in
      if payload_len >? 0 then
        match read_exact (Z.to_nat payload_len) r2 with
        | (Err e, r3) => (Err (Io e), r3)
        | (Ok payload, r3) => (Ok (Some (mkFrame msg_type payload)), r3)
        end
      else (Ok (Some (mkFrame msg_type [])), r2)
    end
  end.

Definition read_frame (r : R) : result (option Frame) ProtoError * R :=
  read_frame_with_max_payload (MAX_FRAME_SIZE - 1) r.
End Reader.

Section Writer.
Context {W : Type} `{!AsyncWrite W}.

Definition write_frame (frame : Frame) (w : W) : result unit ProtoError * W :=
  match encode_frame frame with
  | Err e => (Err e, w)
  | Ok bytes =>
    match write_all bytes w with
    | (Err e, w1) => (Err (Io e), w1)
    | (Ok _, w1) =>
      match flush w1 with
      | (Err e, w2) => (Err (Io e), w2)
      | (Ok _, w2) => (Ok tt, w2)
      end
    end
  end.
End Writer.

(** ** The image of the encoder *)

(** The bytes of a frame whose content fits. *)
Definition frame_bytes (f : Frame) : list u8 :=
  u32_to_be_bytes (content_len f) ++ msg_type f :: payload f.

Definition frame_fits (f : Frame) : Prop := content_len f ≤ MAX_FRAME_SIZE.

#[global] Instance frame_fits_dec f : Decision (frame_fits f).
Proof. unfold frame_fits. apply _. Defined.

Lemma content_len_is_u32 f : frame_fits f → is_u32 (content_len f).
Proof. unfold frame_fits, content_len, is_u32, MAX_FRAME_SIZE, u32_max. lia. Qed.
#[export] Hint Resolve content_len_is_u32 : muxtop.

Lemma encode_frame_fits f : frame_fits f → encode_frame f = Ok (frame_bytes f).
Proof.
  intros Hf. unfold encode_frame. fold (content_len f).
  destruct (Z.gtb_spec (content_len f) MAX_FRAME_SIZE); [unfold frame_fits in *; lia|].
  rewrite as_u32_small by auto with muxtop. done.
Qed.

Lemma encode_frame_Ok f bs :
  encode_frame f = Ok bs ↔ frame_fits f ∧ bs = frame_bytes f.
Proof.
  split.
  - intros E. assert (frame_fits f) as Hf.
    { unfold encode_frame in E. fold (content_len f) in E.
      destruct (Z.gtb_spec (content_len f) MAX_FRAME_SIZE); [done|].
      unfold frame_fits. lia. }
    rewrite encode_frame_fits in E by done. naive_solver.
  - intros [Hf ->]. by apply encode_frame_fits.
Qed.

Lemma length_frame_bytes f :
  length (frame_bytes f) = (HEADER_SIZE + Z.to_nat (content_len f))%nat.
Proof. unfold frame_bytes, content_len, HEADER_SIZE. simpl. lia. Qed.

Lemma frame_bytes_header f k :
  frame_fits f →
  u32_from_be_bytes (take HEADER_SIZE (frame_bytes f ++ k)) = content_len f.
Proof.
  intros Hf. unfold frame_bytes. rewrite <- app_assoc, take_app_exact by done.
  apply u32_be_roundtrip. auto with muxtop.
Qed.

(** ** Buffers *)

Lemma decode_frame_bytes f rest :
  frame_fits f →
  decode_frame (frame_bytes f ++ rest) = Ok (f, length (frame_bytes f)).
Proof.
  intros Hf. unfold decode_frame. rewrite frame_bytes_header by done.
  pose proof (length_frame_bytes f) as Hlen.
  rewrite bool_decide_eq_false_2 by (rewrite length_app; unfold HEADER_SIZE in *; lia).
  destruct (Z.gtb_spec (content_len f) MAX_FRAME_SIZE); [unfold frame_fits in *; lia|].
  rewrite bool_decide_eq_false_2 by (rewrite length_app; lia).
  destruct (Z.eqb_spec (content_len f) 0); [unfold content_len in *; lia|].
  rewrite <- Hlen, take_app_length. destruct f; done.
Qed.

Lemma decode_frame_Ok buf f n :
  decode_frame buf = Ok (f, n) →
  frame_fits f ∧ n = length (frame_bytes f) ∧ take n buf = frame_bytes f
  ∧ (n ≤ length buf)%nat.
Proof.
  unfold decode_frame. intros E. case_bool_decide as H1; [done|].
  set (cl := u32_from_be_bytes _) in *.
  destruct (Z.gtb_spec cl MAX_FRAME_SIZE); [done|].
  case_bool_decide as H2; [done|]. destruct (Z.eqb_spec cl 0); [done|].
  assert (length (take HEADER_SIZE buf) = 4%nat) as Hh
    by (rewrite length_take; unfold HEADER_SIZE in *; lia).
  pose proof (u32_from_be_bounds _ Hh) as Hcl. fold cl in Hcl. unfold is_u32 in Hcl.
  remember (HEADER_SIZE + Z.to_nat cl)%nat as m eqn:Hm.
  assert (m = n) as -> by congruence.
  assert (f = mkFrame (nth HEADER_SIZE buf x00) (drop (HEADER_SIZE + 1) (take n buf)))
    as -> by congruence. clear E.
  set (f := mkFrame _ _).
  assert (content_len f = cl) as Hc.
  { unfold content_len, f; cbn [payload]. rewrite length_drop, length_take, Nat.min_l by lia.
    unfold HEADER_SIZE in *. lia. }
  assert (take n buf = frame_bytes f) as Ht.
  { unfold frame_bytes. rewrite Hc.
    unfold cl at 1. rewrite u32_be_roundtrip' by done. unfold f; simpl msg_type; simpl payload.
    rewrite <- (take_drop HEADER_SIZE (take n buf)) at 1.
    rewrite take_take, Nat.min_l by (unfold HEADER_SIZE in *; lia). f_equal.
    assert (HEADER_SIZE < length (take n buf))%nat as Hlt
      by (rewrite length_take; unfold HEADER_SIZE in *; lia).
    assert (nth HEADER_SIZE (take n buf) x00 = nth HEADER_SIZE buf x00) as <-.
    { rewrite !nth_lookup. rewrite lookup_take_lt by (unfold HEADER_SIZE in *; lia). done. }
    rewrite (drop_S (take n buf) (nth HEADER_SIZE (take n buf) x00)).
    - done.
    - rewrite nth_lookup. destruct (lookup_lt_is_Some_2 _ _ Hlt) as [b Hb]. by rewrite Hb. }
  split_and!; [unfold frame_fits; lia| |done|lia].
  rewrite <- Ht, length_take. lia.
Qed.

(** C37: the buffer decoder is exactly the inverse of the encoder: it succeeds
    on a buffer precisely when the buffer starts with the encoding of a frame,
    and returns that frame with the encoding's length as the bytes consumed. *)
Theorem decode_frame_iff buf f n :
  decode_frame buf = Ok (f, n) ↔
  ∃ bs rest, encode_frame f = Ok bs ∧ buf = bs ++ rest ∧ n = length bs.
Proof.
  split.
  - intros (Hf & -> & Ht & _)%decode_frame_Ok.
    exists (frame_bytes f), (drop (length (frame_bytes f)) buf).
    rewrite encode_frame_fits by done. split_and!; [done| |done].
    rewrite <- Ht at 1. by rewrite take_drop.
  - intros (bs & rest & (Hf & ->)%encode_frame_Ok & -> & ->).
    by apply decode_frame_bytes.
Qed.

(** Cutting an encoded frame short anywhere makes the decoder ask for more
    bytes; it never misparses a partial frame as a frame or as oversized. *)
Theorem decode_frame_partial f bs k :
  encode_frame f = Ok bs → (k < length bs)%nat →
  ∃ e, decode_frame (take k bs) = Err (IncompleteFrame e (Z.of_nat k)) ∧ Z.of_nat k < e.
Proof.
  intros (Hf & ->)%encode_frame_Ok Hk. unfold decode_frame.
  rewrite length_take, Nat.min_l by lia.
  case_bool_decide as H1; [unfold HEADER_SIZE in *; eexists; split; [done|lia]|].
  rewrite take_take, Nat.min_l by lia.
  assert (u32_from_be_bytes (take HEADER_SIZE (frame_bytes f)) = content_len f) as ->.
  { rewrite <- (frame_bytes_header f [] Hf). by rewrite app_nil_r. }
  destruct (Z.gtb_spec (content_len f) MAX_FRAME_SIZE); [unfold frame_fits in *; lia|].
  rewrite length_frame_bytes in Hk.
  rewrite bool_decide_eq_true_2 by lia. eexists. split; [done|lia].
Qed.

(** ** Streams against buffers *)

Section ReaderLemmas.
Context {R : Type} `{!AsyncRead R}.
Implicit Types r : R.

Lemma read_exact_app n (p q : list u8) r :
  pending r = p ++ q → length p = n →
  ∃ r', read_exact n r = (Ok p, r') ∧ pending r' = q ∧ ends_with r' = ends_with r.
Proof.
  intros Hp Hl.
  destruct (read_exact_full n r) as (E1 & E2 & E3); [rewrite Hp, length_app; lia|].
  exists (read_exact n r).2. split_and!; [|rewrite E2, Hp; by apply drop_app_exact|done].
  rewrite <- (take_app_exact p q n), <- Hp, <- E1 by done. apply surjective_pairing.
Qed.

Lemma read_exact_split n r :
  (n ≤ length (pending r))%nat →
  ∃ r', read_exact n r = (Ok (take n (pending r)), r')
        ∧ pending r' = drop n (pending r) ∧ ends_with r' = ends_with r.
Proof.
  intros Hn. apply read_exact_app; [by rewrite take_drop|].
  rewrite length_take. lia.
Qed.

Lemma read_exact_end n r :
  (length (pending r) < n)%nat →
  ∃ r', read_exact n r = (Err (ends_with r), r') ∧ pending r' = []
        ∧ ends_with r' = ends_with r.
Proof.
  intros Hn. destruct (read_exact_short n r Hn) as (E1 & E2 & E3).
  exists (read_exact n r).2. split_and!; [|done|done].
  rewrite <- E1. apply surjective_pairing.
Qed.

(** A frame at the head of the stream is read whole, and nothing beyond it. *)
Lemma read_frame_bytes f rest max r :
  frame_fits f → Z.of_nat (length (payload f)) ≤ max →
  pending r = frame_bytes f ++ rest →
  ∃ r', read_frame_with_max_payload max r = (Ok (Some f), r')
        ∧ pending r' = rest ∧ ends_with r' = ends_with r.
Proof.
  intros Hf Hmax Hp. unfold read_frame_with_max_payload.
  unfold frame_bytes in Hp. rewrite <- app_assoc in Hp.
  destruct (read_exact_app HEADER_SIZE _ _ r Hp eq_refl) as (r1 & -> & Hp1 & He1).
  rewrite u32_be_roundtrip by auto with muxtop.
  destruct (Z.gtb_spec (content_len f) MAX_FRAME_SIZE); [unfold frame_fits in *; lia|].
  destruct (Z.eqb_spec (content_len f) 0); [unfold content_len in *; lia|].
  replace (content_len f - 1) with (Z.of_nat (length (payload f)))
    by (unfold content_len; lia).
  destruct (Z.gtb_spec (Z.of_nat (length (payload f))) max); [lia|].
  destruct (read_exact_app 1 [msg_type f] (payload f ++ rest) r1 Hp1 eq_refl)
    as (r2 & -> & Hp2 & He2).
  destruct (Z.gtb_spec (Z.of_nat (length (payload f))) 0).
  - destruct (read_exact_app (Z.to_nat (Z.of_nat (length (payload f)))) (payload f) rest r2)
      as (r3 & -> & Hp3 & He3); [done|lia|].
    exists r3. split_and!; [by destruct f|done|congruence].
  - exists r2. destruct f as [t [|? ?]]; simpl in *; [|lia].
    split_and!; [done|done|congruence].
Qed.

(** C39: the stream reader refines the buffer decoder: whatever frame the
    decoder finds at the front of the bytes to come, a reader whose payload
    cap admits it returns, leaving exactly the bytes the decoder left. *)
Theorem read_frame_refines_decode r f n max :
  decode_frame (pending r) = Ok (f, n) →
  Z.of_nat (length (payload f)) ≤ max →
  ∃ r', read_frame_with_max_payload max r = (Ok (Some f), r')
        ∧ pending r' = drop n (pending r) ∧ ends_with r' = ends_with r.
Proof.
  intros (Hf & -> & Ht & _)%decode_frame_Ok Hmax.
  apply read_frame_bytes; [done|done|]. rewrite <- Ht at 1. by rewrite take_drop.
Qed.

(** The pre-authentication cap.  A length prefix announcing a payload
    above the cap is refused after the four header bytes alone: the rest of
    the frame is neither read nor allocated for, whatever it contains. *)
Theorem oversized_refused_at_header r max :
  (HEADER_SIZE ≤ length (pending r))%nat →
  max < u32_from_be_bytes (take HEADER_SIZE (pending r)) - 1 →
  0 ≤ max →
  ∃ size cap r', read_frame_with_max_payload max r = (Err (FrameTooLarge size cap), r')
        ∧ pending r' = drop HEADER_SIZE (pending r)
        ∧ size = u32_from_be_bytes (take HEADER_SIZE (pending r)).
Proof.
  intros Hlen Hmax H0. unfold read_frame_with_max_payload.
  destruct (read_exact_split HEADER_SIZE r Hlen) as (r1 & -> & Hp & He).
  set (cl := u32_from_be_bytes _) in *.
  destruct (Z.gtb_spec cl MAX_FRAME_SIZE); [by eauto 6|].
  destruct (Z.eqb_spec cl 0); [lia|].
  destruct (Z.gtb_spec (cl - 1) max); [by eauto 6|lia].
Qed.

Lemma read_exact_Ok n r l r' :
  read_exact n r = (Ok l, r') →
  length l = n ∧ pending r = l ++ pending r' ∧ ends_with r' = ends_with r.
Proof.
  intros E. destruct (decide (n ≤ length (pending r))%nat) as [Hle|Hgt].
  - destruct (read_exact_split _ _ Hle) as (r1 & E1 & Hp & He).
    rewrite E1 in E. injection E as <- <-. rewrite Hp, take_drop, length_take. split_and!; [lia|done|done].
  - destruct (read_exact_end n r) as (r1 & E1 & _); [lia|].
    by rewrite E1 in E.
Qed.

(** Whatever the stream holds, a frame handed to the caller respects both the
    caller's cap and the global one. *)
Lemma read_frame_bounded r max f r' :
  read_frame_with_max_payload max r = (Ok (Some f), r') →
  frame_fits f ∧ Z.of_nat (length (payload f)) ≤ max.
Proof.
  unfold read_frame_with_max_payload. intros E.
  destruct (read_exact HEADER_SIZE r) as [[h|e] r1] eqn:E1; [|by case_bool_decide].
  apply read_exact_Ok in E1 as (Hh & _ & _).
  pose proof (u32_from_be_bounds _ Hh) as [Hcl _].
  set (cl := u32_from_be_bytes h) in *.
  destruct (Z.gtb_spec cl MAX_FRAME_SIZE); [done|].
  destruct (Z.eqb_spec cl 0); [done|].
  destruct (Z.gtb_spec (cl - 1) max); [done|].
  destruct (read_exact 1 r1) as [[t|e] r2]; [|done].
  unfold frame_fits, content_len.
  destruct (Z.gtb_spec (cl - 1) 0).
  - destruct (read_exact (Z.to_nat (cl - 1)) r2) as [[p|e] r3] eqn:E3; [|done].
    apply read_exact_Ok in E3 as (Hp & _ & _).
    assert (f = mkFrame (nth 0 t x00) p) as -> by congruence. cbn [payload]. lia.
  - assert (f = mkFrame (nth 0 t x00) []) as -> by congruence.
    cbn [payload length]. unfold MAX_FRAME_SIZE in *. lia.
Qed.

(** Conversely, a frame handed to the caller was at the head of the stream, byte
    for byte, and what is left is what followed it. *)
Lemma read_frame_Some r max f r' :
  read_frame_with_max_payload max r = (Ok (Some f), r') → pending r = frame_bytes f ++ pending r'.
Proof.
  unfold read_frame_with_max_payload, frame_bytes. intros E.
  destruct (read_exact HEADER_SIZE r) as [[h|e] r1] eqn:E1; [|by case_bool_decide].
  apply read_exact_Ok in E1 as (Hh & -> & _).
  rewrite <- (u32_be_roundtrip' h Hh). pose proof (u32_from_be_bounds _ Hh) as [Hcl _].
  set (cl := u32_from_be_bytes h) in *.
  destruct (Z.gtb_spec cl MAX_FRAME_SIZE); [done|]. destruct (Z.eqb_spec cl 0); [done|].
  destruct (Z.gtb_spec (cl - 1) max); [done|].
  destruct (read_exact 1 r1) as [[t|e] r2] eqn:E2; [|done]. apply read_exact_Ok in E2 as (Ht & -> & _).
  destruct t as [|t [|]]; try done. destruct (Z.gtb_spec (cl - 1) 0).
  - destruct (read_exact (Z.to_nat (cl - 1)) r2) as [[p|e] r3] eqn:E3; [|done].
    apply read_exact_Ok in E3 as (Hp & -> & _). injection E as <- <-. unfold content_len. simpl.
    replace (1 + Z.of_nat (length p)) with cl by lia. by rewrite <- ?app_assoc.
  - injection E as <- <-. unfold content_len. simpl. replace cl with 1 by lia. by rewrite <- ?app_assoc.
Qed.

(** A stream cut inside the four header bytes is reported as a clean end. *)
Lemma read_frame_cut_header r max :
  (length (pending r) < HEADER_SIZE)%nat →
  kind (ends_with r) = UnexpectedEof →
  ∃ r', read_frame_with_max_payload max r = (Ok None, r') ∧ pending r' = [].
Proof.
  intros Hlen Hk. unfold read_frame_with_max_payload.
  destruct (read_exact_end _ _ Hlen) as (r1 & -> & Hp & _).
  rewrite bool_decide_eq_true_2 by done. eauto.
Qed.

(** Reading a stream to its end: [fuel] frames at most. *)
Fixpoint read_frames (fuel : nat) (r : R) : list Frame * result unit ProtoError :=
  match fuel with
  | O => ([], Ok tt)
  | S fuel =>
    match read_frame r with
    | (Ok (Some f), r') => let '(fs, e) := read_frames fuel r' in (f :: fs, e)
    | (Ok None, _) => ([], Ok tt)
    | (Err e, _) => ([], Err e)
    end
  end.
End ReaderLemmas.

Section WriterLemmas.
Context {W : Type} `{!AsyncWrite W}.

(** Writing adds the frame's encoding, or a prefix of it when it fails. *)
Lemma write_frame_written f w :
  match write_frame f w with
  | (Ok _, w') => frame_fits f ∧ written w' = written w ++ frame_bytes f
  | (Err _, w') => ∃ p, p `prefix_of` frame_bytes f ∧ written w' = written w ++ p
  end.
Proof.
  unfold write_frame. destruct (encode_frame f) as [bs|e] eqn:E.
  2: { exists []. rewrite app_nil_r. split; [apply prefix_nil|done]. }
  apply encode_frame_Ok in E as [Hf ->].
  pose proof (write_all_spec (frame_bytes f) w) as Hw.
  destruct (write_all (frame_bytes f) w) as [[u|e] w1]; simpl in Hw; [|done].
  pose proof (flush_spec w1) as Hfl.
  destruct (flush w1) as [[u2|e] w2]; simpl in Hfl; rewrite Hfl, Hw; [done|].
  exists (frame_bytes f). done.
Qed.

(** Of a frame that is too large nothing is written. *)
Lemma write_frame_unfit f w : ¬ frame_fits f → (write_frame f w).2 = w.
Proof.
  intros Hn. unfold write_frame. destruct (encode_frame f) as [bs|e] eqn:E; [|done].
  by apply encode_frame_Ok in E as [? _].
Qed.

(** Write a list of frames, stopping at the first error. *)
Fixpoint write_frames (fs : list Frame) (w : W) : result unit ProtoError * W :=
  match fs with
  | [] => (Ok tt, w)
  | f :: fs =>
    match write_frame f w with
    | (Ok _, w') => write_frames fs w'
    | (Err e, w') => (Err e, w')
    end
  end.

Lemma write_frames_written fs w w' :
  write_frames fs w = (Ok tt, w') →
  Forall frame_fits fs ∧ written w' = written w ++ concat (frame_bytes <$> fs).
Proof.
  revert w. induction fs as [|f fs IH]; intros w E; simpl in *.
  - simplify_eq. rewrite app_nil_r. done.
  - pose proof (write_frame_written f w) as Hw.
    destruct (write_frame f w) as [[u|e] w1]; [|done]. destruct Hw as [Hf Hw].
    destruct (IH _ E) as [Hfs ->]. rewrite Hw, <- app_assoc. auto.
Qed.
End WriterLemmas.

Section EndToEnd.
Context {R W : Type} `{!AsyncRead R} `{!AsyncWrite W}.

Lemma read_frames_concat fs (r : R) k :
  Forall frame_fits fs →
  pending r = concat (frame_bytes <$> fs) →
  kind (ends_with r) = UnexpectedEof →
  read_frames (length fs + S k) r = (fs, Ok tt).
Proof.
  intros Hfs. revert r. induction Hfs as [|f fs Hf Hfs IH]; intros r Hp Hk; simpl in *.
  - unfold read_frame.
    destruct (read_frame_cut_header r (MAX_FRAME_SIZE - 1)) as (r' & -> & _); [|done|done].
    rewrite Hp. simpl. unfold HEADER_SIZE. lia.
  - unfold read_frame.
    destruct (read_frame_bytes f (concat (frame_bytes <$> fs)) (MAX_FRAME_SIZE - 1) r)
      as (r' & -> & Hp' & He'); [done|unfold frame_fits, content_len in *; lia|done|].
    rewrite IH; [done|done|congruence].
Qed.

(** C38: frames written to one end of a connection and then closed are read
    back at the other end: the same frames, in order, and then a clean end. *)
Theorem frames_survive_the_wire fs (w w' : W) (r : R) k :
  written w = [] →
  write_frames fs w = (Ok tt, w') →
  pending r = written w' → kind (ends_with r) = UnexpectedEof →
  read_frames (length fs + S k) r = (fs, Ok tt).
Proof.
  intros Hw0 E Hp Hk. apply write_frames_written in E as [Hfs Hw].
  apply read_frames_concat; [done| |done]. by rewrite Hp, Hw, Hw0.
Qed.
End EndToEnd.

(** ** In-memory streams

    A cursor over bytes with the error the stream ends with, and a growable
    buffer: the instances the witnesses run on. *)

Record Cursor := mkCursor { cur_bytes : list u8; cur_end : io_error }.

Definition eof : io_error := mkIoError UnexpectedEof None.

Definition cursor_read_exact (n : nat) (r : Cursor) : result (list u8) io_error * Cursor :=
  if bool_decide (n ≤ length (cur_bytes r))%nat
  then (Ok (take n (cur_bytes r)), mkCursor (drop n (cur_bytes r)) (cur_end r))
  else (Err (cur_end r), mkCursor [] (cur_end r)).

#[export] Instance cursor_read : AsyncRead Cursor.
Proof.
  refine (Build_AsyncRead _ cur_bytes cur_end cursor_read_exact _ _);
    intros n r H; unfold cursor_read_exact.
  - by rewrite bool_decide_eq_true_2.
  - rewrite bool_decide_eq_false_2 by lia. done.
Defined.

#[export] Instance buffer_write : AsyncWrite (list u8).
Proof.
  refine (Build_AsyncWrite _ id (λ bs w, (Ok tt, w ++ bs)) (λ w, (Ok tt, w)) _ _);
    done.
Defined.

(** ** Witnesses *)

Definition ping : Frame := mkFrame MSG_HEARTBEAT [x2a; x00; xff].

Lemma decode_frame_partial_witness :
  ∃ e, decode_frame (take 6 (frame_bytes ping)) = Err (IncompleteFrame e 6) ∧ 6 < e.
Proof. apply (decode_frame_partial ping (frame_bytes ping) 6); [done|cbn; lia]. Defined.

Lemma read_frame_refines_decode_witness :
  ∃ r', read_frame_with_max_payload 16 (mkCursor (frame_bytes ping ++ [x07]) eof)
          = (Ok (Some ping), r')
        ∧ pending r' = [x07] ∧ ends_with r' = eof.
Proof.
  refine (read_frame_refines_decode (mkCursor (frame_bytes ping ++ [x07]) eof) ping 8 16 _ _);
    [done|by vm_compute].
Defined.

Lemma oversized_refused_at_header_witness :
  ∃ size cap r', read_frame_with_max_payload 4096
      (mkCursor (u32_to_be_bytes 100000 ++ [x04; x05]) eof) = (Err (FrameTooLarge size cap), r')
    ∧ pending r' = [x04; x05] ∧ size = 100000.
Proof.
  refine (oversized_refused_at_header
            (mkCursor (u32_to_be_bytes 100000 ++ [x04; x05]) eof) 4096 _ _ _);
    by apply Z.ltb_lt || by apply Z.leb_le || by apply Nat.leb_le.
Defined.

Lemma frames_survive_the_wire_witness :
  read_frames 3 (mkCursor (frame_bytes ping ++ frame_bytes ping) eof) = ([ping; ping], Ok tt).
Proof.
  apply (frames_survive_the_wire [ping; ping] ([] : list u8)
           (frame_bytes ping ++ frame_bytes ping)
           (mkCursor (frame_bytes ping ++ frame_bytes ping) eof) 0); done.
Defined.
