(* ===== verification/RateLimit.v ===== *)
(** * Per-source token buckets: crates/muxtop-server/src/rate_limit.rs *)

From S2P Require Import Prelude RsFloat.
Local Open Scope Z_scope.
Local Open Scope record_scope.

(** ** Data *)

Inductive IpAddr : Type := V4 (a : Z) | V6 (a : Z).

#[global] Instance IpAddr_eq_dec : EqDecision IpAddr.
Proof. solve_decision. Defined.

#[global] Instance IpAddr_countable : Countable IpAddr.
Proof.
  refine (inj_countable' (λ ip, match ip with V4 a => inl a | V6 a => inr a end)
            (λ s, match s with inl a => V4 a | inr a => V6 a end) _).
  by intros [].
Defined.

Definition SWEEP_SIZE_TRIGGER : nat := 1024.
Definition SWEEP_INTERVAL : Duration := from_secs 30.
Definition MIN_SWEEP_GAP : Duration := from_secs 1.
Definition MAX_TRACKED_IPS : nat := Z.to_nat 65536.

Record Bucket := mkBucket { last_refill : Instant; tokens : f32 }.

Definition refilled_at (self : Bucket) (now : Instant) (refill_per_sec burst : f32) : f32 :=
  let elapsed := as_secs_f32 (duration_since now (last_refill self)) in
  float_min (f32_add (tokens self) (f32_mul elapsed refill_per_sec)) burst.

Record LimiterState := mkLimiterState {
  buckets : gmap IpAddr Bucket;
  last_sweep : Instant;
  ceiling_logged : bool;
}.
#[export] Instance LimiterState_eta : Eta LimiterState :=
  λ s, mkLimiterState (buckets s) (last_sweep s) (ceiling_logged s).

Definition sweep (self : LimiterState) (now : Instant) (refill_per_sec burst : f32)
    : LimiterState :=
  self <| buckets ::= filter (λ kb, float_lt (refilled_at kb.2 now refill_per_sec burst) burst
                                    = true) |>
       <| last_sweep := now |>.

(** The configuration half of [RateLimiter]; its mutex-protected half is
    [LimiterState], threaded through the calls. *)
Record RateLimiter := mkRateLimiter {
  refill_per_sec : f32;
  burst : f32;
  max_tracked : nat;
}.

Definition with_max_tracked (refill_per_sec burst : f32) (max_tracked : nat) (now : Instant)
    : RateLimiter * LimiterState :=
  (mkRateLimiter refill_per_sec burst max_tracked, mkLimiterState ∅ now false).

Definition new (refill_per_sec burst : f32) (now : Instant) : RateLimiter * LimiterState :=
  with_max_tracked refill_per_sec burst MAX_TRACKED_IPS now.

Definition tracked (state : LimiterState) : nat := size (buckets state).

(** Whether a call from an unknown source at [now] sweeps first. *)
Definition sweep_due (state : LimiterState) (now : Instant) : bool :=
  let since_sweep := duration_since now (last_sweep state) in
  (MIN_SWEEP_GAP <=? since_sweep)
  && (bool_decide (SWEEP_SIZE_TRIGGER ≤ size (buckets state))%nat
      || (SWEEP_INTERVAL <=? since_sweep)).

(** Debit one token from [ip]'s bucket, created full when absent. *)
Definition debit (self : RateLimiter) (ip : IpAddr) (now : Instant) (state : LimiterState)
    : bool * LimiterState :=
  let bucket := default (mkBucket now (burst self)) (buckets state !! ip) in
  let t := refilled_at bucket now (refill_per_sec self) (burst self) in
  if float_ge t f32_one
  then (true, state <| buckets ::= <[ip := mkBucket now (f32_sub t f32_one)]> |>)
  else (false, state <| buckets ::= <[ip := mkBucket now t]> |>).

Definition try_admit (self : RateLimiter) (ip : IpAddr) (now : Instant) (state : LimiterState)
    : bool * LimiterState :=
  if float_eq (refill_per_sec self) f32_zero then (true, state)
  else if bool_decide (buckets state !! ip = None) then
    let state := if sweep_due state now
                 then sweep state now (refill_per_sec self) (burst self) else state in
    if bool_decide (max_tracked self ≤ size (buckets state))%nat
    then (false, state <| ceiling_logged := true |>)
    else debit self ip now (state <| ceiling_logged := false |>)
  else debit self ip now state.

(** A run of the accept loop's calls, with their outcomes. *)
Fixpoint admit_all (self : RateLimiter) (calls : list (IpAddr * Instant)) (state : LimiterState)
    : list bool * LimiterState :=
  match calls with
  | [] => ([], state)
  | (ip, now) :: calls =>
      let '(b, state) := try_admit self ip now state in
      let '(bs, state) := admit_all self calls state in (b :: bs, state)
  end.

(** ** Lemmas *)

Lemma refilled_at_not_nan b now r cap :
  is_nan cap = false → is_nan (refilled_at b now r cap) = false.
Proof. apply float_min_not_nan. Qed.

Lemma refilled_at_le_cap b now r cap :
  is_nan cap = false → float_le (refilled_at b now r cap) cap = true.
Proof. apply float_min_le_r. Qed.
#[export] Hint Resolve refilled_at_not_nan refilled_at_le_cap : muxtop.

(** A bucket created this instant holds exactly the burst. *)
Lemma refilled_at_fresh now (r cap : f32) :
  is_finite r = true → is_nan cap = false → float_eq cap f32_zero = false →
  float_lt r f32_zero = false →
  refilled_at (mkBucket now cap) now r cap = cap.
Proof.
  intros Hr Hcap Hz Hneg. unfold refilled_at, duration_since; simpl.
  rewrite Z.sub_diag, Z.max_id.
  replace (as_secs_f32 0) with f32_zero by reflexivity.
  assert (∃ s, f32_mul f32_zero r = S754_zero s) as [s ->] by (destruct r; simpl; eauto; done).
  replace (f32_add cap (S754_zero s)) with cap; [by apply float_min_idemp|].
  by destruct cap as [?|?| |? ? ?].
Qed.

Lemma size_filter_le (m : gmap IpAddr Bucket) (P : IpAddr * Bucket → Prop)
    `{!∀ x, Decision (P x)} : (size (filter P m) ≤ size m)%nat.
Proof.
  rewrite <- !size_dom. apply subseteq_size. apply dom_filter_subseteq.
Qed.

Lemma tracked_sweep state now r b : (tracked (sweep state now r b) ≤ tracked state)%nat.
Proof. apply size_filter_le. Qed.

Lemma debit_tracked self ip now state :
  tracked (debit self ip now state).2
  = if bool_decide (buckets state !! ip = None) then S (tracked state) else tracked state.
Proof.
  unfold debit, tracked. case_match; simpl;
    rewrite map_size_insert; by destruct (buckets state !! ip).
Qed.

Lemma debit_last_sweep self ip now state :
  last_sweep (debit self ip now state).2 = last_sweep state.
Proof. unfold debit. by case_match. Qed.

Lemma try_admit_tracked self ip now state :
  (tracked (try_admit self ip now state).2 ≤ max (max_tracked self) (tracked state))%nat.
Proof.
  unfold try_admit. case_match; [simpl; lia|]. case_bool_decide as Hip.
  - set (st := if sweep_due state now then _ else _).
    assert (tracked st ≤ tracked state)%nat
      by (unfold st; destruct (sweep_due state now); [apply tracked_sweep|done]).
    case_bool_decide as Hcap; [unfold tracked in *; simpl; lia|].
    rewrite debit_tracked. unfold tracked in *; simpl. case_bool_decide; lia.
  - rewrite debit_tracked, bool_decide_eq_false_2 by done. lia.
Qed.

Lemma admit_all_tracked self calls state :
  (tracked (admit_all self calls state).2 ≤ max (max_tracked self) (tracked state))%nat.
Proof.
  revert state. induction calls as [|[ip now] calls IH]; intros state; simpl; [lia|].
  pose proof (try_admit_tracked self ip now state) as H1.
  destruct (try_admit self ip now state) as [b s1]. specialize (IH s1).
  destruct (admit_all self calls s1) as [bs s2]. simpl in *. lia.
Qed.

(** Bounded memory.  Whatever addresses connect, in whatever order and at
    whatever times, a fresh limiter never tracks more than [max_tracked]
    sources: an address flood cannot grow the map. *)
Theorem tracked_bounded refill cap limit start calls :
  let '(self, state) := with_max_tracked refill cap limit start in
  (tracked (admit_all self calls state).2 ≤ limit)%nat.
Proof.
  simpl. pose proof (admit_all_tracked (mkRateLimiter refill cap limit) calls
    (mkLimiterState ∅ start false)) as H.
  unfold tracked in *. simpl in *. rewrite map_size_empty in H. lia.
Qed.

(** The ceiling only concerns strangers.  A source already in the map is
    judged by its own bucket alone: the answer is whether one token is there
    after the lazy refill, however full the map is and whatever the sweep
    clock says. *)
Theorem tracked_source_own_bucket self ip now state b :
  float_eq (refill_per_sec self) f32_zero = false →
  buckets state !! ip = Some b →
  (try_admit self ip now state).1
  = float_ge (refilled_at b now (refill_per_sec self) (burst self)) f32_one.
Proof.
  intros Hr Hb. unfold try_admit. rewrite Hr, bool_decide_eq_false_2 by (by rewrite Hb).
  unfold debit. rewrite Hb. simpl. by case_match.
Qed.

(** ** Sweeping *)

(** The parameters [server::run] builds a limiter with: a finite non-negative
    rate, and a burst that is neither NaN nor zero. *)
Definition sane (self : RateLimiter) : Prop :=
  is_finite (refill_per_sec self) = true ∧ float_lt (refill_per_sec self) f32_zero = false
  ∧ is_nan (burst self) = false ∧ float_eq (burst self) f32_zero = false.

(** What a source's next connection gets, from its bucket alone: the answer
    and the bucket it is left with. *)
Definition verdict (self : RateLimiter) (now : Instant) (ob : option Bucket) : bool * Bucket :=
  let t := refilled_at (default (mkBucket now (burst self)) ob) now
             (refill_per_sec self) (burst self) in
  if float_ge t f32_one then (true, mkBucket now (f32_sub t f32_one)) else (false, mkBucket now t).

Lemma debit_verdict self ip now state :
  let v := verdict self now (buckets state !! ip) in
  (debit self ip now state).1 = v.1 ∧ buckets (debit self ip now state).2 !! ip = Some v.2.
Proof. unfold debit, verdict. case_match; simpl; by rewrite lookup_insert_eq. Qed.

Lemma sweep_lookup_None state now r b ip :
  buckets state !! ip = None → buckets (sweep state now r b) !! ip = None.
Proof. intros E. simpl. by rewrite map_lookup_filter, E. Qed.

Lemma try_admit_verdict self ip now state :
  float_eq (refill_per_sec self) f32_zero = false →
  (tracked state < max_tracked self)%nat →
  let v := verdict self now (buckets state !! ip) in
  (try_admit self ip now state).1 = v.1 ∧
  buckets (try_admit self ip now state).2 !! ip = Some v.2.
Proof.
  intros Hr Hroom v. unfold try_admit. rewrite Hr. case_bool_decide as Hip; [|apply debit_verdict].
  set (st := if sweep_due state now then _ else _).
  assert (buckets st !! ip = None ∧ (tracked st ≤ tracked state)%nat) as [Hst Hle].
  { unfold st. destruct (sweep_due state now); [|done].
    split; [by apply sweep_lookup_None|apply tracked_sweep]. }
  rewrite bool_decide_eq_false_2 by (unfold tracked in *; lia).
  unfold v. rewrite Hip, <- Hst.
  exact (debit_verdict self ip now (st <| ceiling_logged := false |>)).
Qed.

(** An idle-full bucket and no bucket at all get the same verdict. *)
Lemma verdict_full self now b :
  sane self →
  float_lt (refilled_at b now (refill_per_sec self) (burst self)) (burst self) = false →
  verdict self now (Some b) = verdict self now None.
Proof.
  intros (Hr & Hneg & Hb & Hz) Hfull. unfold verdict; simpl.
  rewrite refilled_at_fresh by done.
  by replace (refilled_at b now (refill_per_sec self) (burst self)) with (burst self)
    by (symmetry; by apply float_min_saturated).
Qed.

Lemma verdict_sweep self ip now state :
  sane self →
  verdict self now (buckets (sweep state now (refill_per_sec self) (burst self)) !! ip)
  = verdict self now (buckets state !! ip).
Proof.
  intros Hs. simpl. rewrite map_lookup_filter.
  destruct (buckets state !! ip) as [b|]; simpl; [|done].
  case_guard as Hkeep; simpl; [done|]. symmetry. apply verdict_full; [done|].
  by apply not_true_is_false.
Qed.

(** The sweep is unobservable.  Dropping every bucket that has refilled to
    the burst changes neither the answer the next connection from any source
    gets at that instant nor the bucket it is left with: an idle-full entry
    behaves as an absent one. *)
Theorem sweep_unobservable self ip now state :
  sane self → float_eq (refill_per_sec self) f32_zero = false →
  (tracked state < max_tracked self)%nat →
  let swept := sweep state now (refill_per_sec self) (burst self) in
  (try_admit self ip now swept).1 = (try_admit self ip now state).1 ∧
  buckets (try_admit self ip now swept).2 !! ip = buckets (try_admit self ip now state).2 !! ip.
Proof.
  intros Hs Hr Hroom swept.
  assert (tracked swept ≤ tracked state)%nat as Hle by apply tracked_sweep.
  destruct (try_admit_verdict self ip now state) as [-> ->]; [done|done|].
  destruct (try_admit_verdict self ip now swept) as [-> ->]; [done|lia|].
  unfold swept. by rewrite verdict_sweep.
Qed.

(** ** The cost of sweeping *)

(** Sweeps performed along a run. *)
Fixpoint sweeps (self : RateLimiter) (calls : list (IpAddr * Instant)) (state : LimiterState) : Z :=
  match calls with
  | [] => 0
  | (ip, now) :: calls =>
      (if bool_decide (buckets state !! ip = None) && sweep_due state now then 1 else 0)
      + sweeps self calls (try_admit self ip now state).2
  end.

Lemma try_admit_last_sweep self ip now state :
  float_eq (refill_per_sec self) f32_zero = false →
  last_sweep (try_admit self ip now state).2
  = if bool_decide (buckets state !! ip = None) && sweep_due state now
    then now else last_sweep state.
Proof.
  intros Hr. unfold try_admit. rewrite Hr. case_bool_decide; simpl; [|apply debit_last_sweep].
  case_bool_decide; simpl; [|rewrite debit_last_sweep; simpl]; by destruct (sweep_due state now).
Qed.

(** The O(n) scan is amortised.  Along any run, the sweeps performed take at
    least [MIN_SWEEP_GAP] each out of the time elapsed on the sweep clock, so no
    arrival pattern makes sweeping per-connection work. *)
Theorem sweeps_amortised self calls state :
  float_eq (refill_per_sec self) f32_zero = false →
  sweeps self calls state * MIN_SWEEP_GAP
  ≤ last_sweep (admit_all self calls state).2 - last_sweep state.
Proof.
  intros Hr. revert state. induction calls as [|[ip now] calls IH]; intros state; [simpl; lia|].
  pose proof (try_admit_last_sweep self ip now state Hr) as Hl. cbn [sweeps admit_all].
  destruct (try_admit self ip now state) as [b s1]. specialize (IH s1). simpl snd in *.
  destruct (admit_all self calls s1) as [bs s2]. simpl snd in *.
  destruct (bool_decide (buckets state !! ip = None) && sweep_due state now) eqn:E;
    rewrite Hl in IH; [|lia].
  apply andb_true_iff in E as [_ [E _]%andb_true_iff]. apply Z.leb_le in E.
  unfold duration_since, MIN_SWEEP_GAP, from_secs, NANOS_PER_SEC in *. lia.
Qed.

(** ** Witnesses: the server's default of ten connections a second *)

Definition demo : RateLimiter := mkRateLimiter (f32_of_Z 10) (f32_of_Z 10) 8.

Definition demo_state : LimiterState :=
  (admit_all demo [(V4 1, 0); (V4 1, 0); (V4 2, from_millis 100)]
     (mkLimiterState ∅ 0 false)).2.

Lemma tracked_source_own_bucket_witness :
  ∃ b, buckets demo_state !! V4 1 = Some b ∧
  (try_admit demo (V4 1) (from_millis 100) demo_state).1
  = float_ge (refilled_at b (from_millis 100) (f32_of_Z 10) (f32_of_Z 10)) f32_one.
Proof.
  eexists. split; [vm_compute; reflexivity|].
  apply (tracked_source_own_bucket demo (V4 1) (from_millis 100) demo_state);
    vm_compute; reflexivity.
Defined.

Lemma sweep_unobservable_witness :
  let swept := sweep demo_state (from_secs 9) (f32_of_Z 10) (f32_of_Z 10) in
  (try_admit demo (V4 1) (from_secs 9) swept).1 = (try_admit demo (V4 1) (from_secs 9) demo_state).1
  ∧ buckets (try_admit demo (V4 1) (from_secs 9) swept).2 !! V4 1
    = buckets (try_admit demo (V4 1) (from_secs 9) demo_state).2 !! V4 1.
Proof.
  apply (sweep_unobservable demo (V4 1) (from_secs 9) demo_state).
  - by repeat split.
  - reflexivity.
  - apply Nat.ltb_lt. vm_compute. reflexivity.
Defined.

Lemma sweeps_amortised_witness :
  sweeps demo [(V4 1, 0); (V4 2, from_secs 31); (V4 3, from_secs 31)] (mkLimiterState ∅ 0 false)
    * MIN_SWEEP_GAP
  ≤ last_sweep (admit_all demo [(V4 1, 0); (V4 2, from_secs 31); (V4 3, from_secs 31)]
                  (mkLimiterState ∅ 0 false)).2 - 0.
Proof.
  apply (sweeps_amortised demo [(V4 1, 0); (V4 2, from_secs 31); (V4 3, from_secs 31)]
           (mkLimiterState ∅ 0 false)).
  reflexivity.
Defined.
