(* ===== verification/Actions.v ===== *)
(** * Signals and priorities: crates/muxtop-core/src/actions.rs

    The safe wrappers around kill, setpriority and getpriority (POSIX build).
    The kernel is the [Os] interface: what each system call returns, and the
    errno it leaves, may depend on every call made before.  Each operation
    returns its result and the trace of system calls extended by its own. *)

From S2P Require Import Prelude.
Local Open Scope Z_scope.

(** ** Errors: crates/muxtop-core/src/error.rs

    The error of a nested engine is kept as the text it displays as. *)

Inductive CoreError : Type :=
| Collection (msg : list Z)
| ProcessNotFound (pid : Z)
| Permission (what : list Z)
| CoreIo (errno : Z)
| ChannelClosed
| Engine (e : list Z)
| Cluster (e : list Z).

Inductive Signal : Type := Term | Kill.

#[global] Instance Signal_eq_dec : EqDecision Signal.
Proof. solve_decision. Defined.

(** POSIX constants. *)
Definition SIGTERM : Z := 15.
Definition SIGKILL : Z := 9.
Definition ESRCH : Z := 3.
Definition EPERM : Z := 1.
Definition PRIO_PROCESS : Z := 0.

Definition as_libc (self : Signal) : Z :=
  match self with Term => SIGTERM | Kill => SIGKILL end.

(** [i32::try_from(pid)], then the sign test. *)
Definition validate_pid (pid : Z) : result Z CoreError :=
  if pid <=? i32_max
  then if pid <=? 0 then Err (ProcessNotFound pid) else Ok pid
  else Err (ProcessNotFound pid).

Inductive Syscall : Type :=
| SysKill (pid sig : Z)
| SysSetPriority (which who prio : Z)
| SysGetPriority (which who : Z).

#[global] Instance Syscall_eq_dec : EqDecision Syscall.
Proof. solve_decision. Defined.

(** The process a system call addresses. *)
Definition target (s : Syscall) : Z :=
  match s with
  | SysKill pid _ => pid
  | SysSetPriority _ who _ | SysGetPriority _ who => who
  end.

(** Return value and errno of a system call, after a trace of earlier ones.
    [errno] is reported as it stands after the call, having been cleared just
    before it where the code does so. *)
Class Os := { os_call : list Syscall → Syscall → Z * Z }.

Section Actions.
Context `{!Os}.

(** [SIGTERM] or [SIGKILL] in a message; messages are built by [describe]. *)
Variable describe : Syscall → list Z.

Definition map_errno (pid errno : Z) (call : Syscall) : CoreError :=
  if errno =? ESRCH then ProcessNotFound pid
  else if errno =? EPERM then Permission (describe call)
  else CoreIo errno.

Definition kill_process (pid : Z) (signal : Signal) (tr : list Syscall)
    : result unit CoreError * list Syscall :=
  match validate_pid pid with
  | Err e => (Err e, tr)
  | Ok pid_i32 =>
      let call := SysKill pid_i32 (as_libc signal) in
      let '(ret, errno) := os_call tr call in
      if ret =? 0 then (Ok tt, tr ++ [call])
      else (Err (map_errno pid errno call), tr ++ [call])
  end.

Definition renice_process (pid nice_value : Z) (tr : list Syscall)
    : result unit CoreError * list Syscall :=
  match validate_pid pid with
  | Err e => (Err e, tr)
  | Ok pid_i32 =>
      let call := SysSetPriority PRIO_PROCESS pid_i32 nice_value in
      let '(ret, errno) := os_call tr call in
      if ret =? 0 then (Ok tt, tr ++ [call])
      else if errno =? 0 then (Ok tt, tr ++ [call])
      else (Err (map_errno pid errno call), tr ++ [call])
  end.

Definition get_process_priority (pid : Z) (tr : list Syscall)
    : result Z CoreError * list Syscall :=
  match validate_pid pid with
  | Err e => (Err e, tr)
  | Ok pid_i32 =>
      let call := SysGetPriority PRIO_PROCESS pid_i32 in
      let '(ret, errno) := os_call tr call in
      if errno =? 0 then (Ok ret, tr ++ [call])
      else (Err (map_errno pid errno call), tr ++ [call])
  end.

(** ** Lemmas *)

Lemma validate_pid_Ok pid p :
  validate_pid pid = Ok p ↔ p = pid ∧ 0 < pid ≤ i32_max.
Proof.
  unfold validate_pid. destruct (Z.leb_spec pid i32_max); [destruct (Z.leb_spec pid 0)|];
    (split; [intros; simplify_eq; lia|intros [-> ?]; try lia; done]).
Qed.

(** Every call these wrappers let through names one process by a positive pid
    that fits a [pid_t]: neither 0 nor -1, the process-group and broadcast
    targets of kill(2). *)
Definition names_one_process (s : Syscall) : Prop := 0 < target s ≤ i32_max.

(** The trace after an operation on [pid]: unchanged, or one call that names
    that very process. *)
Definition one_call_on (pid : Z) (tr tr' : list Syscall) : Prop :=
  tr' = tr ∨ ∃ c, tr' = tr ++ [c] ∧ target c = pid ∧ names_one_process c.

Lemma kill_process_trace pid signal tr : one_call_on pid tr (kill_process pid signal tr).2.
Proof.
  unfold kill_process. destruct (validate_pid pid) as [p|] eqn:E; [|by left].
  apply validate_pid_Ok in E as [-> ?]. right. exists (SysKill pid (as_libc signal)).
  destruct (os_call _ _) as [ret errno]. by destruct (ret =? 0).
Qed.

Lemma renice_process_trace pid n tr : one_call_on pid tr (renice_process pid n tr).2.
Proof.
  unfold renice_process. destruct (validate_pid pid) as [p|] eqn:E; [|by left].
  apply validate_pid_Ok in E as [-> ?]. right. exists (SysSetPriority PRIO_PROCESS pid n).
  destruct (os_call _ _) as [ret errno]. by destruct (ret =? 0), (errno =? 0).
Qed.

Lemma get_process_priority_trace pid tr : one_call_on pid tr (get_process_priority pid tr).2.
Proof.
  unfold get_process_priority. destruct (validate_pid pid) as [p|] eqn:E; [|by left].
  apply validate_pid_Ok in E as [-> ?]. right. exists (SysGetPriority PRIO_PROCESS pid).
  destruct (os_call _ _) as [ret errno]. by destruct (errno =? 0).
Qed.

Lemma one_call_on_safe pid tr tr' :
  one_call_on pid tr tr' → Forall names_one_process tr → Forall names_one_process tr'.
Proof.
  intros [->|(c & -> & _ & Hc)] Htr; [done|]. apply Forall_app. auto.
Qed.

(** One user action on processes. *)
Inductive ProcessAction : Type :=
| DoKill (pid : Z) (signal : Signal)
| DoRenice (pid nice : Z)
| DoGetPriority (pid : Z).

Definition perform (a : ProcessAction) (tr : list Syscall) : list Syscall :=
  match a with
  | DoKill pid signal => (kill_process pid signal tr).2
  | DoRenice pid nice => (renice_process pid nice tr).2
  | DoGetPriority pid => (get_process_priority pid tr).2
  end.

(** C2: no sequence of actions, on any pids and whatever the kernel answers,
    ever issues a system call on pid 0, on a negative pid, or on one that a
    [pid_t] cannot hold. *)
Theorem no_broadcast_signal acts :
  Forall names_one_process (fold_left (λ tr a, perform a tr) acts []).
Proof.
  assert (∀ tr, Forall names_one_process tr →
    Forall names_one_process (fold_left (λ tr a, perform a tr) acts tr)) as Hall; [|by apply Hall].
  induction acts as [|a acts IH]; intros tr Htr; simpl; [done|]. apply IH.
  destruct a; simpl; eapply one_call_on_safe; eauto using kill_process_trace,
    renice_process_trace, get_process_priority_trace.
Qed.

(** Setting a priority is judged by errno, not by the return value alone:
    the call fails exactly when setpriority(2) returned non-zero and left errno
    set, and then ESRCH, EPERM and the rest map to their own errors. *)
Theorem renice_outcome pid nice tr ret errno :
  0 < pid ≤ i32_max →
  os_call tr (SysSetPriority PRIO_PROCESS pid nice) = (ret, errno) →
  (renice_process pid nice tr).1
  = if (ret =? 0) || (errno =? 0) then Ok tt
    else Err (if errno =? ESRCH then ProcessNotFound pid
              else if errno =? EPERM
              then Permission (describe (SysSetPriority PRIO_PROCESS pid nice))
              else CoreIo errno).
Proof.
  intros Hpid Hos. unfold renice_process.
  rewrite (proj2 (validate_pid_Ok pid pid)) by done. rewrite Hos. by destruct (ret =? 0), (errno =? 0).
Qed.
End Actions.

(** ** Witness: a kernel that knows no process 42 *)

Definition os_without_42 : Os :=
  {| os_call _ s := if target s =? 42 then (-1, ESRCH) else (0, 0) |}.

Lemma renice_outcome_witness :
  0 < 42 ≤ i32_max ∧
  (@renice_process os_without_42 (λ _, []) 42 5 []).1 = Err (ProcessNotFound 42).
Proof.
  split; [unfold i32_max; lia|].
  refine (@renice_outcome os_without_42 (λ _, []) 42 5 [] (-1) ESRCH _ eq_refl).
  unfold i32_max; lia.
Defined.
