(* ===== verification/Clipboard.v ===== *)
(** * OSC 52 clipboard: crates/muxtop-tui/src/clipboard.rs *)

From S2P Require Import Prelude Str.
Local Open Scope Z_scope.

Definition MAX_PAYLOAD : nat := 4096.

(** ** base64 *)

Definition ALPHABET : list Z :=
  (seqZ 65 26 ++ seqZ 97 26 ++ seqZ 48 10 ++ [43; 47]).

Definition sextet (i : Z) : Z := nth (Z.to_nat i) ALPHABET 0.

(** The four characters of one chunk of one to three bytes: [b] is the chunk
    padded with zeros, [len] its length. *)
Definition base64_chunk (b0 b1 b2 : Z) (len : nat) : list Z :=
  let n := Z.lor (Z.lor (Z.shiftl b0 16) (Z.shiftl b1 8)) b2 in
  [ sextet (Z.land (Z.shiftr n 18) 63);
    sextet (Z.land (Z.shiftr n 12) 63);
    (if bool_decide (1 < len)%nat then sextet (Z.land (Z.shiftr n 6) 63) else 61);
    (if bool_decide (2 < len)%nat then sextet (Z.land n 63) else 61) ].

Fixpoint base64 (input : list Z) : list Z :=
  match input with
  | b0 :: b1 :: b2 :: rest => base64_chunk b0 b1 b2 3 ++ base64 rest
  | [b0; b1] => base64_chunk b0 b1 0 2
  | [b0] => base64_chunk b0 0 0 1
  | [] => []
  end.

(** The bytes written to the terminal, or the refusal.  [tty_ok] is whether
    writing and flushing standard output succeed. *)
Inductive CopyError : Type := NothingToCopy | TooLarge | WriteFailed.

Definition copy_sequence (text : str) : result (list Z) CopyError :=
  if bool_decide (text = []) then Err NothingToCopy
  else if bool_decide (MAX_PAYLOAD < str_len text)%nat then Err TooLarge
  else Ok ([27; 93; 53; 50; 59; 99; 59] ++ base64 (as_bytes text) ++ [7]).

Definition copy (tty_ok : bool) (text : str) : result unit CopyError :=
  match copy_sequence text with
  | Err e => Err e
  | Ok _ => if tty_ok then Ok tt else Err WriteFailed
  end.

(** ** A reference decoder *)

Definition unsextet (c : Z) : option Z :=
  if (65 <=? c) && (c <=? 90) then Some (c - 65)
  else if (97 <=? c) && (c <=? 122) then Some (c - 71)
  else if (48 <=? c) && (c <=? 57) then Some (c + 4)
  else if c =? 43 then Some 62
  else if c =? 47 then Some 63
  else None.

Definition decode_chunk (c0 c1 c2 c3 : Z) : option (list Z) :=
  a ← unsextet c0; b ← unsextet c1;
  if c2 =? 61 then Some [a * 4 + b / 16]
  else
  c ← unsextet c2;
  if c3 =? 61 then Some [a * 4 + b / 16; (b mod 16) * 16 + c / 4]
  else
  d ← unsextet c3;
  Some [a * 4 + b / 16; (b mod 16) * 16 + c / 4; (c mod 4) * 64 + d].

Fixpoint base64_decode (s : list Z) : option (list Z) :=
  match s with
  | [] => Some []
  | c0 :: c1 :: c2 :: c3 :: s =>
      l ← decode_chunk c0 c1 c2 c3; k ← base64_decode s; Some (l ++ k)
  | _ => None
  end.

(** ** Lemmas *)

Lemma sextet_cases i :
  0 ≤ i < 64 → unsextet (sextet i) = Some i ∧ 43 ≤ sextet i ≤ 122 ∧ sextet i ≠ 61.
Proof.
  intros Hi.
  assert (∀ j : nat, (j < 64)%nat →
    bool_decide (unsextet (sextet (Z.of_nat j)) = Some (Z.of_nat j)
      ∧ 43 ≤ sextet (Z.of_nat j) ≤ 122 ∧ sextet (Z.of_nat j) ≠ 61) = true) as H.
  { intros j Hj. do 64 (destruct j as [|j]; [by vm_compute|]). lia. }
  specialize (H (Z.to_nat i) ltac:(lia)). rewrite Z2Nat.id in H by lia.
  by apply bool_decide_eq_true in H.
Qed.

Lemma lor_disjoint x y k : 0 ≤ k → 0 ≤ y < 2 ^ k → Z.lor (x * 2 ^ k) y = x * 2 ^ k + y.
Proof.
  intros Hk Hy. rewrite <- Z.add_lor_land.
  replace (Z.land (x * 2 ^ k) y) with 0; [lia|]. symmetry. apply Z.bits_inj'. intros n Hn.
  rewrite Z.land_spec, Z.bits_0. destruct (Z.ltb_spec n k).
  - by rewrite Z.mul_pow2_bits_low by lia.
  - rewrite <- (Z.mod_small y (2 ^ k)), Z.mod_pow2_bits_high, andb_false_r by lia. done.
Qed.

Lemma chunk_value b0 b1 b2 :
  is_byte b0 → is_byte b1 → is_byte b2 →
  Z.lor (Z.lor (Z.shiftl b0 16) (Z.shiftl b1 8)) b2 = b0 * 65536 + b1 * 256 + b2.
Proof.
  unfold is_byte. intros H0 H1 H2. rewrite !Z.shiftl_mul_pow2 by lia.
  rewrite (lor_disjoint b0 (b1 * 2 ^ 8) 16) by lia.
  replace (b0 * 2 ^ 16 + b1 * 2 ^ 8) with ((b0 * 256 + b1) * 2 ^ 8) by lia.
  rewrite lor_disjoint by lia. lia.
Qed.

Lemma shiftr_63 n k : 0 ≤ k → Z.land (Z.shiftr n k) 63 = (n / 2 ^ k) mod 64.
Proof.
  intros Hk. rewrite Z.shiftr_div_pow2 by done. change 63 with (Z.ones 6).
  by rewrite Z.land_ones by lia.
Qed.

Lemma unsextet_sextet i : 0 ≤ i < 64 → unsextet (sextet i) = Some i.
Proof. intros Hi. apply (sextet_cases i Hi). Qed.

Lemma sextet_not_pad i : 0 ≤ i < 64 → (sextet i =? 61) = false.
Proof. intros Hi. apply Z.eqb_neq. apply (sextet_cases i Hi). Qed.

(** The four sextets of a 24-bit group. *)
Lemma group_sextets b0 b1 b2 :
  is_byte b0 → is_byte b1 → is_byte b2 →
  let n := b0 * 65536 + b1 * 256 + b2 in
  (n / 262144) mod 64 = b0 / 4 ∧ (n / 4096) mod 64 = (b0 mod 4) * 16 + b1 / 16 ∧
  (n / 64) mod 64 = (b1 mod 16) * 4 + b2 / 64 ∧ (n / 1) mod 64 = b2 mod 64.
Proof.
  intros H0 H1 H2 n. unfold is_byte in *.
  assert (n / 262144 = b0 / 4) as -> by (unfold n; Z.div_mod_to_equations; lia).
  assert (n / 4096 = b0 * 16 + b1 / 16) as -> by (unfold n; Z.div_mod_to_equations; lia).
  assert (n / 64 = b0 * 1024 + b1 * 4 + b2 / 64) as ->
    by (unfold n; Z.div_mod_to_equations; lia).
  rewrite Z.div_1_r. unfold n. split_and!; Z.div_mod_to_equations; lia.
Qed.

(** Reassembling bytes from neighbouring sextets. *)
Lemma join_sextets b0 b1 b2 :
  is_byte b0 → is_byte b1 → is_byte b2 →
  b0 / 4 * 4 + ((b0 mod 4) * 16 + b1 / 16) / 16 = b0 ∧
  ((b0 mod 4) * 16 + b1 / 16) mod 16 * 16 + ((b1 mod 16) * 4 + b2 / 64) / 4 = b1 ∧
  ((b1 mod 16) * 4 + b2 / 64) mod 4 * 64 + b2 mod 64 = b2.
Proof.
  unfold is_byte. intros H0 H1 H2. rewrite !(Z.add_comm (_ * _) (_ / _)).
  rewrite (Z.div_add _ _ 16), (Z.mod_add _ _ 16), (Z.div_add _ _ 4), (Z.mod_add _ _ 4) by lia.
  rewrite (Z.div_small (b1 / 16)), (Z.mod_small (b1 / 16)), (Z.div_small (b2 / 64)),
    (Z.mod_small (b2 / 64)) by (Z.div_mod_to_equations; lia).
  split_and!; Z.div_mod_to_equations; lia.
Qed.

Lemma decode_base64_chunk b0 b1 b2 (len : nat) :
  is_byte b0 → is_byte b1 → is_byte b2 → (1 ≤ len ≤ 3)%nat →
  (len = 1%nat → b1 = 0) → ((len < 3)%nat → b2 = 0) →
  match base64_chunk b0 b1 b2 len with
  | [c0; c1; c2; c3] => decode_chunk c0 c1 c2 c3 = Some (take len [b0; b1; b2])
  | _ => False
  end.
Proof.
  intros H0 H1 H2 Hlen Hz1 Hz2. unfold base64_chunk, decode_chunk.
  rewrite chunk_value by done. replace (Z.land (b0 * 65536 + b1 * 256 + b2) 63)
    with (Z.land (Z.shiftr (b0 * 65536 + b1 * 256 + b2) 0) 63) by (by rewrite Z.shiftr_0_r).
  rewrite !shiftr_63 by lia. unfold is_byte in *.
  change (2 ^ 18) with 262144. change (2 ^ 12) with 4096.
  change (2 ^ 6) with 64. change (2 ^ 0) with 1.
  pose proof (group_sextets b0 b1 b2 H0 H1 H2) as G. cbv zeta in G.
  destruct G as (G0 & G1 & G2 & G3).
  pose proof (join_sextets b0 b1 b2 H0 H1 H2) as (J0 & J1 & J2).
  set (n := b0 * 65536 + b1 * 256 + b2) in *.
  assert (∀ k, 0 ≤ (n / k) mod 64 < 64) as Hb by (intros; apply Z.mod_pos_bound; lia).
  rewrite !unsextet_sextet by apply Hb. cbn [mbind option_bind].
  destruct (decide (len = 1%nat)) as [->|]; [|destruct (decide (len = 2%nat)) as [->|]];
    [| |replace len with 3%nat by lia]; repeat case_bool_decide; try lia;
    rewrite ?sextet_not_pad, ?unsextet_sextet by apply Hb; cbn [Z.eqb Pos.eqb mbind option_bind];
    rewrite ?G0, ?G1, ?G2, ?G3, ?J0, ?J1, ?J2; done.
Qed.

Lemma decode_chunk_app b0 b1 b2 (len : nat) rest k :
  is_byte b0 → is_byte b1 → is_byte b2 → (1 ≤ len ≤ 3)%nat →
  (len = 1%nat → b1 = 0) → ((len < 3)%nat → b2 = 0) →
  base64_decode rest = Some k →
  base64_decode (base64_chunk b0 b1 b2 len ++ rest) = Some (take len [b0; b1; b2] ++ k).
Proof.
  intros H0 H1 H2 Hlen Hz1 Hz2 Hk.
  pose proof (decode_base64_chunk b0 b1 b2 len H0 H1 H2 Hlen Hz1 Hz2) as E.
  unfold base64_chunk in *. cbn [app base64_decode]. by rewrite E, Hk.
Qed.

(** The base64 encoder is lossless: the reference decoder recovers every
    byte string from its encoding. *)
Theorem base64_roundtrip input :
  Forall is_byte input → base64_decode (base64 input) = Some input.
Proof.
  assert (is_byte 0) as Hz by (unfold is_byte; lia).
  induction input as [input IH] using (induction_ltof1 _ (@length Z)).
  unfold ltof in IH. intros Hb.
  destruct input as [|b0 [|b1 [|b2 rest]]]; cbn [base64]; [done|..];
    repeat match goal with H : Forall is_byte (_ :: _) |- _ => inversion_clear H end.
  - rewrite <- (app_nil_r (base64_chunk _ _ _ _)). by apply (decode_chunk_app b0 0 0 1 [] []); try lia.
  - rewrite <- (app_nil_r (base64_chunk _ _ _ _)). by apply (decode_chunk_app b0 b1 0 2 [] []); try lia.
  - apply (decode_chunk_app b0 b1 b2 3 _ rest); try done; try lia. apply IH; [simpl; lia|done].
Qed.

Lemma base64_chunk_printable b0 b1 b2 len :
  is_byte b0 → is_byte b1 → is_byte b2 →
  Forall (λ c, 43 ≤ c ≤ 122) (base64_chunk b0 b1 b2 len).
Proof.
  intros H0 H1 H2. unfold base64_chunk. rewrite chunk_value by done.
  replace (Z.land (b0 * 65536 + b1 * 256 + b2) 63)
    with (Z.land (Z.shiftr (b0 * 65536 + b1 * 256 + b2) 0) 63) by (by rewrite Z.shiftr_0_r).
  rewrite !shiftr_63 by lia.
  repeat constructor; try case_bool_decide; try lia;
    apply sextet_cases; apply Z.mod_pos_bound; lia.
Qed.

Lemma base64_printable input :
  Forall is_byte input → Forall (λ c, 43 ≤ c ≤ 122) (base64 input).
Proof.
  assert (is_byte 0) as Hz by (unfold is_byte; lia).
  induction input as [input IH] using (induction_ltof1 _ (@length Z)).
  unfold ltof in IH. intros Hb.
  destruct input as [|b0 [|b1 [|b2 rest]]]; cbn [base64]; [constructor|..];
    repeat match goal with H : Forall is_byte (_ :: _) |- _ => inversion_clear H end;
    try (by apply base64_chunk_printable).
  apply Forall_app. split; [by apply base64_chunk_printable|]. apply IH; [simpl; lia|done].
Qed.

(** What reaches the terminal is one well-formed OSC 52 sequence, whatever
    characters the copied identifier holds: between the introducer and the
    final BEL there are only printable base64 characters, so a hostile name
    cannot close the sequence early or open another one; and the identifier can
    be read back from it. *)
Theorem copy_sequence_contained text seq :
  Forall is_char text → copy_sequence text = Ok seq →
  ∃ body, seq = [27; 93; 53; 50; 59; 99; 59] ++ body ++ [7]
          ∧ Forall (λ c, 43 ≤ c ≤ 122) body ∧ base64_decode body = Some (as_bytes text).
Proof.
  intros Ht E. apply as_bytes_bytes in Ht. unfold copy_sequence in E.
  repeat case_bool_decide; simplify_eq. eexists. split; [done|].
  split; [by apply base64_printable|by apply base64_roundtrip].
Qed.

(** ** Witnesses *)

Lemma base64_roundtrip_witness : base64_decode (base64 [77; 97; 110; 33]) = Some [77; 97; 110; 33].
Proof. apply base64_roundtrip. repeat constructor; unfold is_byte; lia. Defined.

Lemma copy_sequence_contained_witness :
  ∃ body, [27; 93; 53; 50; 59; 99; 59; 66; 48; 69; 61; 7]
          = [27; 93; 53; 50; 59; 99; 59] ++ body ++ [7]
          ∧ Forall (λ c, 43 ≤ c ≤ 122) body ∧ base64_decode body = Some (as_bytes [7; 65]).
Proof.
  apply (copy_sequence_contained [7; 65]); [|reflexivity].
  repeat constructor; unfold is_char; lia.
Defined.
