(* ===== verification/Process.v ===== *)
(** * Processes: crates/muxtop-core/src/process.rs

    Sorting, filtering, and the process tree. *)

From S2P Require Import Prelude Str RsFloat.
Local Open Scope Z_scope.

Record ProcessInfo := mkProcessInfo {
  pid : Z;
  parent_pid : option Z;
  name : str;
  command : str;
  user : str;
  cpu_percent : f32;
  memory_bytes : Z;
  memory_percent : f32;
  status : str;
}.

#[global] Instance ProcessInfo_inhabited : Inhabited ProcessInfo :=
  populate (mkProcessInfo 0 None [] [] [] f32_zero 0 f32_zero []).

Inductive SortField : Type := Cpu | Mem | Pid | Name | User.
Inductive SortOrder : Type := Asc | Desc.

#[global] Instance SortField_eq_dec : EqDecision SortField.
Proof. solve_decision. Defined.
#[global] Instance SortOrder_eq_dec : EqDecision SortOrder.
Proof. solve_decision. Defined.

(** [Display] and [FromStr] of a sort field. *)
Definition SortField_fmt (self : SortField) : str :=
  match self with
  | Cpu => lit "cpu" | Mem => lit "mem" | Pid => lit "pid"
  | Name => lit "name" | User => lit "user"
  end.

Definition SortField_from_str `{!Unicode} (s : str) : result SortField str :=
  let l := to_lowercase s in
  if bool_decide (l = lit "cpu") then Ok Cpu
  else if bool_decide (l = lit "mem") || bool_decide (l = lit "memory") then Ok Mem
  else if bool_decide (l = lit "pid") then Ok Pid
  else if bool_decide (l = lit "name") then Ok Name
  else if bool_decide (l = lit "user") then Ok User
  else Err (lit "invalid sort field '" ++ s
            ++ lit "': expected one of cpu, mem, pid, name, user").

(** ** The standard library's sorts *)

(** A comparator that is a total preorder. *)
Record total_preorder {A} (P : A → Prop) (cmp : A → A → comparison) : Prop := {
  cmp_antisym : ∀ x y, P x → P y → cmp y x = CompOpp (cmp x y);
  cmp_trans : ∀ x y z, P x → P y → P z → cmp x y ≠ Gt → cmp y z ≠ Gt → cmp x z ≠ Gt;
}.

Definition in_order {A} (cmp : A → A → comparison) : list A → Prop :=
  StronglySorted (λ a b, cmp a b ≠ Gt).

(** The comparator orders the elements of a list: only then do the sorts promise
    not to panic. *)
Definition consistent_on {A} (cmp : A → A → comparison) (l : list A) : Prop :=
  total_preorder (λ a, a ∈ l) cmp.

(** [sort_by] and friends are stable, which on a total preorder determines the
    result: insertion sort computes it.  A comparator that is not [consistent_on]
    the elements leaves them in an unspecified order, or makes the sort panic;
    where the code's may not be is stated with the sessions (Session.v). *)
Fixpoint insert_by {A} (cmp : A → A → comparison) (x : A) (l : list A) : list A :=
  match l with
  | [] => [x]
  | y :: l' => match cmp x y with Gt => y :: insert_by cmp x l' | _ => x :: l end
  end.

Definition sort_by {A} (cmp : A → A → comparison) (l : list A) : list A :=
  foldr (insert_by cmp) [] l.

(** [sort_unstable_by]: some reordering, sorted when the comparator is a total
    preorder on the elements; the order of equal elements is unspecified. *)
Class UnstableSort := {
  sort_unstable_by : ∀ {A}, (A → A → comparison) → list A → list A;
  sort_unstable_perm : ∀ {A} (cmp : A → A → comparison) l, sort_unstable_by cmp l ≡ₚ l;
  sort_unstable_sorted : ∀ {A} (P : A → Prop) (cmp : A → A → comparison) l,
    total_preorder P cmp → Forall P l → in_order cmp (sort_unstable_by cmp l);
}.

Definition by_key {A K} (cmp : K → K → comparison) (key : A → K) (a b : A) : comparison :=
  cmp (key a) (key b).

Section Process.
Context `{!Unicode} `{!UnstableSort}.

Definition cmp_cpu (a b : ProcessInfo) : comparison :=
  default Eq (float_partial_cmp (cpu_percent a) (cpu_percent b)).

Definition sort_processes (procs : list ProcessInfo) (field : SortField) (order : SortOrder)
    : list ProcessInfo :=
  let procs :=
    match field with
    | Name => sort_by (by_key str_cmp (λ p, to_lowercase (name p))) procs
    | User => sort_by (by_key str_cmp (λ p, to_lowercase (user p))) procs
    | Cpu => sort_unstable_by cmp_cpu procs
    | Mem => sort_unstable_by (by_key Z.compare memory_bytes) procs
    | Pid => sort_unstable_by (by_key Z.compare pid) procs
    end in
  match order with Desc => reverse procs | Asc => procs end.

(** ** Filtering *)

(** [slice::windows]. *)
Fixpoint windows (n : nat) (l : list Z) : list (list Z) :=
  match l with
  | [] => []
  | _ :: l' => if bool_decide (n ≤ length l)%nat then take n l :: windows n l' else []
  end.

Definition contains_ignore_case (haystack needle_lower : str) : bool :=
  if bool_decide (needle_lower = []) then true
  else if is_ascii needle_lower && is_ascii haystack then
    let needle := needle_lower in
    let bytes := haystack in
    if bool_decide (length bytes < length needle)%nat then false
    else existsb (λ w, forallb (λ ab, eq_ignore_ascii_case ab.1 ab.2) (zip w needle))
           (windows (length needle) bytes)
  else contains (to_lowercase haystack) needle_lower.

Definition filter_processes (procs : list ProcessInfo) (pattern : str) : list ProcessInfo :=
  if bool_decide (pattern = []) then procs
  else
    let lower := to_lowercase pattern in
    filter (λ p, contains_ignore_case (name p) lower || contains_ignore_case (command p) lower
                 = true) procs.
End Process.

(** ** The process tree *)

Inductive TreeNode : Type :=
| mkTreeNode (process : ProcessInfo) (children : list TreeNode) (depth : nat).

Definition MAX_DEPTH : nat := 256.

(** pid -> indices of its children, in input order. *)
Definition children_map (procs : list ProcessInfo) : gmap Z (list nat) :=
  let pid_set : gset Z := list_to_set (pid <$> procs) in
  foldl (λ m ip,
    match parent_pid (ip.2 : ProcessInfo) with
    | Some ppid =>
        if bool_decide (0 < ppid ∧ ppid ∈ pid_set)
        then <[ppid := default [] (m !! ppid) ++ [ip.1]]> m else m
    | None => m
    end) ∅ (imap pair procs).

Definition is_root (procs : list ProcessInfo) (p : ProcessInfo) : bool :=
  match parent_pid p with
  | None => true
  | Some ppid => if ppid =? 0 then true else negb (bool_decide (ppid ∈ pid <$> procs))
  end.

Definition roots (procs : list ProcessInfo) : list nat :=
  (filter (λ ip, is_root procs ip.2 = true) (imap pair procs)).*1.

(** The [filter_map] over a node's children: place, with [build], each child
    not placed yet. *)
Fixpoint place_children (build : nat → list bool → TreeNode * list bool)
    (indices : list nat) (visited : list bool) : list TreeNode * list bool :=
  match indices with
  | [] => ([], visited)
  | ci :: indices =>
      if (visited !!! ci : bool) then place_children build indices visited
      else
        let '(t, visited) := build ci visited in
        let '(ts, visited) := place_children build indices visited in
        (t :: ts, visited)
  end.

(** [levels] is [MAX_DEPTH - depth], the levels still allowed below this one. *)
Fixpoint build_subtree (levels : nat) (children_map : gmap Z (list nat))
    (procs : list ProcessInfo) (idx : nat) (visited : list bool) : TreeNode * list bool :=
  let visited := <[idx := true]> visited in
  let p := procs !!! idx in
  let '(children, visited) :=
    match levels with
    | O => ([], visited)
    | S levels => place_children (build_subtree levels children_map procs)
                    (default [] (children_map !! pid p)) visited
    end in
  (mkTreeNode p children (MAX_DEPTH - levels), visited).

(** The root walk, and the sweep that re-roots what it could not reach. *)
Fixpoint plant (check : bool) (idxs : list nat) (procs : list ProcessInfo)
    (children_map : gmap Z (list nat)) (visited : list bool) : list TreeNode * list bool :=
  match idxs with
  | [] => ([], visited)
  | i :: idxs =>
      if check && (visited !!! i : bool) then plant check idxs procs children_map visited
      else
        let '(t, visited) := build_subtree MAX_DEPTH children_map procs i visited in
        let '(ts, visited) := plant check idxs procs children_map visited in
        (t :: ts, visited)
  end.

Definition build_process_tree (procs : list ProcessInfo) : list TreeNode :=
  if bool_decide (procs = []) then []
  else
    let cm := children_map procs in
    let visited := replicate (length procs) false in
    let '(forest, visited) := plant false (roots procs) procs cm visited in
    let '(rest, _) := plant true (seq 0 (length procs)) procs cm visited in
    forest ++ rest.

Fixpoint walk (node : TreeNode) : list (ProcessInfo * nat) :=
  match node with
  | mkTreeNode p children depth => (p, depth) :: concat (map walk children)
  end.

Definition flatten_tree (roots : list TreeNode) : list (ProcessInfo * nat) :=
  concat (map walk roots).

(** ** Sorting *)

Lemma insert_by_perm {A} (cmp : A → A → comparison) x l : insert_by cmp x l ≡ₚ x :: l.
Proof.
  induction l as [|y l IH]; simpl; [done|]. destruct (cmp x y); try done.
  rewrite IH. constructor.
Qed.

Lemma sort_by_perm {A} (cmp : A → A → comparison) l : sort_by cmp l ≡ₚ l.
Proof. induction l as [|x l IH]; simpl; [done|]. by rewrite insert_by_perm, IH. Qed.

Lemma insert_by_in_order {A} (P : A → Prop) cmp x (l : list A) :
  total_preorder P cmp → P x → Forall P l → in_order cmp l → in_order cmp (insert_by cmp x l).
Proof.
  intros Hc Hx Hl Hs. induction Hs as [|y l Hs IH Hy]; simpl;
    [constructor; constructor|].
  inversion_clear Hl as [|? ? HPy HPl].
  destruct (cmp x y) eqn:E.
  1, 2: constructor; [by constructor|]; constructor; [by rewrite E|];
    rewrite Forall_forall in *; intros z Hz;
    apply (cmp_trans _ _ Hc x y z); auto; by rewrite E.
  constructor; [by apply IH|]. rewrite insert_by_perm. constructor; [|done].
  rewrite (cmp_antisym _ _ Hc x y), E by done. done.
Qed.

Lemma sort_by_in_order {A} (P : A → Prop) cmp (l : list A) :
  total_preorder P cmp → Forall P l → in_order cmp (sort_by cmp l).
Proof.
  intros Hc. induction 1 as [|x l Hx Hl IH]; simpl; [constructor|].
  apply (insert_by_in_order P); try done. by rewrite sort_by_perm.
Qed.

(** Insertion sort is one admissible unstable sort. *)
Definition insertion_unstable : UnstableSort :=
  {| sort_unstable_by := @sort_by; sort_unstable_perm := @sort_by_perm;
     sort_unstable_sorted := @sort_by_in_order |}.

Lemma by_key_total_preorder {A K} (P : A → Prop) (Q : K → Prop) cmp (key : A → K) :
  (∀ a, P a → Q (key a)) → total_preorder Q cmp → total_preorder P (by_key cmp key).
Proof. intros HPQ [H1 H2]. split; unfold by_key; eauto. Qed.

Lemma Z_compare_total_preorder : total_preorder (λ _, True) Z.compare.
Proof.
  split; [intros; apply Z.compare_antisym|].
  intros x y z _ _ _. destruct (Z.compare_spec x y), (Z.compare_spec y z),
    (Z.compare_spec x z); try done; lia.
Qed.

Lemma str_cmp_total_preorder : total_preorder (λ _, True) str_cmp.
Proof. split; [intros; apply str_cmp_antisym|intros; by eapply str_cmp_trans]. Qed.

(** [partial_cmp(..).unwrap_or(Equal)]. *)
Definition float_cmp_or_eq (a b : spec_float) : comparison := default Eq (float_partial_cmp a b).

(** Finite floats ordered as (sign, exponent, mantissa); the infinities at the
    ends. *)
Lemma float_cmp_total_preorder : total_preorder (λ x, is_nan x = false) float_cmp_or_eq.
Proof.
  unfold float_cmp_or_eq, float_partial_cmp. split.
  - intros x y Hx Hy. rewrite (SFcompare_antisym x y).
    by destruct (SFcompare_total x y Hx Hy) as [c ->].
  - intros x y z Hx Hy Hz.
    destruct x as [sx|sx| |sx mx ex], y as [sy|sy| |sy my ey], z as [sz|sz| |sz mz ez];
      try done; repeat match goal with b : bool |- _ => destruct b end; simpl; try done;
      change (Pos.compare_cont Eq) with Pos.compare;
      destruct (Z.compare_spec ex ey), (Z.compare_spec ey ez), (Z.compare_spec ex ez);
      try done; try lia;
      destruct (Pos.compare_spec mx my), (Pos.compare_spec my mz), (Pos.compare_spec mx mz);
      try done; lia.
Qed.

Lemma StronglySorted_snoc {A} (R : A → A → Prop) l x :
  StronglySorted R l → Forall (λ y, R y x) l → StronglySorted R (l ++ [x]).
Proof.
  induction 1 as [|y l Hs IH Hy]; intros Hx; simpl; [by repeat constructor|].
  inversion_clear Hx. constructor; [by apply IH|]. apply Forall_app. auto.
Qed.

Lemma StronglySorted_reverse {A} (R : A → A → Prop) l :
  StronglySorted R l → StronglySorted (flip R) (reverse l).
Proof.
  induction 1 as [|x l Hs IH Hx]; [constructor|]. rewrite reverse_cons.
  apply StronglySorted_snoc; [done|]. by apply Forall_reverse.
Qed.

Lemma consistent_of {A} (P : A → Prop) cmp (l : list A) :
  total_preorder P cmp → Forall P l → consistent_on cmp l.
Proof. intros [Ha Ht] Hl. rewrite Forall_forall in Hl. split; eauto. Qed.

Section ProcessSort.
Context `{!Unicode} `{!UnstableSort}.

(** The comparison a field stands for: [cmp_cpu] is that of [Cpu]. *)
Definition field_cmp (field : SortField) : ProcessInfo → ProcessInfo → comparison :=
  match field with
  | Cpu => by_key float_cmp_or_eq cpu_percent
  | Mem => by_key Z.compare memory_bytes
  | Pid => by_key Z.compare pid
  | Name => by_key str_cmp (λ p, to_lowercase (name p))
  | User => by_key str_cmp (λ p, to_lowercase (user p))
  end.

(** Sorting by CPU needs comparable figures; the other keys always are. *)
Definition sortable (field : SortField) (p : ProcessInfo) : Prop :=
  field = Cpu → is_nan (cpu_percent p) = false.

Lemma field_cmp_total_preorder field : total_preorder (sortable field) (field_cmp field).
Proof.
  destruct field; simpl;
    [eapply by_key_total_preorder; [|apply float_cmp_total_preorder];
       intros a Ha; by apply Ha|..];
    (eapply by_key_total_preorder;
      [|first [apply Z_compare_total_preorder|apply str_cmp_total_preorder]]; done).
Qed.

Lemma sort_processes_perm procs field order : sort_processes procs field order ≡ₚ procs.
Proof.
  unfold sort_processes. destruct field, order; rewrite ?reverse_Permutation;
    first [apply sort_by_perm|apply sort_unstable_perm].
Qed.

(** Sorting the process table by any field, in either direction, reorders
    it and nothing else, and leaves it in the order that was asked for. *)
Theorem sort_processes_correct procs field order :
  Forall (sortable field) procs →
  sort_processes procs field order ≡ₚ procs ∧
  StronglySorted (λ a b, match order with
                         | Asc => field_cmp field a b ≠ Gt
                         | Desc => field_cmp field b a ≠ Gt
                         end) (sort_processes procs field order).
Proof.
  intros Hp. split; [apply sort_processes_perm|].
  pose proof (field_cmp_total_preorder field) as Hc.
  unfold sort_processes. destruct order.
  - destruct field; first [by eapply sort_by_in_order|by eapply sort_unstable_sorted].
  - apply (StronglySorted_reverse (λ a b, field_cmp field a b ≠ Gt)).
    destruct field; first [by eapply sort_by_in_order|by eapply sort_unstable_sorted].
Qed.
End ProcessSort.

(** ** Filtering *)

Lemma windows_spec n l w :
  (0 < n)%nat → w ∈ windows n l ↔ ∃ a b, l = a ++ w ++ b ∧ length w = n.
Proof.
  intros Hn. induction l as [|c l IH]; cbn [windows].
  - split; [by intros ?%elem_of_nil|]. intros (a & b & E & Hw).
    symmetry in E. apply app_eq_nil in E as [_ [-> _]%app_eq_nil]. simpl in Hw. lia.
  - case_bool_decide as Hle.
    + rewrite elem_of_cons, IH. split.
      * intros [->|(a & b & -> & Hw)]; [|by exists (c :: a), b].
        exists [], (drop n (c :: l)). rewrite length_take, app_nil_l, take_drop.
        split; [done|lia].
      * intros ([|x a] & b & E & Hw); [left|right].
        -- simpl in E. rewrite E. symmetry. by apply take_app_exact.
        -- simplify_eq/=. eauto.
    + split; [by intros ?%elem_of_nil|]. intros (a & b & E & Hw).
      apply (f_equal length) in E. rewrite !length_app in E. simpl in *. lia.
Qed.

Lemma zip_eq_ignore_case (w n : list Z) :
  length w = length n →
  forallb (λ ab, eq_ignore_ascii_case ab.1 ab.2) (zip w n) = true
  ↔ to_ascii_lowercase <$> w = to_ascii_lowercase <$> n.
Proof.
  revert n. induction w as [|a w IH]; intros [|b n] Hl; simplify_eq/=; [done|].
  rewrite andb_true_iff, IH, eq_ignore_ascii_case_spec by done.
  split; [intros [-> ->]; done|intros [= ? ?]; done].
Qed.

Lemma map_lower_fixed s :
  Forall (λ c, is_ascii_uppercase c = false) s → to_ascii_lowercase <$> s = s.
Proof.
  induction 1 as [|c s Hc Hs IH]; [done|]. rewrite fmap_cons, IH.
  unfold to_ascii_lowercase. by rewrite Hc.
Qed.

(** The allocation-free ASCII fast path is invisible: for a needle already
    lowercased, [contains_ignore_case] is the substring test on the lowercased
    haystack, on every input. *)
Theorem contains_ignore_case_correct `{!Unicode} haystack needle :
  Forall (λ c, is_ascii_uppercase c = false) needle →
  contains_ignore_case haystack needle = contains (to_lowercase haystack) needle.
Proof.
  intros Hlow. unfold contains_ignore_case. case_bool_decide as Hnil.
  { subst. by rewrite contains_nil_r. }
  destruct (is_ascii needle && is_ascii haystack) eqn:Hascii; [|done].
  apply andb_true_iff in Hascii as [_ Hh]. rewrite (to_lowercase_ascii _ Hh).
  assert (0 < length needle)%nat as Hpos by (destruct needle; simpl; [done|lia]).
  apply eq_true_iff_eq. rewrite contains_spec. case_bool_decide as Hlen.
  - split; [done|]. intros (a & b & E). apply (f_equal length) in E.
    rewrite length_fmap, !length_app in E. lia.
  - rewrite existsb_exists. setoid_rewrite <- list_elem_of_In. split.
    + intros (w & (a & b & -> & Hw)%windows_spec & Heq); [|done].
      apply zip_eq_ignore_case in Heq; [|done]. rewrite (map_lower_fixed _ Hlow) in Heq.
      exists (to_ascii_lowercase <$> a), (to_ascii_lowercase <$> b).
      by rewrite !fmap_app, Heq.
    + intros (a & b & E). apply fmap_app_inv in E as (a' & r & -> & E & ->).
      symmetry in E. apply fmap_app_inv in E as (w & b' & Hw & -> & ->). exists w.
      assert (length w = length needle) as Hwl by (by rewrite Hw, length_fmap).
      split; [apply windows_spec; eauto|]. apply zip_eq_ignore_case; [done|].
      by rewrite (map_lower_fixed _ Hlow).
Qed.

(** ** The tree holds every process once *)

(** [visited] goes from [v] to [v'] by marking exactly the indices [js], none of
    which was marked before. *)
Definition visits (v v' : list bool) (js : list nat) : Prop :=
  NoDup js ∧ length v' = length v ∧ Forall (λ i, v !! i = Some false) js ∧
  ∀ i, v' !! i = if decide (i ∈ js) then Some true else v !! i.

Lemma visits_nil v : visits v v [].
Proof.
  split_and!; [constructor|done|done|]. intros i. by rewrite decide_False by set_solver.
Qed.

Lemma visits_one v i : v !! i = Some false → visits v (<[i := true]> v) [i].
Proof.
  intros Hi. split_and!; [apply NoDup_singleton|apply length_insert|by constructor|].
  intros j. case_decide as Hj.
  - apply list_elem_of_singleton in Hj as ->. apply list_lookup_insert_eq.
    by eapply lookup_lt_Some.
  - apply list_lookup_insert_ne. set_solver.
Qed.

Lemma visits_app v v1 v2 is1 is2 :
  visits v v1 is1 → visits v1 v2 is2 → visits v v2 (is1 ++ is2).
Proof.
  intros (Hn1 & Hl1 & Hf1 & Hv1) (Hn2 & Hl2 & Hf2 & Hv2).
  assert (∀ i, i ∈ is2 → i ∉ is1 ∧ v !! i = Some false) as Hdisj.
  { intros i Hi. rewrite Forall_forall in Hf2. specialize (Hf2 i Hi).
    rewrite Hv1 in Hf2. by case_decide. }
  split_and!.
  - apply NoDup_app. split_and!; [done| |done]. intros i H1 H2. by apply Hdisj in H2 as [? _].
  - congruence.
  - apply Forall_app. split; [done|]. apply Forall_forall. intros i Hi. by apply Hdisj.
  - intros i. rewrite Hv2, Hv1. repeat case_decide; set_solver.
Qed.

Lemma visits_lookup_total v v' js i : visits v v' js → (v' !!! i : bool) = false → i ∉ js.
Proof.
  intros (_ & _ & _ & Hv) Hi Hin. rewrite list_lookup_total_alt, Hv in Hi.
  by rewrite decide_True in Hi.
Qed.

Section Tree.
Variable procs : list ProcessInfo.
Variable cm : gmap Z (list nat).

Definition listed (i : nat) : Prop := ∃ k js, cm !! k = Some js ∧ i ∈ js.
Hypothesis listed_bound : ∀ i, listed i → (i < length procs)%nat.

(** What a builder of one subtree owes: it marks its root and some listed
    indices, and its tree holds the processes at those indices. *)
Definition builds (idx : nat) (v v' : list bool) (ts : list TreeNode) (js : list nat) : Prop :=
  visits v v' js ∧ (flatten_tree ts).*1 = (λ i, procs !!! i) <$> js
  ∧ Forall (λ i, i = idx ∨ listed i) js ∧ idx ∈ js.

Lemma place_children_spec build indices v ts v' :
  (∀ i v t v', length v = length procs → v !! i = Some false → build i v = (t, v') →
     ∃ js, builds i v v' [t] js) →
  Forall listed indices → length v = length procs →
  place_children build indices v = (ts, v') →
  ∃ js, visits v v' js ∧ (flatten_tree ts).*1 = (λ i, procs !!! i) <$> js ∧ Forall listed js.
Proof.
  intros Hbuild Hi. revert v ts. induction Hi as [|i indices Hi Hall IH]; intros v ts Hv E.
  - simplify_eq/=. exists []. split_and!; [apply visits_nil|done|done].
  - simpl in E. destruct (v !!! i : bool) eqn:Hvi; [by apply IH|].
    destruct (build i v) as [t v1] eqn:E1.
    destruct (place_children build indices v1) as [ts1 v2] eqn:E2. simplify_eq.
    assert (v !! i = Some false) as Hi0.
    { apply listed_bound in Hi. rewrite <- Hv in Hi.
      destruct (lookup_lt_is_Some_2 _ _ Hi) as [b Hb].
      rewrite list_lookup_total_alt, Hb in Hvi. by simpl in Hvi; subst. }
    destruct (Hbuild i v t v1 Hv Hi0 E1) as (is1 & V1 & F1 & L1 & _).
    assert (length v1 = length procs) as Hv1 by (destruct V1 as (_ & -> & _); done).
    destruct (IH v1 ts1 Hv1 E2) as (is2 & V2 & F2 & L2).
    exists (is1 ++ is2). split_and!; [by eapply visits_app| |].
    + unfold flatten_tree in *. simpl in *. rewrite app_nil_r in F1.
      by rewrite !fmap_app, F1, F2.
    + apply Forall_app. split; [|done]. eapply Forall_impl; [exact L1|]. by intros j [->|?].
Qed.

Lemma build_subtree_spec levels idx v t v' :
  length v = length procs → v !! idx = Some false →
  build_subtree levels cm procs idx v = (t, v') →
  ∃ js, builds idx v v' [t] js.
Proof.
  revert idx v t v'. induction levels as [|levels IH]; intros idx v t v' Hv Hi E; simpl in E.
  - simplify_eq. exists [idx].
    split_and!; [by apply visits_one|done|by repeat constructor; left|by apply list_elem_of_singleton].
  - set (cs := default [] (cm !! pid (procs !!! idx))) in *.
    destruct (place_children (build_subtree levels cm procs) cs (<[idx := true]> v))
      as [ts v2] eqn:E2. simplify_eq.
    destruct (place_children_spec _ cs (<[idx := true]> v) ts v' (IH)) as (js & V & F & L).
    + apply Forall_forall. intros i Hin. unfold cs in Hin.
      destruct (cm !! pid (procs !!! idx)) as [l|] eqn:El; [by exists (pid (procs !!! idx)), l|].
      by apply elem_of_nil in Hin.
    + by rewrite length_insert.
    + done.
    + exists (idx :: js). split_and!.
      * by apply (visits_app _ (<[idx := true]> v) _ [idx] js); [apply visits_one|].
      * unfold flatten_tree in *. cbn [map concat walk]. rewrite app_nil_r, !fmap_cons.
        by rewrite <- F.
      * constructor; [by left|]. eapply Forall_impl; [exact L|]. by right.
      * by left.
Qed.
End Tree.

(** ** Children and roots *)

Definition has_listed_parent (procs : list ProcessInfo) (p : ProcessInfo) : Prop :=
  ∃ ppid, parent_pid p = Some ppid ∧ 0 < ppid ∧ ppid ∈ pid <$> procs.

Lemma elem_of_imap_pair (procs : list ProcessInfo) i p :
  (i, p) ∈ imap pair procs ↔ procs !! i = Some p.
Proof.
  rewrite elem_of_lookup_imap. split.
  - by intros (j & q & [= -> ->] & ?).
  - intros H. by exists i, p.
Qed.

Lemma imap_pair_fst (procs : list ProcessInfo) : (imap pair procs).*1 = seq 0 (length procs).
Proof.
  apply list_eq. intros i. rewrite list_lookup_fmap, list_lookup_imap.
  destruct (procs !! i) as [p|] eqn:E; simpl.
  - symmetry. apply lookup_seq. split; [done|]. by eapply lookup_lt_Some.
  - symmetry. apply lookup_seq_ge. by apply lookup_ge_None.
Qed.

(** One step of the loop that fills the map. *)
Definition add_child (pid_set : gset Z) (m : gmap Z (list nat)) (ip : nat * ProcessInfo)
    : gmap Z (list nat) :=
  match parent_pid ip.2 with
  | Some ppid =>
      if bool_decide (0 < ppid ∧ ppid ∈ pid_set)
      then <[ppid := default [] (m !! ppid) ++ [ip.1]]> m else m
  | None => m
  end.

(** Every index filed under [k] is a process that names [k] as its parent. *)
Lemma children_map_lookup procs k js i :
  children_map procs !! k = Some js → i ∈ js →
  ∃ p, procs !! i = Some p ∧ parent_pid p = Some k ∧ 0 < k ∧ k ∈ pid <$> procs.
Proof.
  set (P := λ m : gmap Z (list nat), ∀ k js i, m !! k = Some js → i ∈ js →
    ∃ p, procs !! i = Some p ∧ parent_pid p = Some k ∧ 0 < k ∧ k ∈ pid <$> procs).
  assert (∀ L m, L ⊆ imap pair procs → P m →
    P (foldl (add_child (list_to_set (pid <$> procs))) m L)) as Hgen.
  { intros L. induction L as [|[j q] L IH]; intros m HL Hm; [done|]. apply IH; [set_solver|].
    intros k' js' i' Hk Hin. unfold add_child in Hk; simpl in Hk.
    destruct (parent_pid q) as [ppid|] eqn:Eq; [|by eapply Hm].
    case_bool_decide as Hpp; [|by eapply Hm]. destruct (decide (ppid = k')) as [->|].
    - rewrite lookup_insert_eq in Hk. simplify_eq.
      apply elem_of_app in Hin as [Hin|Hin].
      + destruct (m !! k') as [l|] eqn:El; [by eapply Hm|by apply elem_of_nil in Hin].
      + apply list_elem_of_singleton in Hin as ->. exists q.
        split; [apply elem_of_imap_pair, HL; by left|].
        split; [done|]. destruct Hpp as [? ?%elem_of_list_to_set]. done.
    - rewrite lookup_insert_ne in Hk by done. by eapply Hm. }
  apply (Hgen (imap pair procs) ∅); [done|].
  intros k' js' i' Hk. by rewrite lookup_empty in Hk.
Qed.

Lemma children_map_spec procs i :
  listed (children_map procs) i →
  ∃ p, procs !! i = Some p ∧ has_listed_parent procs p.
Proof.
  intros (k & js & Hjs & Hin).
  destruct (children_map_lookup _ _ _ _ Hjs Hin) as (p & Hp & Hpp). exists p. split; [done|].
  by exists k.
Qed.

Lemma listed_lt procs i : listed (children_map procs) i → (i < length procs)%nat.
Proof. intros (p & Hp & _)%children_map_spec. by eapply lookup_lt_Some. Qed.

Lemma roots_spec procs i :
  i ∈ roots procs ↔ ∃ p, procs !! i = Some p ∧ is_root procs p = true.
Proof.
  unfold roots. rewrite list_elem_of_fmap. split.
  - intros ([j p] & -> & [Hr Hin]%list_elem_of_filter). apply elem_of_imap_pair in Hin. eauto.
  - intros (p & Hp & Hr). exists (i, p). split; [done|].
    apply list_elem_of_filter. split; [done|]. by apply elem_of_imap_pair.
Qed.

Lemma roots_NoDup procs : NoDup (roots procs).
Proof.
  assert (NoDup (imap pair procs).*1) as H by (rewrite imap_pair_fst; apply NoDup_seq).
  unfold roots. eapply sublist_NoDup; [exact H|]. apply fmap_sublist. clear H.
  induction (imap pair procs) as [|x l IH]; [constructor|].
  rewrite filter_cons. case_decide; [by constructor|by apply sublist_cons].
Qed.

Lemma root_not_listed procs i : i ∈ roots procs → ¬ listed (children_map procs) i.
Proof.
  intros (p & Hp & Hr)%roots_spec (q & Hq & ppid & Epp & Hpos & Hin)%children_map_spec.
  simplify_eq. unfold is_root in Hr. rewrite Epp in Hr.
  destruct (Z.eqb_spec ppid 0); [lia|]. by rewrite bool_decide_eq_true_2 in Hr.
Qed.

(** ** The forest *)

Definition all_placed (procs : list ProcessInfo) (v : list bool) : Prop :=
  ∀ i, (i < length procs)%nat → v !! i = Some true.

Section Forest.
Variable procs : list ProcessInfo.
Let cm := children_map procs.

(** A planted row of trees: the indices it marks are the ones it lists, and
    each is a root of the row or listed as some process's child. *)
Lemma plant_spec check idxs v ts v' :
  length v = length procs → Forall (λ i, (i < length procs)%nat) idxs →
  (check = false → NoDup idxs ∧ Forall (λ i, ¬ listed cm i ∧ v !! i = Some false) idxs) →
  plant check idxs procs cm v = (ts, v') →
  ∃ js, visits v v' js ∧ (flatten_tree ts).*1 = (λ i, procs !!! i) <$> js
        ∧ (∀ i, i ∈ idxs → v' !! i = Some true).
Proof.
  intros Hv Hlt Hfree E. revert v ts Hv Hfree E.
  induction Hlt as [|i idxs Hi Hlt IH]; intros v ts Hv Hfree E.
  { simplify_eq/=. exists []. split_and!; [apply visits_nil|done|]. intros i. by intros ?%elem_of_nil. }
  cbn [plant] in E. rewrite <- Hv in Hi.
  destruct (lookup_lt_is_Some_2 _ _ Hi) as [b Hb].
  assert ((v !!! i : bool) = b) as Hbt by (by rewrite list_lookup_total_alt, Hb).
  rewrite Hbt in E. destruct (check && b) eqn:Hskip.
  - apply andb_true_iff in Hskip as [-> ->].
    destruct (IH v ts Hv ltac:(done) E) as (js & V & F & A). exists js. split_and!; [done|done|].
    intros j [->|Hj]%elem_of_cons; [|by apply A].
    destruct V as (_ & _ & _ & V). rewrite V. by case_decide.
  - assert (b = false) as ->.
    { destruct check, b; try done. destruct (Hfree eq_refl) as [_ Hf].
      inversion_clear Hf as [|? ? [_ Hf1] _]. congruence. }
    destruct (build_subtree MAX_DEPTH cm procs i v) as [t v1] eqn:E1.
    destruct (plant check idxs procs cm v1) as [ts1 v2] eqn:E2. simplify_eq.
    destruct (build_subtree_spec procs cm (listed_lt procs) _ _ _ _ _ Hv Hb E1)
      as (js1 & V1 & F1 & L1 & I1).
    assert (length v1 = length procs) as Hv1 by (destruct V1 as (_ & -> & _); done).
    destruct (IH v1 ts1 Hv1) as (js2 & V2 & F2 & A2); [|done|].
    { intros Hc. destruct (Hfree Hc) as [[Hni Hnd]%NoDup_cons Hf]. split; [done|].
      inversion_clear Hf as [|? ? _ Hf']. rewrite Forall_forall in Hf', L1 |- *.
      intros j Hj. destruct (Hf' j Hj) as [Hnl Hfalse]. split; [done|].
      destruct V1 as (_ & _ & _ & Hval). rewrite Hval, decide_False; [done|].
      intros Hin. by destruct (L1 j Hin) as [->|?]. }
    exists (js1 ++ js2). split_and!; [by eapply visits_app| |].
    + unfold flatten_tree in *. simpl in *. rewrite app_nil_r in F1. by rewrite !fmap_app, F1, F2.
    + intros j [->|Hj]%elem_of_cons; [|by apply A2].
      destruct V2 as (_ & _ & _ & V2). rewrite V2. case_decide; [done|].
      destruct V1 as (_ & _ & _ & V1). by rewrite V1, decide_True.
Qed.

Lemma forest_indices forest :
  build_process_tree procs = forest →
  ∃ js, js ≡ₚ seq 0 (length procs) ∧ (flatten_tree forest).*1 = (λ i, procs !!! i) <$> js.
Proof.
  unfold build_process_tree. case_bool_decide as Hnil; [by intros <-; exists []; subst|].
  fold cm. set (v0 := replicate (length procs) false).
  destruct (plant false (roots procs) procs cm v0) as [f1 v1] eqn:E1.
  destruct (plant true (seq 0 (length procs)) procs cm v1) as [f2 v2] eqn:E2. intros <-.
  assert (length v0 = length procs) as Hv0 by apply length_replicate.
  destruct (plant_spec false (roots procs) v0 f1 v1) as (js1 & V1 & F1 & _); [done| | |done|].
  { apply Forall_forall. intros i (p & Hp & _)%roots_spec. by eapply lookup_lt_Some. }
  { intros _. split; [apply roots_NoDup|]. apply Forall_forall. intros i Hi.
    split; [by apply root_not_listed|]. apply lookup_replicate. split; [done|].
    apply roots_spec in Hi as (p & Hp & _). by eapply lookup_lt_Some. }
  assert (length v1 = length procs) as Hv1 by (destruct V1 as (_ & -> & _); done).
  destruct (plant_spec true (seq 0 (length procs)) v1 f2 v2) as (js2 & V2 & F2 & A2);
    [done| |done|done|].
  { apply Forall_forall. intros i Hi%elem_of_seq. lia. }
  pose proof (visits_app _ _ _ _ _ V1 V2) as (Hnd & _ & Hf & Hval).
  exists (js1 ++ js2). split.
  - apply NoDup_Permutation; [done|apply NoDup_seq|]. intros i. rewrite elem_of_seq. split.
    + intros Hi. rewrite Forall_forall in Hf. specialize (Hf i Hi).
      apply lookup_lt_Some in Hf. lia.
    + intros Hi. specialize (A2 i ltac:(apply elem_of_seq; lia)). rewrite Hval in A2.
      case_decide as Hin; [done|]. unfold v0 in A2. apply lookup_replicate in A2 as [? _]. done.
  - unfold flatten_tree in *. by rewrite map_app, concat_app, !fmap_app, F1, F2.
Qed.
End Forest.

Lemma lookup_total_seq {A} `{!Inhabited A} (l : list A) :
  (λ i, l !!! i) <$> seq 0 (length l) = l.
Proof.
  apply list_eq. intros i. rewrite list_lookup_fmap.
  destruct (decide (i < length l)%nat) as [Hi|Hi].
  - rewrite (proj2 (lookup_seq 0 (length l) i i)) by lia. simpl.
    rewrite list_lookup_total_alt. by destruct (lookup_lt_is_Some_2 _ _ Hi) as [x ->].
  - rewrite lookup_seq_ge by lia. symmetry. apply lookup_ge_None. lia.
Qed.

(** C13: the tree view loses nothing and invents nothing: whatever parent links
    the snapshot reports (orphans, recycled pids, duplicate pids, cycles,
    chains deeper than the recursion limit), flattening the forest yields each
    input process exactly once. *)
Theorem tree_is_permutation procs :
  (flatten_tree (build_process_tree procs)).*1 ≡ₚ procs.
Proof.
  destruct (forest_indices procs _ eq_refl) as (js & Hjs & ->).
  rewrite Hjs. by rewrite lookup_total_seq.
Qed.

(** ** Shape of the tree *)

Definition node_process (t : TreeNode) : ProcessInfo :=
  match t with mkTreeNode p _ _ => p end.

(** A node at depth [d]: its children sit one deeper and name it as their
    parent, and no node is deeper than the recursion limit. *)
Inductive shaped : nat → TreeNode → Prop :=
| shaped_node p ts d :
    (d ≤ MAX_DEPTH)%nat →
    Forall (shaped (S d)) ts →
    Forall (λ t, parent_pid (node_process t) = Some (pid p)) ts →
    shaped d (mkTreeNode p ts d).

Lemma place_children_Forall (P : TreeNode → Prop) build indices v ts v' :
  Forall (λ i, ∀ v t v', build i v = (t, v') → P t) indices →
  place_children build indices v = (ts, v') → Forall P ts.
Proof.
  intros Hb. revert v ts. induction Hb as [|i indices Hi Hb IH]; intros v ts E; simplify_eq/=;
    [constructor|].
  destruct (v !!! i : bool); [by eapply IH|].
  destruct (build i v) as [t v1] eqn:E1.
  destruct (place_children build indices v1) as [ts1 v2] eqn:E2. simplify_eq. eauto.
Qed.

(** Every listed child names the process it is listed under. *)
Lemma children_map_parent procs k js i :
  children_map procs !! k = Some js → i ∈ js → parent_pid (procs !!! i) = Some k.
Proof.
  intros Hjs Hin. destruct (children_map_lookup _ _ _ _ Hjs Hin) as (p & Hp & Hpp & _).
  by rewrite list_lookup_total_alt, Hp.
Qed.

Lemma build_subtree_shaped procs levels idx v t v' :
  (levels ≤ MAX_DEPTH)%nat →
  build_subtree levels (children_map procs) procs idx v = (t, v') →
  shaped (MAX_DEPTH - levels) t ∧ node_process t = procs !!! idx.
Proof.
  revert idx v t v'. induction levels as [|levels IH]; intros idx v t v' Hl E;
    cbn [build_subtree] in E.
  - simplify_eq. split; [|done]. constructor; [lia|constructor|constructor].
  - destruct (place_children _ _ _) as [ts v2] eqn:E2. simplify_eq. split; [|done].
    assert (Forall (λ t, shaped (S (MAX_DEPTH - S levels)) t
              ∧ parent_pid (node_process t) = Some (pid (procs !!! idx))) ts) as [H1 H2]%Forall_and.
    { eapply place_children_Forall; [|exact E2]. apply Forall_forall. intros i Hi v1 t1 v1' E1.
      destruct (IH i v1 t1 v1' ltac:(lia) E1) as [Hs Hp].
      replace (S (MAX_DEPTH - S levels)) with (MAX_DEPTH - levels)%nat by lia.
      split; [done|]. rewrite Hp.
      destruct (children_map procs !! pid (procs !!! idx)) as [l|] eqn:El;
        [by eapply children_map_parent|by apply elem_of_nil in Hi]. }
    constructor; [lia|done|done].
Qed.

Lemma plant_shaped procs check idxs v ts v' :
  plant check idxs procs (children_map procs) v = (ts, v') → Forall (shaped 0) ts.
Proof.
  revert v ts. induction idxs as [|i idxs IH]; intros v ts E; cbn [plant] in E;
    [by simplify_eq|].
  destruct (check && (v !!! i : bool)); [by eapply IH|].
  destruct (build_subtree _ _ _ _ _) as [t v1] eqn:E1.
  destruct (plant _ _ _ _ v1) as [ts1 v2] eqn:E2. simplify_eq. constructor; [|by eapply IH].
  apply build_subtree_shaped in E1 as [Hs _]; [|lia].
  by replace 0%nat with (MAX_DEPTH - MAX_DEPTH)%nat by lia.
Qed.

(** In the forest every root is at depth 0, every child sits one level below
    its parent and names it in [parent_pid], and recursion never goes past
    [MAX_DEPTH]. *)
Theorem tree_shaped procs : Forall (shaped 0) (build_process_tree procs).
Proof.
  unfold build_process_tree. case_bool_decide; [constructor|].
  destruct (plant false _ _ _ _) as [f1 v1] eqn:E1.
  destruct (plant true _ _ _ _) as [f2 v2] eqn:E2.
  apply Forall_app. split; by eapply plant_shaped.
Qed.

(** ** Witnesses *)

Definition proc (p : Z) (pp : option Z) (n : string) : ProcessInfo :=
  mkProcessInfo p pp (lit n) (lit n) (lit "root") f32_zero (p * 10) f32_zero [].

(** init, a shell under it, and two processes each other's parent. *)
Definition demo_procs : list ProcessInfo :=
  [proc 7 (Some 8) "Loop-A"; proc 1 None "init"; proc 5 (Some 1) "sh"; proc 8 (Some 7) "loop-b"].

Example demo_tree :
  (λ pd, (pid pd.1, pd.2)) <$> flatten_tree (build_process_tree demo_procs)
  = [(1, 0%nat); (5, 1%nat); (7, 0%nat); (8, 1%nat)].
Proof. vm_compute. reflexivity. Qed.

Lemma sort_processes_correct_witness :
  let sorted := @sort_processes ascii_tables insertion_unstable demo_procs Cpu Desc in
  sorted ≡ₚ demo_procs ∧
  StronglySorted (λ a b, @field_cmp ascii_tables Cpu b a ≠ Gt) sorted.
Proof.
  apply (@sort_processes_correct ascii_tables insertion_unstable demo_procs Cpu Desc).
  by repeat constructor.
Defined.

Lemma contains_ignore_case_correct_witness :
  @contains_ignore_case ascii_tables (lit "Loop-A") (lit "op-a") = true.
Proof.
  rewrite (@contains_ignore_case_correct ascii_tables (lit "Loop-A") (lit "op-a"));
    [reflexivity|]. by repeat constructor.
Defined.
