(* ===== verification/Network.v ===== *)
(** * Network interfaces and their history: crates/muxtop-core/src/network.rs *)

From S2P Require Import Prelude Str RsFloat.
Local Open Scope Z_scope.

Record NetworkInterfaceSnapshot := mkInterface {
  if_name : str;
  bytes_rx : Z;
  bytes_tx : Z;
  packets_rx : Z;
  packets_tx : Z;
  errors_rx : Z;
  errors_tx : Z;
  mac_address : str;
  is_up : bool;
}.

Record NetworkSnapshot := mkNetworkSnapshot {
  interfaces : list NetworkInterfaceSnapshot;
  total_rx : Z;
  total_tx : Z;
}.

(** What [sysinfo::NetworkData] reports of one interface. *)
Record NetworkData := mkNetworkData {
  total_received : Z;
  total_transmitted : Z;
  total_packets_received : Z;
  total_packets_transmitted : Z;
  total_errors_on_received : Z;
  total_errors_on_transmitted : Z;
  data_mac_address : str;
}.

Definition interface_of (nd : str * NetworkData) : NetworkInterfaceSnapshot :=
  let '(name, data) := nd in
  let bytes_rx := total_received data in
  let bytes_tx := total_transmitted data in
  mkInterface name bytes_rx bytes_tx
    (total_packets_received data) (total_packets_transmitted data)
    (total_errors_on_received data) (total_errors_on_transmitted data)
    (data_mac_address data) ((0 <? bytes_rx) || (0 <? bytes_tx)).

(** [NetworkSnapshot::collect], over the interfaces sysinfo iterates. *)
Definition NetworkSnapshot_collect (networks : list (str * NetworkData)) : NetworkSnapshot :=
  mkNetworkSnapshot (interface_of <$> networks)
    (fold_left (λ acc nd, u64_saturating_add acc (total_received nd.2)) networks 0)
    (fold_left (λ acc nd, u64_saturating_add acc (total_transmitted nd.2)) networks 0).

(** ** The ring of snapshots *)

Record TimestampedSnapshot := mkTimestamped {
  snapshot : NetworkSnapshot;
  timestamp : Instant;
}.

#[global] Instance TimestampedSnapshot_inhabited : Inhabited TimestampedSnapshot :=
  populate (mkTimestamped (mkNetworkSnapshot [] 0 0) 0).

Record NetworkHistory := mkNetworkHistory {
  samples : list TimestampedSnapshot;
  capacity : nat;
}.

Definition NetworkHistory_new (capacity : nat) : NetworkHistory :=
  mkNetworkHistory [] (max capacity 2).

Definition push (self : NetworkHistory) (snapshot : NetworkSnapshot) (now : Instant)
    : NetworkHistory :=
  let samples := if bool_decide (capacity self ≤ length (samples self))%nat
                 then tail (samples self) else samples self in
  mkNetworkHistory (samples ++ [mkTimestamped snapshot now]) (capacity self).

Definition find_iface_value (snapshot : NetworkSnapshot) (iface : str)
    (extract : NetworkInterfaceSnapshot → Z) : option Z :=
  extract <$> find (λ i, bool_decide (if_name i = iface)) (interfaces snapshot).

Definition iface_value (s : TimestampedSnapshot) (iface : str)
    (extract : NetworkInterfaceSnapshot → Z) : Z :=
  default 0 (find_iface_value (snapshot s) iface extract).

Definition bandwidth (self : NetworkHistory) (iface : str)
    (extract : NetworkInterfaceSnapshot → Z) : f64 :=
  let n := length (samples self) in
  if bool_decide (n < 2)%nat then S754_zero false
  else
    let prev := samples self !!! (n - 2)%nat in
    let curr := samples self !!! (n - 1)%nat in
    let delta := f64_of_Z (saturating_sub (iface_value curr iface extract)
                             (iface_value prev iface extract)) in
    let elapsed := as_secs_f64 (duration_since (timestamp curr) (timestamp prev)) in
    if float_gt elapsed (S754_zero false) then f64_div delta elapsed else S754_zero false.

Definition sparkline (self : NetworkHistory) (iface : str) (points : nat)
    (extract : NetworkInterfaceSnapshot → Z) : list Z :=
  let len := length (samples self) in
  if bool_decide (len < 2)%nat || bool_decide (points = 0%nat) then []
  else
    let n := min points (len - 1) in
    let start := (len - n - 1)%nat in
    (* for i in start..len - 1 *)
    (λ i, saturating_sub (iface_value (samples self !!! S i) iface extract)
            (iface_value (samples self !!! i) iface extract)) <$> seq start n.

Definition bandwidth_rx self iface := bandwidth self iface bytes_rx.
Definition bandwidth_tx self iface := bandwidth self iface bytes_tx.
Definition sparkline_rx self iface points := sparkline self iface points bytes_rx.
Definition sparkline_tx self iface points := sparkline self iface points bytes_tx.

(** ** Lemmas *)

Lemma u64_saturating_add_bounds a b : is_u64 a → is_u64 b → is_u64 (u64_saturating_add a b).
Proof. unfold is_u64, u64_saturating_add. lia. Qed.

Lemma saturating_total {A} (f : A → Z) (l : list A) acc :
  is_u64 acc → Forall (λ a, is_u64 (f a)) l →
  fold_left (λ acc a, u64_saturating_add acc (f a)) l acc
  = Z.min (acc + foldr Z.add 0 (f <$> l)) u64_max.
Proof.
  intros Hacc Hl. revert acc Hacc. induction Hl as [|a l Ha Hl IH]; intros acc Hacc; cbn -[u64_max].
  - unfold is_u64 in *. lia.
  - rewrite IH by (by apply u64_saturating_add_bounds).
    assert (0 ≤ foldr Z.add 0 (f <$> l)) as Hpos.
    { clear -Hl. induction Hl as [|? ? [? _] _ IH]; [done|]. rewrite fmap_cons. simpl. lia. }
    revert Hpos. generalize (foldr Z.add 0 (f <$> l)). intros S HS.
    destruct Ha, Hacc. unfold u64_saturating_add. lia.
Qed.

(** A history as [new] and [push] build it. *)
Definition history_ok (h : NetworkHistory) : Prop :=
  (2 ≤ capacity h)%nat ∧ (length (samples h) ≤ capacity h)%nat.

Lemma push_ok h s now : history_ok h → history_ok (push h s now).
Proof.
  intros [Hc Hl]. split; [done|]. unfold push; simpl. rewrite length_app; simpl.
  case_bool_decide; [|lia]. destruct (samples h); simpl in *; lia.
Qed.

(** Pushing a run of snapshots. *)
Definition push_all (h : NetworkHistory) (l : list (NetworkSnapshot * Instant)) : NetworkHistory :=
  foldl (λ h st, push h st.1 st.2) h l.

Lemma push_samples h s now :
  history_ok h →
  samples (push h s now)
  = drop (S (length (samples h)) - capacity h) (samples h ++ [mkTimestamped s now]).
Proof.
  intros [Hc Hl]. unfold push; simpl. case_bool_decide as Hfull.
  - replace (S (length (samples h)) - capacity h)%nat with 1%nat by lia.
    destruct (samples h); simpl in *; [lia|done].
  - by replace (S (length (samples h)) - capacity h)%nat with 0%nat by lia.
Qed.

(** The history is a sliding window: after any run of pushes on a fresh
    history it holds exactly the last [capacity] snapshots, oldest first, and
    never more; capacities below two are raised to two. *)
Theorem history_is_window capacity l :
  let h := push_all (NetworkHistory_new capacity) l in
  samples h = drop (length l - max capacity 2) ((λ st, mkTimestamped st.1 st.2) <$> l)
  ∧ (length (samples h) ≤ max capacity 2)%nat.
Proof.
  simpl. set (c := max capacity 2).
  assert (samples (push_all (NetworkHistory_new capacity) l)
          = drop (length l - c) ((λ st, mkTimestamped st.1 st.2) <$> l)
          ∧ Network.capacity (push_all (NetworkHistory_new capacity) l) = c
          ∧ history_ok (push_all (NetworkHistory_new capacity) l)) as (-> & _ & _ & Hok).
  2: { split; [done|]. rewrite length_drop, length_fmap. lia. }
  induction l as [|[s t] l IH] using rev_ind; [by repeat split; simpl; lia|].
  destruct IH as (IHs & IHc & IHok). unfold push_all in *. rewrite foldl_snoc.
  split_and!; [|done|by apply push_ok].
  rewrite push_samples, IHs, IHc by done.
  rewrite fmap_app, length_drop, length_fmap, length_app. simpl.
  destruct (decide (length l < c)%nat) as [Hlt|Hge].
  - replace (length l - c)%nat with 0%nat by lia. rewrite drop_0. f_equal. lia.
  - rewrite <- drop_app_le by (rewrite length_fmap; lia).
    rewrite drop_drop. f_equal. lia.
Qed.

(** The aggregate counters are the exact sums of the interfaces' counters,
    capped at the largest 64-bit value instead of wrapping. *)
Theorem collect_totals networks :
  Forall (λ nd, is_u64 (total_received nd.2) ∧ is_u64 (total_transmitted nd.2)) networks →
  let s := NetworkSnapshot_collect networks in
  total_rx s = Z.min (foldr Z.add 0 (bytes_rx <$> interfaces s)) u64_max ∧
  total_tx s = Z.min (foldr Z.add 0 (bytes_tx <$> interfaces s)) u64_max.
Proof.
  intros [H1 H2]%Forall_and. simpl.
  rewrite (saturating_total (λ nd : str * NetworkData, total_received nd.2)) by done.
  rewrite (saturating_total (λ nd : str * NetworkData, total_transmitted nd.2)) by done.
  rewrite <- !list_fmap_compose, !Z.add_0_l.
  split; do 2 f_equal; apply list_fmap_ext; by intros ? [].
Qed.

(** A sparkline has one point per consecutive pair of samples, the newest
    [points] of them, and each is the counter's increase, or zero when the
    counter went backwards (an interface reset). *)
Theorem sparkline_spec h iface points extract :
  let len := length (samples h) in
  let n := min points (len - 1) in
  length (sparkline h iface points extract) = n ∧
  ∀ k, (k < n)%nat →
    let prev := iface_value (samples h !!! (len - n - 1 + k)%nat) iface extract in
    let curr := iface_value (samples h !!! (len - n + k)%nat) iface extract in
    sparkline h iface points extract !! k = Some (if prev <=? curr then curr - prev else 0).
Proof.
  intros len n. unfold sparkline. fold len.
  destruct (bool_decide_reflect (len < 2)%nat) as [Hlen|Hlen]; simpl.
  { assert (n = 0%nat) as -> by (unfold n; lia). split; [done|lia]. }
  case_bool_decide as Hp.
  { assert (n = 0%nat) as -> by (unfold n; lia). split; [done|lia]. }
  fold n. rewrite length_fmap, length_seq. split; [done|]. intros k Hk.
  rewrite list_lookup_fmap, (proj2 (lookup_seq _ _ k (len - n - 1 + k))) by lia. simpl.
  replace (S (len - n - 1 + k)) with (len - n + k)%nat by (unfold n in *; lia).
  f_equal. unfold saturating_sub. destruct (Z.leb_spec
    (iface_value (samples h !!! (len - n - 1 + k)%nat) iface extract)
    (iface_value (samples h !!! (len - n + k)%nat) iface extract)); lia.
Qed.

Lemma collect_totals_witness :
  let s := NetworkSnapshot_collect
             [(lit "eth0", mkNetworkData u64_max 7 0 0 0 0 []);
              (lit "lo", mkNetworkData 5 9 0 0 0 0 [])] in
  total_rx s = Z.min (foldr Z.add 0 (bytes_rx <$> interfaces s)) u64_max ∧
  total_tx s = Z.min (foldr Z.add 0 (bytes_tx <$> interfaces s)) u64_max.
Proof.
  apply (collect_totals
    [(lit "eth0", mkNetworkData u64_max 7 0 0 0 0 []); (lit "lo", mkNetworkData 5 9 0 0 0 0 [])]).
  repeat constructor; unfold is_u64, u64_max; simpl; lia.
Defined.
