(* ===== verification/Gpu.v ===== *)
(** * GPU data and the composite engine:
    crates/muxtop-core/src/gpu.rs and gpu_engine.rs

    The snapshot model, its derived figures, and the merge that presents the
    devices of several vendor backends as one list.  The backends themselves
    are outside this file: what each answers is an input. *)

From S2P Require Import Prelude Str RsFloat.
Local Open Scope Z_scope.
Local Open Scope record_scope.

Inductive GpuVendor : Type := Nvidia | Amd | Intel | Apple | UnknownVendor.

Definition GpuVendor_label (self : GpuVendor) : str :=
  match self with
  | Nvidia => lit "nvidia" | Amd => lit "amd" | Intel => lit "intel"
  | Apple => lit "apple" | UnknownVendor => lit "unknown"
  end.

Inductive GpuBackend : Type := Nvml | AmdSysfs | AppleIoReport.

#[global] Instance GpuBackend_eq_dec : EqDecision GpuBackend.
Proof. solve_decision. Defined.

Definition GpuBackend_label (self : GpuBackend) : str :=
  match self with
  | Nvml => lit "nvml" | AmdSysfs => lit "amdgpu-sysfs" | AppleIoReport => lit "ioreport"
  end.

Inductive GpuProcessKind : Type := Compute | Graphics | Both | UnknownKind.

#[global] Instance GpuProcessKind_eq_dec : EqDecision GpuProcessKind.
Proof. solve_decision. Defined.

Definition GpuProcessKind_label (self : GpuProcessKind) : str :=
  match self with
  | Compute => lit "compute" | Graphics => lit "graphics" | Both => lit "both"
  | UnknownKind => lit "unknown"
  end.

Definition merge (self other : GpuProcessKind) : GpuProcessKind :=
  if bool_decide (self = other) then self
  else match self, other with
       | UnknownKind, b => b
       | a, UnknownKind => a
       | _, _ => Both
       end.

Record GpuDeviceSnapshot := mkGpuDevice {
  index : Z;
  vendor : GpuVendor;
  backend : GpuBackend;
  gpu_name : str;
  bus_id : str;
  driver_version : option str;
  utilization_pct : option f32;
  mem_utilization_pct : option f32;
  mem_used_bytes : option Z;
  mem_total_bytes : option Z;
  temperature_c : option f32;
  power_watts : option f32;
  power_limit_watts : option f32;
  graphics_clock_mhz : option Z;
  memory_clock_mhz : option Z;
  fan_pct : option f32;
  encoder_pct : option f32;
  decoder_pct : option f32;
  supports_process_stats : bool;
}.

#[export] Instance GpuDeviceSnapshot_eta : Eta GpuDeviceSnapshot := λ s,
  mkGpuDevice (index s) (vendor s) (backend s) (gpu_name s) (bus_id s) (driver_version s)
    (utilization_pct s) (mem_utilization_pct s) (mem_used_bytes s) (mem_total_bytes s)
    (temperature_c s) (power_watts s) (power_limit_watts s) (graphics_clock_mhz s)
    (memory_clock_mhz s) (fan_pct s) (encoder_pct s) (decoder_pct s)
    (supports_process_stats s).

Definition mem_pct (self : GpuDeviceSnapshot) : option f32 :=
  used ← mem_used_bytes self; total ← mem_total_bytes self;
  if total =? 0 then None
  else Some (f64_as_f32 (f64_mul (f64_div (f64_of_Z used) (f64_of_Z total)) (f64_of_Z 100))).

Definition power_pct (self : GpuDeviceSnapshot) : option f32 :=
  used ← power_watts self; limit ← power_limit_watts self;
  if float_le limit f32_zero then None
  else Some (f32_mul (f32_div used limit) (f32_of_Z 100)).

Record GpuProcessSnapshot := mkGpuProcess {
  gpu_pid : Z;
  device_index : Z;
  gpu_proc_name : str;
  gpu_kind : GpuProcessKind;
  gpu_mem_bytes : option Z;
}.

#[export] Instance GpuProcessSnapshot_eta : Eta GpuProcessSnapshot := λ s,
  mkGpuProcess (gpu_pid s) (device_index s) (gpu_proc_name s) (gpu_kind s) (gpu_mem_bytes s).

Record GpusSnapshot := mkGpus {
  backends : list GpuBackend;
  available : bool;
  devices : list GpuDeviceSnapshot;
  gpu_processes : list GpuProcessSnapshot;
  detail : str;
}.

#[export] Instance GpusSnapshot_eta : Eta GpusSnapshot := λ s,
  mkGpus (backends s) (available s) (devices s) (gpu_processes s) (detail s).

Definition gpus_unavailable : GpusSnapshot := mkGpus [] false [] [] [].

Definition gpus_unavailable_with (detail : str) : GpusSnapshot :=
  mkGpus [] false [] [] detail.

Definition any_process_stats (self : GpusSnapshot) : bool :=
  existsb supports_process_stats (devices self).

Definition resolve_process_names (lookup : Z → option str) (self : GpusSnapshot)
    : GpusSnapshot :=
  self <| gpu_processes := (λ process,
    if bool_decide (gpu_proc_name process = []) then
      match lookup (gpu_pid process) with
      | Some name => process <| gpu_proc_name := name |>
      | None => process
      end
    else process) <$> gpu_processes self |>.

(** The accumulator of [total_memory]: used, total, and whether any device
    reported both. *)
Definition add_memory (acc : Z * Z * bool) (d : GpuDeviceSnapshot) : Z * Z * bool :=
  let '(used, total, seen) := acc in
  match mem_used_bytes d, mem_total_bytes d with
  | Some u, Some t => (u64_saturating_add used u, u64_saturating_add total t, true)
  | _, _ => acc
  end.

Definition total_memory (self : GpusSnapshot) : option (Z * Z) :=
  let '(used, total, seen) := foldl add_memory (0, 0, false) (devices self) in
  if seen : bool then Some (used, total) else None.

(** ** Engines *)

Inductive GpuError : Type :=
| NoBackend
| DriverUnavailable (vendor reason : str)
| Query (reason : str)
| Sysfs (path reason : str)
| GpuUnsupported (reason : str).

Definition GpuError_fmt (self : GpuError) : str :=
  match self with
  | NoBackend => lit "no GPU backend available"
  | DriverUnavailable vendor reason => vendor ++ lit " driver unavailable: " ++ reason
  | Query reason => lit "GPU query failed: " ++ reason
  | Sysfs path reason => lit "GPU sysfs read failed at " ++ path ++ lit ": " ++ reason
  | GpuUnsupported reason => reason
  end.

(** What a backend answers to one [snapshot()] call. *)
Abbreviation answer := (result GpusSnapshot GpuError).

Definition NullGpuEngine_snapshot (detail : str) : answer := Ok (gpus_unavailable_with detail).

(** One backend's available snapshot appended to the merged one. *)
Definition absorb (merged snapshot : GpusSnapshot) : GpusSnapshot :=
  let offset := as_u32 (Z.of_nat (length (devices merged))) in
  merged
    <| devices ::= λ ds, ds ++
         ((λ d, d <| index := as_u32 (offset + index d) |>) <$> devices snapshot) |>
    <| gpu_processes ::= λ ps, ps ++
         ((λ p, p <| device_index := as_u32 (device_index p + offset) |>)
            <$> gpu_processes snapshot) |>
    <| backends ::= λ bs, foldl
         (λ bs b, if bool_decide (b ∈ bs) then bs else bs ++ [b]) bs (backends snapshot) |>.

(** The body of the loop over the backends. *)
Definition merge_step (acc : GpusSnapshot * list str) (a : answer) : GpusSnapshot * list str :=
  let '(merged, failures) := acc in
  match a with
  | Err err => (merged, failures ++ [GpuError_fmt err])
  | Ok snapshot =>
      if available snapshot then (absorb merged snapshot, failures)
      else if bool_decide (detail snapshot = []) then acc
      else (merged, failures ++ [detail snapshot])
  end.

(** [CompositeGpuEngine::snapshot], over the answers of its backends. *)
Definition CompositeGpuEngine_snapshot (answers : list answer) : answer :=
  let '(merged, failures) := foldl merge_step (gpus_unavailable, []) answers in
  let merged := merged <| available := negb (bool_decide (devices merged = [])) |> in
  Ok (if available merged then merged
      else merged <| detail := if bool_decide (failures = []) then lit "no GPU detected"
                               else join (lit "; ") failures |>).

(** The backends a platform compiles in, in probing order. *)
Inductive Platform : Type := Linux | Windows | MacOS | OtherPlatform.

Section Detect.
Context {E : Type}.
(** What each vendor's [connect] returns. *)
Variables nvml amd apple : result E GpuError.

Definition probes (platform : Platform) : list (result E GpuError) :=
  match platform with
  | Linux => [nvml; amd] | Windows => [nvml] | MacOS => [apple] | OtherPlatform => []
  end.

Definition probe_platform_backends (platform : Platform) : list E * list str :=
  foldl (λ '(backends, reasons) r,
    match r with
    | Ok engine => (backends ++ [engine], reasons)
    | Err err => (backends, reasons ++ [GpuError_fmt err])
    end) ([], []) (probes platform).

(** The engine the collector is given: the null one with its reason, or a
    composite. *)
Definition detect_gpu_engines (platform : Platform) : str + list E :=
  let '(backends, reasons) := probe_platform_backends platform in
  match backends with
  | [] => inl (match reasons with
               | [] => lit "no supported GPU backend on this platform"
               | _ => join (lit "; ") reasons
               end)
  | _ => inr backends
  end.
End Detect.

(** ** Properties *)

(** The kinds form a semilattice with [UnknownKind] at the bottom, so the order
    in which a backend observes a process does not matter. *)
Lemma merge_semilattice a b c :
  merge a a = a ∧ merge a b = merge b a ∧ merge a (merge b c) = merge (merge a b) c
  ∧ merge UnknownKind a = a.
Proof. by destruct a, b, c. Qed.

(** A backend numbers its devices from zero, in order, and its processes name
    one of them. *)
Record numbered (s : GpusSnapshot) : Prop := {
  numbered_devices : index <$> devices s = seqZ 0 (Z.of_nat (length (devices s)));
  numbered_processes : Forall (λ p, 0 ≤ device_index p < Z.of_nat (length (devices s)))
                              (gpu_processes s);
}.

(** The device a process runs on. *)
Definition owner (s : GpusSnapshot) (p : GpuProcessSnapshot) : option GpuDeviceSnapshot :=
  find (λ d, bool_decide (index d = device_index p)) (devices s).

(** Who runs where, with the numbering forgotten. *)
Definition attributions (s : GpusSnapshot) : list (GpuProcessSnapshot * option GpuDeviceSnapshot) :=
  (λ p, (p <| device_index := 0 |>, (λ d, d <| index := 0 |>) <$> owner s p))
    <$> gpu_processes s.

(** The snapshots that take part in the merge. *)
Definition usable (answers : list answer) : list GpusSnapshot :=
  omap (λ a, match a with
             | Ok s => if available s then Some s else None
             | Err _ => None
             end) answers.

Lemma find_numbered ds off k :
  index <$> ds = seqZ off (Z.of_nat (length ds)) → off ≤ k →
  find (λ d, bool_decide (index d = k)) ds = ds !! Z.to_nat (k - off).
Proof.
  revert off. induction ds as [|d ds IH]; intros off Hn Hk; [done|].
  rewrite fmap_cons in Hn. cbn [length] in Hn.
  rewrite seqZ_cons in Hn by lia. injection Hn as Hd Hn.
  cbn [find]. case_bool_decide as E.
  - replace (k - off) with 0 by lia. done.
  - rewrite (IH (Z.succ off)); [|by replace (Z.pred (Z.of_nat (S (length ds)))) with
      (Z.of_nat (length ds)) in Hn by lia|lia].
    replace (Z.to_nat (k - off)) with (S (Z.to_nat (k - Z.succ off))) by lia. done.
Qed.

Lemma owner_numbered s p :
  numbered s → 0 ≤ device_index p →
  owner s p = devices s !! Z.to_nat (device_index p).
Proof.
  intros Hs Hp. unfold owner. rewrite (find_numbered _ 0) by (by try apply Hs).
  by rewrite Z.sub_0_r.
Qed.

Lemma absorb_numbered m s :
  numbered m → numbered s →
  is_u32 (Z.of_nat (length (devices m) + length (devices s))) →
  numbered (absorb m s) ∧ attributions (absorb m s) = attributions m ++ attributions s.
Proof.
  intros Hm Hs Hlen.
  assert (as_u32 (Z.of_nat (length (devices m))) = Z.of_nat (length (devices m))) as Hoff.
  { apply as_u32_small. unfold is_u32 in *. lia. }
  set (n := Z.of_nat (length (devices m))) in *.
  assert (devices (absorb m s) = devices m ++ ((λ d, d <| index := n + index d |>) <$> devices s))
    as Hds.
  { unfold absorb. simpl. fold n. rewrite Hoff. f_equal. apply list_fmap_ext. intros i d Hd.
    rewrite as_u32_small; [done|].
    pose proof (numbered_devices _ Hs) as Hn. apply (f_equal (.!! i)) in Hn.
    rewrite list_lookup_fmap, Hd in Hn. simpl in Hn. symmetry in Hn.
    apply lookup_seqZ in Hn. unfold is_u32 in *. lia. }
  assert (gpu_processes (absorb m s)
          = gpu_processes m ++ ((λ p, p <| device_index := n + device_index p |>)
                                  <$> gpu_processes s)) as Hps.
  { unfold absorb. simpl. fold n. rewrite Hoff. f_equal. apply list_fmap_ext. intros i p Hp.
    pose proof (proj1 (Forall_lookup _ _) (numbered_processes _ Hs) i p Hp) as Hb. simpl in Hb.
    rewrite as_u32_small; [by rewrite Z.add_comm|unfold is_u32 in *; lia]. }
  assert (numbered (absorb m s)) as Hn.
  { constructor.
    - rewrite Hds, fmap_app, length_app, length_fmap, (numbered_devices _ Hm).
      rewrite Nat2Z.inj_add, seqZ_app by lia. f_equal.
      rewrite <- list_fmap_compose. change (index ∘ _) with (λ d, n + index d).
      rewrite (list_fmap_compose index (Z.add n)), (numbered_devices _ Hs).
      rewrite <- (Z.add_0_r (0 + _)), Z.add_0_l. apply fmap_add_seqZ.
    - rewrite Hps, Hds. rewrite length_app, length_fmap. apply Forall_app; split.
      + eapply Forall_impl; [apply Hm|]. intros p Hp. simpl in Hp. lia.
      + apply Forall_fmap. eapply Forall_impl; [apply Hs|]. intros p Hp. simpl in *. lia. }
  split; [done|]. unfold attributions. rewrite Hps, fmap_app.
  f_equal; [|rewrite <- list_fmap_compose]; apply list_fmap_ext; intros i p Hp.
  - pose proof (proj1 (Forall_lookup _ _) (numbered_processes _ Hm) i p Hp) as Hb. simpl in Hb.
    rewrite !owner_numbered by (done || lia). f_equal. rewrite Hds, lookup_app_l by lia. done.
  - pose proof (proj1 (Forall_lookup _ _) (numbered_processes _ Hs) i p Hp) as Hb. simpl in Hb.
    unfold compose. rewrite !owner_numbered by (done || simpl; lia). rewrite Hds.
    change (device_index (set_field _ p)) with (n + device_index p).
    rewrite lookup_app_r by lia.
    replace (Z.to_nat (n + device_index p) - length (devices m))%nat
      with (Z.to_nat (device_index p)) by lia.
    rewrite list_lookup_fmap. by destruct (devices s !! _).
Qed.

(** Only the usable answers touch the merged part of the accumulator. *)
Lemma merge_steps_usable answers acc :
  (foldl merge_step acc answers).1 = foldl absorb acc.1 (usable answers).
Proof.
  revert acc. induction answers as [|a answers IH]; intros [m f]; [done|].
  simpl. rewrite IH. destruct a as [s|e]; [|done]. simpl.
  destruct (available s); [done|]. by case_bool_decide.
Qed.

Lemma absorbs_numbered ss m :
  numbered m → Forall numbered ss →
  is_u32 (Z.of_nat (length (devices m) + sum_list (length ∘ devices <$> ss))) →
  numbered (foldl absorb m ss) ∧
  attributions (foldl absorb m ss) = attributions m ++ concat (attributions <$> ss).
Proof.
  revert m. induction ss as [|s ss IH]; intros m Hm Hss Hlen; simpl.
  { by rewrite app_nil_r. }
  apply Forall_cons in Hss as [Hs Hss]. simpl in Hlen.
  destruct (absorb_numbered m s) as [Hn Ha]; [done..| |].
  { unfold is_u32 in *. simpl in *. lia. }
  destruct (IH (absorb m s)) as [IHn IHa]; [done..| |].
  { unfold absorb at 1. simpl. rewrite length_app, length_fmap. by rewrite <- Nat.add_assoc. }
  split; [done|]. by rewrite IHa, Ha, <- app_assoc.
Qed.

(** Merging several vendor backends attributes no card's processes to
    another card: whatever each backend answered, the merged processes are
    those of the usable snapshots, in order, each still on its own device, and
    the merged devices are numbered consecutively from zero. *)
Theorem composite_keeps_owners answers :
  Forall numbered (usable answers) →
  Z.of_nat (sum_list (length ∘ devices <$> usable answers)) ≤ u32_max →
  ∃ s, CompositeGpuEngine_snapshot answers = Ok s ∧
    index <$> devices s = seqZ 0 (Z.of_nat (length (devices s))) ∧
    attributions s = concat (attributions <$> usable answers).
Proof.
  intros Hn Hlen. unfold CompositeGpuEngine_snapshot.
  pose proof (merge_steps_usable answers (gpus_unavailable, [])) as Hm.
  destruct (foldl merge_step _ answers) as [m f]. simpl in Hm. subst m.
  destruct (absorbs_numbered (usable answers) gpus_unavailable) as [Hnum Hatt];
    [by constructor|done|unfold is_u32; simpl; lia|].
  set (m := foldl absorb gpus_unavailable (usable answers)) in *.
  eexists. split; [reflexivity|].
  destruct (available (set_field _ m)); split; try apply Hnum; exact Hatt.
Qed.

(** A backend that fails or has nothing to show is skipped, not fatal: it
    changes neither the devices, the processes and the backend list of the
    merged snapshot nor its availability, wherever it sits in the list; and the
    composite itself never fails. *)
Theorem composite_skips_unusable before a after :
  usable [a] = [] →
  ∃ s s', CompositeGpuEngine_snapshot (before ++ a :: after) = Ok s ∧
    CompositeGpuEngine_snapshot (before ++ after) = Ok s' ∧
    devices s = devices s' ∧ gpu_processes s = gpu_processes s' ∧
    backends s = backends s' ∧ available s = available s' ∧
    (available s = true → s = s').
Proof.
  intros Ha. unfold CompositeGpuEngine_snapshot.
  pose proof (merge_steps_usable (before ++ a :: after) (gpus_unavailable, [])) as Hm.
  pose proof (merge_steps_usable (before ++ after) (gpus_unavailable, [])) as Hm'.
  replace (usable (before ++ a :: after)) with (usable (before ++ after)) in Hm.
  2: { unfold usable in *. rewrite !omap_app. change (a :: after) with ([a] ++ after).
       by rewrite omap_app, Ha. }
  destruct (foldl merge_step _ (before ++ a :: after)) as [m f].
  destruct (foldl merge_step _ (before ++ after)) as [m' f']. simpl in Hm, Hm'. subst m m'.
  generalize (foldl absorb gpus_unavailable (usable (before ++ after))) as m. intros m.
  do 2 eexists. split; [reflexivity|]. split; [reflexivity|]. simpl.
  by destruct (bool_decide (devices m = [])).
Qed.

(** The pair of figures of a device that reports both. *)
Definition reports_memory (d : GpuDeviceSnapshot) : option (Z * Z) :=
  u ← mem_used_bytes d; t ← mem_total_bytes d; Some (u, t).

Lemma sums_nonneg (l : list (Z * Z)) :
  Forall (λ m, is_u64 m.1 ∧ is_u64 m.2) l →
  0 ≤ foldr Z.add 0 (fst <$> l) ∧ 0 ≤ foldr Z.add 0 (snd <$> l).
Proof.
  induction 1 as [|[x y] l [Hx Hy] _ IH]; [done|]. rewrite !fmap_cons.
  cbn [foldr fst snd] in *. unfold is_u64 in *. lia.
Qed.

(** The memory summary is absent exactly when no device reports both its
    used and its total memory; otherwise it is the exact sums over the devices
    that do, capped at the largest 64-bit value. *)
Theorem total_memory_spec s :
  let ms := omap reports_memory (devices s) in
  Forall (λ m, is_u64 m.1 ∧ is_u64 m.2) ms →
  total_memory s = match ms with
                   | [] => None
                   | _ => Some (Z.min (foldr Z.add 0 (fst <$> ms)) u64_max,
                                Z.min (foldr Z.add 0 (snd <$> ms)) u64_max)
                   end.
Proof.
  intros ms Hms. unfold total_memory.
  assert (∀ u t b, is_u64 u → is_u64 t →
    foldl add_memory (u, t, b) (devices s)
    = (Z.min (u + foldr Z.add 0 (fst <$> ms)) u64_max,
       Z.min (t + foldr Z.add 0 (snd <$> ms)) u64_max,
       b || negb (bool_decide (ms = [])))) as Hfold.
  2: { rewrite Hfold by (by unfold is_u64, u64_max). by destruct ms. }
  revert Hms. unfold ms. generalize (devices s) as ds. clear s ms.
  induction ds as [|d ds IH]; intros Hms u t b Hu Ht.
  { simpl. rewrite !Z.add_0_r, orb_false_r. unfold is_u64 in *. by rewrite !Z.min_l by lia. }
  assert (omap reports_memory (d :: ds)
          = match reports_memory d with Some m => [m] | None => [] end
            ++ omap reports_memory ds) as E.
  { cbn [omap list_omap]. by destruct (reports_memory d). }
  rewrite E in Hms |- *. clear E.
  change (foldl add_memory (u, t, b) (d :: ds))
    with (foldl add_memory (add_memory (u, t, b) d) ds).
  destruct (reports_memory d) as [[du dt]|] eqn:Er; unfold reports_memory in Er.
  - assert (add_memory (u, t, b) d = (u64_saturating_add u du, u64_saturating_add t dt, true))
      as -> by (unfold add_memory; by destruct (mem_used_bytes d), (mem_total_bytes d); simplify_eq/=).
    apply Forall_cons in Hms as [[Hdu Hdt] Hms]. simpl in Hdu, Hdt.
    rewrite IH; [|done|unfold is_u64, u64_saturating_add in *; lia..].
    destruct (sums_nonneg _ Hms) as [H1 H2]. cbn [app]. rewrite !fmap_cons. cbn [foldr fst snd].
    unfold is_u64, u64_saturating_add in *. rewrite orb_true_r. simpl.
    f_equal. f_equal; lia.
  - assert (add_memory (u, t, b) d = (u, t, b)) as ->
      by (unfold add_memory; by destruct (mem_used_bytes d), (mem_total_bytes d); simplify_eq/=).
    by apply IH.
Qed.

(** ** Witnesses: an AMD laptop chip beside an NVIDIA card *)

Definition demo_gpu (i : Z) (v : GpuVendor) (b : GpuBackend) : GpuDeviceSnapshot :=
  mkGpuDevice i v b (lit "card") [] None None None (Some 3) (Some 8) None None None
    None None None None None true.

Definition demo_answers : list answer :=
  [Err NoBackend;
   Ok (mkGpus [Nvml] true [demo_gpu 0 Nvidia Nvml; demo_gpu 1 Nvidia Nvml]
         [mkGpuProcess 41 1 [] Compute None] []);
   Ok (mkGpus [AmdSysfs] true [demo_gpu 0 Amd AmdSysfs]
         [mkGpuProcess 42 0 [] Graphics (Some 5)] [])].

Example demo_merge :
  (λ a, match a with Ok s => device_index <$> gpu_processes s | Err _ => [] end)
    (CompositeGpuEngine_snapshot demo_answers) = [1; 2].
Proof. reflexivity. Qed.

Lemma composite_keeps_owners_witness :
  ∃ s, CompositeGpuEngine_snapshot demo_answers = Ok s ∧
    index <$> devices s = seqZ 0 (Z.of_nat (length (devices s))) ∧
    attributions s = concat (attributions <$> usable demo_answers).
Proof.
  apply (composite_keeps_owners demo_answers); [|done].
  repeat constructor; simpl; lia.
Defined.

Lemma composite_skips_unusable_witness :
  ∃ s s', CompositeGpuEngine_snapshot demo_answers = Ok s ∧
    CompositeGpuEngine_snapshot (tail demo_answers) = Ok s' ∧
    devices s = devices s' ∧ gpu_processes s = gpu_processes s' ∧
    backends s = backends s' ∧ available s = available s' ∧
    (available s = true → s = s').
Proof.
  apply (composite_skips_unusable [] (Err NoBackend) (tail demo_answers)). reflexivity.
Defined.

Lemma total_memory_spec_witness :
  total_memory (mkGpus [] true [demo_gpu 0 Amd AmdSysfs; demo_gpu 1 Amd AmdSysfs] [] [])
  = Some (6, 16).
Proof.
  refine (total_memory_spec
    (mkGpus [] true [demo_gpu 0 Amd AmdSysfs; demo_gpu 1 Amd AmdSysfs] [] []) _).
  repeat constructor; unfold is_u64, u64_max; simpl; lia.
Defined.
