(* ===== verification/Snapshots.v ===== *)
(** * The data one tick publishes:
    crates/muxtop-core/src/containers.rs, kube.rs and system.rs

    Containers, the Kubernetes cluster, and the whole system snapshot with the
    way it is collected.  What sysinfo reports is an input record. *)

From S2P Require Import Prelude Str RsFloat Process Network Gpu.
Local Open Scope Z_scope.

(** ** Containers *)

Inductive ContainerState : Type :=
| CtrCreated | CtrRunning | CtrPaused | CtrRestarting | CtrExited | CtrDead | CtrRemoving.

#[global] Instance ContainerState_eq_dec : EqDecision ContainerState.
Proof. solve_decision. Defined.

Inductive EngineKind : Type := Docker | Podman | UnknownEngine.

Record ContainerSnapshot := mkContainer {
  ctr_id : str;
  id_full : str;
  ctr_name : str;
  image : str;
  ctr_state : ContainerState;
  status_text : str;
  cpu_pct : f32;
  ctr_mem_used_bytes : Z;
  mem_limit_bytes : Z;
  net_rx_bytes : Z;
  net_tx_bytes : Z;
  block_read_bytes : Z;
  block_write_bytes : Z;
  started_at_ms : Z;
}.

Record ContainersSnapshot := mkContainers {
  engine : EngineKind;
  daemon_up : bool;
  containers : list ContainerSnapshot;
}.

Definition containers_unavailable : ContainersSnapshot := mkContainers UnknownEngine false [].

(** ** Kubernetes *)

Inductive PodPhase : Type :=
| PodPending | PodRunning | PodSucceeded | PodFailed | CrashLoop | Terminating | PodUnknown.

#[global] Instance PodPhase_eq_dec : EqDecision PodPhase.
Proof. solve_decision. Defined.

Inductive QosClass : Type := Guaranteed | Burstable | BestEffort.

Inductive NodeStatus : Type := NodeReady | NotReady | SchedulingDisabled | NodeUnknown.

#[global] Instance NodeStatus_eq_dec : EqDecision NodeStatus.
Proof. solve_decision. Defined.

Inductive DeploymentStrategy : Type := RollingUpdate | Recreate.

Inductive ClusterKind : Type := Generic | Kind | K3d | K3s | Eks | Gke | Aks | Openshift.

Record PodSnapshot := mkPod {
  pod_namespace : str;
  pod_name : str;
  phase : PodPhase;
  ready : Z * Z;
  restarts : Z;
  pod_age_seconds : Z;
  pod_node : str;
  cpu_millis : option Z;
  pod_mem_bytes : option Z;
  qos : QosClass;
}.

Record NodeSnapshot := mkNode {
  node_name : str;
  node_status : NodeStatus;
  node_roles : list str;
  node_age_seconds : Z;
  kubelet_version : str;
  cpu_capacity_millis : Z;
  cpu_allocatable_millis : Z;
  cpu_used_millis : option Z;
  mem_capacity_bytes : Z;
  mem_allocatable_bytes : Z;
  node_mem_used_bytes : option Z;
  pod_count : Z;
  pod_capacity : Z;
}.

Record DeploymentSnapshot := mkDeployment {
  dep_namespace : str;
  dep_name : str;
  replicas_desired : Z;
  replicas_ready : Z;
  replicas_uptodate : Z;
  replicas_available : Z;
  dep_age_seconds : Z;
  strategy : DeploymentStrategy;
}.

Record KubeSnapshot := mkKube {
  cluster_kind : ClusterKind;
  server_version : option str;
  current_namespace : str;
  reachable : bool;
  metrics_available : bool;
  pods : list PodSnapshot;
  nodes : list NodeSnapshot;
  deployments : list DeploymentSnapshot;
}.

Definition kube_unavailable : KubeSnapshot := mkKube Generic None [] false false [] [] [].

(** ** The system *)

Record CoreSnapshot := mkCore { core_name_of : str; usage : f32; frequency : Z }.

Record CpuSnapshot := mkCpu { global_usage : f32; cores : list CoreSnapshot }.

Record MemorySnapshot := mkMemory {
  mem_total : Z;
  mem_used : Z;
  mem_available : Z;
  swap_total : Z;
  swap_used : Z;
}.

Record LoadSnapshot := mkLoad { one : f64; five : f64; fifteen : f64; uptime_secs : Z }.

Record SystemSnapshot := mkSystem {
  cpu : CpuSnapshot;
  memory : MemorySnapshot;
  load : LoadSnapshot;
  processes : list ProcessInfo;
  networks : NetworkSnapshot;
  sys_containers : option ContainersSnapshot;
  sys_kube : option KubeSnapshot;
  sys_gpu : option GpusSnapshot;
  timestamp_ms : Z;
}.

(** *** What sysinfo reports *)

Inductive ProcessStatus : Type := Run | Sleep | Idle | Zombie | Stop | OtherStatus.

Record SysProcess := mkSysProcess {
  sp_pid : Z;
  sp_parent : option Z;
  sp_name : str;
  sp_cmd : list str;
  sp_user_id : option str;
  sp_cpu_usage : f32;
  sp_memory : Z;
  sp_status : ProcessStatus;
}.

Record System := mkSys {
  global_cpu_usage : f32;
  cpus : list (f32 * Z);
  total_memory_bytes : Z;
  used_memory : Z;
  available_memory : Z;
  total_swap : Z;
  used_swap : Z;
  load_average : f64 * f64 * f64;
  uptime : Z;
  sys_processes : list SysProcess;
}.

(** [f64::clamp(0.0, 100.0)]: a NaN stays a NaN. *)
Definition f64_clamp (lo hi x : f64) : f64 :=
  if float_lt x lo then lo else if float_gt x hi then hi else x.

Definition memory_share (memory total_mem : Z) : f32 :=
  if 0 <? total_mem
  then f64_as_f32 (f64_clamp (f64_of_Z 0) (f64_of_Z 100)
         (f64_mul (f64_div (f64_of_Z memory) (f64_of_Z total_mem)) (f64_of_Z 100)))
  else f32_zero.

Definition status_label (s : ProcessStatus) : str :=
  match s with
  | Run => lit "Running" | Sleep => lit "Sleeping" | Idle => lit "Idle"
  | Zombie => lit "Zombie" | Stop => lit "Stopped" | OtherStatus => lit "Unknown"
  end.

Definition process_info_of (total_mem : Z) (p : SysProcess) : ProcessInfo :=
  mkProcessInfo (sp_pid p) (sp_parent p) (sp_name p) (join (lit " ") (sp_cmd p))
    (default [] (sp_user_id p)) (sp_cpu_usage p) (sp_memory p)
    (memory_share (sp_memory p) total_mem) (status_label (sp_status p)).

(** [core_name]: the interned table only caches these names. *)
Definition core_name (i : nat) : str := lit "cpu" ++ show (Z.of_nat i).

(** [sys.process(pid)]: the process table is keyed by pid. *)
Definition sys_process (sys : System) (pid : Z) : option SysProcess :=
  find (λ p, bool_decide (sp_pid p = pid)) (sys_processes sys).

Definition SystemSnapshot_collect (sys : System) (networks : list (str * NetworkData))
    (containers : option ContainersSnapshot) (kube : option KubeSnapshot)
    (gpu : option GpusSnapshot) (unix_ms : option Z) : SystemSnapshot :=
  let cores := imap (λ i c, mkCore (core_name i) c.1 c.2) (cpus sys) in
  let cpu := mkCpu (global_cpu_usage sys) cores in
  let memory := mkMemory (total_memory_bytes sys) (used_memory sys) (available_memory sys)
                  (total_swap sys) (used_swap sys) in
  let '(one, five, fifteen) := load_average sys in
  let load := mkLoad one five fifteen (uptime sys) in
  let total_mem := total_memory_bytes sys in
  let processes := process_info_of total_mem <$> sys_processes sys in
  let gpu := resolve_process_names (λ pid, sp_name <$> sys_process sys pid) <$> gpu in
  mkSystem cpu memory load processes (NetworkSnapshot_collect networks) containers kube gpu
    (default 0 unix_ms).

(** The names the collector gives the GPU's processes are those the process
    table of the same tick shows, and no row is added, lost or renumbered. *)
Lemma collect_names_agree sys nets ctr kube g ms :
  NoDup (sp_pid <$> sys_processes sys) →
  ∀ g', sys_gpu (SystemSnapshot_collect sys nets ctr kube (Some g) ms) = Some g' →
  gpu_pid <$> gpu_processes g' = gpu_pid <$> gpu_processes g ∧
  Forall (λ p, gpu_proc_name p ≠ [] → p ∈ gpu_processes g ∨
    ∃ q, q ∈ processes (SystemSnapshot_collect sys nets ctr kube (Some g) ms) ∧
         pid q = gpu_pid p ∧ name q = gpu_proc_name p) (gpu_processes g').
Proof.
  intros Hnd g' Hg'. unfold SystemSnapshot_collect in *.
  destruct (load_average sys) as [[l1 l5] l15]. simpl in *. injection Hg' as <-. simpl. split.
  - rewrite <- list_fmap_compose. apply list_fmap_ext. intros i p _. simpl.
    case_bool_decide; [|done]. by destruct (sp_name <$> _).
  - apply Forall_fmap, Forall_forall. intros p Hp. simpl. case_bool_decide; [|by left].
    destruct (sys_process sys (gpu_pid p)) as [q|] eqn:E; simpl; [|done].
    intros _. right. exists (process_info_of (total_memory_bytes sys) q).
    unfold sys_process in E. apply find_some in E as [Hin Hq%bool_decide_eq_true].
    split; [by apply list_elem_of_fmap_2, list_elem_of_In|]. by rewrite <- Hq.
Qed.
