(* ===== verification/Wire.v ===== *)
(** * Wire messages: crates/muxtop-proto/src/wire.rs

    The messages, their conversion to and from frames, and the [Debug] output
    that logs and errors embed.  bincode is an interface: a class with the two
    functions the code calls and the round trip it documents. *)

From S2P Require Import Prelude Str RsFloat Frame Snapshots.
Local Open Scope Z_scope.
Local Open Scope rust_scope.

(** What bincode promises for one type, under the decoder's byte limit: a value
    within the limit ([fits]) decodes from its own encoding, whole. *)
Class Bincode (A : Type) := {
  encode_to_vec : A → result (list u8) nat;
  decode_from_slice : list u8 → result (A * nat) nat;
  fits : A → Prop;
  decode_of_encode : ∀ a bs, fits a → encode_to_vec a = Ok bs →
    decode_from_slice bs = Ok (a, length bs);
}.

(** [Debug] of the types the messages embed: the standard library's quoting of
    strings and the derived output of a snapshot. *)
Class DebugFmt := {
  str_debug : str → str;
  snapshot_debug : SystemSnapshot → str;
}.

Inductive WireMessage : Type :=
| Snapshot (snap : SystemSnapshot)
| Heartbeat (server_version : str) (uptime_secs : Z)
| Error (code : Z) (message : str)
| Hello (client_version : str) (auth_token : option str)
| Welcome (server_version : str) (hostname : str) (refresh_hz : Z).

Definition MAX_DECODE_BYTES : Z := MAX_FRAME_SIZE.

Section Wire.
Context `{!Bincode SystemSnapshot} `{!Bincode (str * Z)} `{!Bincode (Z * str)}
  `{!Bincode (str * option str)} `{!Bincode (str * str * Z)} `{!DebugFmt}.

(** *** Debug *)

(** [f.debug_struct(name).field(..)..finish()], on one line. *)
Definition debug_struct (name : str) (fields : list (str * str)) : str :=
  name ++ lit " { "
  ++ join (lit ", ") ((λ fv, fv.1 ++ lit ": " ++ fv.2) <$> fields) ++ lit " }".

Definition debug_option (o : option str) : str :=
  match o with
  | Some s => lit "Some(" ++ str_debug s ++ lit ")"
  | None => lit "None"
  end.

Definition WireMessage_fmt (self : WireMessage) : str :=
  match self with
  | Snapshot s => lit "Snapshot(" ++ snapshot_debug s ++ lit ")"
  | Heartbeat server_version uptime_secs =>
      debug_struct (lit "Heartbeat") [(lit "server_version", str_debug server_version);
                                      (lit "uptime_secs", show uptime_secs)]
  | Error code message =>
      debug_struct (lit "Error") [(lit "code", show code); (lit "message", str_debug message)]
  | Hello client_version auth_token =>
      debug_struct (lit "Hello")
        [(lit "client_version", str_debug client_version);
         (lit "auth_token", debug_option ((λ _, lit "[REDACTED]") <$> auth_token))]
  | Welcome server_version hostname refresh_hz =>
      debug_struct (lit "Welcome") [(lit "server_version", str_debug server_version);
                                    (lit "hostname", str_debug hostname);
                                    (lit "refresh_hz", show refresh_hz)]
  end.

(** *** Frames *)

Definition encode_snapshot_ref (snap : SystemSnapshot) : result Frame ProtoError :=
  bs <-? map_err Encode (encode_to_vec snap); Ok (mkFrame MSG_SNAPSHOT bs).

Definition to_frame (self : WireMessage) : result Frame ProtoError :=
  '(msg_type, payload) <-?
    (match self with
     | Snapshot snap =>
         bs <-? map_err Encode (encode_to_vec snap); Ok (MSG_SNAPSHOT, bs)
     | Heartbeat server_version uptime_secs =>
         bs <-? map_err Encode (encode_to_vec (server_version, uptime_secs));
         Ok (MSG_HEARTBEAT, bs)
     | Error code message =>
         bs <-? map_err Encode (encode_to_vec (code, message)); Ok (MSG_ERROR, bs)
     | Hello client_version auth_token =>
         bs <-? map_err Encode (encode_to_vec (client_version, auth_token));
         Ok (MSG_HELLO, bs)
     | Welcome server_version hostname refresh_hz =>
         bs <-? map_err Encode (encode_to_vec (server_version, hostname, refresh_hz));
         Ok (MSG_WELCOME, bs)
     end);
  Ok (mkFrame msg_type payload).

Definition from_frame (frame : Frame) : result WireMessage ProtoError :=
  if bool_decide (msg_type frame = MSG_SNAPSHOT) then
    '(snap, _) <-? map_err Decode (decode_from_slice (payload frame));
    Ok (Snapshot snap)
  else if bool_decide (msg_type frame = MSG_HEARTBEAT) then
    '((server_version, uptime_secs), _) <-? map_err Decode (decode_from_slice (payload frame));
    Ok (Heartbeat server_version uptime_secs)
  else if bool_decide (msg_type frame = MSG_ERROR) then
    '((code, message), _) <-? map_err Decode (decode_from_slice (payload frame));
    Ok (Error code message)
  else if bool_decide (msg_type frame = MSG_HELLO) then
    '((client_version, auth_token), _) <-? map_err Decode (decode_from_slice (payload frame));
    Ok (Hello client_version auth_token)
  else if bool_decide (msg_type frame = MSG_WELCOME) then
    '((server_version, hostname, refresh_hz), _)
      <-? map_err Decode (decode_from_slice (payload frame));
    Ok (Welcome server_version hostname refresh_hz)
  else Err (UnknownMessageType (msg_type frame)).

(** ** Properties *)

(** The decoder's byte limit admits the message. *)
Definition message_fits (m : WireMessage) : Prop :=
  match m with
  | Snapshot s => fits s
  | Heartbeat v u => fits (v, u)
  | Error c m => fits (c, m)
  | Hello v t => fits (v, t)
  | Welcome v h r => fits (v, h, r)
  end.

Lemma from_to_frame m f : message_fits m → to_frame m = Ok f → from_frame f = Ok m.
Proof.
  intros Hfit Hf. destruct m; simpl in Hfit; unfold to_frame in Hf;
    match type of Hf with context [encode_to_vec ?a] =>
      destruct (encode_to_vec a) as [bs|e] eqn:E; [|done]; simpl in Hf;
      injection Hf as <-; unfold from_frame; simpl;
      rewrite (decode_of_encode _ _ Hfit E); done
    end.
Qed.

(** The relay's shortcut produces the frame of the message it stands for. *)
Lemma encode_snapshot_ref_to_frame snap :
  encode_snapshot_ref snap = to_frame (Snapshot snap).
Proof. unfold encode_snapshot_ref, to_frame. by destruct (encode_to_vec snap). Qed.


(** The debug output of a Hello does not depend on the token it carries. *)
Lemma debug_hides_token v t1 t2 :
  WireMessage_fmt (Hello v (Some t1)) = WireMessage_fmt (Hello v (Some t2)).
Proof. done. Qed.
End Wire.

(** ** A concrete codec

    Any countable type has one: the bits of its number, a byte each.  Snapshots
    get the codec that encodes nothing. *)

Fixpoint pos_bits (p : positive) : list u8 :=
  match p with
  | xH => []
  | xO p => x00 :: pos_bits p
  | xI p => x01 :: pos_bits p
  end.

Fixpoint bits_pos (l : list u8) : positive :=
  match l with
  | [] => xH
  | b :: l => if bool_decide (b = x00) then xO (bits_pos l) else xI (bits_pos l)
  end.

Lemma bits_pos_bits p : bits_pos (pos_bits p) = p.
Proof. induction p; simpl; congruence. Qed.

Definition countable_bincode A `{Countable A} : Bincode A.
Proof.
  refine {| encode_to_vec a := Ok (pos_bits (encode a));
            decode_from_slice bs := ok_or ((λ a, (a, length bs)) <$> decode (bits_pos bs)) 0%nat;
            fits _ := True |}.
  intros a bs _ [= <-]. by rewrite bits_pos_bits, decode_encode.
Defined.

Definition no_bincode A : Bincode A.
Proof.
  refine {| encode_to_vec _ := Err 0%nat; decode_from_slice _ := Err 0%nat; fits _ := False |}.
  done.
Defined.

Definition demo_debug : DebugFmt :=
  {| str_debug s := lit "'" ++ s ++ lit "'"; snapshot_debug _ := lit ".." |}.

Definition demo_hello : WireMessage := Hello (lit "1") (Some (lit "t")).

