(* ===== verification/Client.v ===== *)
(** * One client session of the server:
    crates/muxtop-server/src/client.rs and error.rs

    The handshake and the streaming loop, over the stream interfaces of Frame.v.
    What the runtime decides (whether the handshake timed out, which branch of
    the [select!] fires next) is an input: a flag and a schedule of timed
    events. *)

From S2P Require Import Prelude Str RsFloat Frame Snapshots Wire.
Local Open Scope Z_scope.
Local Open Scope rust_scope.

Definition HEARTBEAT_INTERVAL : Duration := from_secs 5.
Definition PRE_AUTH_HELLO_MAX_PAYLOAD : Z := 4 * 1024.

Inductive ServerError : Type :=
| ServerIo (e : io_error)
| Proto (e : ProtoError)
| Unauthorized
| HandshakeTimeout
| UnexpectedMessage (expected actual : str).

(** The fields of [SharedState] a session reads. *)
Record SharedState := mkShared {
  auth_token_of : str;
  refresh_hz_of : Z;
  hostname_of : str;
  server_version_of : str;
  start_time : Instant;
}.

Definition constant_time_eq (a b : list u8) : bool :=
  let len_matches := bool_decide (length a = length b) in
  let max_len := max (length a) (length b) in
  let diff := foldl (λ diff i,
    Z.lor diff (Z.lxor (u8_val (nth i a x00)) (u8_val (nth i b x00))))
    0 (seq 0 max_len) in
  (diff =? 0) && len_matches.

(** A branch of the streaming [select!], with the time it fires. *)
Inductive stream_event : Type :=
| SnapshotFrame (now : Instant) (f : Frame)
| Lagged (n : Z)
| BroadcastClosed
| Tick (now : Instant)
| Cancelled.

(** The bytes a string is compared by. *)
Definition str_bytes (s : str) : list u8 := u8_of <$> as_bytes s.

Section Client.
Context `{!Bincode SystemSnapshot} `{!Bincode (str * Z)} `{!Bincode (Z * str)}
  `{!Bincode (str * option str)} `{!Bincode (str * str * Z)} `{!DebugFmt}.
Context {R W : Type} `{!AsyncRead R} `{!AsyncWrite W}.
Variable state : SharedState.

(** [frame_writer.write_frame(&msg.to_frame()?).await.map_err(Proto)?] *)
Definition send (msg : WireMessage) (w : W) : result unit ServerError * W :=
  match to_frame msg with
  | Err e => (Err (Proto e), w)
  | Ok f => let '(res, w) := write_frame f w in (map_err Proto res, w)
  end.

Definition unauthorized : WireMessage := Error 401 (lit "unauthorized").

Definition welcome : WireMessage :=
  Welcome (server_version_of state) (hostname_of state) (refresh_hz_of state).

Definition heartbeat (now : Instant) : WireMessage :=
  Heartbeat (server_version_of state)
    (duration_since now (start_time state) / NANOS_PER_SEC).

(** The handshake phase, up to and including the Welcome. *)
Definition handshake (timed_out : bool) (r : R) (w : W) : result unit ServerError * W :=
  if timed_out then (Err HandshakeTimeout, w)
  else
  match (read_frame_with_max_payload PRE_AUTH_HELLO_MAX_PAYLOAD r).1 with
  | Err e => (Err (Proto e), w)
  | Ok None => (Err HandshakeTimeout, w)
  | Ok (Some hello_frame) =>
    match from_frame hello_frame with
    | Err e => (Err (Proto e), w)
    | Ok (Hello client_version auth_token) =>
        let provided := default [] auth_token in
        if negb (constant_time_eq (str_bytes (auth_token_of state)) (str_bytes provided)) then
          match to_frame unauthorized with
          | Err e => (Err (Proto e), w)
          | Ok f => (Err Unauthorized, (write_frame f w).2)
          end
        else send welcome w
    | Ok other => (Err (UnexpectedMessage (lit "Hello") (WireMessage_fmt other)), w)
    end
  end.

(** The streaming loop: [due] is the deadline of the heartbeat interval, pushed
    back by a snapshot and advanced by a period on each tick.  When a tick happens
    is the timer's: the events are any, also a tick that comes before [due]. *)
Fixpoint stream (due : Instant) (events : list stream_event) (w : W)
    : result unit ServerError * W :=
  match events with
  | [] => (Ok tt, w)
  | SnapshotFrame now f :: events =>
      match write_frame f w with
      | (Err e, w) => (Err (Proto e), w)
      | (Ok _, w) => stream (now + HEARTBEAT_INTERVAL) events w
      end
  | Lagged _ :: events => stream due events w
  | BroadcastClosed :: _ => (Ok tt, w)
  | Tick now :: events =>
      match send (heartbeat now) w with
      | (Err e, w) => (Err e, w)
      | (Ok _, w) => stream (due + HEARTBEAT_INTERVAL) events w
      end
  | Cancelled :: _ => (Ok tt, w)
  end.

Definition handle (timed_out : bool) (connected_at : Instant) (events : list stream_event)
    (r : R) (w : W) : result unit ServerError * W :=
  match handshake timed_out r w with
  | (Err e, w) => (Err e, w)
  | (Ok _, w) => stream (connected_at + HEARTBEAT_INTERVAL) events w
  end.

(** ** Properties *)

(** The first frame the peer sends is a Hello with the server's token. *)
Definition authenticated (r : R) : Prop :=
  ∃ f v t, (read_frame_with_max_payload PRE_AUTH_HELLO_MAX_PAYLOAD r).1 = Ok (Some f) ∧
    from_frame f = Ok (Hello v t) ∧
    str_bytes (default [] t) = str_bytes (auth_token_of state).
End Client.

(** *** Comparing tokens *)

Lemma lxor_eq0 a b : Z.lxor a b = 0 ↔ a = b.
Proof. apply Z.lxor_eq_0_iff. Qed.

Lemma fold_lor_eq0 (f : nat → Z) l d :
  foldl (λ d i, Z.lor d (f i)) d l = 0 ↔ d = 0 ∧ Forall (λ i, f i = 0) l.
Proof.
  revert d. induction l as [|i l IH]; intros d; simpl.
  { split; [by intros ->|by intros [-> _]]. }
  rewrite IH, Z.lor_eq_0_iff, Forall_cons. tauto.
Qed.

Lemma constant_time_eq_spec a b : constant_time_eq a b = true ↔ a = b.
Proof.
  unfold constant_time_eq. rewrite andb_true_iff, bool_decide_eq_true, Z.eqb_eq, fold_lor_eq0.
  rewrite Forall_forall. split.
  - intros [[_ Hall] Hlen]. apply (nth_ext _ _ x00 x00 Hlen). intros n Hn.
    apply (inj u8_val), lxor_eq0. apply Hall. apply elem_of_seq. lia.
  - intros ->. split; [split|]; [done| |done]. intros i _. apply Z.lxor_nilpotent.
Qed.

Section ClientProps.
Context `{!Bincode SystemSnapshot} `{!Bincode (str * Z)} `{!Bincode (Z * str)}
  `{!Bincode (str * option str)} `{!Bincode (str * str * Z)} `{!DebugFmt}.
Context {R W : Type} `{!AsyncRead R} `{!AsyncWrite W}.
Implicit Types (r : R) (w : W).

(** Without the token, the handshake fails having written at most the refusal. *)
Lemma handshake_unauthenticated state timed_out r w :
  ¬ authenticated state r →
  ∃ e p, (handshake state timed_out r w).1 = Err e ∧
    written (handshake state timed_out r w).2 = written w ++ p ∧
    (p = [] ∨ ∃ f, to_frame unauthorized = Ok f ∧ p `prefix_of` frame_bytes f ∧ e = Unauthorized).
Proof.
  intros Hna. unfold handshake. destruct timed_out.
  { exists HandshakeTimeout, []. rewrite app_nil_r. auto. }
  destruct (read_frame_with_max_payload _ r) as [[[f|]|e] r'] eqn:Er; simpl.
  2: { exists HandshakeTimeout, []. rewrite app_nil_r. auto. }
  2: { exists (Proto e), []. rewrite app_nil_r. auto. }
  destruct (from_frame f) as [m|e] eqn:Ef.
  2: { exists (Proto e), []. rewrite app_nil_r. auto. }
  destruct m as [| | |v t|]; try (eexists _, []; rewrite app_nil_r; by eauto).
  destruct (constant_time_eq _ _) eqn:Ec; simpl.
  { exfalso. apply Hna. apply constant_time_eq_spec in Ec.
    exists f, v, t. by rewrite Er. }
  destruct (to_frame unauthorized) as [uf|e] eqn:Eu.
  2: { exists (Proto e), []. rewrite app_nil_r. auto. }
  pose proof (write_frame_written uf w) as Hw.
  destruct (write_frame uf w) as [[?|e] w'].
  - destruct Hw as [_ Hw]. exists Unauthorized, (frame_bytes uf). eauto 10.
  - destruct Hw as (p & Hp & Hw). exists Unauthorized, p. eauto 10.
Qed.

(** C1: authentication gates everything: unless the peer's first frame is a
    Hello carrying the server's token, the session fails and the peer has been
    sent nothing but (at most) the 401 refusal, whatever the broadcast channel
    delivers and however the session is scheduled. *)
Theorem nothing_before_authentication state timed_out at_ events r w :
  ¬ authenticated state r →
  ∃ e p, (handle state timed_out at_ events r w).1 = Err e ∧
    written (handle state timed_out at_ events r w).2 = written w ++ p ∧
    (p = [] ∨ ∃ f, to_frame unauthorized = Ok f ∧ p `prefix_of` frame_bytes f ∧ e = Unauthorized).
Proof.
  intros Hna. destruct (handshake_unauthenticated state timed_out r w Hna) as (e & p & He & Hw & Hp).
  unfold handle. destruct (handshake state timed_out r w) as [[?|e'] w']; simpl in *; [done|].
  injection He as ->. eauto.
Qed.

(** The frames a schedule makes the session send, as long as it runs. *)
Fixpoint stream_frames state (events : list stream_event) : list Frame :=
  match events with
  | SnapshotFrame _ f :: events => f :: stream_frames state events
  | Lagged _ :: events => stream_frames state events
  | Tick now :: events =>
      match to_frame (heartbeat state now) with
      | Ok f => f :: stream_frames state events
      | Err _ => []
      end
  | _ => []
  end.

(** What was sent is the script's encoding, cut short only by a failure, and
    never starts a frame that is too large. *)
Definition sends (script : list Frame) (ok : bool) (p : list u8) : Prop :=
  (∃ fs, fs `prefix_of` script ∧ Forall frame_fits fs ∧ p `prefix_of` concat (frame_bytes <$> fs)) ∧
  (ok = true → p = concat (frame_bytes <$> script)).

Lemma sends_nil ok : sends [] ok [].
Proof. split; [|done]. exists []. by split_and!. Qed.

Lemma sends_cons f s ok p : frame_fits f → sends s ok p → sends (f :: s) ok (frame_bytes f ++ p).
Proof.
  intros Hf [(fs & Hpre & Hfs & Hp) H2]. unfold sends. rewrite fmap_cons. cbn [concat]. split.
  - exists (f :: fs). rewrite fmap_cons. split_and!; [by apply prefix_cons|by constructor|by apply prefix_app].
  - intros Hok. by rewrite H2.
Qed.

Lemma sends_cut f s q : (q = [] ∨ frame_fits f) → q `prefix_of` frame_bytes f → sends (f :: s) false q.
Proof.
  intros [->|Hf] Hq; (split; [|done]); [exists []|exists [f]]; split_and!; try done; try apply prefix_nil.
  - apply prefix_cons, prefix_nil.
  - by constructor.
  - cbn. by rewrite app_nil_r.
Qed.

(** One frame of the script, then what the rest of the session sends. *)
Lemma write_then_sends {E} (f : Frame) s w (inj : ProtoError → E) (k : W → result unit E * W) :
  (∀ w', ∃ p, written (k w').2 = written w' ++ p ∧ sends s (is_ok (k w').1) p) →
  let out := match write_frame f w with (Err e, w') => (Err (inj e), w') | (Ok _, w') => k w' end in
  ∃ p, written out.2 = written w ++ p ∧ sends (f :: s) (is_ok out.1) p.
Proof.
  intros Hk. pose proof (write_frame_written f w) as Hw. pose proof (write_frame_unfit f w) as Hu.
  destruct (write_frame f w) as [[?|e] w']; simpl.
  - destruct Hw as [Hf Hw], (Hk w') as (p & Hp & Hs). exists (frame_bytes f ++ p).
    rewrite Hp, Hw, app_assoc. split; [done|]. by apply sends_cons.
  - destruct Hw as (q & Hq & Hw). destruct (decide (frame_fits f)) as [Hf|Hn].
    + exists q. split; [done|]. apply sends_cut; [by right|done].
    + exists []. simpl in Hu. rewrite (Hu Hn). split; [symmetry; apply app_nil_r|]. apply sends_cut; [by left|apply prefix_nil].
Qed.

Lemma stream_sends state events due w :
  ∃ p, written (stream state due events w).2 = written w ++ p ∧
    sends (stream_frames state events) (is_ok (stream state due events w).1) p.
Proof.
  assert (∀ ok w, ∃ p, written w = written w ++ p ∧ sends [] ok p) as Hnil.
  { intros ok w'. exists []. rewrite app_nil_r. split; [done|]. apply sends_nil. }
  revert due w. induction events as [|ev events IH]; intros due w; [apply Hnil|].
  destruct ev as [now f|n| |now|]; simpl; [|apply IH|apply Hnil| |apply Hnil].
  - apply (write_then_sends f _ w Proto). intros w'. apply IH.
  - unfold send. destruct (to_frame (heartbeat state now)) as [f|e]; [|apply Hnil].
    pose proof (write_then_sends f (stream_frames state events) w Proto
      (stream state (due + HEARTBEAT_INTERVAL) events) (IH _)) as Hsend.
    destruct (write_frame f w) as [[?|e] w']; exact Hsend.
Qed.

End ClientProps.

(** ** Witnesses: a server whose token is "t", and peers with two tokens *)

Section Demo.
#[local] Instance demo_bin1 : Bincode SystemSnapshot := no_bincode _.
#[local] Instance demo_bin2 : Bincode (str * Z) := countable_bincode _.
#[local] Instance demo_bin3 : Bincode (Z * str) := countable_bincode _.
#[local] Instance demo_bin4 : Bincode (str * option str) := countable_bincode _.
#[local] Instance demo_bin5 : Bincode (str * str * Z) := countable_bincode _.
#[local] Existing Instance demo_debug.

Definition demo_server : SharedState := mkShared (lit "t") 1 (lit "h") (lit "1") 0.

Definition demo_frame (m : WireMessage) : Frame :=
  match to_frame m with Ok f => f | Err _ => mkFrame x00 [] end.

Definition demo_peer (token : str) : Cursor :=
  mkCursor (frame_bytes (demo_frame (Hello (lit "1") (Some token)))) eof.

Lemma nothing_before_authentication_witness :
  ¬ authenticated demo_server (demo_peer (lit "x")) ∧
  ∃ e p, (handle demo_server false 0 [SnapshotFrame 1 (mkFrame x01 [])]
            (demo_peer (lit "x")) ([] : list u8)).1 = Err e ∧
    written (handle demo_server false 0 [SnapshotFrame 1 (mkFrame x01 [])]
            (demo_peer (lit "x")) ([] : list u8)).2 = [] ++ p ∧
    (p = [] ∨ ∃ f, to_frame unauthorized = Ok f ∧ p `prefix_of` frame_bytes f ∧ e = Unauthorized).
Proof.
  assert (¬ authenticated demo_server (demo_peer (lit "x"))) as Hna.
  { intros (f & v & t & Hr & Hf & Ht).
    vm_compute in Hr. injection Hr as <-. vm_compute in Hf. injection Hf as <- <-.
    vm_compute in Ht. discriminate. }
  split; [exact Hna|].
  exact (nothing_before_authentication demo_server false 0 _ _ ([] : list u8) Hna).
Defined.

End Demo.
