(* ===== verification/Server.v ===== *)
(** * The server: crates/muxtop-server/src/server.rs

    The relay that encodes each snapshot once, and the accept loop with its two
    gates, the per-source rate limiter and the client permits.  tokio's
    semaphore is an interface; the tasks the loop spawns report back as
    events, in whatever order the runtime schedules them. *)

From S2P Require Import Prelude Str RsFloat Network Frame RateLimit Snapshots Wire.
Local Open Scope Z_scope.
Local Open Scope record_scope.

(** What the code relies on of [tokio::sync::Semaphore]. *)
Class Semaphore (S : Type) := {
  sem_new : nat → S;
  available_permits : S → nat;
  try_acquire_owned : S → option S;
  release : S → S;
  available_new : ∀ n, available_permits (sem_new n) = n;
  try_acquire_spec : ∀ s,
    match try_acquire_owned s with
    | Some s' => available_permits s = Datatypes.S (available_permits s')
    | None => available_permits s = 0%nat
    end;
  available_release : ∀ s, available_permits (release s) = Datatypes.S (available_permits s);
}.

(** ** The relay *)

Section Relay.
Context `{!Bincode SystemSnapshot}.

(** One snapshot from the collector, with the number of subscribers it finds. *)
Definition relay_one (client_count : nat) (snap : SystemSnapshot) : option Frame :=
  if bool_decide (client_count = 0)%nat then None
  else match encode_snapshot_ref snap with
       | Ok frame => Some frame
       | Err _ => None
       end.

(** The frames the relay broadcasts over a run. *)
Definition relay (inputs : list (nat * SystemSnapshot)) : list Frame :=
  omap (λ i, relay_one i.1 i.2) inputs.
End Relay.

(** ** The accept loop *)

(** [accept]'s answer to a connection. *)
Inductive verdict_on : Type := RateLimited | MaxClients | Spawned (task : nat).

(** A client task is in its TLS handshake, then in its session. *)
Inductive Phase : Type := TlsHandshake | InSession.

#[global] Instance Phase_eq_dec : EqDecision Phase.
Proof. solve_decision. Defined.

Record AcceptState (S : Type) := mkAccept {
  limiter : LimiterState;
  semaphore : S;
  live : gmap nat Phase;
  spawned : nat;
  accepting : bool;
}.
Arguments mkAccept {S}.
Arguments limiter {S}.
Arguments semaphore {S}.
Arguments live {S}.
Arguments spawned {S}.
Arguments accepting {S}.

#[export] Instance AcceptState_eta S : Eta (AcceptState S) := λ s,
  mkAccept (limiter s) (semaphore s) (live s) (spawned s) (accepting s).

Inductive server_event : Type :=
| Accepted (ip : IpAddr) (now : Instant)
| AcceptFailed
| ShutDown
| TlsDone (task : nat)
| TlsFailed (task : nat)
| SessionEnded (task : nat).

Section Accept.
Context {S : Type} `{!Semaphore S}.

Record ServerConfig := mkConfig {
  max_clients : nat;
  rate_limit_per_ip : f32;
}.

Definition start (config : ServerConfig) (now : Instant) : RateLimiter * AcceptState S :=
  let '(rate_limiter, lim) :=
    RateLimit.new (rate_limit_per_ip config) (float_max (rate_limit_per_ip config) f32_one) now in
  (rate_limiter, mkAccept lim (sem_new (max_clients config)) ∅ 0 true).

Definition accept (rate_limiter : RateLimiter) (ip : IpAddr) (now : Instant)
    (self : AcceptState S) : verdict_on * AcceptState S :=
  let '(admitted, lim) := try_admit rate_limiter ip now (limiter self) in
  let self := self <| limiter := lim |> in
  if negb admitted then (RateLimited, self)
  else
  match try_acquire_owned (semaphore self) with
  | None => (MaxClients, self)
  | Some sem =>
      let task := spawned self in
      (Spawned task, self <| semaphore := sem |> <| live ::= <[task := TlsHandshake]> |>
                          <| spawned := Datatypes.S task |>)
  end.

(** The task returns: its permit is dropped with it. *)
Definition end_task (task : nat) (self : AcceptState S) : AcceptState S :=
  self <| live ::= delete task |> <| semaphore ::= release |>.

Definition server_step (rate_limiter : RateLimiter) (ev : server_event)
    (self : AcceptState S) : AcceptState S :=
  match ev with
  | Accepted ip now =>
      if accepting self then (accept rate_limiter ip now self).2 else self
  | AcceptFailed | ShutDown => self <| accepting := false |>
  | TlsDone task =>
      if bool_decide (live self !! task = Some TlsHandshake)
      then self <| live ::= <[task := InSession]> |> else self
  | TlsFailed task =>
      if bool_decide (live self !! task = Some TlsHandshake) then end_task task self else self
  | SessionEnded task =>
      if bool_decide (live self !! task = Some InSession) then end_task task self else self
  end.

Definition server_run (rate_limiter : RateLimiter) (evs : list server_event)
    (self : AcceptState S) : AcceptState S :=
  foldl (λ self ev, server_step rate_limiter ev self) self evs.
End Accept.

(** ** Properties *)

(** *** The relay *)

Section RelayProps.
Context `{!Bincode SystemSnapshot} `{!Bincode (str * Z)} `{!Bincode (Z * str)}
  `{!Bincode (str * option str)} `{!Bincode (str * str * Z)} `{!DebugFmt}.

Lemma relay_cons n s inputs :
  relay ((n, s) :: inputs)
  = match relay_one n s with Some f => [f] | None => [] end ++ relay inputs.
Proof. unfold relay. simpl. by destruct (relay_one n s). Qed.

(** One encoding serves every client: the frames broadcast are, in order,
    those of the snapshots that found a subscriber and could be encoded, and a
    client decodes each to the very snapshot the collector published. *)
Theorem relay_faithful inputs :
  Forall (λ i, fits i.2) inputs →
  ∃ snaps, snaps `sublist_of` (snd <$> inputs) ∧
    Forall2 (λ f s, from_frame f = Ok (Snapshot s)) (relay inputs) snaps ∧
    ∀ n s f, (n, s) ∈ inputs → (0 < n)%nat → encode_snapshot_ref s = Ok f → f ∈ relay inputs.
Proof.
  induction 1 as [|[n s] inputs Hfit _ (snaps & Hsub & Hdec & Hin)].
  { exists []. split; [done|]. split; [constructor|]. intros n s f []%elem_of_nil. }
  rewrite relay_cons. unfold relay_one. simpl.
  destruct (bool_decide_reflect (n = 0)%nat) as [->|Hn]; simpl.
  { exists snaps. split; [by constructor|]. split; [done|].
    intros n s' f [E|E]%elem_of_cons Hn Hf; [by simplify_eq; lia|eauto]. }
  destruct (encode_snapshot_ref s) as [f|e] eqn:E; simpl.
  - exists (s :: snaps). split; [by constructor|]. split.
    + constructor; [|done]. apply from_to_frame; [done|].
      by rewrite <- encode_snapshot_ref_to_frame.
    + intros n' s' f' [Hns|Hns]%elem_of_cons Hn' Hf; apply elem_of_cons;
        [left; congruence|right; eauto].
  - exists snaps. split; [by constructor|]. split; [done|].
    intros n' s' f' [Hns|Hns]%elem_of_cons Hn' Hf; [congruence|eauto].
Qed.
End RelayProps.

(** *** The permits *)

Section AcceptProps.
Context {S : Type} `{!Semaphore S}.
Implicit Types self : AcceptState S.

(** Every live task holds one permit, and task numbers are fresh. *)
Record accept_ok (n : nat) (rl : RateLimiter) self : Prop := {
  ok_permits : (available_permits (semaphore self) + size (live self))%nat = n;
  ok_fresh : ∀ t, is_Some (live self !! t) → (t < spawned self)%nat;
  ok_tracked : (tracked (limiter self) ≤ max_tracked rl)%nat;
}.

Lemma end_task_ok n rl task self :
  is_Some (live self !! task) → accept_ok n rl self → accept_ok n rl (end_task task self).
Proof.
  intros Ht [Hp Hf Hl]. split; simpl; [|intros t [_ H]%lookup_delete_is_Some; auto|done].
  rewrite available_release, map_size_delete_Some by done.
  assert (size (live self) ≠ 0%nat).
  { apply map_size_non_empty_iff. intros E. rewrite E, lookup_empty in Ht. by destruct Ht. }
  lia.
Qed.

Lemma accept_step_ok n rl ip now self :
  accept_ok n rl self → accept_ok n rl (accept rl ip now self).2.
Proof.
  intros [Hp Hf Hl]. unfold accept.
  pose proof (try_admit_tracked rl ip now (limiter self)) as Ht.
  destruct (try_admit rl ip now (limiter self)) as [b lim]. simpl in Ht.
  assert (tracked lim ≤ max_tracked rl)%nat as Hl' by lia.
  destruct b; simpl; [|by split].
  pose proof (try_acquire_spec (semaphore self)) as Ha.
  destruct (try_acquire_owned (semaphore self)) as [sem|]; [|by split].
  assert (live self !! spawned self = None) as Hfresh.
  { apply eq_None_not_Some. intros H%Hf. lia. }
  split; simpl; [|intros t H|done].
  - rewrite map_size_insert_None by done. lia.
  - destruct (decide (t = spawned self)) as [->|Hne]; [lia|].
    rewrite lookup_insert_ne in H by done. apply Hf in H. lia.
Qed.

Lemma server_step_ok n rl ev self :
  accept_ok n rl self → accept_ok n rl (server_step rl ev self).
Proof.
  intros Hok. destruct ev as [ip now| | |t|t|t]; simpl; try (case_bool_decide as Ht; [|done]);
    try (apply end_task_ok; [by rewrite Ht|done]).
  - destruct (accepting self); [by apply accept_step_ok|done].
  - by destruct Hok.
  - by destruct Hok.
  - destruct Hok as [Hp Hf Hl]. split; simpl; [|intros t' H|done].
    + by rewrite map_size_insert_Some.
    + apply Hf. destruct (decide (t' = t)) as [->|]; [by rewrite Ht|].
      by rewrite lookup_insert_ne in H.
Qed.

(** C6: the client limit is exact and covers the handshakes: whatever
    connects, in whatever order handshakes fail, sessions end and sources
    flood, the permits available and the tasks alive (handshaking or in
    session) always add up to [max_clients], and the limiter's memory stays
    within its ceiling. *)
Theorem capacity_conserved config now evs :
  let '(rl, self) := start (S := S) config now in
  let self := server_run rl evs self in
  (available_permits (semaphore self) + size (live self))%nat = max_clients config ∧
  (tracked (limiter self) ≤ MAX_TRACKED_IPS)%nat.
Proof.
  destruct (start config now) as [rl self0] eqn:E. unfold start in E. simpl in E.
  injection E as <- <-. simpl.
  set (rl := mkRateLimiter _ _ _). set (self0 := mkAccept _ _ _ _ _).
  assert (accept_ok (max_clients config) rl self0) as Hok.
  { split; simpl; [|by intros t [? ?]|].
    - rewrite available_new, map_size_empty. lia.
    - unfold tracked. simpl. rewrite map_size_empty. lia. }
  assert (accept_ok (max_clients config) rl (server_run rl evs self0)) as Hend.
  { clearbody self0. unfold server_run. revert self0 Hok.
    induction evs as [|ev evs IH]; intros self0 Hok; [done|]. apply IH, server_step_ok, Hok. }
  by destruct Hend.
Qed.

(** What a refused connection costs: one that is over its rate takes no
    permit and starts no handshake whatever the load, one that is admitted
    while every permit is taken starts none either, and any other starts
    exactly one handshake under one permit. *)
Theorem accept_verdict rl ip now self :
  let admitted := (try_admit rl ip now (limiter self)).1 in
  let '(v, self') := accept rl ip now self in
  limiter self' = (try_admit rl ip now (limiter self)).2 ∧
  if negb admitted then v = RateLimited ∧ live self' = live self ∧ semaphore self' = semaphore self
  else if bool_decide (available_permits (semaphore self) = 0%nat)
  then v = MaxClients ∧ live self' = live self ∧ semaphore self' = semaphore self
  else v = Spawned (spawned self) ∧ live self' = <[spawned self := TlsHandshake]> (live self) ∧
       available_permits (semaphore self) = Datatypes.S (available_permits (semaphore self')).
Proof.
  unfold accept. destruct (try_admit rl ip now (limiter self)) as [[] lim]; simpl; [|done].
  pose proof (try_acquire_spec (semaphore self)) as Ha.
  destruct (try_acquire_owned (semaphore self)) as [sem|]; simpl.
  - rewrite bool_decide_eq_false_2 by lia. done.
  - by rewrite bool_decide_eq_true_2.
Qed.
End AcceptProps.

(** ** Concrete instances *)

(** A counting semaphore. *)
Definition counter_semaphore : Semaphore nat.
Proof.
  refine {| sem_new n := n; available_permits s := s;
            try_acquire_owned s := match s with O => None | Datatypes.S s => Some s end;
            release s := Datatypes.S s |}; [done| |done].
  by intros [|s].
Defined.

(** Two slots, no rate limit: the third peer is refused until a handshake fails. *)
Example two_slots :
  let _ := counter_semaphore in
  let '(rl, self) := start (S := nat) (mkConfig 2 f32_zero) 0 in
  let peer := Accepted (V4 1) 0 in
  live (server_run rl [peer; peer; peer; TlsFailed 0; peer; TlsDone 1] self)
  = <[1%nat := InSession]> {[2%nat := TlsHandshake]}.
Proof. vm_compute. reflexivity. Qed.

(** A codec that knows one snapshot. *)
Definition known_bincode (s0 : SystemSnapshot) : Bincode SystemSnapshot.
Proof.
  refine {| encode_to_vec _ := Ok [x2a]; decode_from_slice bs := Ok (s0, length bs);
            fits s := s = s0 |}.
  by intros s bs ->.
Defined.

Definition idle_snapshot : SystemSnapshot :=
  mkSystem (mkCpu f32_zero []) (mkMemory 0 0 0 0 0) (mkLoad f32_zero f32_zero f32_zero 0) []
    (NetworkSnapshot_collect []) None None None 0.

Lemma relay_faithful_witness :
  let _ := known_bincode idle_snapshot in
  let _ := countable_bincode (str * Z) in
  let _ := countable_bincode (Z * str) in
  let _ := countable_bincode (str * option str) in
  let _ := countable_bincode (str * str * Z) in
  let inputs := [(0%nat, idle_snapshot); (3%nat, idle_snapshot)] in
  relay inputs = [mkFrame MSG_SNAPSHOT [x2a]] ∧
  ∃ snaps, snaps `sublist_of` (snd <$> inputs) ∧
    Forall2 (λ f s, from_frame f = Ok (Snapshot s)) (relay inputs) snaps ∧
    ∀ n s f, (n, s) ∈ inputs → (0 < n)%nat → encode_snapshot_ref s = Ok f → f ∈ relay inputs.
Proof.
  intros b1 b2 b3 b4 b5 inputs. split; [reflexivity|].
  apply (relay_faithful inputs). repeat constructor.
Defined.
