(* ===== verification/Remote.v ===== *)
(** * The remote collector: crates/muxtop-proto/src/remote.rs

    One connection attempt (connect, TLS, Hello/Welcome, streaming) and the
    reconnection loop with its backoff.  What the network and the runtime do
    is an input script; what the collector does is a trace. *)

From S2P Require Import Prelude Str RsFloat Frame Snapshots Wire.
Local Open Scope Z_scope.
Local Open Scope rust_scope.

Definition MAX_BACKOFF : Duration := from_secs 30.
Definition INITIAL_BACKOFF : Duration := from_secs 1.

Inductive ConnectionEvent : Type :=
| Connected (hostname : str)
| Disconnected
| ServerErrorEvent (code : Z) (message : str).

Inductive RemoteError : Type :=
| RemoteIo (e : io_error)
| Protocol (message : str)
| RemoteHandshakeTimeout
| ConnectionClosed
| RemoteServerError (code : Z) (message : str).

(** How a step raced against cancellation and its timeout ends. *)
Inductive leg (A : Type) : Type := Done (a : A) | TimedOut | CancelledFirst.
Arguments Done {A}.
Arguments TimedOut {A}.
Arguments CancelledFirst {A}.

(** The snapshot channel's answer to [try_send]. *)
Inductive channel : Type := ChanOpen | ChanFull | ChanClosed.

(** A branch of the streaming [select!]. *)
Inductive remote_event : Type :=
| FrameRead (r : result (option Frame) ProtoError) (tx : channel)
| RemoteCancelled.

(** What the outside world does during one attempt. *)
Record attempt := mkAttempt {
  tcp : leg (result unit io_error);
  tls : leg (result unit str);
  hello_written : result unit ProtoError;
  welcome_read : leg (result (option Frame) ProtoError);
  streaming : list remote_event;
}.

(** What the collector does, in order. *)
Inductive action : Type :=
| SentHello (token : option str)
| Notified (e : ConnectionEvent)
| Delivered (snap : SystemSnapshot)
| Slept (d : Duration).

Section Remote.
Context `{!Bincode SystemSnapshot} `{!Bincode (str * Z)} `{!Bincode (Z * str)}
  `{!Bincode (str * option str)} `{!Bincode (str * str * Z)} `{!DebugFmt}.
(** [Display] of a protocol error. *)
Variable proto_display : ProtoError → str.
Variables (client_version : str) (token : option str).

Definition protocol_error {A} (e : ProtoError) : result A RemoteError :=
  Err (Protocol (proto_display e)).

(** The streaming loop; running out of script is the loop still waiting, seen
    as cancelled there. *)
Fixpoint stream_loop (events : list remote_event) : list action * result unit RemoteError :=
  match events with
  | [] | RemoteCancelled :: _ => ([], Ok tt)
  | FrameRead r tx :: events =>
    match r with
    | Ok None => ([], Err ConnectionClosed)
    | Err e => ([], protocol_error e)
    | Ok (Some frame) =>
      match from_frame frame with
      | Err e => ([], protocol_error e)
      | Ok (Snapshot snapshot) =>
          match tx with
          | ChanOpen => let '(acts, res) := stream_loop events in (Delivered snapshot :: acts, res)
          | ChanFull => stream_loop events
          | ChanClosed => ([], Ok tt)
          end
      | Ok (Heartbeat _ _) => stream_loop events
      | Ok (Error code message) =>
          ([Notified (ServerErrorEvent code message)], Err (RemoteServerError code message))
      | Ok _ => stream_loop events
      end
    end
  end.

Definition connect_and_stream (a : attempt) : list action * result unit RemoteError :=
  match tcp a with
  | CancelledFirst => ([], Ok tt)
  | TimedOut => ([], Ok tt)
  | Done (Err e) => ([], Err (RemoteIo e))
  | Done (Ok _) =>
  match tls a with
  | CancelledFirst => ([], Ok tt)
  | TimedOut => ([], Err (Protocol (lit "TLS handshake timed out")))
  | Done (Err e) => ([], Err (Protocol (lit "TLS handshake failed: " ++ e)))
  | Done (Ok _) =>
  match to_frame (Hello client_version token) with
  | Err e => ([], protocol_error e)
  | Ok _ =>
  match hello_written a with
  | Err e => ([], protocol_error e)
  | Ok _ =>
  let '(acts, res) :=
    match welcome_read a with
    | TimedOut | CancelledFirst => ([], Err RemoteHandshakeTimeout)
    | Done (Err e) => ([], protocol_error e)
    | Done (Ok None) => ([], Err ConnectionClosed)
    | Done (Ok (Some welcome_frame)) =>
      match from_frame welcome_frame with
      | Err e => ([], protocol_error e)
      | Ok (Welcome _ hostname _) =>
          let '(acts, res) := stream_loop (streaming a) in
          (Notified (Connected hostname) :: acts, res)
      | Ok (Error code message) =>
          ([Notified (ServerErrorEvent code message)], Err (RemoteServerError code message))
      | Ok other =>
          ([], Err (Protocol (lit "expected Welcome, got " ++ WireMessage_fmt other)))
      end
    end in
  (SentHello token :: acts, res)
  end end end end.

Definition next_backoff (e : RemoteError) (backoff : Duration) : Duration :=
  match e with
  | ConnectionClosed => INITIAL_BACKOFF
  | _ => Z.min (backoff * 2) MAX_BACKOFF
  end.

(** The reconnection loop: the attempts the world allows, each with whether
    cancellation fires during the wait that follows it. *)
Fixpoint run_loop (backoff : Duration) (attempts : list (attempt * bool)) : list action :=
  match attempts with
  | [] => []
  | (a, cancelled_in_sleep) :: attempts =>
    match connect_and_stream a with
    | (acts, Ok _) => acts
    | (acts, Err e) =>
        acts ++ Notified Disconnected ::
        (if cancelled_in_sleep : bool then []
         else Slept backoff :: run_loop (next_backoff e backoff) attempts)
    end
  end.

Definition run (attempts : list (attempt * bool)) : list action :=
  run_loop INITIAL_BACKOFF attempts.

(** ** Properties *)

(** The waits of a trace. *)
Definition sleeps (acts : list action) : list Duration :=
  omap (λ a, match a with Slept d => Some d | _ => None end) acts.

Definition delivered (acts : list action) : list SystemSnapshot :=
  omap (λ a, match a with Delivered s => Some s | _ => None end) acts.

Lemma sleeps_app l k : sleeps (l ++ k) = sleeps l ++ sleeps k.
Proof. apply omap_app. Qed.

Lemma delivered_app l k : delivered (l ++ k) = delivered l ++ delivered k.
Proof. apply omap_app. Qed.

Lemma stream_loop_no_sleep events : sleeps (stream_loop events).1 = [].
Proof.
  induction events as [|[[[f|]|e] tx|] events IH]; try done. simpl.
  destruct (from_frame f) as [[s| | | |]|e]; try done.
  destruct tx; [|done..]. by destruct (stream_loop events).
Qed.

Lemma attempt_no_sleep a : sleeps (connect_and_stream a).1 = [].
Proof.
  unfold connect_and_stream.
  destruct (tcp a) as [[?|?]| |]; try done. destruct (tls a) as [[?|?]| |]; try done.
  destruct (to_frame _); [|done]. destruct (hello_written a); [|done].
  destruct (welcome_read a) as [[[f|]|e]| |]; try done. simpl.
  destruct (from_frame f) as [[s| | | |v h r]|e]; try done.
  pose proof (stream_loop_no_sleep (streaming a)) as H'. by destruct (stream_loop _).
Qed.

(** The waits the failures of a run call for: each doubles the one before it,
    up to the cap, and a dropped connection starts over. *)
Fixpoint waits (backoff : Duration) (errors : list RemoteError) : list Duration :=
  match errors with
  | [] => []
  | e :: errors => backoff :: waits (next_backoff e backoff) errors
  end.

Lemma waits_bounded errors b :
  INITIAL_BACKOFF ≤ b ≤ MAX_BACKOFF →
  Forall (λ d, INITIAL_BACKOFF ≤ d ≤ MAX_BACKOFF) (waits b errors).
Proof.
  revert b. induction errors as [|e errors IH]; intros b Hb; simpl; [done|].
  constructor; [done|]. apply IH. unfold next_backoff, INITIAL_BACKOFF, MAX_BACKOFF,
    from_secs, NANOS_PER_SEC in *. destruct e; lia.
Qed.

Lemma run_loop_sleeps b attempts :
  ∃ errors, sleeps (run_loop b attempts) = waits b errors.
Proof.
  revert b. induction attempts as [|[a cancelled] attempts IH]; intros b; simpl.
  { by exists []. }
  pose proof (attempt_no_sleep a) as Ha.
  destruct (connect_and_stream a) as [acts [?|e]]; simpl in *.
  { exists []. done. }
  rewrite sleeps_app, Ha. simpl. destruct cancelled; [by exists []|].
  destruct (IH (next_backoff e b)) as [errors Herr]. exists (e :: errors). simpl.
  by rewrite Herr.
Qed.

(** Reconnection never hammers and never stalls: whatever the network does,
    every wait between two attempts is at least one second and at most thirty. *)
Theorem backoff_bounded attempts :
  Forall (λ d, from_secs 1 ≤ d ≤ from_secs 30) (sleeps (run attempts)).
Proof.
  unfold run. destruct (run_loop_sleeps INITIAL_BACKOFF attempts) as [errors ->].
  apply waits_bounded. unfold INITIAL_BACKOFF, MAX_BACKOFF, from_secs, NANOS_PER_SEC. lia.
Qed.

(** *** Nothing is delivered before the Welcome *)

(** The snapshots a script of frames carries while the channel takes them. *)
Fixpoint carried (events : list remote_event) : list SystemSnapshot :=
  match events with
  | FrameRead (Ok (Some f)) ChanOpen :: events =>
      match from_frame f with Ok (Snapshot s) => [s] | _ => [] end ++ carried events
  | FrameRead (Ok (Some _)) _ :: events => carried events
  | _ => []
  end.

Lemma stream_loop_delivers events : delivered (stream_loop events).1 `prefix_of` carried events.
Proof.
  induction events as [|[[[f|]|e] tx|] events IH]; try done. simpl.
  destruct (from_frame f) as [[s| | | |]|e]; destruct tx; simpl; try done;
    try apply prefix_nil.
  destruct (stream_loop events) as [acts res]. simpl in *. by apply prefix_cons.
Qed.

(** The TUI is only shown what the server it asked for sent it: snapshots
    are delivered only on an attempt whose TLS handshake completed and whose
    peer answered the Hello with a Welcome, after the Connected notice, and
    they are decoded, in order and without invention, from the frames read. *)
Theorem delivered_after_welcome a :
  let '(acts, _) := connect_and_stream a in
  delivered acts = [] ∨
  ∃ f v h r rest, welcome_read a = Done (Ok (Some f)) ∧ from_frame f = Ok (Welcome v h r) ∧
    tls a = Done (Ok tt) ∧
    acts = SentHello token :: Notified (Connected h) :: rest ∧
    delivered rest `prefix_of` carried (streaming a).
Proof.
  unfold connect_and_stream.
  destruct (tcp a) as [[?|?]| |]; try by left. destruct (tls a) as [[[]|?]| |]; try by left.
  destruct (to_frame _); [|by left]. destruct (hello_written a); [|by left].
  destruct (welcome_read a) as [[[f|]|e]| |]; try by left. simpl.
  destruct (from_frame f) as [[s| | | |v h r]|e] eqn:Ef; try by left.
  pose proof (stream_loop_delivers (streaming a)) as Hd.
  destruct (stream_loop (streaming a)) as [acts res]. right. by eauto 12.
Qed.
End Remote.

(** *** Where the backoff departs from its comments *)

Section Divergence.
Context `{!Bincode SystemSnapshot} `{!Bincode (str * Z)} `{!Bincode (Z * str)}
  `{!Bincode (str * option str)} `{!Bincode (str * str * Z)} `{!DebugFmt}.

Definition refused : attempt :=
  mkAttempt (Done (Err (mkIoError OtherKind None))) CancelledFirst (Ok tt) CancelledFirst [].

(** A session that is welcomed by [wf] and then reads [last]. *)
Definition welcomed (wf : Frame) (last : result (option Frame) ProtoError) : attempt :=
  mkAttempt (Done (Ok tt)) (Done (Ok tt)) (Ok tt) (Done (Ok (Some wf)))
    [FrameRead last ChanOpen].

(** An attempt also ends without an error, and so without a reconnection, when
    the application's end of the channel is gone. *)
Lemma closed_channel_is_no_error proto_display f snap events :
  from_frame f = Ok (Snapshot snap) →
  stream_loop proto_display (FrameRead (Ok (Some f)) ChanClosed :: events) = ([], Ok tt).
Proof. intros E. simpl. by rewrite E. Qed.

(** A peer that closes the connection instead of welcoming. *)
Definition slammed : attempt :=
  mkAttempt (Done (Ok tt)) (Done (Ok tt)) (Ok tt) (Done (Ok None)) [].

(** The backoff follows the kind of the last error, not whether a connection
    was established: a welcomed session that ends in a read error still
    doubles it; a peer that never welcomes resets it; and the wait right after
    a welcomed session drops is the one earlier failures had built up. *)
Lemma backoff_ignores_success proto_display v t wf h f w r e :
  to_frame (Hello v t) = Ok f → from_frame wf = Ok (Welcome w h r) →
  let go l := sleeps (run proto_display v t ((λ a, (a, false)) <$> l)) in
  go [refused; refused; welcomed wf (Err e); refused] = from_secs <$> [1; 2; 4; 8] ∧
  go [refused; refused; slammed; refused] = from_secs <$> [1; 2; 4; 1] ∧
  go [refused; refused; welcomed wf (Ok None)] = from_secs <$> [1; 2; 4].
Proof.
  intros Hf Hwf. unfold run, run_loop. simpl. unfold connect_and_stream. simpl.
  rewrite Hf. simpl. rewrite Hwf. simpl. done.
Qed.
End Divergence.
