(* ===== verification/Keymap.v ===== *)
(** * The keymap: crates/muxtop-tui/src/keymap.rs

    The tabs of the application (declared in app.rs), the actions, the binding
    table, its resolution, and the help and hint lists derived from it. *)

From S2P Require Import Prelude Str Actions.
Local Open Scope Z_scope.

(** ** Tabs and sub-views (app.rs) *)

Module Tab.
Inductive Tab : Type := General | Processes | Network | Containers | Kube | Gpu.
End Tab.
Abbreviation Tab := Tab.Tab.

#[global] Instance Tab_eq_dec : EqDecision Tab.
Proof. solve_decision. Defined.

Definition Tab_ALL : list Tab :=
  [Tab.General; Tab.Processes; Tab.Network; Tab.Containers; Tab.Kube; Tab.Gpu].

Definition Tab_label (self : Tab) : str :=
  match self with
  | Tab.General => lit "General"
  | Tab.Processes => lit "Processes"
  | Tab.Network => lit "Network"
  | Tab.Containers => lit "Containers"
  | Tab.Kube => lit "Kube"
  | Tab.Gpu => lit "GPU"
  end.

(** [iter().position(..)]. *)
Definition position {A} (p : A → bool) (l : list A) : option nat :=
  fst <$> list_find (λ a, p a = true) l.

Definition Tab_next (self : Tab) : Tab :=
  let idx := default 0%nat (position (λ t, bool_decide (t = self)) Tab_ALL) in
  nth ((idx + 1) mod length Tab_ALL)%nat Tab_ALL Tab.General.

Definition Tab_prev (self : Tab) : Tab :=
  let idx := default 0%nat (position (λ t, bool_decide (t = self)) Tab_ALL) in
  nth ((idx + length Tab_ALL - 1) mod length Tab_ALL)%nat Tab_ALL Tab.General.

Module KubeSubview.
Inductive KubeSubview : Type := Pods | Nodes | Deployments.
End KubeSubview.
Abbreviation KubeSubview := KubeSubview.KubeSubview.

#[global] Instance KubeSubview_eq_dec : EqDecision KubeSubview.
Proof. solve_decision. Defined.

Module GpuSubview.
Inductive GpuSubview : Type := Devices | Procs.
End GpuSubview.
Abbreviation GpuSubview := GpuSubview.GpuSubview.

#[global] Instance GpuSubview_eq_dec : EqDecision GpuSubview.
Proof. solve_decision. Defined.

(** ** Keys, as crossterm reports them *)

Inductive KeyCode : Type :=
| KChar (c : Z)
| KF (n : Z)
| KBackspace | KEnter | KLeft | KRight | KUp | KDown | KHome | KEnd
| KPageUp | KPageDown | KTab | KBackTab | KDelete | KInsert | KEsc
| KOther (code : Z).

#[global] Instance KeyCode_eq_dec : EqDecision KeyCode.
Proof. solve_decision. Defined.

(** The modifier bit set; the bits never bound against are kept in [rest]. *)
Record KeyModifiers := mkMods { shift : bool; control : bool; alt : bool; rest : Z }.

#[global] Instance KeyModifiers_eq_dec : EqDecision KeyModifiers.
Proof. solve_decision. Defined.

Definition NONE : KeyModifiers := mkMods false false false 0.
Definition CTRL : KeyModifiers := mkMods false true false 0.
Definition ALT : KeyModifiers := mkMods false false true 0.

(** ** Actions, scopes and groups *)

Module Action.
Inductive Action : Type :=
| Quit | Help | Palette | CommandMode | TogglePause | Refresh | ToggleLog
| NextTab | PrevTab | GoTab (t : Tab) | NextSubview | PrevSubview
| RowDown | RowUp | RowPageDown | RowPageUp | RowHalfDown | RowHalfUp | RowFirst | RowLast
| ColLeft | ColRight | OpenInspector | ActionsMenu | CopySelection
| OpenFilter | Back | CycleSort | ReverseSort
| ToggleTree | Renice (delta : Z) | Kill (signal : Signal)
| ContainerStop | ContainerKill | ContainerRestart
| KubeSubview (sv : KubeSubview) | ToggleKubeScope
| GpuSubview (sv : GpuSubview).
End Action.
Abbreviation Action := Action.Action.

#[global] Instance Action_eq_dec : EqDecision Action.
Proof. solve_decision. Defined.

Definition is_local_only (self : Action) : bool :=
  match self with
  | Action.Renice _ | Action.Kill _ | Action.ContainerStop | Action.ContainerKill
  | Action.ContainerRestart | Action.ToggleKubeScope => true
  | _ => false
  end.

Module Scope.
Inductive Scope : Type := Global | Tab (t : Tab).
End Scope.
Abbreviation Scope := Scope.Scope.

#[global] Instance Scope_eq_dec : EqDecision Scope.
Proof. solve_decision. Defined.

Definition matches (self : Scope) (tab : Tab) : bool :=
  match self with
  | Scope.Global => true
  | Scope.Tab t => bool_decide (t = tab)
  end.

Module Group.
Inductive Group : Type := Navigation | Table | SortFilter | Actions | App.
End Group.
Abbreviation Group := Group.Group.

Definition Group_title (self : Group) : str :=
  match self with
  | Group.Navigation => lit "NAVIGATION"
  | Group.Table => lit "TABLE"
  | Group.SortFilter => lit "SORT & FILTER"
  | Group.Actions => lit "ACTIONS"
  | Group.App => lit "APPLICATION"
  end.

Record Binding := mkBinding {
  code : KeyCode;
  mods : KeyModifiers;
  action : Action;
  scope : Scope;
  group : Group;
  display : str;
  label : str;
  hint : bool;
  primary : bool;
}.

(** ** The table *)

Definition process_bindings : list Binding := [
  mkBinding (KChar 116) NONE Action.ToggleTree (Scope.Tab Tab.Processes) Group.Table
    (lit "t") (lit "Tree view") true true;
  mkBinding (KF 5) NONE Action.ToggleTree (Scope.Tab Tab.Processes) Group.Table
    (lit "F5") (lit "Tree view") false false;
  mkBinding (KF 7) NONE (Action.Renice 1) (Scope.Tab Tab.Processes) Group.Actions
    (lit "F7") (lit "Lower priority (nice +1)") false true;
  mkBinding (KChar 45) NONE (Action.Renice 1) (Scope.Tab Tab.Processes) Group.Actions
    (lit "-") (lit "Lower priority (nice +1)") false false;
  mkBinding (KF 8) NONE (Action.Renice (-1)) (Scope.Tab Tab.Processes) Group.Actions
    (lit "F8") (lit "Raise priority (nice -1)") false true;
  mkBinding (KChar 43) NONE (Action.Renice (-1)) (Scope.Tab Tab.Processes) Group.Actions
    (lit "+") (lit "Raise priority (nice -1)") false false;
  mkBinding (KF 9) NONE (Action.Kill Term) (Scope.Tab Tab.Processes) Group.Actions
    (lit "F9") (lit "Kill process (SIGTERM)") true true;
  mkBinding (KF 10) NONE (Action.Kill Kill) (Scope.Tab Tab.Processes) Group.Actions
    (lit "F10") (lit "Force kill (SIGKILL)") false true].

Definition container_bindings : list Binding := [
  mkBinding (KF 9) NONE Action.ContainerStop (Scope.Tab Tab.Containers) Group.Actions
    (lit "F9") (lit "Stop container") true true;
  mkBinding (KF 10) NONE Action.ContainerKill (Scope.Tab Tab.Containers) Group.Actions
    (lit "F10") (lit "Kill container") false true;
  mkBinding (KF 11) NONE Action.ContainerRestart (Scope.Tab Tab.Containers) Group.Actions
    (lit "F11") (lit "Restart container") false true].

Definition kube_bindings : list Binding := [
  mkBinding (KChar 80) NONE (Action.KubeSubview KubeSubview.Pods) (Scope.Tab Tab.Kube) Group.Navigation
    (lit "P") (lit "Pods sub-view") true true;
  mkBinding (KChar 78) NONE (Action.KubeSubview KubeSubview.Nodes) (Scope.Tab Tab.Kube) Group.Navigation
    (lit "N") (lit "Nodes sub-view") false true;
  mkBinding (KChar 68) NONE (Action.KubeSubview KubeSubview.Deployments) (Scope.Tab Tab.Kube) Group.Navigation
    (lit "D") (lit "Deployments sub-view") false true;
  mkBinding (KChar 65) NONE Action.ToggleKubeScope (Scope.Tab Tab.Kube) Group.Actions
    (lit "A") (lit "Toggle namespace scope") true true].

Definition gpu_bindings : list Binding := [
  mkBinding (KChar 68) NONE (Action.GpuSubview GpuSubview.Devices) (Scope.Tab Tab.Gpu) Group.Navigation
    (lit "D") (lit "Devices sub-view") true true;
  mkBinding (KChar 80) NONE (Action.GpuSubview GpuSubview.Procs) (Scope.Tab Tab.Gpu) Group.Navigation
    (lit "P") (lit "Processes sub-view") false true].

Definition app_bindings : list Binding := [
  mkBinding (KChar 113) NONE Action.Quit Scope.Global Group.App
    (lit "q") (lit "Quit") true true;
  mkBinding (KChar 99) CTRL Action.Quit Scope.Global Group.App
    (lit "Ctrl+C") (lit "Quit") false false;
  mkBinding (KChar 63) NONE Action.Help Scope.Global Group.App
    (lit "?") (lit "Help") true true;
  mkBinding (KF 1) NONE Action.Help Scope.Global Group.App
    (lit "F1") (lit "Help") false false;
  mkBinding (KChar 112) CTRL Action.Palette Scope.Global Group.App
    (lit "Ctrl+P") (lit "Command palette") true true;
  mkBinding (KChar 107) CTRL Action.Palette Scope.Global Group.App
    (lit "Ctrl+K") (lit "Command palette") false false;
  mkBinding (KChar 58) NONE Action.CommandMode Scope.Global Group.App
    (lit ":") (lit "Command mode") false true;
  mkBinding (KChar 32) NONE Action.TogglePause Scope.Global Group.App
    (lit "Space") (lit "Pause / resume refresh") true true;
  mkBinding (KChar 114) NONE Action.Refresh Scope.Global Group.App
    (lit "r") (lit "Refresh now") false true;
  mkBinding (KChar 108) CTRL Action.ToggleLog Scope.Global Group.App
    (lit "Ctrl+L") (lit "Message log") false true].

Definition navigation_bindings : list Binding := [
  mkBinding KTab NONE Action.NextTab Scope.Global Group.Navigation
    (lit "Tab") (lit "Next tab") true true;
  mkBinding KBackTab NONE Action.PrevTab Scope.Global Group.Navigation
    (lit "Shift+Tab") (lit "Previous tab") false true;
  mkBinding (KChar 49) ALT (Action.GoTab Tab.General) Scope.Global Group.Navigation
    (lit "Alt+1") (lit "General tab") false true;
  mkBinding (KChar 50) ALT (Action.GoTab Tab.Processes) Scope.Global Group.Navigation
    (lit "Alt+2") (lit "Processes tab") false true;
  mkBinding (KChar 51) ALT (Action.GoTab Tab.Network) Scope.Global Group.Navigation
    (lit "Alt+3") (lit "Network tab") false true;
  mkBinding (KChar 52) ALT (Action.GoTab Tab.Containers) Scope.Global Group.Navigation
    (lit "Alt+4") (lit "Containers tab") false true;
  mkBinding (KChar 53) ALT (Action.GoTab Tab.Kube) Scope.Global Group.Navigation
    (lit "Alt+5") (lit "Kubernetes tab") false true;
  mkBinding (KChar 54) ALT (Action.GoTab Tab.Gpu) Scope.Global Group.Navigation
    (lit "Alt+6") (lit "GPU tab") false true;
  mkBinding (KChar 93) NONE Action.NextSubview Scope.Global Group.Navigation
    (lit "]") (lit "Next sub-view") false true;
  mkBinding (KChar 91) NONE Action.PrevSubview Scope.Global Group.Navigation
    (lit "[") (lit "Previous sub-view") false true].

Definition table_bindings : list Binding := [
  mkBinding (KChar 106) NONE Action.RowDown Scope.Global Group.Table
    (lit "j") (lit "Move down") false true;
  mkBinding KDown NONE Action.RowDown Scope.Global Group.Table
    (lit "↓") (lit "Move down") false false;
  mkBinding (KChar 107) NONE Action.RowUp Scope.Global Group.Table
    (lit "k") (lit "Move up") false true;
  mkBinding KUp NONE Action.RowUp Scope.Global Group.Table
    (lit "↑") (lit "Move up") false false;
  mkBinding KPageDown NONE Action.RowPageDown Scope.Global Group.Table
    (lit "PgDn") (lit "Page down") false true;
  mkBinding KPageUp NONE Action.RowPageUp Scope.Global Group.Table
    (lit "PgUp") (lit "Page up") false true;
  mkBinding (KChar 100) CTRL Action.RowHalfDown Scope.Global Group.Table
    (lit "Ctrl+D") (lit "Half page down") false true;
  mkBinding (KChar 117) CTRL Action.RowHalfUp Scope.Global Group.Table
    (lit "Ctrl+U") (lit "Half page up") false true;
  mkBinding (KChar 103) NONE Action.RowFirst Scope.Global Group.Table
    (lit "g") (lit "First row") false true;
  mkBinding KHome NONE Action.RowFirst Scope.Global Group.Table
    (lit "Home") (lit "First row") false false;
  mkBinding (KChar 71) NONE Action.RowLast Scope.Global Group.Table
    (lit "G") (lit "Last row") false true;
  mkBinding KEnd NONE Action.RowLast Scope.Global Group.Table
    (lit "End") (lit "Last row") false false].

Definition table_bindings_more : list Binding := [
  mkBinding (KChar 104) NONE Action.ColLeft Scope.Global Group.Table
    (lit "h") (lit "Scroll columns left") false true;
  mkBinding KLeft NONE Action.ColLeft Scope.Global Group.Table
    (lit "←") (lit "Scroll columns left") false false;
  mkBinding (KChar 108) NONE Action.ColRight Scope.Global Group.Table
    (lit "l") (lit "Scroll columns right") false true;
  mkBinding KRight NONE Action.ColRight Scope.Global Group.Table
    (lit "→") (lit "Scroll columns right") false false;
  mkBinding KEnter NONE Action.OpenInspector Scope.Global Group.Table
    (lit "Enter") (lit "Inspect selected row") true true;
  mkBinding (KChar 105) NONE Action.OpenInspector Scope.Global Group.Table
    (lit "i") (lit "Inspect selected row") false false;
  mkBinding (KChar 120) NONE Action.ActionsMenu Scope.Global Group.Actions
    (lit "x") (lit "Actions menu") true true;
  mkBinding (KChar 121) NONE Action.CopySelection Scope.Global Group.Table
    (lit "y") (lit "Copy row identifier") false true].

Definition sort_filter_bindings : list Binding := [
  mkBinding (KChar 47) NONE Action.OpenFilter Scope.Global Group.SortFilter
    (lit "/") (lit "Filter") true true;
  mkBinding (KF 4) NONE Action.OpenFilter Scope.Global Group.SortFilter
    (lit "F4") (lit "Filter") false false;
  mkBinding (KF 3) NONE Action.OpenFilter Scope.Global Group.SortFilter
    (lit "F3") (lit "Search") false false;
  mkBinding (KChar 115) NONE Action.CycleSort Scope.Global Group.SortFilter
    (lit "s") (lit "Cycle sort column") true true;
  mkBinding (KF 6) NONE Action.CycleSort Scope.Global Group.SortFilter
    (lit "F6") (lit "Cycle sort column") false false;
  mkBinding (KChar 83) NONE Action.ReverseSort Scope.Global Group.SortFilter
    (lit "S") (lit "Reverse sort order") false true;
  mkBinding (KChar 73) NONE Action.ReverseSort Scope.Global Group.SortFilter
    (lit "I") (lit "Reverse sort order") false false;
  mkBinding KEsc NONE Action.Back Scope.Global Group.SortFilter
    (lit "Esc") (lit "Back / clear filter") false true].

Definition BINDINGS : list Binding :=
  process_bindings ++ container_bindings ++ kube_bindings ++ gpu_bindings ++ app_bindings ++ navigation_bindings ++ table_bindings ++ table_bindings_more ++ sort_filter_bindings.

(** ** Resolution *)

Definition normalise (code : KeyCode) (mods : KeyModifiers) : KeyModifiers :=
  let m := match code with
           | KChar _ => mkMods false (control mods) (alt mods) (rest mods)
           | _ => mods
           end in
  mkMods false (control m) (alt m) 0.

Definition resolve (code_ : KeyCode) (mods_ : KeyModifiers) (tab : Tab) : option Action :=
  let mods_ := normalise code_ mods_ in
  action <$> find (λ b, bool_decide (code b = code_) && bool_decide (mods b = mods_)
                        && matches (scope b) tab) BINDINGS.

Definition for_tab (tab : Tab) : list Binding :=
  List.filter (λ b, matches (scope b) tab) BINDINGS.

(** [help_rows]: the loop, with the actions already listed. *)
Fixpoint help_rows_from (scope_ : Scope) (seen : list Action) (bs : list Binding)
    : list (str * str * Group) :=
  match bs with
  | [] => []
  | b :: bs =>
      if bool_decide (action b ∈ seen) then help_rows_from scope_ seen bs
      else
        let keys := display <$> List.filter
          (λ o, bool_decide (action o = action b) && bool_decide (scope o = scope b)) BINDINGS in
        (join (lit " ") keys, label b, group b) :: help_rows_from scope_ (seen ++ [action b]) bs
  end.

Definition help_rows (tab : Tab) (scope_ : Scope) : list (str * str * Group) :=
  help_rows_from scope_ []
    (List.filter (λ b, bool_decide (scope b = scope_) && matches (scope b) tab) BINDINGS).

Definition hint_of (remote : bool) (b : Binding) : option (str * str) :=
  if remote && is_local_only (action b) then None else Some (display b, label b).

Definition hints (tab : Tab) (remote : bool) : list (str * str) :=
  omap (hint_of remote) (List.filter
    (λ b, hint b && match scope b with Scope.Tab t => bool_decide (t = tab) | _ => false end)
    BINDINGS)
  ++ omap (hint_of remote) (List.filter
       (λ b, hint b && bool_decide (scope b = Scope.Global) && primary b) BINDINGS).

(** ** Properties *)

Lemma Tab_ALL_complete tab : tab ∈ Tab_ALL.
Proof. apply (bool_decide_unpack _). by destruct tab. Qed.

(** [Tab] and [Shift+Tab] are inverse walks over all the tabs. *)
Lemma Tab_prev_next tab : Tab_prev (Tab_next tab) = tab ∧ Tab_next (Tab_prev tab) = tab.
Proof. by destruct tab. Qed.

Lemma find_Some {A} (p : A → bool) l a : find p l = Some a → a ∈ l ∧ p a = true.
Proof. intros H%List.find_some. by rewrite list_elem_of_In. Qed.

(** A decidable fact about every binding on every tab, by evaluation. *)
Lemma for_every_binding (P : Binding → Tab → bool) :
  forallb (λ b, forallb (P b) Tab_ALL) BINDINGS = true →
  ∀ b tab, b ∈ BINDINGS → P b tab = true.
Proof.
  intros H b tab Hb%list_elem_of_In. rewrite forallb_forall in H.
  specialize (H b Hb). rewrite forallb_forall in H. apply H.
  apply list_elem_of_In, Tab_ALL_complete.
Qed.

(** Modifiers the table never binds (Shift, the lock and keypad bits) do not
    change what a key does. *)
Lemma resolve_ignores_shift code_ mods_ tab :
  resolve code_ mods_ tab = resolve code_ (mkMods false (control mods_) (alt mods_) 0) tab.
Proof. unfold resolve, normalise. by destruct code_. Qed.

(** Pressing the key of [b] on a tab it applies to finds its action. *)
Definition entry_reached (b : Binding) (tab : Tab) : bool :=
  negb (matches (scope b) tab) ||
  bool_decide (action <$> find (λ b', bool_decide (code b' = code b)
    && bool_decide (mods b' = mods b) && matches (scope b') tab) BINDINGS = Some (action b)).

(** The table means what it lists: pressing the key of any entry, on any
    tab where the entry applies, runs that entry's action (no entry is dead or
    shadowed by another), and conversely a key runs an action only if an entry
    of the active tab or a global one binds it. *)
Theorem keymap_exact code_ mods_ tab a :
  resolve code_ mods_ tab = Some a ↔
  ∃ b, b ∈ BINDINGS ∧ action b = a ∧ matches (scope b) tab = true ∧
       code b = code_ ∧ mods b = normalise code_ mods_.
Proof.
  unfold resolve. split.
  - intros (b & Hb & ->)%fmap_Some.
    apply find_Some in Hb as [Hin [[Hc Hm]%andb_true_iff Hs]%andb_true_iff].
    apply bool_decide_eq_true in Hc, Hm. by exists b.
  - intros (b & Hin & <- & Hs & <- & <-).
    assert (entry_reached b tab = true) as H.
    { apply for_every_binding; [vm_compute; reflexivity|done]. }
    unfold entry_reached in H.
    rewrite Hs in H. by apply bool_decide_eq_true in H.
Qed.

(** The help screen of [tab] has a row with the key of [b]. *)
Definition entry_documented (b : Binding) (tab : Tab) : bool :=
  negb (matches (scope b) tab) ||
  existsb (λ row, existsb (λ o, bool_decide (action o = action b)
    && bool_decide (row.1.2 = label o) && contains row.1.1 (display b)) BINDINGS)
    (help_rows tab (scope b)).

(** The help screen is complete: every key that does something on a tab is
    listed there, in the section of its scope, on the row of its action. *)
Theorem help_is_complete b tab :
  b ∈ BINDINGS → matches (scope b) tab = true →
  ∃ row o, row ∈ help_rows tab (scope b) ∧ o ∈ BINDINGS ∧ action o = action b ∧
    row.1.2 = label o ∧ contains row.1.1 (display b) = true.
Proof.
  intros Hin Hs.
  assert (entry_documented b tab = true) as H
    by (apply for_every_binding; [vm_compute; reflexivity|done]).
  unfold entry_documented in H. rewrite Hs in H. cbn [negb orb] in H.
  apply existsb_exists in H as (row & Hrow & (o & Ho & H)%existsb_exists).
  apply andb_true_iff in H as [[Ha Hl]%andb_true_iff Hc].
  apply bool_decide_eq_true in Ha, Hl. exists row, o.
  by rewrite !list_elem_of_In.
Qed.

(** The footer never offers what cannot work: against a remote host every
    hint shown is the key of a binding of the active tab or a global one whose
    action does not reach outside the TUI. *)
Theorem remote_hints_safe tab d l :
  (d, l) ∈ hints tab true →
  ∃ b, b ∈ BINDINGS ∧ display b = d ∧ label b = l ∧ matches (scope b) tab = true ∧
       is_local_only (action b) = false.
Proof.
  unfold hints. rewrite elem_of_app. intros H.
  assert (∃ b, b ∈ BINDINGS ∧ matches (scope b) tab = true ∧ hint_of true b = Some (d, l))
    as (b & Hin & Hs & Hh).
  { destruct H as [H|H]; apply list_elem_of_omap in H as (b & Hb & Hh);
      apply list_elem_of_In, List.filter_In in Hb as [Hb%list_elem_of_In Hf];
      exists b; split_and!; try done.
    - apply andb_true_iff in Hf as [_ Hf]. by destruct (scope b).
    - apply andb_true_iff in Hf as [[_ Hf%bool_decide_eq_true]%andb_true_iff _].
      by rewrite Hf. }
  unfold hint_of in Hh. destruct (is_local_only (action b)) eqn:El; [discriminate|].
  injection Hh as <- <-. exists b. split_and!; [exact Hin|reflexivity..|exact Hs|exact El].
Qed.

(** ** Witnesses *)

Definition quit_key : Binding :=
  mkBinding (KChar 113) NONE Action.Quit Scope.Global Group.App (lit "q") (lit "Quit") true true.

Lemma help_is_complete_witness :
  quit_key ∈ BINDINGS ∧
  ∃ row o, row ∈ help_rows Tab.Kube (scope quit_key) ∧ o ∈ BINDINGS ∧
    action o = action quit_key ∧ row.1.2 = label o ∧
    contains row.1.1 (display quit_key) = true.
Proof.
  assert (quit_key ∈ BINDINGS) as Hin.
  { apply list_elem_of_In. unfold BINDINGS. vm_compute. tauto. }
  split; [exact Hin|]. apply (help_is_complete quit_key Tab.Kube Hin). reflexivity.
Defined.

Lemma remote_hints_safe_witness :
  (lit "q", lit "Quit") ∈ hints Tab.Processes true ∧
  ∃ b, b ∈ BINDINGS ∧ display b = lit "q" ∧ label b = lit "Quit" ∧
       matches (scope b) Tab.Processes = true ∧ is_local_only (action b) = false.
Proof.
  assert ((lit "q", lit "Quit") ∈ hints Tab.Processes true) as Hin.
  { apply list_elem_of_In. vm_compute. tauto. }
  split; [exact Hin|]. exact (remote_hints_safe Tab.Processes _ _ Hin).
Defined.
