(* ===== verification/Ui.v ===== *)
(** * Small pieces of the terminal front end

    The sanitizer (ui/sanitize.rs), severities and theme names (ui/theme.rs),
    the notification stack (notify.rs) and the scrolling arithmetic shared by
    every table (ui/widgets/mod.rs, ui/widgets/scrollbar.rs), all under
    crates/muxtop-tui/src/. *)

From S2P Require Import Prelude Str RsFloat.
Local Open Scope Z_scope.
Local Open Scope record_scope.

(** ** Sanitizing foreign text *)

Definition is_offending (b : Z) : bool := ((b <? 32) && negb (b =? 9)) || (b =? 127).

Definition scrub_ctrl (s : str) : str :=
  let needs_scrubbing := existsb is_offending (as_bytes s) in
  if negb needs_scrubbing then s
  else (λ ch, if (ch <? 128) && is_offending ch then 63 else ch) <$> s.

(** ** Severities and themes *)

Module Level.
Inductive Level : Type := Info | Success | Warning | Error | Neutral.
End Level.
Abbreviation Level := Level.Level.

#[global] Instance Level_eq_dec : EqDecision Level.
Proof. solve_decision. Defined.

Inductive ThemeKind : Type := TokyoNight | TokyoNightLight | Mono.

Definition ThemeKind_ALL : list ThemeKind := [TokyoNight; TokyoNightLight; Mono].

Definition ThemeKind_name (self : ThemeKind) : str :=
  match self with
  | TokyoNight => lit "tokyo-night"
  | TokyoNightLight => lit "tokyo-night-light"
  | Mono => lit "mono"
  end.

Definition ThemeKind_names : str := join (lit ", ") (ThemeKind_name <$> ThemeKind_ALL).

(** [s.replace('_', "-")]. *)
Definition underscores_to_dashes (s : str) : str := (λ c, if c =? 95 then 45 else c) <$> s.

Definition any_of (s : str) (names : list str) : bool := existsb (λ n, bool_decide (s = n)) names.

Definition ThemeKind_from_str `{!Unicode} (s : str) : result ThemeKind str :=
  let normalised := underscores_to_dashes (to_lowercase (trim s)) in
  if any_of normalised [lit "tokyo-night"; lit "tokyonight"; lit "dark"; lit "default"]
  then Ok TokyoNight
  else if any_of normalised
    [lit "tokyo-night-light"; lit "tokyonight-light"; lit "light"; lit "day"]
  then Ok TokyoNightLight
  else if any_of normalised [lit "mono"; lit "monochrome"; lit "none"] then Ok Mono
  else Err (lit "unknown theme `" ++ normalised ++ lit "` (available: " ++ ThemeKind_names
            ++ lit ")").

(** ** Notifications *)

Definition TTL_INFO : Duration := from_secs 4.
Definition TTL_WARNING : Duration := from_secs 8.
Definition TTL_ERROR : Duration := from_secs 12.
Definition MAX_ACTIVE : nat := 3.
Definition LOG_CAPACITY : nat := 50.

Record Toast := mkToast { level : Level; text : str; posted_at : Instant }.

Definition ttl (self : Toast) : Duration :=
  match level self with
  | Level.Error => TTL_ERROR
  | Level.Warning => Z.min TTL_ERROR TTL_WARNING
  | _ => TTL_INFO
  end.

Definition is_expired (now : Instant) (self : Toast) : bool :=
  ttl self <=? duration_since now (posted_at self).

Record Notifier := mkNotifier { active : list Toast; log : list Toast }.

#[export] Instance Notifier_eta : Eta Notifier := λ s, mkNotifier (active s) (log s).

Definition Notifier_new : Notifier := mkNotifier [] [].

(** [while len > n { remove(0) }]. *)
Definition keep_last {A} (n : nat) (l : list A) : list A := drop (length l - n) l.

Definition post (now : Instant) (lv : Level) (text : str) (self : Notifier) : Notifier :=
  let toast := mkToast lv (scrub_ctrl text) now in
  self <| log ::= λ l, keep_last LOG_CAPACITY (l ++ [toast]) |>
       <| active ::= λ l, keep_last MAX_ACTIVE (l ++ [toast]) |>.

Definition latest (self : Notifier) : option Toast := last (active self).

Definition expire (now : Instant) (self : Notifier) : bool * Notifier :=
  let kept := List.filter (λ t, negb (is_expired now t)) (active self) in
  (negb (bool_decide (length (active self) = length kept)), self <| active := kept |>).

Definition next_deadline (now : Instant) (self : Notifier) : option Duration :=
  match active self with
  | [] => None
  | t :: ts =>
      let left_of t := saturating_sub (ttl t) (duration_since now (posted_at t)) in
      Some (foldl (λ d t, Z.min d (left_of t)) (left_of t) ts)
  end.

Definition dismiss_all (self : Notifier) : Notifier := self <| active := [] |>.

Definition notifier_is_empty (self : Notifier) : bool := bool_decide (active self = []).

(** ** Scrolling *)

Definition viewport_offset (selected offset height : nat) : nat :=
  if bool_decide (height = 0%nat) then 0%nat
  else if bool_decide (selected < offset)%nat then selected
  else if bool_decide (offset + height ≤ selected)%nat then (selected - (height - 1))%nat
  else offset.

Definition clamp_selection (selected count : nat) : nat :=
  if bool_decide (count = 0%nat) then 0%nat else min selected (count - 1).

Definition position_label (selected total : nat) : option str :=
  if bool_decide (0 < total)%nat
  then Some (show (Z.of_nat (min selected (total - 1) + 1)) ++ lit "/" ++ show (Z.of_nat total))
  else None.

(** ** Properties *)

Lemma high_bytes_fine c : 128 ≤ c → is_char c → existsb is_offending (utf8_char c) = false.
Proof.
  intros Hc [_ Hmax]. unfold utf8_char. destruct (Z.ltb_spec c 128); [lia|].
  assert (∀ b, 128 ≤ b → is_offending b = false) as Hb.
  { intros b ?. unfold is_offending.
    destruct (Z.ltb_spec b 32), (Z.eqb_spec b 127); simpl; lia || done. }
  destruct (c <? 2048); [|destruct (c <? 65536)]; cbn [existsb];
    rewrite !Hb; try done; Z.div_mod_to_equations; lia.
Qed.

Lemma offending_char c :
  is_char c → existsb is_offending (utf8_char c) = (c <? 128) && is_offending c.
Proof.
  intros Hc. destruct (Z.ltb_spec c 128) as [Hlt|Hge]; [|by apply high_bytes_fine].
  unfold utf8_char. rewrite (proj2 (Z.ltb_lt c 128)) by done. simpl. by rewrite orb_false_r.
Qed.

(** A control character that can act on a terminal. *)
Definition control_char (c : Z) : bool := (c <? 128) && is_offending c.

Lemma scrub_ctrl_map s :
  Forall is_char s → scrub_ctrl s = (λ c, if control_char c then 63 else c) <$> s.
Proof.
  intros Hs. unfold scrub_ctrl. destruct (existsb is_offending (as_bytes s)) eqn:E; [done|].
  simpl. induction Hs as [|c s Hc Hs IH]; [done|].
  unfold as_bytes in E. rewrite fmap_cons in E. cbn [concat] in E.
  rewrite existsb_app, offending_char in E by done.
  apply orb_false_iff in E as [E1 E2]. rewrite fmap_cons. unfold control_char at 1.
  rewrite E1. f_equal. by apply IH.
Qed.

(** Foreign text cannot drive the terminal: after scrubbing, no character
    of a name, message or status is an ASCII control character other than the
    tab, and nothing else changed: every other character, and the length, is
    kept. *)
Theorem scrub_ctrl_safe s :
  Forall is_char s →
  length (scrub_ctrl s) = length s ∧
  ∀ i c, scrub_ctrl s !! i = Some c →
    control_char c = false ∧
    ∃ c0, s !! i = Some c0 ∧ (control_char c0 = false → c = c0).
Proof.
  intros Hs. rewrite scrub_ctrl_map by done. split; [by rewrite length_fmap|].
  intros i c Hc. rewrite list_lookup_fmap in Hc. destruct (s !! i) as [c0|]; [|done].
  simpl in Hc. injection Hc as <-. destruct (control_char c0) eqn:E.
  - split; [done|]. exists c0. by rewrite E.
  - split; [done|]. by exists c0.
Qed.

(** *** The notification log *)

Inductive notifier_op : Type :=
| Post (now : Instant) (lv : Level) (text : str)
| Expire (now : Instant)
| Dismiss.

Definition notifier_step (self : Notifier) (op : notifier_op) : Notifier :=
  match op with
  | Post now lv text => post now lv text self
  | Expire now => (expire now self).2
  | Dismiss => dismiss_all self
  end.

(** The messages a run posts, as the log records them. *)
Definition posted (ops : list notifier_op) : list Toast :=
  omap (λ op, match op with
              | Post now lv text => Some (mkToast lv (scrub_ctrl text) now)
              | _ => None
              end) ops.

Lemma keep_last_snoc {A} n (l : list A) x :
  keep_last n (keep_last n l ++ [x]) = keep_last n (l ++ [x]).
Proof.
  unfold keep_last. rewrite !length_app, length_drop. simpl.
  destruct (decide (length l ≤ n)%nat).
  - replace (length l - n)%nat with 0%nat by lia. rewrite drop_0. f_equal. lia.
  - rewrite <- (drop_app_le l [x]) by lia. rewrite drop_drop. f_equal. lia.
Qed.

Lemma keep_last_length {A} n (l : list A) : (length (keep_last n l) ≤ n)%nat.
Proof. unfold keep_last. rewrite length_drop. lia. Qed.

Lemma keep_last_sublist {A} n (l : list A) : keep_last n l `sublist_of` l.
Proof. unfold keep_last. apply sublist_drop. Qed.

Lemma filter_sublist {A} (p : A → bool) (l : list A) : List.filter p l `sublist_of` l.
Proof.
  induction l as [|x l IH]; simpl; [done|]. destruct (p x); [by apply sublist_skip|].
  by apply sublist_cons.
Qed.

(** Nothing posted is lost: whatever is posted, expired or dismissed, the
    log holds exactly the last fifty messages of the session in order, at most
    three toasts are on screen, and each of them was posted. *)
Theorem notifier_log_complete ops :
  let n := foldl notifier_step Notifier_new ops in
  log n = keep_last LOG_CAPACITY (posted ops) ∧
  (length (active n) ≤ MAX_ACTIVE)%nat ∧ active n `sublist_of` posted ops.
Proof.
  cbn zeta. induction ops as [|op ops IH] using rev_ind; [by split_and!; simpl; auto with lia|].
  destruct IH as (IHl & IHa & IHs). rewrite foldl_snoc. unfold posted. rewrite omap_app.
  fold (posted ops). set (n := foldl notifier_step Notifier_new ops) in *.
  destruct op as [now lv t|now|]; cbn [notifier_step omap list_omap post].
  - simpl. split_and!.
    + rewrite IHl. apply keep_last_snoc.
    + apply (keep_last_length MAX_ACTIVE).
    + etrans; [apply keep_last_sublist|]. by apply sublist_app.
  - rewrite app_nil_r. simpl. split_and!; [done| |].
    + etrans; [|exact IHa]. apply sublist_length, filter_sublist.
    + etrans; [apply filter_sublist|done].
  - rewrite app_nil_r. simpl. split_and!; [done|lia|apply sublist_nil_l].
Qed.

(** The viewport follows the selection and moves no more than needed: the
    selected row is on screen, an offset that already shows it is kept, and
    otherwise the row lands on the nearest edge. *)
Theorem viewport_shows_selection selected offset height :
  (0 < height)%nat →
  let o := viewport_offset selected offset height in
  (o ≤ selected < o + height)%nat ∧
  ((offset ≤ selected < offset + height)%nat → o = offset) ∧
  ((selected < offset)%nat → o = selected) ∧
  ((offset + height ≤ selected)%nat → (o + height = selected + 1)%nat).
Proof. intros Hh o. unfold o, viewport_offset. repeat case_bool_decide; lia. Qed.

Lemma clamp_selection_lt selected count :
  (0 < count)%nat → (clamp_selection selected count < count)%nat.
Proof. unfold clamp_selection. case_bool_decide; lia. Qed.

Lemma clamp_selection_le selected count : (clamp_selection selected count ≤ selected)%nat.
Proof. unfold clamp_selection. case_bool_decide; lia. Qed.

(** ** Witnesses *)

Lemma scrub_ctrl_safe_witness :
  scrub_ctrl [27; 93; 9; 233] = [63; 93; 9; 233] ∧
  length (scrub_ctrl [27; 93; 9; 233]) = length [27; 93; 9; 233] ∧
  ∀ i c, scrub_ctrl [27; 93; 9; 233] !! i = Some c →
    control_char c = false ∧
    ∃ c0, [27; 93; 9; 233] !! i = Some c0 ∧ (control_char c0 = false → c = c0).
Proof.
  split; [reflexivity|]. apply (scrub_ctrl_safe [27; 93; 9; 233]).
  repeat constructor; unfold is_char; lia.
Defined.

Lemma viewport_shows_selection_witness :
  let o := viewport_offset 30 0 20 in
  (o ≤ 30 < o + 20)%nat ∧ ((0 ≤ 30 < 0 + 20)%nat → o = 0%nat) ∧
  ((30 < 0)%nat → o = 30%nat) ∧ ((0 + 20 ≤ 30)%nat → (o + 20 = 30 + 1)%nat).
Proof. apply (viewport_shows_selection 30 0 20). lia. Defined.
