(* ===== verification/KubeView.v ===== *)
(** * The Kubernetes view: crates/muxtop-tui/src/ui/kube.rs

    The filtered and sorted index list behind the Kubernetes tab, with the
    sort-field cycles of app.rs.  The drawing code is in KubeTable.v. *)

From S2P Require Import Prelude Str RsFloat Process Snapshots Keymap Ui.
Local Open Scope Z_scope.

Inductive KubeSortField : Type :=
| PodName | PodCpu | PodMem | PodRestarts | PodAge | PodPhaseField
| NodeName | NodeCpuPct | NodeMemPct | NodePodCount | NodeAge
| DeployNamespace | DeployName | DeployReadyRatio | DeployAge.

#[global] Instance KubeSortField_eq_dec : EqDecision KubeSortField.
Proof. solve_decision. Defined.

Definition KubeSortField_default_for (sv : KubeSubview) : KubeSortField :=
  match sv with
  | KubeSubview.Pods => PodCpu
  | KubeSubview.Nodes => NodeCpuPct
  | KubeSubview.Deployments => DeployName
  end.

(** Out-of-domain fields recover to the sub-view's default. *)
Definition next_kube_sort_field (field : KubeSortField) (sv : KubeSubview) : KubeSortField :=
  match sv with
  | KubeSubview.Pods =>
      match field with
      | PodCpu => PodMem | PodMem => PodName | PodName => PodRestarts
      | PodRestarts => PodAge | PodAge => PodPhaseField | PodPhaseField => PodCpu
      | _ => KubeSortField_default_for sv
      end
  | KubeSubview.Nodes =>
      match field with
      | NodeCpuPct => NodeMemPct | NodeMemPct => NodeName | NodeName => NodePodCount
      | NodePodCount => NodeAge | NodeAge => NodeCpuPct
      | _ => KubeSortField_default_for sv
      end
  | KubeSubview.Deployments =>
      match field with
      | DeployName => DeployReadyRatio | DeployReadyRatio => DeployNamespace
      | DeployNamespace => DeployAge | DeployAge => DeployName
      | _ => KubeSortField_default_for sv
      end
  end.

Definition phase_label (phase : PodPhase) : str :=
  match phase with
  | PodPending => lit "Pending" | PodRunning => lit "Running" | PodSucceeded => lit "Succeeded"
  | PodFailed => lit "Failed" | CrashLoop => lit "CrashLoop"
  | Terminating => lit "Terminating" | PodUnknown => lit "Unknown"
  end.

Definition phase_level (phase : PodPhase) : Level :=
  match phase with
  | PodRunning => Level.Success
  | PodSucceeded => Level.Neutral
  | PodPending | Terminating => Level.Info
  | PodFailed | CrashLoop => Level.Error
  | PodUnknown => Level.Warning
  end.

Definition phase_rank (phase : PodPhase) : Z :=
  match phase with
  | CrashLoop => 0 | PodFailed => 1 | PodUnknown => 2 | PodPending => 3
  | Terminating => 4 | PodRunning => 5 | PodSucceeded => 6
  end.

(** Comparators: a key, its reverse, and a pair of strings. *)
Definition asc {A} (key : A → Z) : A → A → comparison := by_key Z.compare key.
Definition desc {A} (key : A → Z) (a b : A) : comparison := Z.compare (key b) (key a).
Definition names_cmp {A} (ns nm : A → str) (a b : A) : comparison :=
  match str_cmp (ns a) (ns b) with Eq => str_cmp (nm a) (nm b) | c => c end.

Definition pod_cmp (field : KubeSortField) : PodSnapshot → PodSnapshot → comparison :=
  match field with
  | PodName => names_cmp pod_namespace pod_name
  | PodPhaseField => asc (λ p, phase_rank (phase p))
  | PodRestarts => desc restarts
  | PodCpu => desc (λ p, default 0 (cpu_millis p))
  | PodMem => desc (λ p, default 0 (pod_mem_bytes p))
  | PodAge => desc pod_age_seconds
  | _ => desc (λ p, default 0 (cpu_millis p))
  end.

Definition node_cmp (field : KubeSortField) : NodeSnapshot → NodeSnapshot → comparison :=
  match field with
  | NodeName => by_key str_cmp node_name
  | NodeMemPct => desc (λ n, default 0 (node_mem_used_bytes n))
  | NodePodCount => desc pod_count
  | NodeAge => desc node_age_seconds
  | _ => desc (λ n, default 0 (cpu_used_millis n))
  end.

Definition ratio (d : DeploymentSnapshot) : f64 :=
  if replicas_desired d =? 0 then f64_of_Z 1
  else f64_div (f64_of_Z (replicas_ready d)) (f64_of_Z (replicas_desired d)).

Definition deployment_cmp (field : KubeSortField)
    : DeploymentSnapshot → DeploymentSnapshot → comparison :=
  match field with
  | DeployNamespace => names_cmp dep_namespace dep_name
  | DeployReadyRatio => λ a b, default Eq (float_partial_cmp (ratio a) (ratio b))
  | DeployAge => desc dep_age_seconds
  | _ => by_key str_cmp dep_name
  end.

(** [idx.sort_by(|&a, &b| cmp(&rows[a], &rows[b]))]; the indices are in range. *)
Definition cmp_at {A} (rows : list A) (cmp : A → A → comparison) (i j : nat) : comparison :=
  match rows !! i, rows !! j with
  | Some a, Some b => cmp a b
  | _, _ => Eq
  end.

Definition sort_rows {A} (idx : list nat) (rows : list A) (cmp : A → A → comparison)
    (order : SortOrder) : list nat :=
  let idx := sort_by (cmp_at rows cmp) idx in
  match order with Asc => reverse idx | Desc => idx end.

Section KubeView.
Context `{!Unicode}.

(** [(0..rows.len()).filter(|&i| keep(&rows[i])).collect()]. *)
Definition matching {A} (keep : A → bool) (rows : list A) : list nat :=
  List.filter (λ i, match rows !! i with Some r => keep r | None => false end)
    (seq 0 (length rows)).

Definition pod_matches (needle : str) (p : PodSnapshot) : bool :=
  contains_ignore_case (pod_name p) needle || contains_ignore_case (pod_namespace p) needle.
Definition node_matches (needle : str) (n : NodeSnapshot) : bool :=
  contains_ignore_case (node_name n) needle.
Definition deployment_matches (needle : str) (d : DeploymentSnapshot) : bool :=
  contains_ignore_case (dep_name d) needle || contains_ignore_case (dep_namespace d) needle.

Definition compute_view_indices (snap : KubeSnapshot) (subview : KubeSubview) (filter : str)
    (sort_field : KubeSortField) (sort_order : SortOrder) : list nat :=
  let needle := to_lowercase filter in
  match subview with
  | KubeSubview.Pods =>
      sort_rows (matching (pod_matches needle) (pods snap)) (pods snap) (pod_cmp sort_field)
        sort_order
  | KubeSubview.Nodes =>
      sort_rows (matching (node_matches needle) (nodes snap)) (nodes snap)
        (node_cmp sort_field) sort_order
  | KubeSubview.Deployments =>
      sort_rows (matching (deployment_matches needle) (deployments snap)) (deployments snap)
        (deployment_cmp sort_field) sort_order
  end.

(** ** Properties *)

Definition row_count (snap : KubeSnapshot) (sv : KubeSubview) : nat :=
  match sv with
  | KubeSubview.Pods => length (pods snap)
  | KubeSubview.Nodes => length (nodes snap)
  | KubeSubview.Deployments => length (deployments snap)
  end.

(** Whether row [i] of the sub-view passes the filter. *)
Definition row_matches (snap : KubeSnapshot) (sv : KubeSubview) (filter : str) (i : nat) : bool :=
  let needle := to_lowercase filter in
  match sv with
  | KubeSubview.Pods => default false (pod_matches needle <$> pods snap !! i)
  | KubeSubview.Nodes => default false (node_matches needle <$> nodes snap !! i)
  | KubeSubview.Deployments => default false (deployment_matches needle <$> deployments snap !! i)
  end.

(** How the field orders rows [i] and [j]. *)
Definition row_cmp (snap : KubeSnapshot) (sv : KubeSubview) (field : KubeSortField)
    : nat → nat → comparison :=
  match sv with
  | KubeSubview.Pods => cmp_at (pods snap) (pod_cmp field)
  | KubeSubview.Nodes => cmp_at (nodes snap) (node_cmp field)
  | KubeSubview.Deployments => cmp_at (deployments snap) (deployment_cmp field)
  end.

Lemma elem_of_matching {A} (keep : A → bool) (rows : list A) i :
  i ∈ matching keep rows ↔ default false (keep <$> rows !! i) = true.
Proof.
  unfold matching. rewrite list_elem_of_In, List.filter_In, <- list_elem_of_In, elem_of_seq.
  destruct (rows !! i) eqn:E; simpl; [|naive_solver].
  apply lookup_lt_Some in E. split; [tauto|]. intros ?. split; [lia|done].
Qed.

Lemma NoDup_matching {A} (keep : A → bool) (rows : list A) : NoDup (matching keep rows).
Proof. unfold matching. apply NoDup_ListNoDup, List.NoDup_filter, NoDup_ListNoDup, NoDup_seq. Qed.

Lemma cmp_at_preorder {A} (P : A → Prop) (rows : list A) cmp :
  total_preorder P cmp →
  total_preorder (λ i, ∃ a, rows !! i = Some a ∧ P a) (cmp_at rows cmp).
Proof.
  intros [Hanti Htrans]. unfold cmp_at. split.
  - intros i j (a & -> & Ha) (b & -> & Hb). by apply Hanti.
  - intros i j k (a & -> & Ha) (b & -> & Hb) (c & -> & Hc). by apply Htrans.
Qed.

(** The generic sub-view: filter then sort the indices of some rows. *)
Lemma sort_rows_spec {A} (P : A → Prop) (keep : A → bool) (rows : list A) cmp order :
  total_preorder P cmp → Forall P rows →
  let idx := sort_rows (matching keep rows) rows cmp order in
  NoDup idx ∧
  (∀ i, i ∈ idx ↔ default false (keep <$> rows !! i) = true) ∧
  StronglySorted (λ i j, match order with
                         | Desc => cmp_at rows cmp i j ≠ Gt
                         | Asc => cmp_at rows cmp j i ≠ Gt
                         end) idx.
Proof.
  intros Hc HP. cbn zeta. unfold sort_rows.
  assert (sort_by (cmp_at rows cmp) (matching keep rows) ≡ₚ matching keep rows) as Hperm
    by apply sort_by_perm.
  assert (in_order (cmp_at rows cmp) (sort_by (cmp_at rows cmp) (matching keep rows))) as Hs.
  { eapply sort_by_in_order; [by apply cmp_at_preorder|]. apply Forall_forall.
    intros i Hi%elem_of_matching. destruct (rows !! i) as [a|] eqn:E; [|done].
    exists a. split; [done|]. eapply Forall_lookup_1; eauto. }
  assert (match order with Asc => reverse (sort_by (cmp_at rows cmp) (matching keep rows))
          | Desc => sort_by (cmp_at rows cmp) (matching keep rows) end ≡ₚ matching keep rows)
    as Hp by (destruct order; by rewrite ?reverse_Permutation).
  split_and!.
  - rewrite Hp. apply NoDup_matching.
  - intros i. rewrite Hp. apply elem_of_matching.
  - destruct order; [|done]. by apply (StronglySorted_reverse (λ i j, cmp_at rows cmp i j ≠ Gt)).
Qed.

Lemma asc_preorder {A} (key : A → Z) : total_preorder (λ _, True) (asc key).
Proof. by eapply by_key_total_preorder; [|apply Z_compare_total_preorder]. Qed.

Lemma desc_preorder {A} (key : A → Z) : total_preorder (λ _, True) (desc key).
Proof.
  unfold desc. split.
  - intros x y _ _. apply Z.compare_antisym.
  - intros x y z _ _ _. destruct (Z.compare_spec (key y) (key x)),
      (Z.compare_spec (key z) (key y)), (Z.compare_spec (key z) (key x)); try done; lia.
Qed.

(** Two total preorders compose lexicographically. *)
Lemma lex_preorder {A} (P : A → Prop) (c1 c2 : A → A → comparison) :
  total_preorder P c1 → total_preorder P c2 →
  total_preorder P (λ a b, match c1 a b with Eq => c2 a b | c => c end).
Proof.
  intros [A1 T1] [A2 T2]. split.
  - intros x y Hx Hy. rewrite (A1 x y), (A2 x y) by done. by destruct (c1 x y).
  - intros x y z Hx Hy Hz Hxy Hyz.
    assert (c1 x y ≠ Gt) as H1 by (by destruct (c1 x y)).
    assert (c1 y z ≠ Gt) as H2 by (by destruct (c1 y z)).
    pose proof (T1 x y z Hx Hy Hz H1 H2) as H3.
    destruct (c1 x z) eqn:E; [|done..].
    assert (c1 z x ≠ Gt) as Hzx by (by rewrite (A1 x z), E).
    assert (c1 x y = Eq) as E1.
    { pose proof (T1 y z x Hy Hz Hx H2 Hzx) as Hyx. rewrite (A1 x y) in Hyx by done.
      by destruct (c1 x y). }
    assert (c1 y z = Eq) as E2.
    { pose proof (T1 z x y Hz Hx Hy Hzx H1) as Hzy. rewrite (A1 y z) in Hzy by done.
      by destruct (c1 y z). }
    rewrite E1 in Hxy. rewrite E2 in Hyz. by apply (T2 x y z).
Qed.

Lemma names_preorder {A} (ns nm : A → str) : total_preorder (λ _, True) (names_cmp ns nm).
Proof.
  apply (lex_preorder _ (by_key str_cmp ns) (by_key str_cmp nm));
    by eapply by_key_total_preorder; [|apply str_cmp_total_preorder].
Qed.
#[local] Hint Resolve asc_preorder desc_preorder names_preorder : core.

Lemma by_name_preorder {A} (key : A → str) : total_preorder (λ _, True) (by_key str_cmp key).
Proof. by eapply by_key_total_preorder; [|apply str_cmp_total_preorder]. Qed.
#[local] Hint Resolve by_name_preorder : core.

Lemma preorder_weaken {A} (P Q : A → Prop) cmp :
  (∀ x, P x → Q x) → total_preorder Q cmp → total_preorder P cmp.
Proof. intros HPQ [H1 H2]. split; eauto. Qed.

Lemma pod_cmp_preorder field : total_preorder (λ _, True) (pod_cmp field).
Proof. by destruct field; simpl. Qed.

Lemma node_cmp_preorder field : total_preorder (λ _, True) (node_cmp field).
Proof. by destruct field; simpl. Qed.

Lemma deployment_cmp_preorder field :
  total_preorder (λ d, field = DeployReadyRatio → is_nan (ratio d) = false) (deployment_cmp field).
Proof.
  destruct field; try (apply (preorder_weaken _ (λ _, True)); simpl; by auto).
  eapply (by_key_total_preorder _ (λ x, is_nan x = false) float_cmp_or_eq ratio);
    [auto|apply float_cmp_total_preorder].
Qed.

(** The rollout ratios are numbers when the sort compares them. *)
Definition comparable (sv : KubeSubview) (field : KubeSortField) (snap : KubeSnapshot) : Prop :=
  sv = KubeSubview.Deployments → field = DeployReadyRatio →
  Forall (λ d, is_nan (ratio d) = false) (deployments snap).

(** The Kubernetes view shows what was asked for: its indices are exactly
    the rows of the active sub-view that pass the filter, each once, in the
    order of the chosen column and direction. *)
Theorem view_indices_correct snap sv filter field order :
  comparable sv field snap →
  let idx := compute_view_indices snap sv filter field order in
  NoDup idx ∧
  (∀ i, i ∈ idx ↔ (i < row_count snap sv)%nat ∧ row_matches snap sv filter i = true) ∧
  StronglySorted (λ i j, match order with
                         | Desc => row_cmp snap sv field i j ≠ Gt
                         | Asc => row_cmp snap sv field j i ≠ Gt
                         end) idx.
Proof.
  intros Hc. cbn zeta.
  assert (∀ A (rows : list A) (keep : A → bool) i,
    default false (keep <$> rows !! i) = true ↔
    (i < length rows)%nat ∧ default false (keep <$> rows !! i) = true) as Hlen.
  { intros A rows keep i. destruct (rows !! i) eqn:E; simpl; [|naive_solver].
    apply lookup_lt_Some in E. tauto. }
  destruct sv; unfold compute_view_indices, row_count, row_matches, row_cmp.
  - destruct (sort_rows_spec (λ _, True) (pod_matches (to_lowercase filter)) (pods snap)
      (pod_cmp field) order) as (H1 & H2 & H3); [apply pod_cmp_preorder|by apply Forall_true|].
    split_and!; [done|intros i; rewrite H2; apply Hlen|done].
  - destruct (sort_rows_spec (λ _, True) (node_matches (to_lowercase filter)) (nodes snap)
      (node_cmp field) order) as (H1 & H2 & H3); [apply node_cmp_preorder|by apply Forall_true|].
    split_and!; [done|intros i; rewrite H2; apply Hlen|done].
  - destruct (sort_rows_spec (λ d, field = DeployReadyRatio → is_nan (ratio d) = false)
      (deployment_matches (to_lowercase filter)) (deployments snap)
      (deployment_cmp field) order) as (H1 & H2 & H3).
    + apply deployment_cmp_preorder.
    + destruct (decide (field = DeployReadyRatio)) as [->|Hne].
      * eapply Forall_impl; [by apply Hc|]. simpl. auto.
      * by apply Forall_true.
    + split_and!; [done|intros i; rewrite H2; apply Hlen|done].
Qed.
End KubeView.

(** ** Witness: three pods, two of them matching, worst phase first *)

Definition demo_pod (n : string) (ph : PodPhase) : PodSnapshot :=
  mkPod (lit "default") (lit n) ph (1, 1) 0 0 [] None None BestEffort.

Definition demo_cluster : KubeSnapshot :=
  mkKube Generic None [] true false
    [demo_pod "web-1" PodRunning; demo_pod "db" PodRunning; demo_pod "web-2" CrashLoop] [] [].

Lemma view_indices_correct_witness :
  let _ := ascii_tables in
  let idx := compute_view_indices demo_cluster KubeSubview.Pods (lit "WEB") PodPhaseField Desc in
  idx = [2; 0]%nat ∧
  NoDup idx ∧
  (∀ i, i ∈ idx ↔ (i < row_count demo_cluster KubeSubview.Pods)%nat ∧
                  row_matches demo_cluster KubeSubview.Pods (lit "WEB") i = true) ∧
  StronglySorted (λ i j, row_cmp demo_cluster KubeSubview.Pods PodPhaseField i j ≠ Gt) idx.
Proof.
  intros u idx. split; [reflexivity|].
  apply (view_indices_correct demo_cluster KubeSubview.Pods (lit "WEB") PodPhaseField Desc).
  discriminate.
Defined.
