(* ===== verification/Palette.v ===== *)
(** * The command palette: crates/muxtop-tui/src/app.rs, lines 126 to 625

    The command registry and the palette's filtered list.  The fuzzy score of
    the nucleo matcher is a parameter. *)

From S2P Require Import Prelude Str Process Keymap.
Local Open Scope Z_scope.
Local Open Scope record_scope.

(** ** The registry *)

Module Command.
Inductive Command : Type :=
| Quit | ToggleTreeView | SortByCpu | SortByMem | SortByPid | SortByName | SortByUser
| ToggleSortOrder | CycleSort | SwitchToGeneral | SwitchToProcesses | OpenFilter | NextTab
| PrevTab | KillProcess | ForceKillProcess | NiceDown | NiceUp | ClearFilter
| SwitchToNetwork | SortNetByRx | SortNetByTx | SortNetByName | SortNetByErrors
| SwitchToContainers | SortContainersByCpu | SortContainersByMem | SortContainersByName
| SortContainersByNetRx | StopContainer | KillContainer | RestartContainer | SwitchToKube
| SwitchToGpu | ShowHelp | TogglePause | RefreshNow | ShowLog | InspectRow | CopyRowId
| KubePods | KubeNodes | KubeDeployments | KubeToggleScope | KillNamed | StopNamed
| RestartNamed | SortBy | FilterBy | SetTheme | GoToTab.
End Command.
Abbreviation Command := Command.Command.

#[global] Instance Command_eq_dec : EqDecision Command.
Proof. solve_decision. Defined.

Definition Command_ALL : list Command := [
  Command.Quit; Command.ToggleTreeView; Command.SortByCpu; Command.SortByMem;
  Command.SortByPid; Command.SortByName; Command.SortByUser; Command.ToggleSortOrder;
  Command.CycleSort; Command.SwitchToGeneral; Command.SwitchToProcesses;
  Command.OpenFilter; Command.NextTab; Command.PrevTab; Command.KillProcess;
  Command.ForceKillProcess; Command.NiceDown; Command.NiceUp; Command.ClearFilter;
  Command.SwitchToNetwork; Command.SortNetByRx; Command.SortNetByTx; Command.SortNetByName;
  Command.SortNetByErrors; Command.SwitchToContainers; Command.SortContainersByCpu;
  Command.SortContainersByMem; Command.SortContainersByName; Command.SortContainersByNetRx;
  Command.StopContainer; Command.KillContainer; Command.RestartContainer;
  Command.SwitchToKube; Command.SwitchToGpu; Command.ShowHelp; Command.TogglePause;
  Command.RefreshNow; Command.ShowLog; Command.InspectRow; Command.CopyRowId;
  Command.KubePods; Command.KubeNodes; Command.KubeDeployments; Command.KubeToggleScope;
  Command.KillNamed; Command.StopNamed; Command.RestartNamed; Command.SortBy;
  Command.FilterBy; Command.SetTheme; Command.GoToTab].

Definition verb (self : Command) : option str :=
  match self with
  | Command.KillNamed => Some (lit "kill")
  | Command.StopNamed => Some (lit "stop")
  | Command.RestartNamed => Some (lit "restart")
  | Command.SortBy => Some (lit "sort")
  | Command.FilterBy => Some (lit "filter")
  | Command.SetTheme => Some (lit "theme")
  | Command.GoToTab => Some (lit "tab")
  | _ => None
  end.

Definition is_verb_only (self : Command) : bool := bool_decide (verb self ≠ None).

Definition home_tab (self : Command) : option Tab :=
  match self with
  | Command.ToggleTreeView | Command.SortByCpu | Command.SortByMem | Command.SortByPid
  | Command.SortByName | Command.SortByUser | Command.KillProcess
  | Command.ForceKillProcess | Command.KillNamed | Command.NiceDown | Command.NiceUp
      => Some Tab.Processes
  | Command.SortNetByRx | Command.SortNetByTx | Command.SortNetByName
  | Command.SortNetByErrors
      => Some Tab.Network
  | Command.SortContainersByCpu | Command.SortContainersByMem
  | Command.SortContainersByName | Command.SortContainersByNetRx | Command.StopContainer
  | Command.KillContainer | Command.RestartContainer | Command.StopNamed
  | Command.RestartNamed
      => Some Tab.Containers
  | Command.KubePods | Command.KubeNodes | Command.KubeDeployments
  | Command.KubeToggleScope
      => Some Tab.Kube
  | _ => None
  end.

Definition Command_label (self : Command) : str :=
  match self with
  | Command.Quit => lit "Quit"
  | Command.ToggleTreeView => lit "Toggle tree view"
  | Command.SortByCpu => lit "Sort by CPU"
  | Command.SortByMem => lit "Sort by Memory"
  | Command.SortByPid => lit "Sort by PID"
  | Command.SortByName => lit "Sort by Name"
  | Command.SortByUser => lit "Sort by User"
  | Command.ToggleSortOrder => lit "Toggle sort order"
  | Command.CycleSort => lit "Cycle sort field"
  | Command.SwitchToGeneral => lit "Switch to General tab"
  | Command.SwitchToProcesses => lit "Switch to Processes tab"
  | Command.OpenFilter => lit "Open filter"
  | Command.NextTab => lit "Next tab"
  | Command.PrevTab => lit "Previous tab"
  | Command.KillProcess => lit "Kill process (SIGTERM)"
  | Command.ForceKillProcess => lit "Force kill (SIGKILL)"
  | Command.NiceDown => lit "Lower priority (+1)"
  | Command.NiceUp => lit "Raise priority (-1)"
  | Command.ClearFilter => lit "Clear filter"
  | Command.SwitchToNetwork => lit "Switch to Network tab"
  | Command.SortNetByRx => lit "Sort network by RX"
  | Command.SortNetByTx => lit "Sort network by TX"
  | Command.SortNetByName => lit "Sort network by name"
  | Command.SortNetByErrors => lit "Sort network by errors"
  | Command.SwitchToContainers => lit "Switch to Containers tab"
  | Command.SortContainersByCpu => lit "Sort containers by CPU"
  | Command.SortContainersByMem => lit "Sort containers by memory"
  | Command.SortContainersByName => lit "Sort containers by name"
  | Command.SortContainersByNetRx => lit "Sort containers by network RX"
  | Command.StopContainer => lit "Stop container (SIGTERM)"
  | Command.KillContainer => lit "Kill container (SIGKILL)"
  | Command.RestartContainer => lit "Restart container"
  | Command.SwitchToKube => lit "Switch to Kubernetes tab"
  | Command.SwitchToGpu => lit "Switch to GPU tab"
  | Command.ShowHelp => lit "Help — keyboard reference"
  | Command.TogglePause => lit "Pause / resume refresh"
  | Command.RefreshNow => lit "Refresh now"
  | Command.ShowLog => lit "Message log"
  | Command.InspectRow => lit "Inspect selected row"
  | Command.CopyRowId => lit "Copy row identifier"
  | Command.KubePods => lit "Kube: Pods sub-view"
  | Command.KubeNodes => lit "Kube: Nodes sub-view"
  | Command.KubeDeployments => lit "Kube: Deployments sub-view"
  | Command.KubeToggleScope => lit "Kube: toggle namespace scope"
  | Command.KillNamed => lit "Kill process by name"
  | Command.StopNamed => lit "Stop container by name"
  | Command.RestartNamed => lit "Restart container by name"
  | Command.SortBy => lit "Sort by field"
  | Command.FilterBy => lit "Filter by text"
  | Command.SetTheme => lit "Switch theme"
  | Command.GoToTab => lit "Switch tab by name"
  end.

Definition shortcut (self : Command) : str :=
  match self with
  | Command.Quit => lit "q"
  | Command.ToggleTreeView => lit "t"
  | Command.SortByCpu => lit "F3"
  | Command.SortByMem => lit "F4"
  | Command.SortByPid => lit "F1"
  | Command.SortByName => lit "F2"
  | Command.SortByUser => lit "F5"
  | Command.ToggleSortOrder => lit "S"
  | Command.CycleSort => lit "s"
  | Command.SwitchToGeneral => lit "Alt+1"
  | Command.SwitchToProcesses => lit "Alt+2"
  | Command.OpenFilter => lit "/"
  | Command.NextTab => lit "Tab"
  | Command.PrevTab => lit "Shift+Tab"
  | Command.KillProcess => lit "F9"
  | Command.ForceKillProcess => lit "F10"
  | Command.NiceDown => lit "F7"
  | Command.NiceUp => lit "F8"
  | Command.ClearFilter => lit "Esc"
  | Command.SwitchToNetwork => lit "Alt+3"
  | Command.SortNetByRx => lit ""
  | Command.SortNetByTx => lit ""
  | Command.SortNetByName => lit ""
  | Command.SortNetByErrors => lit ""
  | Command.SwitchToContainers => lit "Alt+4"
  | Command.SortContainersByCpu => lit ""
  | Command.SortContainersByMem => lit ""
  | Command.SortContainersByName => lit ""
  | Command.SortContainersByNetRx => lit ""
  | Command.StopContainer => lit "F9"
  | Command.KillContainer => lit "F10"
  | Command.RestartContainer => lit "F11"
  | Command.SwitchToKube => lit "Alt+5"
  | Command.SwitchToGpu => lit "Alt+6"
  | Command.ShowHelp => lit "?"
  | Command.TogglePause => lit "Space"
  | Command.RefreshNow => lit "r"
  | Command.ShowLog => lit "Ctrl+L"
  | Command.InspectRow => lit "Enter"
  | Command.CopyRowId => lit "y"
  | Command.KubePods => lit "P"
  | Command.KubeNodes => lit "N"
  | Command.KubeDeployments => lit "D"
  | Command.KubeToggleScope => lit "A"
  | Command.KillNamed => lit "kill <name>"
  | Command.StopNamed => lit "stop <name>"
  | Command.RestartNamed => lit "restart <name>"
  | Command.SortBy => lit "sort <field>"
  | Command.FilterBy => lit "filter <text>"
  | Command.SetTheme => lit "theme <name>"
  | Command.GoToTab => lit "tab <name>"
  end.
(** The search haystack; [search_texts] caches it per command. *)
Definition search_text (self : Command) : str := Command_label self ++ lit " " ++ shortcut self.

(** ** The palette *)

Record PaletteState := mkPalette {
  input : str;
  palette_selected : nat;
  filtered : list (Command * option Z);
  arg : option str;
  history : list Command;
}.

#[export] Instance PaletteState_eta : Eta PaletteState := λ s,
  mkPalette (input s) (palette_selected s) (filtered s) (arg s) (history s).

Definition HISTORY_LEN : nat := 5.

Definition PaletteState_new : PaletteState :=
  mkPalette [] 0 ((λ cmd, (cmd, None)) <$> List.filter (λ c, negb (is_verb_only c)) Command_ALL)
    None [].

Definition remember (cmd : Command) (self : PaletteState) : PaletteState :=
  self <| history ::= λ h,
    take HISTORY_LEN (cmd :: List.filter (λ c, negb (bool_decide (c = cmd))) h) |>.

(** Lexicographic comparison of a pair of keys. *)
Definition pair_cmp (a b : nat * nat) : comparison :=
  match Nat.compare a.1 b.1 with Eq => Nat.compare a.2 b.2 | c => c end.

Section Palette.
Context `{!Unicode}.
(** [Atom::score] of a fuzzy query against a haystack. *)
Variable score : str → str → option Z.

Definition parse_verb (input : str) : option (Command * str) :=
  '(head, rest) ← split_once_whitespace input;
  let head := to_lowercase head in
  cmd ← find (λ c, bool_decide (verb c = Some head)) Command_ALL;
  Some (cmd, trim rest).

(** The rank of a command on an empty query. *)
Definition candidate_key (history : list Command) (tab : option Tab) (c : Command) : nat * nat :=
  let recency := default HISTORY_LEN (position (λ h, bool_decide (h = c)) history) in
  let context := match home_tab c, tab with
                 | Some home, Some active => if bool_decide (home = active) then 0%nat else 2%nat
                 | None, _ => 1%nat
                 | _, _ => 2%nat
                 end in
  (recency, context).

Definition tab_bonus (tab : option Tab) (cmd : Command) : Z :=
  match home_tab cmd, tab with
  | Some home, Some active => if bool_decide (home = active) then 24 else 0
  | None, _ => 8
  | _, _ => 0
  end.

(** The commands a plain query ranges over. *)
Definition offered (excluded : list Command) : list Command :=
  List.filter (λ cmd, negb (bool_decide (cmd ∈ excluded)))
    (List.filter (λ c, negb (is_verb_only c)) Command_ALL).

Definition refilter_ctx (excluded : list Command) (tab : option Tab) (self : PaletteState)
    : PaletteState :=
  let is_available cmd := negb (bool_decide (cmd ∈ excluded)) in
  let plain := offered excluded in
  match (match parse_verb (input self) with
         | Some (cmd, a) => if is_available cmd then Some (cmd, a) else None
         | None => None
         end) with
  | Some (cmd, a) =>
      self <| arg := Some a |> <| filtered := [(cmd, Some u16_max)] |> <| palette_selected := 0%nat |>
  | None =>
    let self := self <| arg := None |> in
    let filtered' :=
      if bool_decide (input self = []) then
        (λ cmd, (cmd, None)) <$> sort_by (by_key pair_cmp (candidate_key (history self) tab)) plain
      else
        let scored := omap (λ cmd,
          s ← score (input self) (search_text cmd);
          Some (cmd, u16_saturating_add s (tab_bonus tab cmd))) plain in
        (λ cs, (cs.1, Some cs.2)) <$> sort_by (by_key (λ a b, Z.compare b a) snd) scored in
    let self := self <| filtered := filtered' |> in
    self <| palette_selected := if bool_decide (filtered' = []) then 0%nat
                                else min (palette_selected self) (length filtered' - 1) |>
  end.

Definition refilter_excluding (excluded : list Command) (self : PaletteState) : PaletteState :=
  refilter_ctx excluded None self.

Definition refilter (self : PaletteState) : PaletteState := refilter_excluding [] self.
End Palette.

(** ** Properties *)

Section PaletteProps.
Context `{!Unicode}.
Variable score : str → str → option Z.

Lemma elem_of_offered excluded cmd :
  cmd ∈ offered excluded → cmd ∉ excluded ∧ is_verb_only cmd = false.
Proof.
  unfold offered. rewrite list_elem_of_In, !List.filter_In.
  intros [[_ Hv] He]. apply negb_true_iff in Hv, He. by apply bool_decide_eq_false in He.
Qed.

(** What the list holds after a refilter: the one command a typed verb names,
    or a selection of the plain commands. *)
Lemma refilter_cases excluded tab p :
  let p' := refilter_ctx score excluded tab p in
  (∃ cmd a, parse_verb (input p) = Some (cmd, a) ∧ cmd ∉ excluded ∧
     filtered p' = [(cmd, Some u16_max)] ∧ arg p' = Some a ∧ palette_selected p' = 0%nat) ∨
  (arg p' = None ∧ (∀ cs, cs ∈ filtered p' → cs.1 ∈ offered excluded) ∧
   (input p = [] → (filtered p').*1 ≡ₚ offered excluded) ∧
   (palette_selected p' < length (filtered p')
    ∨ filtered p' = [] ∧ palette_selected p' = 0)%nat).
Proof.
  unfold refilter_ctx.
  set (pv := match parse_verb (input p) with Some _ => _ | None => _ end).
  destruct pv as [[cmd a]|] eqn:E; unfold pv in E.
  { left. exists cmd, a. destruct (parse_verb (input p)) as [[c b]|]; [|done].
    destruct (negb (bool_decide (c ∈ excluded))) eqn:En; [|done]. injection E as <- <-.
    apply negb_true_iff, bool_decide_eq_false in En. done. }
  right. simpl.
  set (fs := if bool_decide (input p = []) then _ else _).
  split; [done|]. split; [|split].
  - intros cs Hcs. unfold fs in Hcs. case_bool_decide as Hi.
    + apply list_elem_of_fmap in Hcs as (c & -> & Hc). by rewrite sort_by_perm in Hc.
    + apply list_elem_of_fmap in Hcs as ([c s] & -> & Hc). rewrite sort_by_perm in Hc.
      apply list_elem_of_omap in Hc as (c' & Hc' & Hs). simpl.
      destruct (score (input p) (search_text c')); by simplify_eq/=.
  - intros Hi. unfold fs. rewrite bool_decide_eq_true_2 by done.
    rewrite <- list_fmap_compose.
    rewrite (list_fmap_ext _ id) by done. rewrite list_fmap_id. apply sort_by_perm.
  - case_bool_decide as Hfs; [by right|]. left. destruct fs; [done|]. simpl. lia.
Qed.

(** The palette offers exactly what can be run: an excluded command is never
    listed; on an empty query every other plain command is listed once and
    only once; a verb form is offered only when its verb has been typed; and
    the highlighted entry always exists when there is one to highlight. *)
Theorem palette_offers excluded tab p :
  let p' := refilter_ctx score excluded tab p in
  (∀ cs, cs ∈ filtered p' → cs.1 ∉ excluded) ∧
  (∀ cs, cs ∈ filtered p' → is_verb_only cs.1 = true →
     ∃ a, parse_verb (input p) = Some (cs.1, a) ∧ arg p' = Some a) ∧
  (input p = [] → (filtered p').*1 ≡ₚ offered excluded) ∧
  (filtered p' ≠ [] → (palette_selected p' < length (filtered p'))%nat).
Proof.
  destruct (refilter_cases excluded tab p)
    as [(cmd & a & Hv & Hex & Hf & Ha & Hs)|(Ha & Hin & Hperm & Hsel)]; simpl in *.
  - rewrite Hf, Ha, Hs. split_and!.
    + by intros cs ->%list_elem_of_singleton.
    + intros cs ->%list_elem_of_singleton _. eauto.
    + intros Hi. by rewrite Hi in Hv.
    + simpl. lia.
  - split_and!; [| |done|by destruct Hsel as [|[-> _]]].
    + intros cs Hcs%Hin. by apply elem_of_offered in Hcs as [? _].
    + intros cs Hcs%Hin Hv. apply elem_of_offered in Hcs as [_ ?]. congruence.
Qed.
End PaletteProps.

(** *** Shortcuts the palette advertises *)

(** The function keys the palette shows for the process sorts do something
    else, or nothing, on every tab: F1 opens the help, F2 is unbound, F3 and F4
    open the filter, and F5 toggles the tree on the process tab. *)
Lemma sort_shortcuts_are_stale tab :
  shortcut Command.SortByPid = lit "F1" ∧ resolve (KF 1) NONE tab = Some Action.Help ∧
  shortcut Command.SortByName = lit "F2" ∧ resolve (KF 2) NONE tab = None ∧
  shortcut Command.SortByCpu = lit "F3" ∧ resolve (KF 3) NONE tab = Some Action.OpenFilter ∧
  shortcut Command.SortByMem = lit "F4" ∧ resolve (KF 4) NONE tab = Some Action.OpenFilter ∧
  shortcut Command.SortByUser = lit "F5" ∧
  resolve (KF 5) NONE tab = (if bool_decide (tab = Tab.Processes)
                             then Some Action.ToggleTree else None).
Proof. destruct tab; split_and!; vm_compute; reflexivity. Qed.
