(* ===== verification/App.v ===== *)
(** * The application state machine: crates/muxtop-tui/src/app.rs

    The state of the terminal front end and its handlers, one definition per
    method of the code.  Four fields are not in the code: [clock], the time the
    current event is handled at (every [Instant::now()] of one handler reads
    the same time here), and the traces of what the application did to the
    outside: [syscalls], [tasks] (the futures it spawned) and
    [clipboard_writes].  The terminal capabilities, which the handlers only
    carry along, are left out; [action_rx] is the channel's queue; an attached
    engine is a boolean, the engine itself being on the other side of
    [tasks]. *)

From S2P Require Import Prelude Str RsFloat Actions Clipboard Process Network Gpu Snapshots.
From S2P Require Import Keymap Ui KubeView Palette.
Local Open Scope Z_scope.
Local Open Scope record_scope.

(** ** Modes and dialogs *)

Module Overlay.
Inductive Overlay : Type := None | Palette | Command | Help | Actions | Inspector | Log.
End Overlay.
Abbreviation Overlay := Overlay.Overlay.

#[global] Instance Overlay_eq_dec : EqDecision Overlay.
Proof. solve_decision. Defined.

Definition is_text_input (self : Overlay) : bool :=
  match self with Overlay.Palette | Overlay.Command => true | _ => false end.

Inductive ConfirmAction : Type :=
| ConfirmKill (pid : Z) (name : str) (signal : Signal)
| ConfirmRenice (pid : Z) (name : str) (delta : Z)
| StopContainer (id name : str)
| KillContainer (id name : str)
| RestartContainer (id name : str).

Definition short_id (id : str) : str := take 12 id.

Definition signal_name (signal : Signal) : str :=
  match signal with Kill => lit "SIGKILL" | Term => lit "SIGTERM" end.

Definition prompt (self : ConfirmAction) : str :=
  match self with
  | ConfirmKill pid name signal =>
      lit "Send " ++ signal_name signal ++ lit " to " ++ scrub_ctrl name ++ lit " (PID "
      ++ show pid ++ lit ")?  [y/n]"
  | ConfirmRenice pid name delta =>
      lit "Renice " ++ scrub_ctrl name ++ lit " (PID " ++ show pid ++ lit ") to "
      ++ (if 0 <? delta then lit "lower priority (+1)" else lit "higher priority (-1)")
      ++ lit "?  [y/n]"
  | StopContainer id name =>
      lit "Stop container " ++ scrub_ctrl name ++ lit " (" ++ short_id id ++ lit ")?  [y/n]"
  | KillContainer id name =>
      lit "Kill container " ++ scrub_ctrl name ++ lit " (" ++ short_id id ++ lit ")?  [y/n]"
  | RestartContainer id name =>
      lit "Restart container " ++ scrub_ctrl name ++ lit " (" ++ short_id id ++ lit ")?  [y/n]"
  end.

(** ** Sort fields of the other tabs *)

Module NetSort.
Inductive NetworkSortField : Type := Name | RxRate | TxRate | TotalRx | TotalTx | Errors.
End NetSort.
Abbreviation NetworkSortField := NetSort.NetworkSortField.

Module CtrSort.
Inductive ContainerSortField : Type := Name | Cpu | Mem | NetRx | NetTx | Uptime.
End CtrSort.
Abbreviation ContainerSortField := CtrSort.ContainerSortField.

#[global] Instance ContainerSortField_eq_dec : EqDecision ContainerSortField.
Proof. solve_decision. Defined.

Inductive GpuSortField : Type :=
| DeviceIndex | DeviceName | DeviceUtil | DeviceMem | DeviceTemp | DevicePower
| ProcPid | ProcName | ProcMem | ProcDevice.

Definition GpuSortField_default_for (sv : GpuSubview) : GpuSortField :=
  match sv with GpuSubview.Devices => DeviceIndex | GpuSubview.Procs => ProcMem end.

Definition next_sort_field (field : SortField) : SortField :=
  match field with Cpu => Mem | Mem => Pid | Pid => Name | Name => User | User => Cpu end.

Definition next_net_sort_field (field : NetworkSortField) : NetworkSortField :=
  match field with
  | NetSort.RxRate => NetSort.TxRate | NetSort.TxRate => NetSort.Name
  | NetSort.Name => NetSort.Errors | NetSort.Errors => NetSort.TotalRx
  | NetSort.TotalRx => NetSort.TotalTx | NetSort.TotalTx => NetSort.RxRate
  end.

Definition next_container_sort_field (field : ContainerSortField) : ContainerSortField :=
  match field with
  | CtrSort.Cpu => CtrSort.Mem | CtrSort.Mem => CtrSort.Name | CtrSort.Name => CtrSort.NetRx
  | CtrSort.NetRx => CtrSort.NetTx | CtrSort.NetTx => CtrSort.Uptime
  | CtrSort.Uptime => CtrSort.Cpu
  end.

Definition next_gpu_sort_field (field : GpuSortField) (sv : GpuSubview) : GpuSortField :=
  match sv with
  | GpuSubview.Devices =>
      match field with
      | DeviceIndex => DeviceUtil | DeviceUtil => DeviceMem | DeviceMem => DeviceTemp
      | DeviceTemp => DevicePower | DevicePower => DeviceName | DeviceName => DeviceIndex
      | _ => GpuSortField_default_for sv
      end
  | GpuSubview.Procs =>
      match field with
      | ProcMem => ProcPid | ProcPid => ProcName | ProcName => ProcDevice
      | ProcDevice => ProcMem
      | _ => GpuSortField_default_for sv
      end
  end.

(** ** The state *)

(** lib.rs *)
Inductive ConnectionMode : Type :=
| Local
| Remote (hostname addr : str).

(** A future handed to the runtime. *)
Inductive Task : Type :=
| ContainerTask (a : ConfirmAction)
| ScopeTask.

Record AppState := mkAppState {
  tab : Tab;
  sort_field : SortField;
  sort_order : SortOrder;
  filter_input : str;
  filter_active : bool;
  tree_mode : bool;
  selected : nat;
  scroll_offset : nat;
  overlay : Overlay;
  palette : PaletteState;
  confirm : option ConfirmAction;
  notifier : Notifier;
  theme_kind : ThemeKind;
  paused : bool;
  col_scroll : nat;
  actions_selected : nat;
  overlay_scroll : nat;
  tick : Z;
  running : bool;
  last_snapshot : option SystemSnapshot;
  visible_processes : list ProcessInfo;
  visible_tree : list (ProcessInfo * nat);
  network_history : NetworkHistory;
  net_selected : nat;
  net_scroll_offset : nat;
  net_sort_field : NetworkSortField;
  net_sort_order : SortOrder;
  net_filter_input : str;
  net_filter_active : bool;
  containers_selected : nat;
  containers_scroll_offset : nat;
  kube_subview : KubeSubview;
  kube_sort_field : KubeSortField;
  kube_sort_order : SortOrder;
  kube_filter_input : str;
  kube_filter_active : bool;
  kube_selected : nat;
  kube_scroll_offset : nat;
  kube_view_cache : list nat;
  gpu_subview : GpuSubview;
  gpu_sort_field : GpuSortField;
  gpu_sort_order : SortOrder;
  gpu_filter_input : str;
  gpu_filter_active : bool;
  gpu_selected : nat;
  gpu_scroll_offset : nat;
  containers_sort_field : ContainerSortField;
  containers_sort_order : SortOrder;
  containers_filter_input : str;
  containers_filter_active : bool;
  container_cpu_hist : gmap str (list f32);
  container_rx_last : gmap str Z;
  container_rx_hist : gmap str (list Z);
  sorted_filtered_containers_cache : list ContainerSnapshot;
  container_engine : bool;
  cluster_engine : bool;
  action_rx : list (Level * str);
  connection_mode : ConnectionMode;
  needs_redraw : bool;
  last_filter_change : option Instant;
  shutdown_token : bool;
  clock : Instant;
  syscalls : list Syscall;
  tasks : list Task;
  clipboard_writes : list (list Z);
}.

#[export] Instance AppState_eta : Eta AppState := λ s,
  mkAppState (tab s) (sort_field s) (sort_order s) (filter_input s)
    (filter_active s) (tree_mode s) (selected s) (scroll_offset s)
    (overlay s) (palette s) (confirm s) (notifier s)
    (theme_kind s) (paused s) (col_scroll s) (actions_selected s)
    (overlay_scroll s) (tick s) (running s) (last_snapshot s)
    (visible_processes s) (visible_tree s) (network_history s) (net_selected s)
    (net_scroll_offset s) (net_sort_field s) (net_sort_order s) (net_filter_input s)
    (net_filter_active s) (containers_selected s) (containers_scroll_offset s) (kube_subview s)
    (kube_sort_field s) (kube_sort_order s) (kube_filter_input s) (kube_filter_active s)
    (kube_selected s) (kube_scroll_offset s) (kube_view_cache s) (gpu_subview s)
    (gpu_sort_field s) (gpu_sort_order s) (gpu_filter_input s) (gpu_filter_active s)
    (gpu_selected s) (gpu_scroll_offset s) (containers_sort_field s) (containers_sort_order s)
    (containers_filter_input s) (containers_filter_active s) (container_cpu_hist s) (container_rx_last s)
    (container_rx_hist s) (sorted_filtered_containers_cache s) (container_engine s) (cluster_engine s)
    (action_rx s) (connection_mode s) (needs_redraw s) (last_filter_change s)
    (shutdown_token s) (clock s) (syscalls s) (tasks s)
    (clipboard_writes s).
Definition FILTER_DEBOUNCE : Duration := from_millis 50.
Definition CONTAINER_HISTORY_LEN : nat := 60.
Definition PAGE : nat := 20.
Definition MAX_COL_SCROLL : nat := 8.
Definition MAX_FILTER_LEN : nat := 256.
Definition WHEEL_ROWS : nat := 3.

Definition AppState_new : AppState :=
  mkAppState Tab.General Cpu Desc [] false false 0 0 Overlay.None PaletteState_new
    None Notifier_new TokyoNight false 0 0 0 0 true None
    [] [] (NetworkHistory_new 60) 0 0 NetSort.RxRate Desc [] false
    0 0 KubeSubview.Pods (KubeSortField_default_for KubeSubview.Pods) Desc [] false 0 0 []
    GpuSubview.Devices (GpuSortField_default_for GpuSubview.Devices) Desc [] false 0 0
    CtrSort.Cpu Desc [] false ∅ ∅ ∅ [] false false [] Local true None false 0 [] [] [].

(** The CLI configuration (lib.rs). *)
Record CliConfig := mkCliConfig {
  cfg_filter : option str;
  cfg_sort_field : SortField;
  cfg_tree_mode : bool;
  cfg_connection_mode : ConnectionMode;
  cfg_theme : ThemeKind;
}.

Definition with_config (config : CliConfig) : AppState :=
  AppState_new
    <| sort_field := cfg_sort_field config |>
    <| tree_mode := cfg_tree_mode config |>
    <| filter_input := default [] (cfg_filter config) |>
    <| theme_kind := cfg_theme config |>
    <| connection_mode := cfg_connection_mode config |>.

Definition is_remote (self : AppState) : bool :=
  match connection_mode self with Remote _ _ => true | Local => false end.

Definition notify (lv : Level) (msg : str) (self : AppState) : AppState :=
  self <| notifier ::= post (clock self) lv msg |> <| needs_redraw := true |>.

Definition set_error (msg : str) (self : AppState) : AppState := notify Level.Error msg self.

Definition mark_dirty (self : AppState) : AppState := self <| needs_redraw := true |>.

Definition quit (self : AppState) : AppState :=
  self <| running := false |> <| shutdown_token := true |>.

Definition take_needs_redraw (self : AppState) : bool * AppState :=
  (needs_redraw self, self <| needs_redraw := false |>).

Definition tick_frame (self : AppState) : AppState :=
  self <| tick := (tick self + 1) mod 2 ^ 64 |>.

Definition status_message_just_expired (self : AppState) : bool * AppState :=
  let '(b, n) := expire (clock self) (notifier self) in (b, self <| notifier := n |>).

Definition next_status_deadline (self : AppState) : option Duration :=
  next_deadline (clock self) (notifier self).

Definition set_container_engine (self : AppState) : AppState := self <| container_engine := true |>.
Definition set_cluster_engine (self : AppState) : AppState := self <| cluster_engine := true |>.

Definition process_count (self : AppState) : nat :=
  if tree_mode self then length (visible_tree self) else length (visible_processes self).

(** [Display] of the errors the handlers report. *)
Definition copy_error_fmt (e : CopyError) : str :=
  match e with
  | NothingToCopy => lit "nothing to copy"
  | TooLarge => lit "selection is too large to copy"
  | WriteFailed => lit "terminal write failed"
  end.

Section Handlers.
Context {Uc : Unicode} {Us : UnstableSort} {Ko : Os}.
(** The text of a permission error, of an OS error, the fuzzy score, and
    whether the terminal accepts what is written to it. *)
Variable describe : Syscall → str.
Variable errno_display : Z → str.
Variable score : str → str → option Z.
Variable tty_ok : bool.

Definition CoreError_fmt (e : CoreError) : str :=
  match e with
  | Collection msg => lit "collection failed: " ++ msg
  | ProcessNotFound pid => lit "process " ++ show pid ++ lit " not found"
  | Permission what => lit "permission denied: " ++ what
  | CoreIo errno => lit "I/O error: " ++ errno_display errno
  | ChannelClosed => lit "channel closed"
  | Engine e => lit "container engine: " ++ e
  | Cluster e => lit "cluster engine: " ++ e
  end.

(** *** Counting rows *)

(** [name.to_lowercase().contains(&f)]. *)
Definition lower_contains (s f : str) : bool := contains (to_lowercase s) f.

Definition net_interface_count (self : AppState) : nat :=
  match last_snapshot self with
  | None => 0
  | Some snapshot =>
      if bool_decide (net_filter_input self = []) then length (interfaces (networks snapshot))
      else
        let filter := to_lowercase (net_filter_input self) in
        length (List.filter (λ i, lower_contains (if_name i) filter)
                  (interfaces (networks snapshot)))
  end.

Definition container_matches (f : str) (c : ContainerSnapshot) : bool :=
  lower_contains (ctr_name c) f || lower_contains (image c) f || lower_contains (ctr_id c) f.

Definition containers_count (self : AppState) : nat :=
  match last_snapshot self with
  | None => 0
  | Some snapshot =>
    match sys_containers snapshot with
    | None => 0
    | Some cs =>
        if bool_decide (containers_filter_input self = []) then length (containers cs)
        else
          let f := to_lowercase (containers_filter_input self) in
          length (List.filter (container_matches f) (containers cs))
    end
  end.

Definition kube_count (self : AppState) : nat := length (kube_view_cache self).

Definition gpu_count (self : AppState) : nat :=
  match (s ← last_snapshot self; sys_gpu s) with
  | None => 0
  | Some snap =>
    let f := to_lowercase (gpu_filter_input self) in
    match gpu_subview self with
    | GpuSubview.Devices =>
        length (List.filter (λ d, bool_decide (f = []) || lower_contains (gpu_name d) f
                                  || contains (GpuVendor_label (vendor d)) f) (devices snap))
    | GpuSubview.Procs =>
        length (List.filter (λ p, bool_decide (f = []) || lower_contains (gpu_proc_name p) f
                                  || contains (show (gpu_pid p)) f) (gpu_processes snap))
    end
  end.

Definition item_count (self : AppState) : nat :=
  match tab self with
  | Tab.Network => net_interface_count self
  | Tab.Containers => containers_count self
  | Tab.Kube => kube_count self
  | Tab.Gpu => gpu_count self
  | _ => process_count self
  end.

(** [selected_mut]: the active tab's cursor, as a getter and two setters. *)
Definition selected_of (self : AppState) : nat :=
  match tab self with
  | Tab.Network => net_selected self
  | Tab.Containers => containers_selected self
  | Tab.Kube => kube_selected self
  | Tab.Gpu => gpu_selected self
  | _ => selected self
  end.

Definition offset_of (self : AppState) : nat :=
  match tab self with
  | Tab.Network => net_scroll_offset self
  | Tab.Containers => containers_scroll_offset self
  | Tab.Kube => kube_scroll_offset self
  | Tab.Gpu => gpu_scroll_offset self
  | _ => scroll_offset self
  end.

Definition set_selected (n : nat) (self : AppState) : AppState :=
  match tab self with
  | Tab.Network => self <| net_selected := n |>
  | Tab.Containers => self <| containers_selected := n |>
  | Tab.Kube => self <| kube_selected := n |>
  | Tab.Gpu => self <| gpu_selected := n |>
  | _ => self <| selected := n |>
  end.

Definition set_offset (n : nat) (self : AppState) : AppState :=
  match tab self with
  | Tab.Network => self <| net_scroll_offset := n |>
  | Tab.Containers => self <| containers_scroll_offset := n |>
  | Tab.Kube => self <| kube_scroll_offset := n |>
  | Tab.Gpu => self <| gpu_scroll_offset := n |>
  | _ => self <| scroll_offset := n |>
  end.

(** *** Derived views *)

Definition recompute_visible (self : AppState) : AppState :=
  match last_snapshot self with
  | None => self <| visible_processes := [] |> <| visible_tree := [] |>
  | Some snapshot =>
    let filtered := filter_processes (processes snapshot) (filter_input self) in
    let self := self <| visible_tree :=
      if tree_mode self then flatten_tree (build_process_tree filtered) else [] |> in
    let sorted := sort_processes filtered (sort_field self) (sort_order self) in
    let self := self <| visible_processes := sorted |> in
    let count := process_count self in
    if bool_decide (0 < count)%nat
    then self <| selected := min (selected self) (count - 1) |>
              <| scroll_offset := min (scroll_offset self) (count - 1) |>
    else self <| selected := 0%nat |> <| scroll_offset := 0%nat |>
  end.

Definition recompute_visible_debounced (self : AppState) : AppState :=
  let now := clock self in
  let should_recompute :=
    match last_filter_change self with
    | None => true
    | Some last => FILTER_DEBOUNCE <=? duration_since now last
    end in
  let self := self <| last_filter_change := Some now |> in
  if should_recompute then recompute_visible self else self.

Definition container_cmp (field : ContainerSortField)
    : ContainerSnapshot → ContainerSnapshot → comparison :=
  match field with
  | CtrSort.Name => by_key str_cmp ctr_name
  | CtrSort.Cpu => λ a b, default Eq (float_partial_cmp (cpu_pct b) (cpu_pct a))
  | CtrSort.Mem => desc ctr_mem_used_bytes
  | CtrSort.NetRx => desc net_rx_bytes
  | CtrSort.NetTx => desc net_tx_bytes
  | CtrSort.Uptime => asc started_at_ms
  end.

(** The rows of the containers view, before they are stored. *)
Definition containers_view (self : AppState) : list ContainerSnapshot :=
  match (s ← last_snapshot self; sys_containers s) with
  | None => []
  | Some cs =>
    if negb (daemon_up cs) then []
    else
      let rows :=
        if bool_decide (containers_filter_input self = []) then containers cs
        else List.filter (container_matches (to_lowercase (containers_filter_input self)))
               (containers cs) in
      let rows := sort_by (container_cmp (containers_sort_field self)) rows in
      let is_asc := bool_decide (containers_sort_order self = Asc) in
      let is_name := bool_decide (containers_sort_field self = CtrSort.Name) in
      let is_uptime := bool_decide (containers_sort_field self = CtrSort.Uptime) in
      let default_asc := is_name || is_uptime in
      if negb (Bool.eqb is_asc default_asc) then reverse rows else rows
  end.

Definition recompute_containers_view (self : AppState) : AppState :=
  self <| sorted_filtered_containers_cache := containers_view self |>.

Definition kube_view (self : AppState) : list nat :=
  match (s ← last_snapshot self; sys_kube s) with
  | Some snap => compute_view_indices snap (kube_subview self) (kube_filter_input self)
                   (kube_sort_field self) (kube_sort_order self)
  | None => []
  end.

Definition recompute_kube_view (self : AppState) : AppState :=
  self <| kube_view_cache := kube_view self |>.

(** *** Snapshots *)

(** A ring of at most [CONTAINER_HISTORY_LEN] samples. *)
Definition ring_push {A} (x : A) (ring : list A) : list A :=
  (if bool_decide (CONTAINER_HISTORY_LEN ≤ length ring)%nat then tail ring else ring) ++ [x].

(** The body of the loop over the containers. *)
Definition record_container (self : AppState) (c : ContainerSnapshot) : AppState :=
  let id := ctr_id c in
  let self := self <| container_cpu_hist ::= λ m,
    <[id := ring_push (cpu_pct c) (default [] (m !! id))]> m |> in
  let delta := match container_rx_last self !! id with
               | Some prev => saturating_sub (net_rx_bytes c) prev
               | None => 0
               end in
  self <| container_rx_last ::= <[id := net_rx_bytes c]> |>
       <| container_rx_hist ::= λ m, <[id := ring_push delta (default [] (m !! id))]> m |>.

(** [drop_missing]: keep the entries of the ids just seen. *)
Definition drop_missing {V : Type} (seen : gset str) (m : gmap str V) : gmap str V :=
  filter (λ kv : str * V, kv.1 ∈ seen) m.

Definition push_container_history (cs : ContainersSnapshot) (self : AppState) : AppState :=
  let self := foldl record_container self (containers cs) in
  let seen : gset str := list_to_set (ctr_id <$> containers cs) in
  self <| container_cpu_hist ::= drop_missing seen |>
       <| container_rx_hist ::= drop_missing seen |>
       <| container_rx_last ::= drop_missing seen |>.

Definition container_cpu_history (id : str) (self : AppState) : list f32 :=
  default [] (container_cpu_hist self !! id).

Definition container_rx_deltas (id : str) (self : AppState) : list Z :=
  default [] (container_rx_hist self !! id).

Definition apply_snapshot (snapshot : SystemSnapshot) (self : AppState) : AppState :=
  if paused self then self
  else
    let self := self <| network_history ::= λ h, push h (networks snapshot) (clock self) |> in
    let self := match sys_containers snapshot with
                | Some cs => push_container_history cs self
                | None => self
                end in
    let self := self <| last_snapshot := Some snapshot |> in
    mark_dirty (recompute_kube_view (recompute_containers_view (recompute_visible self))).

(** *** Selected rows *)

Definition selected_process (self : AppState) : option ProcessInfo :=
  if tree_mode self then fst <$> visible_tree self !! selected self
  else visible_processes self !! selected self.

Definition selected_container (self : AppState) : option ContainerSnapshot :=
  snapshot ← last_snapshot self;
  cs ← sys_containers snapshot;
  if negb (daemon_up cs) then None
  else sorted_filtered_containers_cache self !! containers_selected self.

Definition visible_interfaces (self : AppState) : list NetworkInterfaceSnapshot :=
  match last_snapshot self with
  | None => []
  | Some snapshot =>
      let filter := to_lowercase (net_filter_input self) in
      List.filter (λ i, bool_decide (filter = []) || lower_contains (if_name i) filter)
        (interfaces (networks snapshot))
  end.

Definition selected_kube_name (self : AppState) : option str :=
  snapshot ← last_snapshot self;
  snap ← sys_kube snapshot;
  idx ← kube_view_cache self !! kube_selected self;
  match kube_subview self with
  | KubeSubview.Pods => pod_name <$> pods snap !! idx
  | KubeSubview.Nodes => node_name <$> nodes snap !! idx
  | KubeSubview.Deployments => dep_name <$> deployments snap !! idx
  end.

Definition selected_gpu_name (self : AppState) : option str :=
  snapshot ← last_snapshot self;
  snap ← sys_gpu snapshot;
  let f := to_lowercase (gpu_filter_input self) in
  match gpu_subview self with
  | GpuSubview.Devices =>
      gpu_name <$> List.filter (λ d, bool_decide (f = []) || lower_contains (gpu_name d) f)
                     (devices snap) !! gpu_selected self
  | GpuSubview.Procs =>
      (λ p, show (gpu_pid p)) <$>
        List.filter (λ p, bool_decide (f = []) || lower_contains (gpu_proc_name p) f)
          (gpu_processes snap) !! gpu_selected self
  end.

Definition selected_identifier (self : AppState) : option str :=
  match tab self with
  | Tab.Network => if_name <$> visible_interfaces self !! net_selected self
  | Tab.Containers => id_full <$> sorted_filtered_containers_cache self !! containers_selected self
  | Tab.Kube => selected_kube_name self
  | Tab.Gpu => selected_gpu_name self
  | _ => (λ p, show (pid p)) <$> selected_process self
  end.

(** The escape sequence is recorded when the terminal takes it. *)
Definition copy_selection (self : AppState) : AppState :=
  match selected_identifier self with
  | None => notify Level.Info (lit "Nothing selected") self
  | Some id =>
    let self := match copy_sequence id with
                | Ok seq => if tty_ok then self <| clipboard_writes ::= λ l, l ++ [seq] |> else self
                | Err _ => self
                end in
    match copy tty_ok id with
    | Ok _ => notify Level.Success (lit "Copied " ++ id) self
    | Err e => notify Level.Error (lit "Clipboard unavailable: " ++ copy_error_fmt e) self
    end
  end.

(** *** Tabs and sub-views *)

Definition switch_gpu_subview (sv : GpuSubview) (self : AppState) : AppState :=
  self <| gpu_subview := sv |>
       <| gpu_sort_field := GpuSortField_default_for sv |>
       <| gpu_sort_order := Desc |>
       <| gpu_filter_input := [] |>
       <| gpu_filter_active := false |>
       <| gpu_selected := 0%nat |>
       <| gpu_scroll_offset := 0%nat |>.

Definition switch_kube_subview (sv : KubeSubview) (self : AppState) : AppState :=
  recompute_kube_view (self
    <| kube_subview := sv |>
    <| kube_sort_field := KubeSortField_default_for sv |>
    <| kube_sort_order := Desc |>
    <| kube_filter_input := [] |>
    <| kube_filter_active := false |>
    <| kube_selected := 0%nat |>
    <| kube_scroll_offset := 0%nat |>).

Definition go_to_tab (tab_ : Tab) (self : AppState) : AppState :=
  if bool_decide (tab self = tab_) then self
  else self <| tab := tab_ |>
            <| col_scroll := 0%nat |>
            <| filter_active := false |>
            <| net_filter_active := false |>
            <| containers_filter_active := false |>
            <| kube_filter_active := false |>.

(** [(idx + delta).rem_euclid(ORDER.len())] into a constant order. *)
Definition cycle_in {A} `{!EqDecision A} (order : list A) (current d : A) (delta : Z) : A :=
  let idx := Z.of_nat (default 0%nat (position (λ s, bool_decide (s = current)) order)) in
  nth (Z.to_nat ((idx + delta) mod Z.of_nat (length order))) order d.

Definition cycle_subview (delta : Z) (self : AppState) : AppState :=
  match tab self with
  | Tab.Kube =>
      switch_kube_subview (cycle_in [KubeSubview.Pods; KubeSubview.Nodes; KubeSubview.Deployments]
                             (kube_subview self) KubeSubview.Pods delta) self
  | Tab.Gpu =>
      switch_gpu_subview (cycle_in [GpuSubview.Devices; GpuSubview.Procs]
                            (gpu_subview self) GpuSubview.Devices delta) self
  | _ => self
  end.

(** *** Moving the cursor *)

Definition move_selection (delta : Z) (self : AppState) : AppState :=
  let count := item_count self in
  if bool_decide (count = 0)%nat then self
  else
    let next := Z.max 0 (Z.min (Z.of_nat (selected_of self) + delta) (Z.of_nat count - 1)) in
    set_selected (Z.to_nat next) self.

Definition select_index (index : nat) (self : AppState) : AppState :=
  let count := item_count self in
  if bool_decide (count = 0)%nat then self else set_selected (min index (count - 1)) self.

Definition scroll_rows (delta : Z) (self : AppState) : AppState :=
  let count := item_count self in
  if bool_decide (count = 0)%nat then self
  else
    let new_off := Z.to_nat (Z.max 0 (Z.of_nat (offset_of self) + delta)) in
    let off := min new_off (count - 1) in
    set_selected (min (max (selected_of self) off) (count - 1)) (set_offset off self).

(** *** Filters *)

Definition filter_editing (self : AppState) : bool :=
  match tab self with
  | Tab.Gpu => gpu_filter_active self
  | Tab.Network => net_filter_active self
  | Tab.Containers => containers_filter_active self
  | Tab.Kube => kube_filter_active self
  | _ => filter_active self
  end.

Definition filter_text (self : AppState) : str :=
  match tab self with
  | Tab.Gpu => gpu_filter_input self
  | Tab.Network => net_filter_input self
  | Tab.Containers => containers_filter_input self
  | Tab.Kube => kube_filter_input self
  | _ => filter_input self
  end.

Definition set_filter_editing (on : bool) (self : AppState) : AppState :=
  match tab self with
  | Tab.Gpu => self <| gpu_filter_active := on |>
  | Tab.Network => self <| net_filter_active := on |>
  | Tab.Containers => self <| containers_filter_active := on |>
  | Tab.Kube => self <| kube_filter_active := on |>
  | _ => self <| filter_active := on |>
  end.

(** [filter_text_mut]: the update of the active tab's filter text. *)
Definition update_filter_text (f : str → str) (self : AppState) : AppState :=
  match tab self with
  | Tab.Gpu => self <| gpu_filter_input ::= f |>
  | Tab.Network => self <| net_filter_input ::= f |>
  | Tab.Containers => self <| containers_filter_input ::= f |>
  | Tab.Kube => self <| kube_filter_input ::= f |>
  | _ => self <| filter_input ::= f |>
  end.

Definition after_filter_change (immediate : bool) (self : AppState) : AppState :=
  let self :=
    match tab self with
    | Tab.Containers => recompute_containers_view self
    | Tab.Kube => recompute_kube_view self
    | Tab.Gpu | Tab.Network => self
    | _ => if immediate then recompute_visible (self <| last_filter_change := None |>)
           else recompute_visible_debounced self
    end in
  let count := item_count self in
  mark_dirty (set_offset 0 (set_selected (clamp_selection (selected_of self) count) self)).

Definition clear_filter (self : AppState) : AppState :=
  after_filter_change true (update_filter_text (λ _, []) self).

Definition set_filter (text : str) (self : AppState) : AppState :=
  after_filter_change true (update_filter_text (λ _, text) self).

(** *** Sorting *)

Definition cycle_sort (self : AppState) : AppState :=
  match tab self with
  | Tab.Network => self <| net_sort_field ::= next_net_sort_field |>
  | Tab.Containers =>
      recompute_containers_view (self <| containers_sort_field ::= next_container_sort_field |>)
  | Tab.Kube =>
      recompute_kube_view (self
        <| kube_sort_field := next_kube_sort_field (kube_sort_field self) (kube_subview self) |>
        <| kube_selected := 0%nat |> <| kube_scroll_offset := 0%nat |>)
  | Tab.Gpu =>
      self <| gpu_sort_field := next_gpu_sort_field (gpu_sort_field self) (gpu_subview self) |>
           <| gpu_selected := 0%nat |> <| gpu_scroll_offset := 0%nat |>
  | _ => recompute_visible (self <| sort_field ::= next_sort_field |>)
  end.

Definition flip_order (o : SortOrder) : SortOrder :=
  match o with Asc => Desc | Desc => Asc end.

Definition reverse_sort (self : AppState) : AppState :=
  match tab self with
  | Tab.Network => self <| net_sort_order ::= flip_order |>
  | Tab.Containers => recompute_containers_view (self <| containers_sort_order ::= flip_order |>)
  | Tab.Kube => recompute_kube_view (self <| kube_sort_order ::= flip_order |>)
  | Tab.Gpu => self <| gpu_sort_order ::= flip_order |>
  | _ => recompute_visible (self <| sort_order ::= flip_order |>)
  end.

(** *** Overlays *)

Definition open_overlay (o : Overlay) (self : AppState) : AppState :=
  mark_dirty (self <| overlay := o |> <| overlay_scroll := 0%nat |>).

Definition close_overlay (self : AppState) : AppState :=
  mark_dirty (self
    <| overlay := Overlay.None |>
    <| overlay_scroll := 0%nat |>
    <| palette ::= λ p, p <| input := [] |> <| palette_selected := 0%nat |> <| arg := None |> |>).

Definition show_palette (self : AppState) : bool :=
  match overlay self with Overlay.Palette | Overlay.Command => true | _ => false end.

Definition command_mode (self : AppState) : bool := bool_decide (overlay self = Overlay.Command).

Definition go_back (self : AppState) : AppState :=
  if negb (bool_decide (overlay self = Overlay.None)) then close_overlay self
  else if negb (notifier_is_empty (notifier self)) then self <| notifier ::= dismiss_all |>
  else if filter_editing self then set_filter_editing false self
  else if negb (bool_decide (filter_text self = [])) then clear_filter self
  else self.

Definition tab_actions (self : AppState) : list (str * str * Action) :=
  let bs := for_tab (tab self) in
  let bs := List.filter (λ b, match scope b with
                              | Scope.Tab t => bool_decide (t = tab self)
                              | Scope.Global => false
                              end) bs in
  let bs := List.filter (λ b, match group b with Group.Actions => true | _ => false end
                              && primary b) bs in
  let bs := List.filter (λ b, negb (is_remote self && is_local_only (action b))) bs in
  (λ b, (display b, label b, action b)) <$> bs.

(** *** Requests: everything irreversible goes through a dialog *)

Definition request_kill (signal : Signal) (self : AppState) : AppState :=
  match selected_process self with
  | Some proc => self <| confirm := Some (ConfirmKill (pid proc) (name proc) signal) |>
  | None => notify Level.Info (lit "No process selected") self
  end.

Definition request_renice (delta : Z) (self : AppState) : AppState :=
  match selected_process self with
  | Some proc => self <| confirm := Some (ConfirmRenice (pid proc) (name proc) delta) |>
  | None => notify Level.Info (lit "No process selected") self
  end.

Definition request_container_action (build : str → str → ConfirmAction) (self : AppState)
    : AppState :=
  if is_remote self then notify Level.Warning (lit "Actions are disabled in remote mode") self
  else match selected_container self with
       | Some c => self <| confirm := Some (build (id_full c) (ctr_name c)) |>
       | None => self
       end.

Definition request_container_stop := request_container_action StopContainer.
Definition request_container_kill := request_container_action KillContainer.
Definition request_container_restart := request_container_action RestartContainer.

Definition toggle_kube_scope (self : AppState) : AppState :=
  if negb (cluster_engine self) then
    notify Level.Warning
      (lit "Namespace scope is local-only (unavailable in remote mode / --no-kube)") self
  else self <| tasks ::= λ l, l ++ [ScopeTask] |>
            <| kube_selected := 0%nat |> <| kube_scroll_offset := 0%nat |>
            <| needs_redraw := true |>.

(** *** Execution *)

Definition execute_container_action (a : ConfirmAction) (self : AppState) : AppState :=
  if negb (container_engine self)
  then notify Level.Error (lit "No container engine is configured") self
  else
    match a with
    | StopContainer _ _ | KillContainer _ _ | RestartContainer _ _ =>
        self <| tasks ::= λ l, l ++ [ContainerTask a] |>
    | _ => self (* unreachable!() *)
    end.

Definition execute_confirm (a : ConfirmAction) (self : AppState) : AppState :=
  match a with
  | ConfirmKill pid name signal =>
      let '(res, tr) := kill_process describe pid signal (syscalls self) in
      let self := self <| syscalls := tr |> in
      match res with
      | Ok _ => notify Level.Success
                  (lit "Sent " ++ signal_name signal ++ lit " to " ++ name ++ lit " (PID "
                   ++ show pid ++ lit ")") self
      | Err e => set_error (lit "Kill failed: " ++ CoreError_fmt e) self
      end
  | ConfirmRenice pid name delta =>
      let '(current, tr) := get_process_priority describe pid (syscalls self) in
      let new_nice := unwrap_or current 0 + delta in
      let '(res, tr) := renice_process describe pid new_nice tr in
      let self := self <| syscalls := tr |> in
      match res with
      | Ok _ => notify Level.Success
                  (lit "Reniced " ++ name ++ lit " (PID " ++ show pid ++ lit ") to nice="
                   ++ show new_nice) self
      | Err e => set_error (lit "Renice failed: " ++ CoreError_fmt e) self
      end
  | _ => execute_container_action a self
  end.

(** A spawned future reports back, unless the application is shutting down.
    The outcome is the engine's answer: an error's text, or the scope's
    namespace. *)
Inductive outcome : Type :=
| Finished (r : result unit str)
| Rescoped (ns : option str).

Definition task_message (t : Task) (o : outcome) : option (Level * str) :=
  match t, o with
  | ContainerTask (StopContainer _ name), Finished (Ok _) =>
      Some (Level.Success, lit "Container " ++ name ++ lit " stopped")
  | ContainerTask (StopContainer _ name), Finished (Err e) =>
      Some (Level.Error, lit "Failed to stop " ++ name ++ lit ": " ++ e)
  | ContainerTask (KillContainer _ name), Finished (Ok _) =>
      Some (Level.Success, lit "Container " ++ name ++ lit " killed")
  | ContainerTask (KillContainer _ name), Finished (Err e) =>
      Some (Level.Error, lit "Failed to kill " ++ name ++ lit ": " ++ e)
  | ContainerTask (RestartContainer _ name), Finished (Ok _) =>
      Some (Level.Success, lit "Container " ++ name ++ lit " restarted")
  | ContainerTask (RestartContainer _ name), Finished (Err e) =>
      Some (Level.Error, lit "Failed to restart " ++ name ++ lit ": " ++ e)
  | ScopeTask, Rescoped (Some ns) => Some (Level.Info, lit "Kube scope: namespace " ++ ns)
  | ScopeTask, Rescoped None => Some (Level.Info, lit "Kube scope: all namespaces")
  | _, _ => None
  end.

Definition task_done (t : Task) (o : outcome) (self : AppState) : AppState :=
  if shutdown_token self then self
  else match task_message t o with
       | Some m => self <| action_rx ::= λ q, q ++ [m] |>
       | None => self
       end.

Definition pump_action_results (self : AppState) : AppState :=
  let msgs := action_rx self in
  let self := foldl (λ self m, notify m.1 m.2 self) (self <| action_rx := [] |>) msgs in
  if bool_decide (msgs = []) then self else mark_dirty self.

(** *** The palette *)

Definition REMOTE_BLOCKED_COMMANDS : list Command :=
  [Command.KillProcess; Command.ForceKillProcess; Command.KillNamed; Command.NiceDown;
   Command.NiceUp; Command.StopContainer; Command.KillContainer; Command.RestartContainer;
   Command.StopNamed; Command.RestartNamed; Command.KubeToggleScope].

Definition excluded_commands (self : AppState) : list Command :=
  if is_remote self then REMOTE_BLOCKED_COMMANDS else [].

Definition refilter_palette (self : AppState) : AppState :=
  self <| palette ::= refilter_ctx score (excluded_commands self) (Some (tab self)) |>.

(** [open_palette] and [open_command_line]. *)
Definition open_prompt (o : Overlay) (self : AppState) : AppState :=
  mark_dirty (refilter_palette (self
    <| overlay := o |>
    <| palette ::= λ p, p <| input := [] |> <| palette_selected := 0%nat |> |>)).

Definition open_palette := open_prompt Overlay.Palette.
Definition open_command_line := open_prompt Overlay.Command.

(** *** Dispatch *)

Definition toggle_pause (self : AppState) : AppState :=
  let self := self <| paused ::= negb |> in
  notify Level.Info (if paused self then lit "Paused — press Space to resume"
                     else lit "Resumed") self.

Definition refresh (self : AppState) : AppState :=
  if paused self then notify Level.Info (lit "Resumed") (self <| paused := false |>)
  else notify Level.Info (lit "Refreshing on the next collector tick") self.

Definition dispatch (a : Action) (self : AppState) : AppState :=
  if is_local_only a && is_remote self
  then notify Level.Warning (lit "Actions are disabled in remote mode") self
  else
  match a with
  | Action.Quit => quit self
  | Action.Help => open_overlay Overlay.Help self
  | Action.Palette => open_palette self
  | Action.CommandMode => open_command_line self
  | Action.ToggleLog => open_overlay Overlay.Log self
  | Action.TogglePause => toggle_pause self
  | Action.Refresh => refresh self
  | Action.NextTab => go_to_tab (Tab_next (tab self)) self
  | Action.PrevTab => go_to_tab (Tab_prev (tab self)) self
  | Action.GoTab t => go_to_tab t self
  | Action.NextSubview => cycle_subview 1 self
  | Action.PrevSubview => cycle_subview (-1) self
  | Action.RowDown => move_selection 1 self
  | Action.RowUp => move_selection (-1) self
  | Action.RowPageDown => move_selection (Z.of_nat PAGE) self
  | Action.RowPageUp => move_selection (- Z.of_nat PAGE) self
  | Action.RowHalfDown => move_selection (Z.quot (Z.of_nat PAGE) 2) self
  | Action.RowHalfUp => move_selection (Z.quot (- Z.of_nat PAGE) 2) self
  | Action.RowFirst => select_index 0 self
  | Action.RowLast => select_index (item_count self - 1) self
  | Action.ColLeft => self <| col_scroll ::= λ n, (n - 1)%nat |>
  | Action.ColRight => self <| col_scroll ::= λ n, min (n + 1) MAX_COL_SCROLL |>
  | Action.OpenInspector =>
      if bool_decide (item_count self = 0)%nat
      then notify Level.Info (lit "Nothing selected") self
      else open_overlay Overlay.Inspector self
  | Action.ActionsMenu =>
      if bool_decide (tab_actions self = [])
      then notify Level.Info (lit "No actions available on this tab") self
      else open_overlay Overlay.Actions (self <| actions_selected := 0%nat |>)
  | Action.CopySelection => copy_selection self
  | Action.OpenFilter => set_filter_editing true self
  | Action.Back => go_back self
  | Action.CycleSort => cycle_sort self
  | Action.ReverseSort => reverse_sort self
  | Action.ToggleTree =>
      recompute_visible (self <| tree_mode ::= negb |> <| selected := 0%nat |>
                              <| scroll_offset := 0%nat |>)
  | Action.Renice delta => request_renice delta self
  | Action.Kill signal => request_kill signal self
  | Action.ContainerStop => request_container_stop self
  | Action.ContainerKill => request_container_kill self
  | Action.ContainerRestart => request_container_restart self
  | Action.KubeSubview sv => switch_kube_subview sv self
  | Action.ToggleKubeScope => toggle_kube_scope self
  | Action.GpuSubview sv => switch_gpu_subview sv self
  end.

(** *** Commands with an argument *)

Definition process_matches (needle_lower : str) (p : ProcessInfo) : bool :=
  lower_contains (name p) needle_lower || lower_contains (command p) needle_lower.

Definition kill_named (needle : str) (self : AppState) : AppState :=
  let needle_lower := to_lowercase needle in
  let matches := List.filter (process_matches needle_lower) (visible_processes self) in
  match matches with
  | [] => notify Level.Warning (lit "No process matches `" ++ needle ++ lit "`") self
  | target :: _ =>
      let extra := length matches in
      let self := if bool_decide (1 < extra)%nat
        then notify Level.Info (show (Z.of_nat extra) ++ lit " processes match `" ++ needle
                                ++ lit "` — targeting the busiest") self
        else self in
      self <| confirm := Some (ConfirmKill (pid target) (name target) Term) |>
  end.

Definition container_named (needle : str) (build : str → str → ConfirmAction) (self : AppState)
    : AppState :=
  if is_remote self then notify Level.Warning (lit "Actions are disabled in remote mode") self
  else
    let needle_lower := to_lowercase needle in
    let found := find (λ c, lower_contains (ctr_name c) needle_lower
                            || lower_contains (image c) needle_lower
                            || starts_with (to_lowercase (ctr_id c)) needle_lower)
                   (sorted_filtered_containers_cache self) in
    match found with
    | Some c => self <| confirm := Some (build (id_full c) (ctr_name c)) |>
    | None => notify Level.Warning (lit "No container matches `" ++ needle ++ lit "`") self
    end.

(** The field a name stands for on a tab. *)
Definition net_field_named (f : str) : option NetworkSortField :=
  if any_of f [lit "name"; lit "interface"] then Some NetSort.Name
  else if any_of f [lit "rx"; lit "down"] then Some NetSort.RxRate
  else if any_of f [lit "tx"; lit "up"] then Some NetSort.TxRate
  else if any_of f [lit "errors"; lit "err"] then Some NetSort.Errors
  else None.

Definition container_field_named (f : str) : option ContainerSortField :=
  if any_of f [lit "name"] then Some CtrSort.Name
  else if any_of f [lit "cpu"] then Some CtrSort.Cpu
  else if any_of f [lit "mem"; lit "memory"] then Some CtrSort.Mem
  else if any_of f [lit "rx"; lit "net"] then Some CtrSort.NetRx
  else if any_of f [lit "tx"] then Some CtrSort.NetTx
  else if any_of f [lit "uptime"; lit "age"] then Some CtrSort.Uptime
  else None.

Definition process_field_named (f : str) : option SortField :=
  if any_of f [lit "cpu"] then Some Cpu
  else if any_of f [lit "mem"; lit "memory"] then Some Mem
  else if any_of f [lit "pid"] then Some Pid
  else if any_of f [lit "name"; lit "command"] then Some Name
  else if any_of f [lit "user"] then Some User
  else None.

Definition sort_by_name (field : str) (self : AppState) : AppState :=
  let f := to_lowercase (trim field) in
  let '(ok, self) :=
    match tab self with
    | Tab.Network =>
        match net_field_named f with
        | Some s => (true, self <| net_sort_field := s |>)
        | None => (false, self)
        end
    | Tab.Containers =>
        match container_field_named f with
        | Some s => (true, recompute_containers_view (self <| containers_sort_field := s |>))
        | None => (false, self)
        end
    | Tab.Kube => (false, self)
    | _ =>
        match process_field_named f with
        | Some s => (true, recompute_visible (self <| sort_field := s |>))
        | None => (false, self)
        end
    end in
  if ok : bool then notify Level.Info (lit "Sorted by " ++ f) self
  else notify Level.Warning (lit "`" ++ f ++ lit "` is not a sortable column on this tab") self.

Definition set_theme (name : str) (self : AppState) : AppState :=
  match ThemeKind_from_str name with
  | Ok kind => notify Level.Success (lit "Theme: " ++ ThemeKind_name kind)
                 (self <| theme_kind := kind |>)
  | Err e => notify Level.Warning e self
  end.

Definition go_to_tab_named (name : str) (self : AppState) : AppState :=
  let n := to_lowercase (trim name) in
  match find (λ t, starts_with (to_lowercase (Tab_label t)) n) Tab_ALL with
  | Some tab => go_to_tab tab self
  | None => notify Level.Warning (lit "No tab named `" ++ name ++ lit "`") self
  end.

(** *** Commands *)

Definition set_process_sort (field : SortField) (self : AppState) : AppState :=
  recompute_visible (self <| sort_field := field |>).

Definition set_container_sort (field : ContainerSortField) (self : AppState) : AppState :=
  recompute_containers_view (self <| containers_sort_field := field |>).

Definition kube_command (sv : KubeSubview) (self : AppState) : AppState :=
  switch_kube_subview sv (go_to_tab Tab.Kube self).

Definition usage (cmd : Command) (self : AppState) : AppState :=
  notify Level.Info (lit "Usage: " ++ shortcut cmd) self.

Definition execute_command (cmd : Command) (self : AppState) : AppState :=
  if is_remote self && bool_decide (cmd ∈ REMOTE_BLOCKED_COMMANDS)
  then notify Level.Warning (lit "Actions are disabled in remote mode") self
  else
  match cmd with
  | Command.Quit => dispatch Action.Quit self
  | Command.ToggleTreeView => dispatch Action.ToggleTree (go_to_tab Tab.Processes self)
  | Command.SortByCpu => set_process_sort Cpu self
  | Command.SortByMem => set_process_sort Mem self
  | Command.SortByPid => set_process_sort Pid self
  | Command.SortByName => set_process_sort Name self
  | Command.SortByUser => set_process_sort User self
  | Command.ToggleSortOrder => reverse_sort self
  | Command.CycleSort => cycle_sort self
  | Command.SwitchToGeneral => go_to_tab Tab.General self
  | Command.SwitchToProcesses => go_to_tab Tab.Processes self
  | Command.SwitchToNetwork => go_to_tab Tab.Network self
  | Command.SwitchToContainers => go_to_tab Tab.Containers self
  | Command.SwitchToKube => go_to_tab Tab.Kube self
  | Command.OpenFilter => set_filter_editing true self
  | Command.ClearFilter => clear_filter self
  | Command.NextTab => go_to_tab (Tab_next (tab self)) self
  | Command.PrevTab => go_to_tab (Tab_prev (tab self)) self
  | Command.KillProcess => request_kill Term self
  | Command.ForceKillProcess => request_kill Kill self
  | Command.NiceDown => request_renice 1 self
  | Command.NiceUp => request_renice (-1) self
  | Command.SortNetByRx => self <| net_sort_field := NetSort.RxRate |>
  | Command.SortNetByTx => self <| net_sort_field := NetSort.TxRate |>
  | Command.SortNetByName => self <| net_sort_field := NetSort.Name |>
  | Command.SortNetByErrors => self <| net_sort_field := NetSort.Errors |>
  | Command.SortContainersByCpu => set_container_sort CtrSort.Cpu self
  | Command.SortContainersByMem => set_container_sort CtrSort.Mem self
  | Command.SortContainersByName => set_container_sort CtrSort.Name self
  | Command.SortContainersByNetRx => set_container_sort CtrSort.NetRx self
  | Command.StopContainer => request_container_stop self
  | Command.KillContainer => request_container_kill self
  | Command.RestartContainer => request_container_restart self
  | Command.ShowHelp => open_overlay Overlay.Help self
  | Command.TogglePause => dispatch Action.TogglePause self
  | Command.RefreshNow => dispatch Action.Refresh self
  | Command.ShowLog => open_overlay Overlay.Log self
  | Command.InspectRow => dispatch Action.OpenInspector self
  | Command.CopyRowId => copy_selection self
  | Command.KubePods => kube_command KubeSubview.Pods self
  | Command.KubeNodes => kube_command KubeSubview.Nodes self
  | Command.KubeDeployments => kube_command KubeSubview.Deployments self
  | Command.KubeToggleScope => toggle_kube_scope (go_to_tab Tab.Kube self)
  | Command.KillNamed | Command.StopNamed | Command.RestartNamed | Command.SortBy
  | Command.FilterBy | Command.SetTheme | Command.GoToTab => usage cmd self
  | Command.SwitchToGpu => self <| tab := Tab.Gpu |>
  end.

Definition execute_invocation (cmd : Command) (arg : option str) (self : AppState) : AppState :=
  match cmd, arg with
  | Command.KillNamed, Some name => kill_named name self
  | Command.StopNamed, Some name => container_named name StopContainer self
  | Command.RestartNamed, Some name => container_named name RestartContainer self
  | Command.SortBy, Some field => sort_by_name field self
  | Command.FilterBy, Some text => set_filter text self
  | Command.SetTheme, Some name => set_theme name self
  | Command.GoToTab, Some name => go_to_tab_named name self
  | cmd, _ => if is_verb_only cmd then usage cmd self else execute_command cmd self
  end.

(** *** Keys *)

Record KeyEvent := mkKey { key_code : KeyCode; modifiers : KeyModifiers }.

Definition is_key (c : Z) (key : KeyEvent) : bool := bool_decide (key_code key = KChar c).

Definition handle_filter_key (key : KeyEvent) (self : AppState) : AppState :=
  mark_dirty
    match key_code key with
    | KEsc => set_filter_editing false self
    | KEnter => after_filter_change true (set_filter_editing false self)
    | KBackspace => after_filter_change false (update_filter_text (λ s, take (length s - 1) s) self)
    | KChar c =>
        if control (modifiers key) then self
        else if bool_decide (str_len (filter_text self) < MAX_FILTER_LEN)%nat
        then after_filter_change false (update_filter_text (λ s, s ++ [c]) self)
        else self
    | _ => self
    end.

(** The arms of the read-only overlays, in the order of the match. *)
Definition handle_scrollable_overlay_key (key : KeyEvent) (self : AppState) : AppState :=
  let c := key_code key in
  mark_dirty
    (if bool_decide (c = KEsc) || is_key 113 key then close_overlay self
     else if is_key 63 key && bool_decide (overlay self = Overlay.Help) then close_overlay self
     else if bool_decide (c = KEnter) && bool_decide (overlay self = Overlay.Inspector)
     then close_overlay self
     else if is_key 108 key && control (modifiers key) then close_overlay self
     else if bool_decide (c = KDown) || is_key 106 key
     then self <| overlay_scroll ::= S |>
     else if bool_decide (c = KUp) || is_key 107 key
     then self <| overlay_scroll ::= λ n, (n - 1)%nat |>
     else if bool_decide (c = KPageDown) then self <| overlay_scroll ::= λ n, (n + PAGE)%nat |>
     else if bool_decide (c = KPageUp) then self <| overlay_scroll ::= λ n, (n - PAGE)%nat |>
     else if bool_decide (c = KHome) || is_key 103 key then self <| overlay_scroll := 0%nat |>
     else if is_key 121 key && bool_decide (overlay self = Overlay.Inspector)
     then copy_selection self
     else self).

Definition handle_actions_key (key : KeyEvent) (self : AppState) : AppState :=
  let actions := tab_actions self in
  mark_dirty
    match key_code key with
    | KEsc | KChar 120 => close_overlay self
    | KDown | KChar 106 =>
        self <| actions_selected := clamp_selection (actions_selected self + 1) (length actions) |>
    | KUp | KChar 107 => self <| actions_selected ::= λ n, (n - 1)%nat |>
    | KEnter =>
        match actions !! actions_selected self with
        | Some (_, _, a) => dispatch a (close_overlay self)
        | None => self
        end
    | _ => self
    end.

Definition handle_confirm_key (key : KeyEvent) (self : AppState) : AppState :=
  mark_dirty
    match key_code key with
    | KChar 121 | KChar 89 | KEnter =>
        match confirm self with
        | Some a => execute_confirm a (self <| confirm := None |>)
        | None => self
        end
    | KChar 110 | KChar 78 | KEsc => self <| confirm := None |>
    | _ => self
    end.

Definition palette_enter (self : AppState) : AppState :=
  match filtered (palette self) !! palette_selected (palette self) with
  | Some (cmd, _) =>
      let a := arg (palette self) in
      execute_invocation cmd a (close_overlay (self <| palette ::= remember cmd |>))
  | None => self
  end.

Definition handle_palette_key (key : KeyEvent) (self : AppState) : AppState :=
  mark_dirty
    match key_code key with
    | KEsc => close_overlay self
    | KChar c =>
        if control (modifiers key)
        then if (c =? 112) || (c =? 107) then close_overlay self else self
        else if bool_decide (str_len (input (palette self)) < MAX_FILTER_LEN)%nat
        then refilter_palette (self <| palette ::= λ p, p <| input ::= λ s, s ++ [c] |> |>)
        else self
    | KEnter => palette_enter self
    | KDown =>
        self <| palette ::= λ p, p <| palette_selected :=
          clamp_selection (palette_selected p + 1) (length (filtered p)) |> |>
    | KUp => self <| palette ::= λ p, p <| palette_selected ::= λ n, (n - 1)%nat |> |>
    | KBackspace =>
        refilter_palette (self <| palette ::= λ p, p <| input ::= λ s, take (length s - 1) s |> |>)
    | _ => self
    end.

Definition handle_key_event (key : KeyEvent) (self : AppState) : AppState :=
  let self := self <| notifier ::= λ n, (expire (clock self) n).2 |> in
  if is_key 99 key && control (modifiers key) then quit self
  else if bool_decide (is_Some (confirm self)) then handle_confirm_key key self
  else
  match overlay self with
  | Overlay.Palette | Overlay.Command => handle_palette_key key self
  | Overlay.Help | Overlay.Log | Overlay.Inspector => handle_scrollable_overlay_key key self
  | Overlay.Actions => handle_actions_key key self
  | Overlay.None =>
      if filter_editing self then handle_filter_key key self
      else mark_dirty match resolve (key_code key) (modifiers key) (tab self) with
                      | Some a => dispatch a self
                      | None => self
                      end
  end.

(** *** Mouse *)

Inductive MouseEventKind : Type := ScrollDown | ScrollUp | OtherMouse.

Definition handle_mouse_event (m : MouseEventKind) (self : AppState) : AppState :=
  if negb (bool_decide (overlay self = Overlay.None)) then
    match m with
    | ScrollDown => mark_dirty (self <| overlay_scroll ::= λ n, (n + WHEEL_ROWS)%nat |>)
    | ScrollUp => mark_dirty (self <| overlay_scroll ::= λ n, (n - WHEEL_ROWS)%nat |>)
    | OtherMouse => self
    end
  else
    match m with
    | ScrollDown => mark_dirty (scroll_rows (Z.of_nat WHEEL_ROWS) self)
    | ScrollUp => mark_dirty (scroll_rows (- Z.of_nat WHEEL_ROWS) self)
    | OtherMouse => self
    end.

(** *** The event loop (lib.rs) *)

Inductive Event : Type :=
| Tick
| Key (key : KeyEvent)
| Mouse (m : MouseEventKind)
| Resize (width height : Z)
| SnapshotEvent (snap : SystemSnapshot).

(** What crossterm may have for us within a tick. *)
Inductive CrosstermEvent : Type :=
| TermKey (key : KeyEvent)
| TermMouse (m : MouseEventKind)
| TermResize (width height : Z)
| TermOther.

(** Every pending snapshot is drained and only the latest kept; the terminal is
    polled only when there was none. *)
Definition poll_event (rx : list SystemSnapshot) (polled : option CrosstermEvent) : Event :=
  match last rx with
  | Some snapshot => SnapshotEvent snapshot
  | None =>
      match polled with
      | Some (TermKey key) => Key key
      | Some (TermMouse m) => Mouse m
      | Some (TermResize w h) => Resize w h
      | Some TermOther | None => Tick
      end
  end.

(** What happens in one iteration: time passes, futures report back, snapshots
    wait in the channel and the terminal has an event, or not. *)
Record Turn := mkTurn {
  at_time : Instant;
  reports : list (Task * outcome);
  pending : list SystemSnapshot;
  polled : option CrosstermEvent;
}.

Definition event (t : Turn) : Event := poll_event (pending t) (polled t).

Definition handle_event (e : Event) (self : AppState) : bool * AppState :=
  match e with
  | Key key => (true, handle_key_event key self)
  | Mouse m => (true, handle_mouse_event m self)
  | SnapshotEvent snap => (true, apply_snapshot snap self)
  | Resize _ _ => (true, self)
  | Tick => status_message_just_expired self
  end.

(** One iteration of the loop, with whether it draws. *)
Definition turn (t : Turn) (self : AppState) : bool * AppState :=
  let self := self <| clock := at_time t |> in
  let self := foldl (λ self r, task_done r.1 r.2 self) self (reports t) in
  let self := pump_action_results self in
  let '(should_draw, self) := take_needs_redraw self in
  let '(changed, self) := handle_event (event t) self in
  let should_draw := should_draw || changed in
  (should_draw, if should_draw then tick_frame self else self).

(** [while app.running()]. *)
Fixpoint run_turns (ts : list Turn) (self : AppState) : AppState :=
  match ts with
  | [] => self
  | t :: ts => if running self then run_turns ts (turn t self).2 else self
  end.
End Handlers.
