(* ===== verification/AppSafety.v ===== *)
(** * What the application may do to the outside

    Theorems about App.v: nothing irreversible without its confirmation
    dialog, nothing at all against a remote host, and Ctrl+C always quits. *)

From S2P Require Import Prelude Str RsFloat Actions Clipboard Process Network Gpu Snapshots.
From S2P Require Import Keymap Ui KubeView Palette App.
Local Open Scope Z_scope.
Local Open Scope record_scope.

(** ** Frames

    What a handler may not touch: the traces of outside effects, the mode, the
    pending dialog and the commands the palette lists. *)

Definition outside (s : AppState)
    : list Syscall * list Task * ConnectionMode * option ConfirmAction
      * list (Command * option Z) :=
  (syscalls s, tasks s, connection_mode s, confirm s, filtered (palette s)).

Create Rewrite HintDb frame.

Section Frames.
Context {Uc : Unicode} {Us : UnstableSort} {Ko : Os}.
Variable describe : Syscall → str.
Variable errno_display : Z → str.
Variable score : str → str → option Z.
Variable tty_ok : bool.
Implicit Types s : AppState.

Lemma outside_notify lv m s : outside (notify lv m s) = outside s.
Proof. done. Qed.
Lemma outside_mark_dirty s : outside (mark_dirty s) = outside s.
Proof. done. Qed.
Lemma outside_quit s : outside (quit s) = outside s.
Proof. done. Qed.
Lemma outside_set_selected n s : outside (set_selected n s) = outside s.
Proof. unfold set_selected. by destruct (tab s). Qed.
Lemma outside_set_offset n s : outside (set_offset n s) = outside s.
Proof. unfold set_offset. by destruct (tab s). Qed.
Lemma outside_recompute_visible s : outside (recompute_visible s) = outside s.
Proof. unfold recompute_visible. destruct (last_snapshot s); [|done]. by case_bool_decide. Qed.
Lemma outside_recompute_containers_view s : outside (recompute_containers_view s) = outside s.
Proof. done. Qed.
Lemma outside_recompute_kube_view s : outside (recompute_kube_view s) = outside s.
Proof. done. Qed.
#[local] Hint Rewrite outside_notify outside_mark_dirty outside_quit outside_set_selected
  outside_set_offset outside_recompute_visible outside_recompute_containers_view
  outside_recompute_kube_view : frame.

Lemma outside_debounced s : outside (recompute_visible_debounced s) = outside s.
Proof. unfold recompute_visible_debounced. case_match; autorewrite with frame; done. Qed.
#[local] Hint Rewrite outside_debounced : frame.

Lemma outside_after_filter_change b s : outside (after_filter_change b s) = outside s.
Proof.
  unfold after_filter_change. autorewrite with frame.
  destruct (tab s), b; autorewrite with frame; done.
Qed.
Lemma outside_update_filter_text f s : outside (update_filter_text f s) = outside s.
Proof. unfold update_filter_text. by destruct (tab s). Qed.
Lemma outside_set_filter_editing b s : outside (set_filter_editing b s) = outside s.
Proof. unfold set_filter_editing. by destruct (tab s). Qed.
#[local] Hint Rewrite outside_after_filter_change outside_update_filter_text
  outside_set_filter_editing : frame.

Lemma outside_clear_filter s : outside (clear_filter s) = outside s.
Proof. unfold clear_filter. by autorewrite with frame. Qed.
Lemma outside_set_filter t s : outside (set_filter t s) = outside s.
Proof. unfold set_filter. by autorewrite with frame. Qed.
Lemma outside_cycle_sort s : outside (cycle_sort s) = outside s.
Proof. unfold cycle_sort. destruct (tab s); autorewrite with frame; done. Qed.
Lemma outside_reverse_sort s : outside (reverse_sort s) = outside s.
Proof. unfold reverse_sort. destruct (tab s); autorewrite with frame; done. Qed.
Lemma outside_go_to_tab t s : outside (go_to_tab t s) = outside s.
Proof. unfold go_to_tab. by case_bool_decide. Qed.
Lemma outside_switch_kube sv s : outside (switch_kube_subview sv s) = outside s.
Proof. done. Qed.
Lemma outside_switch_gpu sv s : outside (switch_gpu_subview sv s) = outside s.
Proof. done. Qed.
Lemma outside_cycle_subview d s : outside (cycle_subview d s) = outside s.
Proof. unfold cycle_subview. by destruct (tab s). Qed.
Lemma outside_move_selection d s : outside (move_selection d s) = outside s.
Proof. unfold move_selection. case_bool_decide; by autorewrite with frame. Qed.
Lemma outside_select_index i s : outside (select_index i s) = outside s.
Proof. unfold select_index. case_bool_decide; by autorewrite with frame. Qed.
Lemma outside_scroll_rows d s : outside (scroll_rows d s) = outside s.
Proof. unfold scroll_rows. case_bool_decide; by autorewrite with frame. Qed.
Lemma outside_open_overlay o s : outside (open_overlay o s) = outside s.
Proof. done. Qed.
Lemma outside_close_overlay s : outside (close_overlay s) = outside s.
Proof. done. Qed.
#[local] Hint Rewrite outside_clear_filter outside_set_filter outside_cycle_sort
  outside_reverse_sort outside_go_to_tab outside_switch_kube outside_switch_gpu
  outside_cycle_subview outside_move_selection outside_select_index outside_scroll_rows
  outside_open_overlay outside_close_overlay : frame.

Lemma outside_go_back s : outside (go_back s) = outside s.
Proof. unfold go_back. repeat case_match; autorewrite with frame; done. Qed.
Lemma outside_copy_selection s : outside (copy_selection tty_ok s) = outside s.
Proof.
  unfold copy_selection. destruct (selected_identifier s); [|done].
  destruct (copy_sequence _), (copy tty_ok _), tty_ok; done.
Qed.
Lemma outside_toggle_pause s : outside (toggle_pause s) = outside s.
Proof. done. Qed.
Lemma outside_refresh s : outside (refresh s) = outside s.
Proof. unfold refresh. by destruct (paused s). Qed.
Lemma outside_sort_by_name f s : outside (sort_by_name f s) = outside s.
Proof.
  unfold sort_by_name. destruct (tab s); repeat case_match; simplify_eq;
    autorewrite with frame; done.
Qed.
Lemma outside_set_theme n s : outside (set_theme n s) = outside s.
Proof. unfold set_theme. by case_match. Qed.
Lemma outside_go_to_tab_named n s : outside (go_to_tab_named n s) = outside s.
Proof. unfold go_to_tab_named. case_match; by autorewrite with frame. Qed.
Lemma outside_push_history cs s : outside (push_container_history cs s) = outside s.
Proof.
  unfold push_container_history. change (outside (foldl record_container s (containers cs)) = outside s).
  revert s. induction (containers cs) as [|c l IH]; intros s; [done|]. simpl. by rewrite IH.
Qed.
#[local] Hint Rewrite outside_go_back outside_copy_selection outside_toggle_pause outside_refresh
  outside_sort_by_name outside_set_theme outside_go_to_tab_named outside_push_history : frame.

Lemma outside_last_snapshot v s : outside (s <| last_snapshot := v |>) = outside s.
Proof. done. Qed.

Lemma outside_apply_snapshot snap s : outside (apply_snapshot snap s) = outside s.
Proof.
  unfold apply_snapshot. destruct (paused s); [done|].
  rewrite outside_mark_dirty, outside_recompute_kube_view, outside_recompute_containers_view,
    outside_recompute_visible, outside_last_snapshot.
  destruct (sys_containers snap) as [cs|]; [|done]. by rewrite outside_push_history.
Qed.
Lemma outside_filter_key k s : outside (handle_filter_key k s) = outside s.
Proof.
  unfold handle_filter_key. autorewrite with frame.
  repeat case_match; autorewrite with frame; done.
Qed.
Lemma outside_scrollable_key k s : outside (handle_scrollable_overlay_key tty_ok k s) = outside s.
Proof.
  unfold handle_scrollable_overlay_key. autorewrite with frame.
  repeat case_match; autorewrite with frame; done.
Qed.
Lemma outside_mouse m s : outside (handle_mouse_event m s) = outside s.
Proof. unfold handle_mouse_event. repeat case_match; autorewrite with frame; done. Qed.
Lemma outside_usage c s : outside (usage c s) = outside s.
Proof. done. Qed.
Lemma outside_pump s : outside (pump_action_results s) = outside s.
Proof.
  unfold pump_action_results.
  assert (∀ l s', outside (foldl (λ self m, notify m.1 m.2 self) s' l) = outside s') as H'.
  { induction l as [|m l IH]; intros s'; [done|]. simpl. by rewrite IH. }
  case_bool_decide; autorewrite with frame; by rewrite H'.
Qed.
Lemma outside_task_done t o s : outside (task_done t o s) = outside s.
Proof. unfold task_done. destruct (shutdown_token s); [done|]. by destruct (task_message t o). Qed.
Lemma outside_reports (l : list (Task * outcome)) s :
  outside (foldl (λ self r, task_done r.1 r.2 self) s l) = outside s.
Proof. revert s. induction l as [|r l IH]; intros s; [done|]. simpl. by rewrite IH, outside_task_done. Qed.
End Frames.

#[export] Hint Rewrite outside_notify outside_mark_dirty outside_quit outside_set_selected
  outside_set_offset @outside_recompute_visible @outside_recompute_containers_view
  @outside_recompute_kube_view @outside_debounced @outside_after_filter_change
  outside_update_filter_text outside_set_filter_editing @outside_clear_filter
  @outside_set_filter @outside_cycle_sort @outside_reverse_sort outside_go_to_tab
  @outside_switch_kube outside_switch_gpu @outside_cycle_subview @outside_move_selection
  @outside_select_index @outside_scroll_rows outside_open_overlay outside_close_overlay
  @outside_go_back @outside_copy_selection outside_toggle_pause outside_refresh
  @outside_sort_by_name @outside_set_theme @outside_go_to_tab_named @outside_push_history
  @outside_apply_snapshot @outside_filter_key @outside_scrollable_key @outside_mouse
  outside_usage outside_pump outside_task_done : frame.

(** ** A remote host is only ever watched *)

(** Nothing was done to the outside, and no dialog is open that could. *)
Definition nothing_done (s : AppState) : Prop :=
  syscalls s = [] ∧ tasks s = [] ∧ confirm s = None.

Section Remote.
Context {Uc : Unicode} {Us : UnstableSort} {Ko : Os}.
Variable describe : Syscall → str.
Variable errno_display : Z → str.
Variable score : str → str → option Z.
Variable tty_ok : bool.
Implicit Types s : AppState.

(** Watching: remote, no effect so far, no dialog open, and the one verb the
    handlers do not check again is not on offer. *)
Definition watching (s : AppState) : Prop :=
  is_remote s = true ∧ syscalls s = [] ∧ tasks s = [] ∧ confirm s = None ∧
  Forall (λ cs, cs.1 ≠ Command.KillNamed) (filtered (palette s)).

Lemma watching_outside s s' : outside s' = outside s → watching s → watching s'.
Proof.
  unfold outside, watching, is_remote. intros [= E1 E2 E3 E4 E5] (H1 & H2 & H3 & H4 & H5).
  rewrite E1, E2, E3, E4, E5. done.
Qed.

Lemma watching_frame s s' : watching s → outside s' = outside s → watching s'.
Proof. intros Hs Ho. by eapply watching_outside. Qed.

Lemma kill_named_blocked : Command.KillNamed ∈ REMOTE_BLOCKED_COMMANDS.
Proof. refine (bool_decide_unpack _ _). vm_compute. exact I. Qed.

Lemma watching_refilter s : watching s → watching (refilter_palette score s).
Proof.
  intros (H1 & H2 & H3 & H4 & H5). unfold watching. split_and!; try done.
  unfold refilter_palette, excluded_commands. rewrite H1.
  change (filtered (palette (s <| palette ::= ?f |>))) with (filtered (f (palette s))).
  destruct (refilter_cases score REMOTE_BLOCKED_COMMANDS (Some (tab s)) (palette s))
    as [(cmd & a & _ & Hx & -> & _)|(_ & Hin & _)].
  - constructor; [|done]. simpl. intros ->. apply Hx, kill_named_blocked.
  - apply Forall_forall. intros cs Hcs%Hin Hk.
    apply elem_of_offered in Hcs as [Hx _]. rewrite Hk in Hx.
    apply Hx, kill_named_blocked.
Qed.

Lemma watching_prompt o s : watching s → watching (open_prompt score o s).
Proof.
  intros Hs. unfold open_prompt. eapply watching_frame; [|apply outside_mark_dirty].
  apply watching_refilter. by eapply watching_frame.
Qed.

Lemma watching_dispatch a s : watching s → watching (dispatch score tty_ok a s).
Proof.
  intros Hs. pose proof Hs as (Hr & _). unfold dispatch. rewrite Hr, andb_true_r.
  destruct (is_local_only a) eqn:El; [by eapply watching_frame|].
  destruct a; try discriminate El;
    lazymatch goal with
    | |- watching (open_palette _ _) => exact (watching_prompt _ _ Hs)
    | |- watching (open_command_line _ _) => exact (watching_prompt _ _ Hs)
    | |- watching (if _ then _ else _) =>
        case_bool_decide; apply (watching_frame _ _ Hs); reflexivity
    | |- _ => apply (watching_frame _ _ Hs); autorewrite with frame; reflexivity
    end.
Qed.

Lemma watching_execute_command c s : watching s → watching (execute_command score tty_ok c s).
Proof.
  intros Hs. pose proof Hs as (Hr & _). unfold execute_command. rewrite Hr. simpl.
  case_bool_decide as Hc; [by eapply watching_frame|].
  destruct c; try (exfalso; apply Hc; refine (bool_decide_unpack _ _); vm_compute; exact I);
    try (apply watching_dispatch; (eapply watching_frame; [exact Hs|]; by autorewrite with frame));
    unfold set_process_sort, set_container_sort, kube_command;
    (eapply watching_frame; [exact Hs|]; autorewrite with frame; done).
Qed.

Lemma watching_container_named n b s : watching s → watching (container_named n b s).
Proof.
  intros Hs. pose proof Hs as (Hr & _). unfold container_named. rewrite Hr.
  by apply (watching_frame _ _ Hs).
Qed.

Lemma watching_invocation c a s :
  c ≠ Command.KillNamed → watching s → watching (execute_invocation score tty_ok c a s).
Proof.
  intros Hc Hs. destruct a as [a|]; destruct c; try done; simpl;
    lazymatch goal with
    | |- watching (container_named _ _ _) => by apply watching_container_named
    | |- watching (execute_command _ _ _ _) => by apply watching_execute_command
    | |- _ => apply (watching_frame _ _ Hs); autorewrite with frame; reflexivity
    end.
Qed.

Lemma watching_palette_key k s : watching s → watching (handle_palette_key score tty_ok k s).
Proof.
  intros Hs. unfold handle_palette_key. eapply watching_frame; [|apply outside_mark_dirty].
  destruct (key_code k); try done;
    lazymatch goal with
    | |- watching (palette_enter _ _ _) => idtac
    | |- watching (refilter_palette _ _) =>
        apply watching_refilter; apply (watching_frame _ _ Hs); reflexivity
    | |- watching (if control _ then _ else _) =>
        destruct (control (modifiers k));
        [case_match; [apply (watching_frame _ _ Hs); reflexivity|exact Hs]|];
        case_bool_decide; [|exact Hs];
        apply watching_refilter; apply (watching_frame _ _ Hs); reflexivity
    | |- _ => apply (watching_frame _ _ Hs); reflexivity
    end.
  unfold palette_enter. destruct (filtered (palette s) !! _) as [[cmd sc]|] eqn:E; [|done].
  apply watching_invocation; [|by apply (watching_frame _ _ Hs)].
  destruct Hs as (_ & _ & _ & _ & Hf). exact (Forall_lookup_1 _ _ _ _ Hf E).
Qed.

Lemma watching_key k s :
  watching s → watching (handle_key_event describe errno_display score tty_ok k s).
Proof.
  intros Hs. unfold handle_key_event.
  set (s0 := s <| notifier ::= _ |>).
  assert (watching s0) as Hs0 by (by apply (watching_frame _ _ Hs)).
  clearbody s0. clear s Hs. rename s0 into s, Hs0 into Hs.
  case_match; [by apply (watching_frame _ _ Hs)|].
  pose proof Hs as (_ & _ & _ & Hcf & _).
  rewrite bool_decide_eq_false_2 by (rewrite Hcf; by intros [? [=]]).
  destruct (overlay s); try by apply watching_palette_key.
  - destruct (filter_editing s);
      [apply (watching_frame _ _ Hs); by autorewrite with frame|].
    eapply watching_frame; [|apply outside_mark_dirty].
    destruct (resolve _ _ _); [by apply watching_dispatch|done].
  - apply (watching_frame _ _ Hs). by autorewrite with frame.
  - unfold handle_actions_key. eapply watching_frame; [|apply outside_mark_dirty].
    repeat case_match; try done; try (apply (watching_frame _ _ Hs); reflexivity).
    apply watching_dispatch. by apply (watching_frame _ _ Hs).
  - apply (watching_frame _ _ Hs). by autorewrite with frame.
  - apply (watching_frame _ _ Hs). by autorewrite with frame.
Qed.

Lemma initial_palette : Forall (λ cs, cs.1 ≠ Command.KillNamed) (filtered PaletteState_new).
Proof. refine (bool_decide_unpack _ _). vm_compute. exact I. Qed.

Lemma watching_turn t s :
  watching s → watching (turn describe errno_display score tty_ok t s).2.
Proof.
  intros Hs. unfold turn.
  set (s0 := pump_action_results _).
  assert (watching s0) as Hs0.
  { apply (watching_frame _ _ Hs). unfold s0. by rewrite outside_pump, outside_reports. }
  clearbody s0. unfold take_needs_redraw.
  assert (watching (s0 <| needs_redraw := false |>)) as Hs1 by (by apply (watching_frame _ _ Hs0)).
  generalize dependent (s0 <| needs_redraw := false |>). intros s1 Hs1.
  assert (watching (handle_event describe errno_display score tty_ok (event t) s1).2) as Hs2.
  { destruct (event t); simpl; [|by apply watching_key|..].
    - apply (watching_frame _ _ Hs1). unfold status_message_just_expired.
      by destruct (expire (clock s1) (notifier s1)).
    - apply (watching_frame _ _ Hs1), outside_mouse.
    - done.
    - apply (watching_frame _ _ Hs1), outside_apply_snapshot. }
  destruct (handle_event _ _ _ _ _ s1) as [b s2]. simpl in *.
  destruct (needs_redraw s0 || b); [|done]. by apply (watching_frame _ _ Hs2).
Qed.

(** C3: against a remote host the TUI is a viewer.  Whatever the user types,
    clicks or runs from the palette, whatever snapshots arrive and whichever
    engines are attached, a session started in remote mode never issues a
    system call, never hands an action to a container or cluster engine, and
    never even opens a confirmation dialog. *)
Theorem remote_is_read_only config engine cluster ts :
  cfg_connection_mode config ≠ Local →
  let s := (with_config config) <| container_engine := engine |> <| cluster_engine := cluster |> in
  nothing_done (run_turns describe errno_display score tty_ok ts s).
Proof.
  intros Hmode s. set (s' := run_turns _ _ _ _ _ s).
  assert (watching s) as Hs.
  { split_and!; try done.
    - unfold is_remote, s, with_config. simpl. by destruct (cfg_connection_mode config).
    - apply initial_palette. }
  assert (watching s') as (_ & H1 & H2 & H3 & _); [|done].
  unfold s'. clearbody s. clear s'. revert s Hs.
  induction ts as [|t ts IH]; intros s Hs; [done|]. simpl.
  destruct (running s); [|done]. by apply IH, watching_turn.
Qed.
End Remote.

(** ** Nothing happens without its dialog *)

(** What the dialog [a] asks permission for, in a state where the kernel has seen
    the calls [tr]: the signal to that one process; its nice value, read and
    moved by the step asked; that action on that container, when there is an
    engine to ask.  A pid that names no process is not acted on. *)
Definition one_process (pid : Z) : bool := (0 <? pid) && (pid <=? i32_max).

Section Asked.
Context {Ko : Os}.

Definition calls_asked (a : ConfirmAction) (tr : list Syscall) : list Syscall :=
  match a with
  | ConfirmKill pid _ signal => if one_process pid then [SysKill pid (as_libc signal)] else []
  | ConfirmRenice pid _ delta =>
      if one_process pid then
        let read := SysGetPriority PRIO_PROCESS pid in
        let '(ret, errno) := os_call tr read in
        [read; SysSetPriority PRIO_PROCESS pid ((if errno =? 0 then ret else 0) + delta)]
      else []
  | _ => []
  end.

Definition tasks_asked (a : ConfirmAction) (engine : bool) : list Task :=
  match a with
  | ConfirmKill _ _ _ | ConfirmRenice _ _ _ => []
  | _ => if engine then [ContainerTask a] else []
  end.

(** The effects of a confirmed dialog, exactly; it is closed. *)
Definition carried_out (a : ConfirmAction) (s s' : AppState) : Prop :=
  confirm s' = None ∧ syscalls s' = syscalls s ++ calls_asked a (syscalls s) ∧
  tasks s' = tasks s ++ tasks_asked a (container_engine s).
End Asked.

(** The keys that answer yes. *)
Definition says_yes (k : KeyCode) : bool :=
  match k with KChar 121 | KChar 89 | KEnter => true | _ => false end.

(** No effect between two states, but for a change of the namespace scope. *)
Definition quiet (s s' : AppState) : Prop :=
  syscalls s' = syscalls s ∧ (tasks s' = tasks s ∨ tasks s' = tasks s ++ [ScopeTask]).

(** No effect at all. *)
Definition untouched (s s' : AppState) : Prop := syscalls s' = syscalls s ∧ tasks s' = tasks s.

Lemma quiet_same s s' : outside s' = outside s → quiet s s'.
Proof. intros [= E1 E2 _ _ _]. split; [done|by left]. Qed.

Lemma quiet_after s0 s s' :
  outside s = outside s0 → quiet s s' → quiet s0 s'.
Proof. intros [= E1 E2 _ _ _]. unfold quiet. by rewrite E1, E2. Qed.

Lemma quiet_before s s' s1 :
  outside s1 = outside s' → quiet s s' → quiet s s1.
Proof. intros [= E1 E2 _ _ _]. unfold quiet. by rewrite E1, E2. Qed.

Section Confirmed.
Context {Uc : Unicode} {Us : UnstableSort} {Ko : Os}.
Variable describe : Syscall → str.
Variable errno_display : Z → str.
Variable score : str → str → option Z.
Variable tty_ok : bool.
Implicit Types s : AppState.

Lemma quiet_prompt o s : quiet s (open_prompt score o s).
Proof. split; [done|by left]. Qed.

Lemma quiet_kill sg s : quiet s (request_kill sg s).
Proof. unfold request_kill. destruct (selected_process s); (split; [done|by left]). Qed.

Lemma quiet_renice d s : quiet s (request_renice d s).
Proof. unfold request_renice. destruct (selected_process s); (split; [done|by left]). Qed.

Lemma quiet_container b s : quiet s (request_container_action b s).
Proof.
  unfold request_container_action.
  destruct (is_remote s); [|destruct (selected_container s)]; (split; [done|by left]).
Qed.

Lemma quiet_scope s : quiet s (toggle_kube_scope s).
Proof.
  unfold toggle_kube_scope. destruct (cluster_engine s); [|by apply quiet_same].
  split; [done|by right].
Qed.

(** The handlers a goal [quiet s (handler s)] may be about, by their heads:
    unification alone would unfold them. *)
Ltac quiet_step :=
  lazymatch goal with
  | |- quiet _ (open_palette _ _) => apply quiet_prompt
  | |- quiet _ (open_command_line _ _) => apply quiet_prompt
  | |- quiet _ (request_kill _ _) => apply quiet_kill
  | |- quiet _ (request_renice _ _) => apply quiet_renice
  | |- quiet _ (request_container_stop _) => apply quiet_container
  | |- quiet _ (request_container_kill _) => apply quiet_container
  | |- quiet _ (request_container_restart _) => apply quiet_container
  | |- quiet _ (toggle_kube_scope _) =>
      eapply quiet_after; [|apply quiet_scope]; autorewrite with frame; reflexivity
  | |- quiet _ (if bool_decide _ then _ else _) =>
      case_bool_decide; apply quiet_same; autorewrite with frame; reflexivity
  | |- _ => apply quiet_same; autorewrite with frame; reflexivity
  end.

Lemma quiet_dispatch a s : quiet s (dispatch score tty_ok a s).
Proof.
  unfold dispatch. case_match; [apply quiet_same; reflexivity|]. destruct a; quiet_step.
Qed.

Lemma quiet_execute_command c s : quiet s (execute_command score tty_ok c s).
Proof.
  unfold execute_command. case_match; [apply quiet_same; reflexivity|].
  destruct c; unfold set_process_sort, set_container_sort, kube_command;
    lazymatch goal with
    | |- quiet _ (dispatch _ _ _ _) =>
        eapply quiet_after; [|apply quiet_dispatch]; autorewrite with frame; reflexivity
    | |- _ => quiet_step
    end.
Qed.

Lemma quiet_kill_named n s : quiet s (kill_named n s).
Proof.
  unfold kill_named. destruct (List.filter _ _) as [|p l]; [by apply quiet_same|].
  case_bool_decide; (split; [done|by left]).
Qed.

Lemma quiet_container_named n b s : quiet s (container_named n b s).
Proof.
  unfold container_named. destruct (is_remote s); [by apply quiet_same|].
  destruct (find _ _); (split; [done|by left]).
Qed.

Lemma quiet_invocation c a s : quiet s (execute_invocation score tty_ok c a s).
Proof.
  destruct a as [a|]; destruct c; cbn [execute_invocation];
    lazymatch goal with
    | |- quiet _ (kill_named _ _) => apply quiet_kill_named
    | |- quiet _ (container_named _ _ _) => apply quiet_container_named
    | |- quiet _ (if is_verb_only _ then _ else _) =>
        case_match; [apply quiet_same; reflexivity|apply quiet_execute_command]
    | |- _ => quiet_step
    end.
Qed.

Lemma quiet_palette_enter s : quiet s (palette_enter score tty_ok s).
Proof.
  unfold palette_enter. destruct (filtered (palette s) !! _) as [[cmd sc]|]; [|by apply quiet_same].
  eapply quiet_after; [|apply quiet_invocation]. reflexivity.
Qed.

Lemma quiet_refilter s s' : syscalls s' = syscalls s → tasks s' = tasks s →
  quiet s (refilter_palette score s').
Proof. intros E1 E2. split; [exact E1|left; exact E2]. Qed.

Lemma quiet_palette_key k s : quiet s (handle_palette_key score tty_ok k s).
Proof.
  unfold handle_palette_key. eapply quiet_before; [apply outside_mark_dirty|].
  destruct (key_code k);
    first [ apply quiet_palette_enter | by apply quiet_refilter | by apply quiet_same | idtac ].
  destruct (control (modifiers k)).
  - case_match; by apply quiet_same.
  - case_bool_decide; [by apply quiet_refilter|by apply quiet_same].
Qed.

Lemma quiet_actions_key k s : quiet s (handle_actions_key score tty_ok k s).
Proof.
  unfold handle_actions_key. eapply quiet_before; [apply outside_mark_dirty|].
  repeat case_match; try (apply quiet_same; reflexivity).
  eapply quiet_after; [|apply quiet_dispatch]. reflexivity.
Qed.

Lemma validate_one_process pid :
  validate_pid pid = if one_process pid then Ok pid else Err (ProcessNotFound pid).
Proof.
  unfold validate_pid, one_process.
  destruct (Z.leb_spec pid i32_max), (Z.ltb_spec 0 pid), (Z.leb_spec pid 0); simpl; try done; lia.
Qed.

Lemma kill_calls pid sg tr :
  (kill_process describe pid sg tr).2 = tr ++ (if one_process pid then [SysKill pid (as_libc sg)] else []).
Proof.
  unfold kill_process. rewrite validate_one_process. destruct (one_process pid); [|by rewrite app_nil_r].
  destruct (os_call _ _) as [ret errno]. by destruct (ret =? 0).
Qed.

Lemma get_priority_calls pid tr :
  get_process_priority describe pid tr
  = if one_process pid then
      let call := SysGetPriority PRIO_PROCESS pid in
      let '(ret, errno) := os_call tr call in
      (if errno =? 0 then Ok ret else Err (map_errno describe pid errno call), tr ++ [call])
    else (Err (ProcessNotFound pid), tr).
Proof.
  unfold get_process_priority. rewrite validate_one_process. destruct (one_process pid); [|done]. cbv zeta.
  destruct (os_call _ _) as [ret errno]. by destruct (errno =? 0).
Qed.

Lemma renice_calls pid n tr :
  (renice_process describe pid n tr).2
  = tr ++ (if one_process pid then [SysSetPriority PRIO_PROCESS pid n] else []).
Proof.
  unfold renice_process. rewrite validate_one_process. destruct (one_process pid); [|by rewrite app_nil_r].
  destruct (os_call _ _) as [ret errno]. by destruct (ret =? 0), (errno =? 0).
Qed.

(** [execute_confirm] does what was asked, all of it and once. *)
Lemma execute_confirm_exact a s :
  let s' := execute_confirm describe errno_display a s in
  confirm s' = confirm s ∧ syscalls s' = syscalls s ++ calls_asked a (syscalls s) ∧
  tasks s' = tasks s ++ tasks_asked a (container_engine s).
Proof.
  destruct a as [pid nm sg|pid nm d|id nm|id nm|id nm]; unfold execute_confirm, execute_container_action;
    try (destruct (container_engine s); simpl; by rewrite ?app_nil_r).
  - pose proof (kill_calls pid sg (syscalls s)) as E.
    destruct (kill_process _ _ _ _) as [res tr]. simpl in E |- *. rewrite <-E, app_nil_r.
    by destruct res.
  - rewrite get_priority_calls. simpl. rewrite app_nil_r.
    destruct (one_process pid) eqn:Ep.
    + destruct (os_call _ _) as [ret errno].
      set (cur := if errno =? 0 then Ok ret else _).
      assert (unwrap_or cur 0 = if errno =? 0 then ret else 0) as <- by (unfold cur; by destruct (errno =? 0)).
      pose proof (renice_calls pid (unwrap_or cur 0 + d) (syscalls s ++ [SysGetPriority PRIO_PROCESS pid])) as E.
      rewrite Ep, <-app_assoc in E. destruct (renice_process _ _ _ _) as [res tr]. simpl in E. subst tr.
      by destruct res.
    + pose proof (renice_calls pid (0 + d) (syscalls s)) as E. rewrite Ep in E.
      simpl unwrap_or. destruct (renice_process _ _ _ _) as [res tr]. simpl in E. subst tr. by destruct res.
Qed.

Lemma carried_out_outside a s0 s s' s1 :
  outside s0 = outside s → container_engine s0 = container_engine s → outside s' = outside s1 →
  carried_out a s s' → carried_out a s0 s1.
Proof.
  intros [= E1 E2 _ _ _] E3 [= F1 F2 _ F4 _]. unfold carried_out. by rewrite E1, E2, E3, F1, F2, F4.
Qed.

(** A key, with a dialog open and without. *)
Lemma answered_key a k s :
  confirm s = Some a →
  let s' := handle_key_event describe errno_display score tty_ok k s in
  if says_yes (key_code k) then carried_out a s s' else untouched s s'.
Proof.
  intros Ha. unfold handle_key_event, is_key. cbn zeta. set (s0 := s <| notifier ::= _ |>).
  assert (confirm s0 = Some a) as Ha0 by exact Ha. rewrite Ha0.
  assert (outside s = outside s0 ∧ container_engine s = container_engine s0) as [Ho He] by done.
  clearbody s0. rewrite (bool_decide_eq_true_2 (is_Some (Some a))) by eauto.
  case_bool_decide as Hc; simpl.
  - rewrite Hc. simpl. injection Ho as E1 E2 _ _ _. unfold untouched. rewrite E1, E2.
    destruct (control (modifiers k)); [done|]. unfold handle_confirm_key. by rewrite Hc.
  - unfold handle_confirm_key. rewrite Ha0. destruct (says_yes (key_code k)) eqn:Ey.
    + assert (match key_code k with
              | KChar 121 | KChar 89 | KEnter => execute_confirm describe errno_display a (s0 <| confirm := None |>)
              | KChar 110 | KChar 78 | KEsc => s0 <| confirm := None |>
              | _ => s0
              end = execute_confirm describe errno_display a (s0 <| confirm := None |>)) as ->
        by (unfold says_yes in Ey; repeat case_match; congruence).
      eapply carried_out_outside; [exact Ho|exact He|symmetry; apply outside_mark_dirty|].
      exact (execute_confirm_exact a (s0 <| confirm := None |>)).
    + injection Ho as E1 E2 _ _ _. unfold untouched. rewrite E1, E2.
      unfold says_yes in Ey. repeat case_match; try congruence; done.
Qed.

Lemma quiet_key k s :
  confirm s = None → quiet s (handle_key_event describe errno_display score tty_ok k s).
Proof.
  intros Hn. unfold handle_key_event. set (s0 := s <| notifier ::= _ |>).
  assert (outside s0 = outside s) as Ho by done. assert (confirm s0 = None) as Hn0 by exact Hn.
  eapply quiet_after; [exact Ho|]. clearbody s0. clear s Ho Hn. rename s0 into s.
  case_match; [by apply quiet_same|]. rewrite Hn0, bool_decide_eq_false_2 by (by intros []).
  destruct (overlay s); try apply quiet_palette_key; try apply quiet_actions_key;
    try (apply quiet_same; by autorewrite with frame).
  destruct (filter_editing s); [apply quiet_same; by autorewrite with frame|].
  eapply quiet_before; [apply outside_mark_dirty|].
  destruct (resolve _ _ _); [apply quiet_dispatch|by apply quiet_same].
Qed.

(** The state in which [turn] handles its event. *)
Lemma outside_before_event t s :
  outside (take_needs_redraw (pump_action_results
    (foldl (λ self r, task_done r.1 r.2 self) (s <| clock := at_time t |>) (reports t)))).2
  = outside s.
Proof.
  change (outside (pump_action_results
    (foldl (λ self r, task_done r.1 r.2 self) (s <| clock := at_time t |>) (reports t))) = outside s).
  by rewrite outside_pump, outside_reports.
Qed.

Lemma engine_before_event t s :
  container_engine (take_needs_redraw (pump_action_results
    (foldl (λ self r, task_done r.1 r.2 self) (s <| clock := at_time t |>) (reports t)))).2
  = container_engine s.
Proof.
  assert (∀ (l : list (Task * outcome)) s0,
    container_engine (foldl (λ self r, task_done r.1 r.2 self) s0 l) = container_engine s0) as Hr.
  { intros l. induction l as [|r l IH]; intros s0; [done|]. cbn [foldl]. rewrite IH. unfold task_done.
    by destruct (shutdown_token s0), (task_message r.1 r.2). }
  assert (∀ (l : list (Level * str)) s0,
    container_engine (foldl (λ self m, notify m.1 m.2 self) s0 l) = container_engine s0) as Hn.
  { intros l. induction l as [|m l IH]; intros s0; [done|]. cbn [foldl]. by rewrite IH. }
  pose proof (Hr (reports t) (s <| clock := at_time t |>)) as Hs. set (s1 := foldl _ _ _) in *.
  unfold pump_action_results, take_needs_redraw. clearbody s1.
  pose proof (Hn (action_rx s1) (s1 <| action_rx := [] |>)) as Hp.
  change (container_engine (s1 <| action_rx := [] |>)) with (container_engine s1) in Hp.
  transitivity (container_engine s1); [|exact Hs]. case_bool_decide; exact Hp.
Qed.

Lemma outside_drawn (b : bool) s : outside (if b then tick_frame s else s) = outside s.
Proof. by destruct b. Qed.


(** Ctrl+C leaves the program from anywhere: with a dialog, an overlay, the
    palette or a filter open, the turn that receives it ends the loop, cancels
    the futures still running, and does nothing to the outside. *)
Theorem ctrl_c_quits t ts key s :
  event t = Key key → key_code key = KChar 99 → control (modifiers key) = true →
  running s = true →
  let s' := run_turns describe errno_display score tty_ok (t :: ts) s in
  running s' = false ∧ shutdown_token s' = true ∧ outside s' = outside s.
Proof.
  intros Ee Ek Em Hrun. cbn [run_turns]. rewrite Hrun.
  assert (∀ s1, running s1 = false → run_turns describe errno_display score tty_ok ts s1 = s1)
    as Hstop by (intros s1 H1; destruct ts; simpl; by rewrite ?H1).
  assert (let s2 := (turn describe errno_display score tty_ok t s).2 in
          running s2 = false ∧ shutdown_token s2 = true ∧ outside s2 = outside s) as (H1 & H2 & H3).
  { unfold turn. pose proof (outside_before_event t s) as Ho.
    destruct (take_needs_redraw _) as [draw s1]. simpl in Ho. rewrite Ee. cbn [handle_event].
    unfold handle_key_event, is_key. rewrite Ek, Em. rewrite bool_decide_eq_true_2 by done.
    simpl. rewrite orb_true_r. split_and!; [done|done|]. exact Ho. }
  rewrite Hstop by done. done.
Qed.
End Confirmed.

(** ** Witnesses *)

#[local] Existing Instances ascii_tables insertion_unstable os_without_42.

Definition demo_key (c : Z) (ctrl : bool) : CrosstermEvent :=
  TermKey (mkKey (KChar c) (if ctrl then CTRL else NONE)).

Definition demo_turns (es : list CrosstermEvent) : list Turn :=
  (λ e, mkTurn 0 [] [] (Some e)) <$> es.

Definition demo_remote : CliConfig :=
  mkCliConfig None Cpu false (Remote (lit "box") (lit "10.0.0.1:4242")) TokyoNight.

(** [2] opens the process tab, then [k], [9], [:] and Enter try to act. *)
Definition demo_attempt : list Turn :=
  demo_turns [demo_key 50 false; demo_key 107 false; demo_key 57 false; demo_key 58 false;
              TermKey (mkKey KEnter NONE)].

Lemma remote_is_read_only_witness :
  cfg_connection_mode demo_remote ≠ Local ∧
  nothing_done (run_turns (λ _, []) (λ _, []) (λ _ _, None) true demo_attempt
    ((with_config demo_remote) <| container_engine := true |> <| cluster_engine := true |>)).
Proof.
  split; [discriminate|].
  apply (remote_is_read_only (λ _, []) (λ _, []) (λ _ _, None) true demo_remote true true demo_attempt).
  discriminate.
Defined.

Lemma ctrl_c_quits_witness :
  let s := (with_config demo_remote) <| confirm := Some (StopContainer (lit "id") (lit "web")) |> in
  let s' := run_turns (λ _, []) (λ _, []) (λ _ _, None) true
              (demo_turns [demo_key 99 true; demo_key 121 false]) s in
  running s' = false ∧ shutdown_token s' = true ∧ outside s' = outside s.
Proof.
  apply (ctrl_c_quits (λ _, []) (λ _, []) (λ _ _, None) true (mkTurn 0 [] [] (Some (demo_key 99 true)))
           (demo_turns [demo_key 121 false]) (mkKey (KChar 99) CTRL)); reflexivity.
Defined.
