(* ===== verification/AppViews.v ===== *)
(** * The application keeps its derived state in step

    An invariant of App.v over whole sessions: the cached views are the views
    of the current snapshot, filter and order, the process cursor points at a
    row, and the container histories stay within their bound. *)

From S2P Require Import Prelude Str RsFloat Actions Clipboard Process Network Gpu Snapshots.
From S2P Require Import Keymap Ui KubeView Palette App.
Local Open Scope Z_scope.
Local Open Scope record_scope.

Section Views.
Context {Uc : Unicode} {Us : UnstableSort} {Ko : Os}.
Variable describe : Syscall → str.
Variable errno_display : Z → str.
Variable score : str → str → option Z.
Variable tty_ok : bool.
Implicit Types s : AppState.

(** ** The invariant *)

Definition kube_ok s : Prop := kube_view_cache s = kube_view s.
Definition ctr_ok s : Prop := sorted_filtered_containers_cache s = containers_view s.

(** The process cursor, and where its viewport starts. *)
Definition cursor_ok s : Prop :=
  (last_snapshot s = None → visible_processes s = [] ∧ visible_tree s = []) ∧
  (selected s < max 1 (process_count s))%nat ∧
  (scroll_offset s < max 1 (process_count s))%nat.

Definition ring_ok {A} (m : gmap str (list A)) : Prop :=
  map_Forall (λ _ ring, (length ring ≤ CONTAINER_HISTORY_LEN)%nat) m.

Definition rings_ok s : Prop :=
  ring_ok (container_cpu_hist s) ∧ ring_ok (container_rx_hist s) ∧
  dom (container_cpu_hist s) =@{gset str} dom (container_rx_hist s) ∧
  dom (container_rx_last s) =@{gset str} dom (container_rx_hist s).

Definition coherent s : Prop := kube_ok s ∧ ctr_ok s ∧ cursor_ok s ∧ rings_ok s.

(** ** Recomputing the views *)

Lemma kube_visible s : kube_ok s → kube_ok (recompute_visible s).
Proof. unfold recompute_visible. destruct (last_snapshot s); [|done]. by case_bool_decide. Qed.

Lemma ctr_visible s : ctr_ok s → ctr_ok (recompute_visible s).
Proof. unfold recompute_visible. destruct (last_snapshot s); [|done]. by case_bool_decide. Qed.

Lemma rings_visible s : rings_ok s → rings_ok (recompute_visible s).
Proof. unfold recompute_visible. destruct (last_snapshot s); [|done]. by case_bool_decide. Qed.

Lemma cursor_clamped s :
  (last_snapshot s = None → visible_processes s = [] ∧ visible_tree s = []) →
  let count := process_count s in
  cursor_ok (if bool_decide (0 < count)%nat
             then s <| selected := min (selected s) (count - 1) |>
                    <| scroll_offset := min (scroll_offset s) (count - 1) |>
             else s <| selected := 0%nat |> <| scroll_offset := 0%nat |>).
Proof.
  intros Hnone count. case_bool_decide; (split; [exact Hnone|]); simpl.
  - change (min (selected s) (count - 1) < max 1 count ∧
            min (scroll_offset s) (count - 1) < max 1 count)%nat. lia.
  - change (0 < max 1 count ∧ 0 < max 1 count)%nat. lia.
Qed.

Lemma cursor_visible s :
  (last_snapshot s = None → selected s = 0 ∧ scroll_offset s = 0)%nat →
  cursor_ok (recompute_visible s).
Proof.
  intros Hnone. unfold recompute_visible. destruct (last_snapshot s) as [snap|] eqn:E.
  - set (s1 := s <| visible_tree := _ |> <| visible_processes := _ |>).
    apply (cursor_clamped s1). intros H. change (last_snapshot s = None) in H. congruence.
  - destruct Hnone as [H1 H2]; [done|].
    assert (process_count (s <| visible_processes := [] |> <| visible_tree := [] |>) = 0%nat) as Hc
      by (unfold process_count; simpl; by destruct (tree_mode s)).
    split; [done|]. rewrite Hc. change (selected s < 1 ∧ scroll_offset s < 1)%nat. lia.
Qed.

Lemma cursor_none s :
  cursor_ok s → (last_snapshot s = None → selected s = 0 ∧ scroll_offset s = 0)%nat.
Proof.
  intros (Hn & H1 & H2) [Hp Ht]%Hn. unfold process_count in *. rewrite Hp, Ht in *.
  destruct (tree_mode s); simpl in *; lia.
Qed.

Lemma coherent_visible s :
  kube_ok s → ctr_ok s → rings_ok s →
  (last_snapshot s = None → selected s = 0 ∧ scroll_offset s = 0)%nat →
  coherent (recompute_visible s).
Proof.
  intros. split_and!; [by apply kube_visible|by apply ctr_visible|by apply cursor_visible
                      |by apply rings_visible].
Qed.

Lemma coherent_containers_view s :
  kube_ok s → cursor_ok s → rings_ok s → coherent (recompute_containers_view s).
Proof. intros. by split_and!. Qed.

Lemma coherent_kube_view s :
  ctr_ok s → cursor_ok s → rings_ok s → coherent (recompute_kube_view s).
Proof. intros. by split_and!. Qed.

(** ** Moving the cursor *)

Lemma coherent_set_selected n s :
  (n < max 1 (item_count s))%nat → coherent s → coherent (set_selected n s).
Proof.
  intros Hn (H1 & H2 & (H3 & H4 & H5) & H6). unfold set_selected, item_count in *.
  destruct (tab s); refine (conj H1 (conj H2 (conj (conj H3 (conj _ _)) H6))); assumption.
Qed.

Lemma coherent_set_offset n s :
  (n < max 1 (item_count s))%nat → coherent s → coherent (set_offset n s).
Proof.
  intros Hn (H1 & H2 & (H3 & H4 & H5) & H6). unfold set_offset, item_count in *.
  destruct (tab s); refine (conj H1 (conj H2 (conj (conj H3 (conj _ _)) H6))); assumption.
Qed.

Lemma item_count_set_offset n s : item_count (set_offset n s) = item_count s.
Proof. unfold set_offset, item_count. destruct (tab s) eqn:E; simpl; rewrite E; done. Qed.

Lemma item_count_set_selected n s : item_count (set_selected n s) = item_count s.
Proof. unfold set_selected, item_count. destruct (tab s) eqn:E; simpl; rewrite E; done. Qed.

Lemma coherent_move d s : coherent s → coherent (move_selection d s).
Proof.
  intros Hs. unfold move_selection. case_bool_decide; [done|].
  apply coherent_set_selected; [lia|done].
Qed.

Lemma coherent_index i s : coherent s → coherent (select_index i s).
Proof.
  intros Hs. unfold select_index. case_bool_decide; [done|].
  apply coherent_set_selected; [lia|done].
Qed.

Lemma coherent_scroll d s : coherent s → coherent (scroll_rows d s).
Proof.
  intros Hs. unfold scroll_rows. case_bool_decide; [done|].
  apply coherent_set_selected; [rewrite item_count_set_offset; lia|].
  apply coherent_set_offset; [lia|done].
Qed.

(** ** Filters, sorting, tabs *)

(** Every filter text but one tab's is kept, and so are the other tabs'
    views; that tab's view is recomputed at once. *)
Lemma coherent_debounced s :
  coherent s → kube_ok s → ctr_ok s → coherent (recompute_visible_debounced s).
Proof.
  intros (_ & _ & Hc & Hr) Hk Ht. unfold recompute_visible_debounced.
  case_match; [|by split_and!]. apply coherent_visible; try done. exact (cursor_none _ Hc).
Qed.

Lemma coherent_after_filter b s s0 :
  coherent s0 → (∃ f, s = update_filter_text f s0) ∨ s = s0 →
  coherent (after_filter_change b s).
Proof.
  intros Hs0 Hs.
  assert (tab s = tab s0 ∧ cursor_ok s ∧ rings_ok s ∧ (tab s ≠ Tab.Kube → kube_ok s) ∧
          (tab s ≠ Tab.Containers → ctr_ok s)) as (_ & Hc & Hr & Hk & Ht).
  { destruct Hs0 as (H1 & H2 & H3 & H4), Hs as [[f ->]| ->]; [|by split_and!; auto].
    unfold update_filter_text. destruct (tab s0) eqn:E; simpl; rewrite ?E;
      (refine (conj eq_refl (conj H3 (conj H4 (conj _ _)))); intros Hne;
       first [exact H1|exact H2|by destruct Hne]). }
  unfold after_filter_change.
  set (s1 := match tab s with Tab.Containers => _ | _ => _ end).
  assert (coherent s1) as Hs1.
  { unfold s1. destruct (tab s) eqn:E;
      try (apply coherent_containers_view || apply coherent_kube_view; auto; done);
      try (split_and!; auto; done);
      (destruct b; [apply coherent_visible; auto; exact (cursor_none _ Hc)|];
       apply coherent_debounced; [split_and!|..]; auto). }
  clearbody s1. unfold clamp_selection.
  assert (0 < max 1 (item_count s1))%nat by lia.
  eapply (coherent_set_offset 0).
  - by rewrite item_count_set_selected.
  - apply coherent_set_selected; [|done]. case_bool_decide; lia.
Qed.

Lemma coherent_clear_filter s : coherent s → coherent (clear_filter s).
Proof. intros Hs. eapply coherent_after_filter; [exact Hs|left; by eexists]. Qed.

Lemma coherent_set_filter t s : coherent s → coherent (set_filter t s).
Proof. intros Hs. eapply coherent_after_filter; [exact Hs|left; by eexists]. Qed.

Lemma coherent_sort_field f s : coherent s → coherent (recompute_visible (s <| sort_field ::= f |>)).
Proof.
  intros (H1 & H2 & H3 & H4). apply coherent_visible; try done. exact (cursor_none _ H3).
Qed.

Lemma coherent_cycle_sort s : coherent s → coherent (cycle_sort s).
Proof.
  intros Hs. pose proof Hs as (H1 & H2 & H3 & H4). unfold cycle_sort.
  destruct (tab s); first [exact Hs|by apply coherent_containers_view|by apply coherent_kube_view
                          |by apply coherent_sort_field].
Qed.

Lemma coherent_reverse_sort s : coherent s → coherent (reverse_sort s).
Proof.
  intros Hs. pose proof Hs as (H1 & H2 & H3 & H4). unfold reverse_sort.
  destruct (tab s);
    first [exact Hs|by apply coherent_containers_view|by apply coherent_kube_view
          |apply coherent_visible; try done; exact (cursor_none _ H3)].
Qed.

Lemma coherent_container_sort f s : coherent s → coherent (set_container_sort f s).
Proof. intros (H1 & H2 & H3 & H4). by apply coherent_containers_view. Qed.

Lemma coherent_sort_by_name f s : coherent s → coherent (sort_by_name f s).
Proof.
  intros Hs. unfold sort_by_name.
  destruct (tab s);
    [destruct (process_field_named _) as [g|]; [exact (coherent_sort_field (λ _, g) s Hs)|exact Hs]..
    |destruct (net_field_named _); exact Hs
    |destruct (container_field_named _) as [g|]; [exact (coherent_container_sort g s Hs)|exact Hs]
    |exact Hs
    |destruct (process_field_named _) as [g|]; [exact (coherent_sort_field (λ _, g) s Hs)|exact Hs]].
Qed.

Lemma coherent_toggle_tree s :
  coherent s →
  coherent (recompute_visible (s <| tree_mode ::= negb |> <| selected := 0%nat |>
                                 <| scroll_offset := 0%nat |>)).
Proof. intros (H1 & H2 & H3 & H4). by apply coherent_visible. Qed.

Lemma coherent_switch_kube sv s : coherent s → coherent (switch_kube_subview sv s).
Proof. intros (H1 & H2 & H3 & H4). by apply coherent_kube_view. Qed.

Lemma coherent_go_to_tab t s : coherent s → coherent (go_to_tab t s).
Proof. intros Hs. unfold go_to_tab. by case_bool_decide. Qed.

Lemma coherent_cycle_subview d s : coherent s → coherent (cycle_subview d s).
Proof.
  intros Hs. unfold cycle_subview. destruct (tab s); try exact Hs. by apply coherent_switch_kube.
Qed.

Lemma coherent_go_back s : coherent s → coherent (go_back s).
Proof.
  intros Hs. unfold go_back, set_filter_editing.
  repeat case_match; first [exact Hs|by apply coherent_clear_filter].
Qed.

(** ** Snapshots *)

Lemma ring_push_bounded {A} (x : A) ring :
  (length ring ≤ CONTAINER_HISTORY_LEN)%nat → (length (ring_push x ring) ≤ CONTAINER_HISTORY_LEN)%nat.
Proof.
  unfold ring_push, CONTAINER_HISTORY_LEN. rewrite length_app. intros H.
  case_bool_decide; [|simpl; lia].
  destruct ring; simpl in *; lia.
Qed.

Lemma ring_ok_push {A} (id : str) (x : A) (m : gmap str (list A)) :
  ring_ok m → ring_ok (<[id := ring_push x (default [] (m !! id))]> m).
Proof.
  intros Hm. apply map_Forall_insert_2; [|done]. apply ring_push_bounded.
  destruct (m !! id) as [r|] eqn:E; [exact (Hm _ _ E)|simpl; unfold CONTAINER_HISTORY_LEN; lia].
Qed.

Lemma rings_record s c : rings_ok s → rings_ok (record_container s c).
Proof.
  intros (H1 & H2 & H3 & H4). split_and!.
  - exact (ring_ok_push _ _ _ H1).
  - exact (ring_ok_push _ _ _ H2).
  - simpl. by rewrite !dom_insert_L, H3.
  - simpl. by rewrite !dom_insert_L, H4.
Qed.

Lemma ring_ok_drop {A : Type} (seen : gset str) (m : gmap str (list A)) : ring_ok m → ring_ok (drop_missing seen m).
Proof. intros Hm i r [Hi _]%map_lookup_filter_Some. exact (Hm _ _ Hi). Qed.

Lemma dom_drop {A : Type} (seen : gset str) (m : gmap str A) : dom (drop_missing seen m) = dom m ∩ seen.
Proof.
  apply set_eq. intros i. rewrite elem_of_dom, elem_of_intersection, elem_of_dom.
  unfold drop_missing, is_Some. setoid_rewrite map_lookup_filter_Some. naive_solver.
Qed.

Lemma rings_push_history cs s : rings_ok s → rings_ok (push_container_history cs s).
Proof.
  intros Hs.
  assert (rings_ok (foldl record_container s (containers cs))) as (H1 & H2 & H3 & H4).
  { revert s Hs. induction (containers cs) as [|c l IH]; intros s Hs; [done|].
    simpl. by apply IH, rings_record. }
  split_and!.
  - exact (ring_ok_drop _ _ H1).
  - exact (ring_ok_drop _ _ H2).
  - simpl. by rewrite !dom_drop, H3.
  - simpl. by rewrite !dom_drop, H4.
Qed.

Lemma cursor_new_snapshot snap s :
  cursor_ok (recompute_visible (s <| last_snapshot := Some snap |>)).
Proof. apply cursor_visible. intros H. change (Some snap = None) in H. discriminate H. Qed.

Lemma coherent_new_snapshot s :
  cursor_ok s → rings_ok s →
  coherent (mark_dirty (recompute_kube_view (recompute_containers_view s))).
Proof. intros H1 H2. exact (conj eq_refl (conj eq_refl (conj H1 H2))). Qed.

Lemma rings_last_snapshot v s : rings_ok s → rings_ok (s <| last_snapshot := v |>).
Proof. done. Qed.

Lemma coherent_apply_snapshot snap s : coherent s → coherent (apply_snapshot snap s).
Proof.
  intros Hs. pose proof Hs as (_ & _ & _ & H4). unfold apply_snapshot.
  destruct (paused s); [done|].
  set (s1 := s <| network_history ::= _ |>).
  assert (rings_ok s1) as H1 by exact H4. clearbody s1.
  apply coherent_new_snapshot; [apply cursor_new_snapshot|]. apply rings_visible.
  apply rings_last_snapshot.
  destruct (sys_containers snap) as [cs|]; [by apply rings_push_history|exact H1].
Qed.

(** ** Handlers *)

Lemma coherent_copy s : coherent s → coherent (copy_selection tty_ok s).
Proof.
  intros Hs. unfold copy_selection. destruct (selected_identifier s); [|exact Hs].
  destruct (copy_sequence _), (copy tty_ok _), tty_ok; exact Hs.
Qed.

Lemma coherent_request_container b s : coherent s → coherent (request_container_action b s).
Proof.
  intros Hs. unfold request_container_action.
  destruct (is_remote s); [|destruct (selected_container s)]; exact Hs.
Qed.

Lemma coherent_select_process s (f : ProcessInfo → AppState) (s' : AppState) :
  (∀ p, coherent (f p)) → coherent s' →
  coherent (match selected_process s with Some p => f p | None => s' end).
Proof. by destruct (selected_process s). Qed.

Lemma coherent_scope s : coherent s → coherent (toggle_kube_scope s).
Proof. intros Hs. unfold toggle_kube_scope. destruct (cluster_engine s); exact Hs. Qed.

Lemma coherent_filter_editing b s : coherent s → coherent (set_filter_editing b s).
Proof. intros Hs. unfold set_filter_editing. destruct (tab s); exact Hs. Qed.

Lemma coherent_refresh s : coherent s → coherent (refresh s).
Proof. intros Hs. unfold refresh. destruct (paused s); exact Hs. Qed.

Lemma coherent_dispatch a s : coherent s → coherent (dispatch score tty_ok a s).
Proof.
  intros Hs. unfold dispatch. case_match; [exact Hs|].
  destruct a;
    lazymatch goal with
    | |- coherent (go_to_tab _ _) => by apply coherent_go_to_tab
    | |- coherent (refresh _) => by apply coherent_refresh
    | |- coherent (cycle_subview _ _) => by apply coherent_cycle_subview
    | |- coherent (move_selection _ _) => by apply coherent_move
    | |- coherent (select_index _ _) => by apply coherent_index
    | |- coherent (copy_selection _ _) => by apply coherent_copy
    | |- coherent (set_filter_editing _ _) => by apply coherent_filter_editing
    | |- coherent (go_back _) => by apply coherent_go_back
    | |- coherent (cycle_sort _) => by apply coherent_cycle_sort
    | |- coherent (reverse_sort _) => by apply coherent_reverse_sort
    | |- coherent (recompute_visible _) => by apply coherent_toggle_tree
    | |- coherent (request_kill _ _) => by apply coherent_select_process
    | |- coherent (request_renice _ _) => by apply coherent_select_process
    | |- coherent (request_container_stop _) => by apply coherent_request_container
    | |- coherent (request_container_kill _) => by apply coherent_request_container
    | |- coherent (request_container_restart _) => by apply coherent_request_container
    | |- coherent (switch_kube_subview _ _) => by apply coherent_switch_kube
    | |- coherent (toggle_kube_scope _) => by apply coherent_scope
    | |- coherent (if bool_decide _ then _ else _) => case_bool_decide; exact Hs
    | |- _ => exact Hs
    end.
Qed.

Lemma coherent_execute_command c s : coherent s → coherent (execute_command score tty_ok c s).
Proof.
  intros Hs. unfold execute_command. case_match; [exact Hs|].
  destruct c; unfold set_process_sort, kube_command;
    lazymatch goal with
    | |- coherent (dispatch _ _ _ (go_to_tab _ _)) => by apply coherent_dispatch, coherent_go_to_tab
    | |- coherent (dispatch _ _ _ _) => by apply coherent_dispatch
    | |- coherent (recompute_visible (s <| sort_field := ?f |>)) =>
        by apply (coherent_sort_field (λ _, f))
    | |- coherent (set_container_sort _ _) => by apply coherent_container_sort
    | |- coherent (reverse_sort _) => by apply coherent_reverse_sort
    | |- coherent (cycle_sort _) => by apply coherent_cycle_sort
    | |- coherent (go_to_tab _ _) => by apply coherent_go_to_tab
    | |- coherent (set_filter_editing _ _) => by apply coherent_filter_editing
    | |- coherent (clear_filter _) => by apply coherent_clear_filter
    | |- coherent (request_kill _ _) => by apply coherent_select_process
    | |- coherent (request_renice _ _) => by apply coherent_select_process
    | |- coherent (request_container_stop _) => by apply coherent_request_container
    | |- coherent (request_container_kill _) => by apply coherent_request_container
    | |- coherent (request_container_restart _) => by apply coherent_request_container
    | |- coherent (copy_selection _ _) => by apply coherent_copy
    | |- coherent (switch_kube_subview _ _) => by apply coherent_switch_kube, coherent_go_to_tab
    | |- coherent (toggle_kube_scope _) => by apply coherent_scope, coherent_go_to_tab
    | |- _ => exact Hs
    end.
Qed.

Lemma coherent_kill_named n s : coherent s → coherent (kill_named n s).
Proof.
  intros Hs. unfold kill_named. destruct (List.filter _ _); [exact Hs|].
  case_bool_decide; exact Hs.
Qed.

Lemma coherent_container_named n b s : coherent s → coherent (container_named n b s).
Proof.
  intros Hs. unfold container_named. destruct (is_remote s); [exact Hs|].
  destruct (find _ _); exact Hs.
Qed.

Lemma coherent_set_theme n s : coherent s → coherent (set_theme n s).
Proof. intros Hs. unfold set_theme. destruct (ThemeKind_from_str n); exact Hs. Qed.

Lemma coherent_go_to_tab_named n s : coherent s → coherent (go_to_tab_named n s).
Proof.
  intros Hs. unfold go_to_tab_named. destruct (find _ _); [|exact Hs]. by apply coherent_go_to_tab.
Qed.

Lemma coherent_invocation c a s : coherent s → coherent (execute_invocation score tty_ok c a s).
Proof.
  intros Hs. destruct a as [a|]; destruct c; cbn [execute_invocation];
    lazymatch goal with
    | |- coherent (if is_verb_only _ then _ else _) =>
        case_match; [exact Hs|by apply coherent_execute_command]
    | |- coherent (kill_named _ _) => by apply coherent_kill_named
    | |- coherent (container_named _ _ _) => by apply coherent_container_named
    | |- coherent (sort_by_name _ _) => by apply coherent_sort_by_name
    | |- coherent (set_filter _ _) => by apply coherent_set_filter
    | |- coherent (set_theme _ _) => by apply coherent_set_theme
    | |- coherent (go_to_tab_named _ _) => by apply coherent_go_to_tab_named
    end.
Qed.

(** ** Keys *)

Lemma coherent_mark_dirty s : coherent s → coherent (mark_dirty s).
Proof. intros Hs. exact Hs. Qed.

Lemma coherent_palette_key k s : coherent s → coherent (handle_palette_key score tty_ok k s).
Proof.
  intros Hs. unfold handle_palette_key. apply coherent_mark_dirty.
  destruct (key_code k);
    lazymatch goal with
    | |- coherent (palette_enter _ _ _) => idtac
    | |- coherent (if _ then _ else _) => repeat case_match; exact Hs
    | |- _ => exact Hs
    end.
  unfold palette_enter. destruct (filtered (palette s) !! _) as [[cmd sc]|]; [|exact Hs].
  set (s1 := close_overlay _). assert (coherent s1) as H1 by exact Hs. clearbody s1.
  exact (coherent_invocation cmd (arg (palette s)) s1 H1).
Qed.

Lemma coherent_filter_key k s : coherent s → coherent (handle_filter_key k s).
Proof.
  intros Hs. unfold handle_filter_key. apply coherent_mark_dirty.
  assert (∀ f b, coherent (after_filter_change b (update_filter_text f s))) as Hf.
  { intros f b. eapply coherent_after_filter; [exact Hs|left; by eexists]. }
  destruct (key_code k);
    lazymatch goal with
    | |- coherent (after_filter_change _ (update_filter_text _ _)) => apply Hf
    | |- coherent (after_filter_change _ (set_filter_editing _ _)) =>
        eapply coherent_after_filter; [exact (coherent_filter_editing false s Hs)|by right]
    | |- coherent (set_filter_editing _ _) => exact (coherent_filter_editing false s Hs)
    | |- coherent (if _ then _ else _) => idtac
    | |- _ => exact Hs
    end.
  destruct (control (modifiers k)); [exact Hs|]. case_bool_decide; [apply Hf|exact Hs].
Qed.

Lemma coherent_scrollable k s : coherent s → coherent (handle_scrollable_overlay_key tty_ok k s).
Proof.
  intros Hs. unfold handle_scrollable_overlay_key.
  repeat (case_match; [first [exact Hs|exact (coherent_copy s Hs)]|]). exact Hs.
Qed.

Lemma coherent_actions_key k s : coherent s → coherent (handle_actions_key score tty_ok k s).
Proof.
  intros Hs. unfold handle_actions_key. apply coherent_mark_dirty.
  set (s1 := close_overlay s). assert (coherent s1) as H1 by exact Hs. clearbody s1.
  destruct (key_code k);
    lazymatch goal with
    | |- coherent (match tab_actions s !! _ with _ => _ end) =>
        destruct (tab_actions s !! _) as [[[d l] a]|]; [exact (coherent_dispatch a s1 H1)|exact Hs]
    | |- _ => repeat case_match; first [exact Hs|exact H1]
    end.
Qed.

Lemma coherent_confirm a s : coherent s → coherent (execute_confirm describe errno_display a s).
Proof.
  intros Hs. unfold execute_confirm, execute_container_action. destruct a.
  - destruct (kill_process _ _ _ _) as [[]]; exact Hs.
  - destruct (get_process_priority _ _ _), (renice_process _ _ _ _) as [[]]; exact Hs.
  - destruct (container_engine s); exact Hs.
  - destruct (container_engine s); exact Hs.
  - destruct (container_engine s); exact Hs.
Qed.

Lemma coherent_confirm_key k s :
  coherent s → coherent (handle_confirm_key describe errno_display k s).
Proof.
  intros Hs. unfold handle_confirm_key.
  assert (coherent match confirm s with
                   | Some a => execute_confirm describe errno_display a (s <| confirm := None |>)
                   | None => s
                   end) as Hyes.
  { destruct (confirm s) as [a|]; [|exact Hs]. apply coherent_confirm. exact Hs. }
  destruct (key_code k); first [exact Hs|exact Hyes|repeat case_match; first [exact Hs|exact Hyes]].
Qed.

Lemma coherent_key k s :
  coherent s → coherent (handle_key_event describe errno_display score tty_ok k s).
Proof.
  intros Hs. unfold handle_key_event. set (s0 := s <| notifier ::= _ |>).
  assert (coherent s0) as Hs0 by exact Hs. clearbody s0. clear s Hs. rename s0 into s, Hs0 into Hs.
  case_match; [exact Hs|]. case_bool_decide; [by apply coherent_confirm_key|].
  destruct (overlay s);
    [|by apply coherent_palette_key|by apply coherent_palette_key|by apply coherent_scrollable
     |by apply coherent_actions_key|by apply coherent_scrollable|by apply coherent_scrollable].
  destruct (filter_editing s); [by apply coherent_filter_key|].
  destruct (resolve _ _ _) as [a|]; [|exact Hs]. exact (coherent_dispatch a s Hs).
Qed.

Lemma coherent_mouse m s : coherent s → coherent (handle_mouse_event m s).
Proof.
  intros Hs. unfold handle_mouse_event.
  case_match; destruct m; first [exact Hs|exact (coherent_scroll _ s Hs)].
Qed.

(** ** Turns *)

Lemma coherent_reports (l : list (Task * outcome)) s :
  coherent s → coherent (foldl (λ self r, task_done r.1 r.2 self) s l).
Proof.
  revert s. induction l as [|r l IH]; intros s Hs; [done|]. simpl. apply IH.
  unfold task_done. destruct (shutdown_token s), (task_message r.1 r.2); exact Hs.
Qed.

Lemma coherent_notify_all (l : list (Level * str)) s :
  coherent s → coherent (foldl (λ self m, notify m.1 m.2 self) s l).
Proof. revert s. induction l as [|m l IH]; intros s Hs; [done|]. simpl. by apply IH. Qed.

Lemma coherent_pump s : coherent s → coherent (pump_action_results s).
Proof.
  intros Hs. unfold pump_action_results. set (s1 := s <| action_rx := [] |>).
  assert (coherent s1) as H1 by exact Hs. clearbody s1.
  pose proof (coherent_notify_all (action_rx s) s1 H1). case_bool_decide; done.
Qed.

Lemma coherent_turn t s :
  coherent s → coherent (turn describe errno_display score tty_ok t s).2.
Proof.
  intros Hs. unfold turn. set (s0 := pump_action_results _).
  assert (coherent s0) as H0 by (apply coherent_pump, coherent_reports; exact Hs).
  clearbody s0. unfold take_needs_redraw. set (s1 := s0 <| needs_redraw := false |>).
  assert (coherent s1) as H1 by exact H0. clearbody s1.
  assert (coherent (handle_event describe errno_display score tty_ok (event t) s1).2) as H2.
  { destruct (event t); simpl; [|by apply coherent_key|by apply coherent_mouse|exact H1
                                |by apply coherent_apply_snapshot].
    unfold status_message_just_expired. destruct (expire (clock s1) (notifier s1)). exact H1. }
  destruct (handle_event _ _ _ _ _ s1) as [b s2]. simpl in *. destruct (needs_redraw s0 || b); exact H2.
Qed.

Lemma coherent_run ts s :
  coherent s → coherent (run_turns describe errno_display score tty_ok ts s).
Proof.
  revert s. induction ts as [|t ts IH]; intros s Hs; [done|]. simpl.
  destruct (running s); [by apply IH, coherent_turn|done].
Qed.

(** A session: the engines found at start-up, and the turns of its loop. *)
Definition session (config : CliConfig) (ctr cluster : bool) (ts : list Turn) : AppState :=
  run_turns describe errno_display score tty_ok ts
    ((with_config config) <| container_engine := ctr |> <| cluster_engine := cluster |>).

Lemma coherent_initial config : coherent (with_config config).
Proof.
  split_and!; [reflexivity|reflexivity| |].
  - split_and!; [done| |]; unfold process_count; simpl; destruct (cfg_tree_mode config); simpl; lia.
  - split_and!; [apply map_Forall_empty|apply map_Forall_empty|done|done].
Qed.

Lemma coherent_engines ctr cluster s :
  coherent s → coherent (s <| container_engine := ctr |> <| cluster_engine := cluster |>).
Proof. intros Hs. exact Hs. Qed.

Lemma coherent_session config ctr cluster ts : coherent (session config ctr cluster ts).
Proof. by apply coherent_run, coherent_engines, coherent_initial. Qed.

(** ** What the histories hold *)

Lemma dom_record_all (l : list ContainerSnapshot) s :
  dom (container_cpu_hist (foldl record_container s l)) =@{gset str}
  dom (container_cpu_hist s) ∪ list_to_set (ctr_id <$> l).
Proof.
  revert s. induction l as [|c l IH]; intros s; simpl; [set_solver|].
  rewrite IH. unfold record_container. simpl. rewrite dom_insert_L. set_solver.
Qed.

Lemma cpu_hist_visible s : container_cpu_hist (recompute_visible s) = container_cpu_hist s.
Proof. unfold recompute_visible. destruct (last_snapshot s); [|done]. by case_bool_decide. Qed.

Lemma cpu_hist_refresh s :
  container_cpu_hist (mark_dirty (recompute_kube_view (recompute_containers_view s)))
  = container_cpu_hist s.
Proof. reflexivity. Qed.

Lemma cpu_hist_last_snapshot v s :
  container_cpu_hist (s <| last_snapshot := v |>) = container_cpu_hist s.
Proof. reflexivity. Qed.

Lemma cpu_hist_push cs s :
  container_cpu_hist (push_container_history cs s)
  = drop_missing (list_to_set (ctr_id <$> containers cs))
      (container_cpu_hist (foldl record_container s (containers cs))).
Proof. reflexivity. Qed.

Lemma dom_apply_snapshot snap cs s :
  paused s = false → sys_containers snap = Some cs →
  dom (container_cpu_hist (apply_snapshot snap s)) =@{gset str}
  list_to_set (ctr_id <$> containers cs).
Proof.
  intros Hp Hcs. unfold apply_snapshot. rewrite Hp, Hcs.
  rewrite cpu_hist_refresh, cpu_hist_visible, cpu_hist_last_snapshot, cpu_hist_push.
  rewrite dom_drop, dom_record_all. set_solver.
Qed.

(** ** Properties *)

(** C15: the rows shown are never stale.  After any session, whatever was typed,
    sorted, filtered, switched to or received, the cached Kubernetes rows are
    the view of the current snapshot under the current sub-view, filter, field
    and order, and the cached containers are likewise; so an action on the
    selected row is an action on the row that is displayed. *)
Theorem views_never_stale config ctr cluster ts :
  let s := session config ctr cluster ts in
  kube_view_cache s = kube_view s ∧ sorted_filtered_containers_cache s = containers_view s.
Proof. destruct (coherent_session config ctr cluster ts) as (H1 & H2 & _). by split. Qed.

(** C16: the process cursor is on a row whenever there is one: after any session
    a process is selected exactly when the list, flat or as a tree, is not
    empty, and the viewport starts at a row of it. *)
Theorem process_cursor_on_a_row config ctr cluster ts :
  let s := session config ctr cluster ts in
  (is_Some (selected_process s) ↔ process_count s ≠ 0%nat) ∧
  (scroll_offset s < max 1 (process_count s))%nat.
Proof.
  intros s. destruct (coherent_session config ctr cluster ts) as (_ & _ & (_ & H1 & H2) & _).
  fold s in H1, H2. split; [|exact H2]. unfold selected_process, process_count in *.
  destruct (tree_mode s); rewrite ?fmap_is_Some, lookup_lt_is_Some; lia.
Qed.

(** C18: container histories do not leak.  After any session each container has
    at most 60 samples of CPU and of received bytes, and the same containers
    have both; and once one more snapshot with containers is applied, exactly
    the containers of that snapshot have a history at all. *)
Theorem histories_bounded config ctr cluster ts :
  let s := session config ctr cluster ts in
  (∀ id, (length (container_cpu_history id s) ≤ CONTAINER_HISTORY_LEN)%nat ∧
         (length (container_rx_deltas id s) ≤ CONTAINER_HISTORY_LEN)%nat) ∧
  dom (container_cpu_hist s) =@{gset str} dom (container_rx_hist s) ∧
  ∀ snap cs, paused s = false → sys_containers snap = Some cs →
    dom (container_cpu_hist (apply_snapshot snap s)) =@{gset str}
    list_to_set (ctr_id <$> containers cs).
Proof.
  intros s. destruct (coherent_session config ctr cluster ts) as (_ & _ & _ & H1 & H2 & H3 & _).
  fold s in H1, H2, H3. split_and!; [|done|intros; by apply dom_apply_snapshot].
  intros id. unfold container_cpu_history, container_rx_deltas.
  assert (∀ (A : Type) (m : gmap str (list A)), ring_ok m →
            (length (default [] (m !! id)) ≤ CONTAINER_HISTORY_LEN)%nat) as Hring.
  { intros A m Hm. destruct (m !! id) as [r|] eqn:E; [exact (Hm _ _ E)|simpl].
    unfold CONTAINER_HISTORY_LEN. lia. }
  split; by apply Hring.
Qed.
End Views.
