(* ===== verification/Num.v ===== *)
(** * Reading numbers

    The parsers and casts of the standard library the engines use:
    [str::parse] for unsigned integers and for [f64], [strip_prefix] and
    [strip_suffix], [f64::round] and the saturating [as] casts. *)

From S2P Require Import Prelude Str RsFloat.
Local Open Scope Z_scope.

(** ** Affixes *)

Fixpoint strip_prefix (s p : str) {struct p} : option str :=
  match p, s with
  | [], _ => Some s
  | _, [] => None
  | a :: p, b :: s => if a =? b then strip_prefix s p else None
  end.

Definition strip_suffix (s p : str) : option str :=
  reverse <$> strip_prefix (reverse s) (reverse p).

(** ** Unsigned integers *)

Definition is_digit (c : Z) : bool := (48 <=? c) && (c <=? 57).

(** The value of a string of digits, most significant first. *)
Definition digits_value (ds : str) : Z := foldl (λ v c, v * 10 + (c - 48)) 0 ds.

(** [s.parse::<uN>()]: an optional plus sign, then digits, within [max]. *)
Definition parse_uint (max : Z) (s : str) : option Z :=
  let ds := match s with 43 :: ds => ds | _ => s end in
  if bool_decide (ds = []) then None
  else if forallb is_digit ds
  then let v := digits_value ds in if v <=? max then Some v else None
  else None.

(** ** [s.parse::<f64>()] *)

Fixpoint span_digits (s : str) : str * str :=
  match s with
  | c :: s' => if is_digit c then let '(ds, r) := span_digits s' in (c :: ds, r) else ([], s)
  | [] => ([], [])
  end.

Definition take_sign (s : str) : bool * str :=
  match s with
  | 45 :: s => (true, s)
  | 43 :: s => (false, s)
  | _ => (false, s)
  end.

(** [m * 10 ^ e], correctly rounded: the quotient of two exact integers. *)
Definition decimal_to_f64 (neg : bool) (m e : Z) : f64 :=
  match m with
  | Zpos p =>
      if 0 <=? e then binary_normalize 53 1024 (cond_Zopp neg (m * 10 ^ e)) 0 neg
      else SFdiv 53 1024 (S754_finite neg p 0) (S754_finite false (Z.to_pos (10 ^ (- e))) 0)
  | _ => S754_zero neg
  end.

(** The exponent part, after the digits; [None] when something else follows. *)
Definition parse_exponent (s : str) : option Z :=
  match s with
  | [] => Some 0
  | c :: s =>
      if (c =? 101) || (c =? 69) then
        let '(neg, s) := take_sign s in
        let '(ds, r) := span_digits s in
        if bool_decide (ds ≠ [] ∧ r = []) then Some (cond_Zopp neg (digits_value ds)) else None
      else None
  end.

Definition parse_f64 (s : str) : option f64 :=
  let '(neg, s) := take_sign s in
  let low := to_ascii_lowercase <$> s in
  if bool_decide (low = lit "inf" ∨ low = lit "infinity") then Some (S754_infinity neg)
  else if bool_decide (low = lit "nan") then Some S754_nan
  else
    let '(ip, r) := span_digits s in
    let '(fp, r) := match r with 46 :: r => span_digits r | _ => ([], r) end in
    if bool_decide (ip ++ fp = []) then None
    else
      e ← parse_exponent r;
      Some (decimal_to_f64 neg (digits_value (ip ++ fp)) (e - Z.of_nat (length fp))).

(** [f64::round]: halves away from zero. *)
Definition f64_round (x : f64) : f64 :=
  match x with
  | S754_finite s m e =>
      if 0 <=? e then x
      else let d := 2 ^ (- e) in
           binary_normalize 53 1024 (cond_Zopp s ((2 * Zpos m + d) / (2 * d))) 0 s
  | _ => x
  end.

(** [x as uN]: towards zero, saturating, a NaN being 0. *)
Definition float_as_uint (max : Z) (x : spec_float) : Z :=
  match x with
  | S754_finite false m e => Z.min max (Z.shiftl (Zpos m) e)
  | S754_infinity false => max
  | _ => 0
  end.

Example parse_f64_half : parse_f64 (lit "0.5") = Some (f64_div (f64_of_Z 1) (f64_of_Z 2)).
Proof. reflexivity. Qed.
Example parse_f64_tenth : parse_f64 (lit "+1e-1") = Some (f64_div (f64_of_Z 1) (f64_of_Z 10)).
Proof. reflexivity. Qed.
Example parse_f64_bad : parse_f64 (lit "1.2.3") = None ∧ parse_f64 (lit ".") = None.
Proof. split; reflexivity. Qed.
Example round_half : float_as_uint u32_max (f64_round (f64_div (f64_of_Z 5) (f64_of_Z 2))) = 3.
Proof. reflexivity. Qed.

(** ** Lemmas *)

Lemma strip_prefix_app p s : strip_prefix (p ++ s) p = Some s.
Proof. induction p as [|a p IH]; simpl; [done|]. by rewrite Z.eqb_refl. Qed.

Lemma strip_prefix_spec s p k : strip_prefix s p = Some k ↔ s = p ++ k.
Proof.
  split; [|intros ->; apply strip_prefix_app].
  revert s. induction p as [|a p IH]; intros s; simpl; [by intros [= ->]|].
  destruct s as [|b s]; [done|]. destruct (Z.eqb_spec a b) as [->|]; [|done].
  by intros ->%IH.
Qed.

Lemma strip_suffix_spec s p k : strip_suffix s p = Some k ↔ s = k ++ p.
Proof.
  unfold strip_suffix. rewrite fmap_Some. split.
  - intros (r & H%strip_prefix_spec & ->). apply (f_equal reverse) in H.
    by rewrite reverse_involutive, reverse_app, reverse_involutive in H.
  - intros ->. exists (reverse k). rewrite reverse_app, strip_prefix_app, reverse_involutive. done.
Qed.

(** A last character that no suffix ends with. *)
Lemma strip_suffix_last s c p d : c ≠ d → strip_suffix (s ++ [c]) (p ++ [d]) = None.
Proof.
  intros Hc. destruct (strip_suffix _ _) as [k|] eqn:E; [|done].
  apply strip_suffix_spec in E. rewrite app_assoc in E. by apply app_inj_tail in E as [_ ?].
Qed.

Lemma strip_suffix_app k p : strip_suffix (k ++ p) p = Some k.
Proof. by apply strip_suffix_spec. Qed.

Lemma digit_not_space c : is_digit c = true → is_whitespace c = false.
Proof. unfold is_digit, is_whitespace. lia. Qed.

Lemma foldl_digits_nonneg ds v :
  0 ≤ v → forallb is_digit ds = true → 0 ≤ foldl (λ v c, v * 10 + (c - 48)) v ds.
Proof.
  revert v. induction ds as [|c ds IH]; intros v Hv Hd; simpl; [done|].
  simpl in Hd. apply andb_true_iff in Hd as [Hc Hd]. unfold is_digit in Hc. apply IH; [lia|done].
Qed.

Lemma digits_value_nonneg ds : forallb is_digit ds = true → 0 ≤ digits_value ds.
Proof. by apply foldl_digits_nonneg. Qed.

Lemma parse_uint_digits max ds :
  ds ≠ [] → forallb is_digit ds = true →
  parse_uint max ds = if digits_value ds <=? max then Some (digits_value ds) else None.
Proof.
  intros Hne Hd. unfold parse_uint.
  assert (match ds with 43 :: ds' => ds' | _ => ds end = ds) as ->.
  { destruct ds as [|c ds']; [done|]. simpl in Hd. apply andb_true_iff in Hd as [Hc _].
    unfold is_digit in Hc. destruct c as [|p|p]; try done. by repeat (destruct p as [p|p|]; try done). }
  by rewrite bool_decide_eq_false_2, Hd.
Qed.

Lemma parse_uint_bounds max s v : parse_uint max s = Some v → 0 ≤ v ≤ max.
Proof.
  unfold parse_uint. set (ds := match s with 43 :: ds => ds | _ => s end).
  case_bool_decide; [done|]. destruct (forallb is_digit ds) eqn:Hd; [|done].
  apply digits_value_nonneg in Hd. destruct (Z.leb_spec (digits_value ds) max); [|done].
  intros [= <-]. lia.
Qed.

Lemma trim_start_id s : Forall (λ c, is_whitespace c = false) s → trim_start s = s.
Proof. intros H. destruct H as [|c s Hc _]; simpl; [done|]. by rewrite Hc. Qed.

(** Nothing to trim in a string without spaces. *)
Lemma trim_id s : Forall (λ c, is_whitespace c = false) s → trim s = s.
Proof.
  intros H. unfold trim. rewrite (trim_start_id s) by done.
  rewrite trim_start_id; [apply reverse_involutive|].
  rewrite Forall_forall in *. intros c Hc. apply H. by apply elem_of_reverse.
Qed.

Lemma digits_no_space ds :
  forallb is_digit ds = true → Forall (λ c, is_whitespace c = false) ds.
Proof.
  intros H. apply Forall_forall. intros c Hc. apply digit_not_space.
  rewrite forallb_forall in H. apply H. by apply list_elem_of_In.
Qed.

(** *** Printing an integer *)

Lemma lit_ascii_cons a s : (Ascii.N_of_ascii a < 128)%N → lit (String a s) = Z.of_N (Ascii.N_of_ascii a) :: lit s.
Proof.
  intros H. unfold lit. cbn [string_bytes utf8_decode].
  by destruct (Z.ltb_spec (Z.of_N (Ascii.N_of_ascii a)) 128); [|lia].
Qed.

Lemma lit_digit x s :
  (x < 10)%N → lit (String (pretty.pretty_N_char x) s) = (48 + Z.of_N x) :: lit s.
Proof.
  intros H.
  assert (x = 0 ∨ x = 1 ∨ x = 2 ∨ x = 3 ∨ x = 4 ∨ x = 5 ∨ x = 6 ∨ x = 7 ∨ x = 8 ∨ x = 9)%N
    as Hx by lia.
  destruct Hx as [->|[->|[->|[->|[->|[->|[->|[->|[->| ->]]]]]]]]]; reflexivity.
Qed.

Lemma digits_value_snoc ds c : digits_value (ds ++ [c]) = digits_value ds * 10 + (c - 48).
Proof. unfold digits_value. by rewrite foldl_app. Qed.

Lemma pretty_N_digits x s :
  ∃ ds, lit (pretty.pretty_N_go x s) = ds ++ lit s ∧ forallb is_digit ds = true ∧
    digits_value ds = Z.of_N x ∧ ((0 < x)%N → ds ≠ []).
Proof.
  revert s. induction (N.lt_wf_0 x) as [x _ IH]; intros s.
  assert (x = 0 ∨ 0 < x)%N as [->|Hx] by lia.
  { exists []. split; [by rewrite pretty.pretty_N_go_0|]. repeat split. lia. }
  rewrite pretty.pretty_N_go_step by done.
  destruct (IH (x / 10)%N ltac:(by apply N.div_lt)
              (String (pretty.pretty_N_char (x mod 10)) s)) as (ds & -> & Hd & Hv & _).
  pose proof (N.mod_lt x 10 ltac:(lia)) as Hm.
  exists (ds ++ [48 + Z.of_N (x mod 10)]). split; [|split; [|split]].
  - rewrite lit_digit by done. by rewrite <- app_assoc.
  - rewrite forallb_app, Hd. cbn [forallb andb]. unfold is_digit.
    rewrite andb_true_r, andb_true_iff, !Z.leb_le. generalize dependent (x mod 10)%N. lia.
  - rewrite digits_value_snoc, Hv. pose proof (N.div_mod x 10 ltac:(lia)) as Hx'.
    rewrite Hx' at 3. rewrite N2Z.inj_add, N2Z.inj_mul. lia.
  - intros _. by destruct ds.
Qed.

(** The decimal form of a natural number. *)
Lemma show_spec n :
  0 ≤ n → show n ≠ [] ∧ forallb is_digit (show n) = true ∧ digits_value (show n) = n.
Proof.
  intros Hn. destruct n as [|p|p]; [by repeat split| |lia].
  destruct (pretty_N_digits (Npos p) "") as (ds & Hs & Hd & Hv & Hne).
  change (lit "") with (@nil Z) in Hs. rewrite app_nil_r in Hs.
  change (show (Zpos p)) with (lit (pretty.pretty_N_go (Npos p) "")). rewrite Hs.
  split; [by apply Hne|]. by rewrite Hv.
Qed.

Lemma parse_uint_show max n : 0 ≤ n ≤ max → parse_uint max (show n) = Some n.
Proof.
  intros Hn. destruct (show_spec n) as (Hne & Hd & Hv); [lia|].
  rewrite parse_uint_digits, Hv by done. by destruct (Z.leb_spec n max); [|lia].
Qed.

(** *** Splitting *)

(** [s.split(sep)]. *)
Fixpoint split_on (sep : Z) (s : str) : list str :=
  match s with
  | [] => [[]]
  | c :: s =>
      match split_on sep s with
      | seg :: segs => if c =? sep then [] :: seg :: segs else (c :: seg) :: segs
      | [] => []
      end
  end.

Lemma split_on_nonempty sep s : split_on sep s ≠ [].
Proof.
  induction s as [|c s IH]; simpl; [done|]. destruct (split_on sep s); [done|]. by destruct (c =? sep).
Qed.

Lemma split_on_app sep a s :
  Forall (λ c, c ≠ sep) a → split_on sep (a ++ sep :: s) = a :: split_on sep s.
Proof.
  induction 1 as [|c a Hc Ha IH]; simpl.
  - rewrite Z.eqb_refl. pose proof (split_on_nonempty sep s). by destruct (split_on sep s).
  - rewrite IH. by rewrite (proj2 (Z.eqb_neq c sep) Hc).
Qed.

Lemma split_on_none sep s : Forall (λ c, c ≠ sep) s → split_on sep s = [s].
Proof.
  induction 1 as [|c s Hc _ IH]; simpl; [done|]. rewrite IH. by rewrite (proj2 (Z.eqb_neq c sep) Hc).
Qed.

(** [s.lines()]: no empty line after a final newline, and no carriage return at
    the end of a line that had a newline. *)
Fixpoint lines (segs : list str) : list str :=
  match segs with
  | [] => []
  | [seg] => if bool_decide (seg = []) then [] else [seg]
  | seg :: segs => default seg (strip_suffix seg [13]) :: lines segs
  end.

Definition str_lines (s : str) : list str := lines (split_on 10 s).

Example str_lines_crlf : str_lines (lit "a" ++ [13; 10; 10] ++ lit "b" ++ [10]) = [lit "a"; []; lit "b"].
Proof. reflexivity. Qed.

(** [s.trim_end_matches(c)] and [s.ends_with(c)]. *)
Definition trim_end_matches (c : Z) (s : str) : str :=
  let fix go (s : str) : str :=
    match s with x :: s' => if x =? c then go s' else s | [] => [] end in
  reverse (go (reverse s)).

Definition ends_with (c : Z) (s : str) : bool :=
  match last s with Some x => x =? c | None => false end.

Fixpoint take_while (f : Z → bool) (s : str) : str :=
  match s with x :: s => if f x then x :: take_while f s else [] | [] => [] end.

(** *** Trimming and lines of what the kernel prints *)

Definition not_space_at (o : option Z) : Prop :=
  match o with Some c => is_whitespace c = false | None => True end.

Lemma trim_start_head s : not_space_at (head s) → trim_start s = s.
Proof. destruct s as [|c s]; simpl; [done|]. by intros ->. Qed.

Lemma trim_fixed s : not_space_at (head s) → not_space_at (last s) → trim s = s.
Proof.
  intros Hh Hl. unfold trim. rewrite (trim_start_head s) by done.
  rewrite trim_start_head; [apply reverse_involutive|]. by rewrite head_reverse.
Qed.

Lemma trim_start_app a s :
  Forall (λ c, is_whitespace c = true) a → trim_start (a ++ s) = trim_start s.
Proof. induction 1 as [|c a Hc _ IH]; simpl; [done|]. by rewrite Hc. Qed.

(** Spaces around a text that has none at its ends. *)
Lemma trim_around a s b :
  Forall (λ c, is_whitespace c = true) a → Forall (λ c, is_whitespace c = true) b → s ≠ [] →
  not_space_at (head s) → not_space_at (last s) → trim (a ++ s ++ b) = s.
Proof.
  intros Ha Hb Hne Hh Hl. unfold trim. rewrite trim_start_app by done.
  rewrite (trim_start_head (s ++ b)) by (by destruct s).
  rewrite reverse_app, trim_start_app by (by apply Forall_reverse).
  rewrite trim_start_head; [apply reverse_involutive|]. by rewrite head_reverse.
Qed.

Lemma str_lines_join (ls : list str) :
  Forall (λ l, l ≠ [] ∧ Forall (λ c, c ≠ 10 ∧ c ≠ 13) l) ls →
  str_lines (join [10] ls) = ls.
Proof.
  induction 1 as [|l ls [Hne Hl] Hls IH]; [done|].
  assert (Forall (λ c, c ≠ 10) l) as Hn by (eapply Forall_impl; [exact Hl|]; by intros ? []).
  destruct ls as [|l' ls].
  - unfold str_lines. simpl. rewrite split_on_none by done. simpl. by rewrite bool_decide_eq_false_2.
  - unfold str_lines in *. change (join [10] (l :: l' :: ls)) with (l ++ 10 :: join [10] (l' :: ls)).
    rewrite split_on_app by done.
    pose proof (split_on_nonempty 10 (join [10] (l' :: ls))) as Hs.
    destruct (split_on 10 (join [10] (l' :: ls))) as [|seg segs]; [done|].
    change (lines (l :: seg :: segs)) with (default l (strip_suffix l [13]) :: lines (seg :: segs)).
    rewrite IH. f_equal. destruct (strip_suffix l [13]) as [k|] eqn:E; [|done].
    apply strip_suffix_spec in E as ->. apply Forall_app in Hl as [_ Hl].
    by inversion_clear Hl as [|? ? [_ ?]].
Qed.

Lemma take_while_app f a s :
  forallb f a = true → match head s with Some c => f c = false | None => True end →
  take_while f (a ++ s) = a.
Proof.
  intros Ha Hs. induction a as [|c a IH]; simpl.
  - destruct s as [|c s]; [done|]. simpl in *. by rewrite Hs.
  - simpl in Ha. apply andb_true_iff in Ha as [-> Ha]. by rewrite IH.
Qed.
