(* ===== verification/Cluster.v ===== *)
(** * The cluster abstraction: crates/muxtop-core/src/cluster_engine.rs

    Namespace scopes, the validation of namespace names, which is what keeps
    user input from shaping the paths of API requests, and where a kubeconfig
    is looked for. *)

From S2P Require Import Prelude Str RsFloat Num.
Local Open Scope Z_scope.

Inductive ClusterError : Type :=
| KubeconfigNotFound
| Unreachable (msg : str)
| Forbidden (resource : str) (namespace : option str)
| MetricsUnavailable
| Stale (since_secs : Z)
| OtherError (msg : str).

Definition ClusterError_fmt (e : ClusterError) : str :=
  match e with
  | KubeconfigNotFound => lit "no kubeconfig found"
  | Unreachable m => lit "cluster unreachable: " ++ m
  | Forbidden r ns =>
      lit "forbidden: cannot access " ++ r
      ++ match ns with Some ns => lit " in namespace " ++ ns | None => [] end
  | MetricsUnavailable => lit "metrics-server unavailable on this cluster"
  | Stale s => lit "snapshot stale (last update " ++ show s ++ lit "s ago)"
  | OtherError m => lit "cluster engine error: " ++ m
  end.

(** ** Scopes *)

Inductive KubeScope : Type :=
| AllNamespaces
| Namespace (ns : str).

Definition scope_namespace (self : KubeScope) : option str :=
  match self with AllNamespaces => None | Namespace ns => Some ns end.

Definition scope_label (self : KubeScope) : str := default [] (scope_namespace self).

Definition is_all_namespaces (self : KubeScope) : bool :=
  match self with AllNamespaces => true | Namespace _ => false end.

(** ** Namespace names *)

Definition is_alnum (b : Z) : bool := ((97 <=? b) && (b <=? 122)) || is_digit b.

Definition is_valid_namespace (name : str) : bool :=
  if bool_decide (name = []) || bool_decide (63 < str_len name)%nat then false
  else
    let bytes := as_bytes name in
    if negb (is_alnum (hd 0 bytes)) || negb (is_alnum (List.last bytes 0)) then false
    else forallb (λ b, is_alnum b || (b =? 45)) bytes.

Section ParseNamespace.
(** [Debug] of a string. *)
Variable debug_str : str → str.

Definition parse_namespace (raw : str) : result str str :=
  if is_valid_namespace raw then Ok raw
  else Err (lit "invalid namespace " ++ debug_str raw
            ++ lit ": expected a DNS-1123 label (1-63 chars, lowercase alphanumeric or '-', "
            ++ lit "starting and ending alphanumeric)").
End ParseNamespace.

(** ** Where the kubeconfig comes from *)

Inductive KubeconfigSource : Type :=
| SourceEnv (path : str)
| SourceHome (path : str)
| InCluster
| SourceNone.

(** The environment and the file system are functions. *)
Definition detect_kubeconfig_with (env : str → option str) (exists_ : str → bool)
    (home_kubeconfig : option str) (in_cluster_token : str) : KubeconfigSource :=
  let fallback :=
    match (match home_kubeconfig with
           | Some home => if exists_ home then Some home else None
           | None => None
           end) with
    | Some home => SourceHome home
    | None => if exists_ in_cluster_token then InCluster else SourceNone
    end in
  match env (lit "KUBECONFIG") with
  | Some raw =>
      let trimmed := trim raw in
      if bool_decide (trimmed = []) then fallback else SourceEnv trimmed
  | None => fallback
  end.

(** ** The path of a metrics request (kube_engine.rs, [tick_metrics]) *)

Definition pod_path (scope : KubeScope) : str :=
  match scope_namespace scope with
  | Some ns => lit "/apis/metrics.k8s.io/v1beta1/namespaces/" ++ ns ++ lit "/pods"
  | None => lit "/apis/metrics.k8s.io/v1beta1/pods"
  end.

(** ** Properties *)

Definition label_char (c : Z) : bool := is_alnum c || (c =? 45).

Lemma utf8_low_bytes c : is_char c →
  Forall (λ b, label_char b = true) (utf8_char c) → utf8_char c = [c] ∧ label_char c = true.
Proof.
  unfold is_char, utf8_char. intros Hc.
  destruct (Z.ltb_spec c 128).
  { intros Hb. split; [done|]. by inversion Hb. }
  repeat match goal with |- context [?a <? ?b] => destruct (Z.ltb_spec a b) end;
    intros H'; exfalso; inversion H' as [|b l Hb Hl]; subst;
    unfold label_char, is_alnum, is_digit in Hb; Z.div_mod_to_equations; lia.
Qed.

Lemma as_bytes_label s :
  Forall is_char s → forallb label_char (as_bytes s) = true →
  as_bytes s = s ∧ Forall (λ c, label_char c = true) s.
Proof.
  intros Hs. induction Hs as [|c s Hc Hs IH]; [done|].
  change (as_bytes (c :: s)) with (utf8_char c ++ as_bytes s).
  rewrite forallb_app, andb_true_iff.
  intros [H1 [E Hl]%IH]. rewrite E.
  assert (Forall (λ b, label_char b = true) (utf8_char c)) as H1'.
  { apply Forall_forall. intros b Hb. rewrite forallb_forall in H1. by apply H1, list_elem_of_In. }
  destruct (utf8_low_bytes c Hc H1') as [-> ?]. split; [done|by constructor].
Qed.

(** What validity means on characters. *)
Lemma is_valid_namespace_spec ns :
  Forall is_char ns → is_valid_namespace ns = true →
  ns ≠ [] ∧ (length ns ≤ 63)%nat ∧ Forall (λ c, label_char c = true) ns ∧
  is_alnum (hd 0 ns) = true ∧ is_alnum (List.last ns 0) = true.
Proof.
  intros Hs. unfold is_valid_namespace.
  case_bool_decide as Hne; [done|]. case_bool_decide as Hlen; [done|]. cbn [orb].
  destruct (is_alnum (hd 0 (as_bytes ns))) eqn:Eh; [|done].
  destruct (is_alnum (List.last (as_bytes ns) 0)) eqn:El; [|done]. cbn [negb orb].
  intros [E Hl]%as_bytes_label; [|done]. rewrite E in Eh, El.
  split_and!; try done. rewrite <- length_as_bytes, E in Hlen. lia.
Qed.

Lemma label_char_plain c : label_char c = true → c ≠ 47 ∧ c ≠ 63 ∧ c ≠ 35 ∧ c ≠ 37 ∧ c ≠ 46.
Proof. unfold label_char, is_alnum, is_digit. lia. Qed.

(** C24: user input cannot shape the path of an API request.  Whatever text is
    given as a namespace, if it is accepted it is one DNS-1123 label, and the
    metrics path built from it has exactly the seven segments intended, the
    sixth being the namespace, with no query, fragment, escape or dot segment
    anywhere in it. *)
Theorem namespace_cannot_shape_the_path ns :
  Forall is_char ns → is_valid_namespace ns = true →
  split_on 47 (pod_path (Namespace ns))
    = [[]; lit "apis"; lit "metrics.k8s.io"; lit "v1beta1"; lit "namespaces"; ns; lit "pods"] ∧
  Forall (λ c, c ≠ 63 ∧ c ≠ 35 ∧ c ≠ 37) (pod_path (Namespace ns)) ∧
  ns ≠ [] ∧ Forall (λ c, c ≠ 46) ns ∧ (length ns ≤ 63)%nat.
Proof.
  intros Hs Hv. destruct (is_valid_namespace_spec ns Hs Hv) as (Hne & Hlen & Hl & _).
  assert (∀ P : Z → Prop, (∀ c, label_char c = true → P c) → Forall P ns) as Hall.
  { intros P HP. eapply Forall_impl; [exact Hl|]. exact HP. }
  split_and!; [|unfold pod_path; simpl scope_namespace|done| |done].
  - change (pod_path (Namespace ns)) with ([] ++ 47 :: lit "apis" ++ 47 :: lit "metrics.k8s.io"
      ++ 47 :: lit "v1beta1" ++ 47 :: lit "namespaces" ++ 47 :: ns ++ 47 :: lit "pods").
    rewrite !split_on_app; [reflexivity|..];
      try (refine (bool_decide_unpack _ _); vm_compute; exact I).
    apply Hall. intros c Hc%label_char_plain. tauto.
  - rewrite !Forall_app. split_and!; try (refine (bool_decide_unpack _ _); vm_compute; exact I).
    apply Hall. intros c Hc%label_char_plain. tauto.
  - apply Hall. intros c Hc%label_char_plain. tauto.
Qed.

Lemma namespace_cannot_shape_the_path_witness :
  split_on 47 (pod_path (Namespace (lit "team-a")))
    = [[]; lit "apis"; lit "metrics.k8s.io"; lit "v1beta1"; lit "namespaces"; lit "team-a";
       lit "pods"] ∧
  Forall (λ c, c ≠ 63 ∧ c ≠ 35 ∧ c ≠ 37) (pod_path (Namespace (lit "team-a"))) ∧
  lit "team-a" ≠ [] ∧ Forall (λ c, c ≠ 46) (lit "team-a") ∧ (length (lit "team-a") ≤ 63)%nat.
Proof.
  apply (namespace_cannot_shape_the_path (lit "team-a")); [|reflexivity].
  repeat constructor; unfold is_char; lia.
Defined.
