(* ===== verification/KubeEngine.v ===== *)
(** * The Kubernetes engine: crates/muxtop-core/src/kube_engine.rs

    Quantities, the conversion of API objects to the wire snapshot, the two
    caches, and the polls and scope changes that interleave on them.  The API
    objects of k8s-openapi are records of the fields the code reads; what the
    API server answers is an input. *)

From S2P Require Import Prelude Str RsFloat Process Network Gpu Snapshots Num Cluster.
Local Open Scope Z_scope.
Local Open Scope record_scope.

(** ** Quantities *)

Definition parse_quantity_to_millis (raw : str) : Z :=
  let s := trim raw in
  match strip_suffix s (lit "m") with
  | Some stripped => default 0 (parse_uint u32_max stripped)
  | None =>
      match parse_uint u32_max s with
      | Some int => Z.min (int * 1000) u32_max
      | None =>
          match parse_f64 s with
          | Some float => float_as_uint u32_max (f64_round (f64_mul float (f64_of_Z 1000)))
          | None => 0
          end
      end
  end.

Definition multipliers : list (str * Z) :=
  [(lit "Ti", 2 ^ 40); (lit "Gi", 2 ^ 30); (lit "Mi", 2 ^ 20); (lit "Ki", 2 ^ 10);
   (lit "T", 1000000000000); (lit "G", 1000000000); (lit "M", 1000000); (lit "K", 1000)].

(** The loop over the suffixes, with what follows it. *)
Fixpoint with_suffix (ms : list (str * Z)) (s : str) : Z :=
  match ms with
  | [] => default 0 (parse_uint u64_max s)
  | (suffix, mult) :: ms =>
      match strip_suffix s suffix with
      | Some stripped =>
          match parse_uint u64_max stripped with
          | Some n => Z.min (n * mult) u64_max
          | None => 0
          end
      | None => with_suffix ms s
      end
  end.

Definition parse_quantity_to_bytes (raw : str) : Z := with_suffix multipliers (trim raw).

(** The cast of the quotient to [u32] keeps the low bits. *)
Definition parse_metrics_cpu_to_millis (raw : str) : Z :=
  let s := trim raw in
  match strip_suffix s (lit "n") with
  | Some stripped => default 0 ((λ n, as_u32 (n / 1000000)) <$> parse_uint u64_max stripped)
  | None =>
      match strip_suffix s (lit "u") with
      | Some stripped => default 0 ((λ n, as_u32 (n / 1000)) <$> parse_uint u64_max stripped)
      | None => parse_quantity_to_millis s
      end
  end.

Definition cluster_kind_from_git_version (git_version : str) : ClusterKind :=
  let v := to_ascii_lowercase <$> git_version in
  if contains v (lit "eks") then Eks
  else if contains v (lit "gke") then Gke
  else if contains v (lit "aks") then Aks
  else if contains v (lit "k3d") then K3d
  else if contains v (lit "k3s") then K3s
  else if contains v (lit "kind") then Kind
  else if contains v (lit "openshift") then Openshift
  else Generic.

(** ** API objects *)

Record ObjectMeta := mkMeta {
  meta_name : option str;
  meta_namespace : option str;
  creation_timestamp : option Z;  (* milliseconds *)
  deletion_timestamp : option Z;
  labels : option (list str);     (* the keys *)
}.

Record ContainerStatus := mkStatus {
  cs_ready : bool;
  restart_count : Z;
  waiting_reason : option str;    (* state.waiting.reason *)
}.

Record Pod := mkK8sPod {
  pod_metadata : ObjectMeta;
  spec_node_name : option str;    (* spec.node_name *)
  pod_status : option (option str * option str * option (list ContainerStatus));
                                  (* phase, qos_class, container_statuses *)
}.

Record Node := mkK8sNode {
  node_metadata : ObjectMeta;
  unschedulable : option bool;
  conditions : option (list (str * str));        (* type, status *)
  kubelet_version_of : option str;               (* status.node_info *)
  capacity : option (gmap str str);
  allocatable : option (gmap str str);
}.

Record Deployment := mkK8sDeployment {
  dep_metadata : ObjectMeta;
  spec_replicas : option Z;
  spec_strategy : option str;                    (* spec.strategy.type *)
  dep_status : option (option Z * option Z * option Z);
                                  (* ready, updated, available replicas *)
}.

(** ** Caches *)

Record ResourceCache := mkResources {
  cached_pods : list Pod;
  cached_nodes : list Node;
  cached_deployments : list Deployment;
  last_update_ms : Z;
}.

#[export] Instance ResourceCache_eta : Eta ResourceCache := λ c,
  mkResources (cached_pods c) (cached_nodes c) (cached_deployments c) (last_update_ms c).

Record MetricsCache := mkMetrics {
  available : bool;
  metrics_pods : gmap (str * str) (Z * Z);
  metrics_nodes : gmap str (Z * Z);
}.

Definition ResourceCache_default : ResourceCache := mkResources [] [] [] 0.
Definition MetricsCache_default : MetricsCache := mkMetrics false ∅ ∅.

(** ** Conversions *)

Definition creation_age_seconds (creation : option Z) (now_ms : Z) : Z :=
  match creation with
  | None => 0
  | Some created_ms =>
      if created_ms <=? 0 then 0 else saturating_sub now_ms created_ms / 1000
  end.

Definition container_statuses (pod : Pod) : option (list ContainerStatus) :=
  '(_, _, cs) ← pod_status pod; cs.

Definition pod_phase_synthetic (pod : Pod) : PodPhase :=
  if bool_decide (is_Some (deletion_timestamp (pod_metadata pod))) then Terminating
  else if match container_statuses pod with
          | Some statuses =>
              existsb (λ cs, bool_decide (waiting_reason cs = Some (lit "CrashLoopBackOff"))) statuses
          | None => false
          end then CrashLoop
  else
    let phase := default [] ('(ph, _, _) ← pod_status pod; ph) in
    if bool_decide (phase = lit "Pending") then PodPending
    else if bool_decide (phase = lit "Running") then PodRunning
    else if bool_decide (phase = lit "Succeeded") then PodSucceeded
    else if bool_decide (phase = lit "Failed") then PodFailed
    else PodUnknown.

Definition pod_ready_ratio (pod : Pod) : Z * Z :=
  match container_statuses pod with
  | Some l =>
      (Z.min (Z.of_nat (length (List.filter cs_ready l))) u8_max,
       Z.min (Z.of_nat (length l)) u8_max)
  | None => (0, 0)
  end.

(** The sum of the restart counts, in [u32]. *)
Definition pod_restart_count (pod : Pod) : Z :=
  match container_statuses pod with
  | Some l => foldl (λ acc cs, as_u32 (acc + Z.max (restart_count cs) 0)) 0 l
  | None => 0
  end.

Definition pod_qos (pod : Pod) : QosClass :=
  let q := default [] ('(_, q, _) ← pod_status pod; q) in
  if bool_decide (q = lit "Guaranteed") then Guaranteed
  else if bool_decide (q = lit "Burstable") then Burstable
  else BestEffort.

Definition pod_to_snapshot (pod : Pod) (metrics : MetricsCache) (now_ms : Z) : PodSnapshot :=
  let namespace := default [] (meta_namespace (pod_metadata pod)) in
  let name := default [] (meta_name (pod_metadata pod)) in
  let m := metrics_pods metrics !! (namespace, name) in
  mkPod namespace name (pod_phase_synthetic pod) (pod_ready_ratio pod) (pod_restart_count pod)
    (creation_age_seconds (creation_timestamp (pod_metadata pod)) now_ms)
    (default [] (spec_node_name pod)) (fst <$> m) (snd <$> m) (pod_qos pod).

(** The status of the first [Ready] condition. *)
Fixpoint ready_condition (cs : list (str * str)) : NodeStatus :=
  match cs with
  | [] => NodeUnknown
  | (type_, status) :: cs =>
      if bool_decide (type_ = lit "Ready") then
        if bool_decide (status = lit "True") then NodeReady
        else if bool_decide (status = lit "False") then NotReady
        else NodeUnknown
      else ready_condition cs
  end.

Definition node_status_synthetic (node : Node) : NodeStatus :=
  if bool_decide (unschedulable node = Some true) then SchedulingDisabled
  else match conditions node with
       | Some cs => ready_condition cs
       | None => NodeUnknown
       end.

Definition roles_of (node : Node) : list str :=
  match labels (node_metadata node) with
  | None => []
  | Some keys =>
      sort_by str_cmp (omap (λ k, role ← strip_prefix k (lit "node-role.kubernetes.io/");
                                  if bool_decide (role = []) then None else Some role) keys)
  end.

Definition cpu_of (m : gmap str str) : Z := default 0 (parse_quantity_to_millis <$> m !! lit "cpu").
Definition memory_of (m : gmap str str) : Z :=
  default 0 (parse_quantity_to_bytes <$> m !! lit "memory").

Definition node_to_snapshot (node : Node) (metrics : MetricsCache) (now_ms : Z) : NodeSnapshot :=
  let name := default [] (meta_name (node_metadata node)) in
  let m := metrics_nodes metrics !! name in
  mkNode name (node_status_synthetic node) (roles_of node)
    (creation_age_seconds (creation_timestamp (node_metadata node)) now_ms)
    (default [] (kubelet_version_of node))
    (default 0 (cpu_of <$> capacity node)) (default 0 (cpu_of <$> allocatable node)) (fst <$> m)
    (default 0 (memory_of <$> capacity node)) (default 0 (memory_of <$> allocatable node))
    (snd <$> m) 0
    (default 0 (caps ← capacity node; q ← caps !! lit "pods"; parse_uint u32_max q)).

Definition deployment_to_snapshot (d : Deployment) (now_ms : Z) : DeploymentSnapshot :=
  let count (o : option Z) := Z.max (default 0 o) 0 in
  let '(ready, uptodate, avail) :=
    match dep_status d with
    | Some (r, u, a) => (count r, count u, count a)
    | None => (0, 0, 0)
    end in
  mkDeployment (default [] (meta_namespace (dep_metadata d)))
    (default [] (meta_name (dep_metadata d))) (count (spec_replicas d)) ready uptodate avail
    (creation_age_seconds (creation_timestamp (dep_metadata d)) now_ms)
    (match spec_strategy d with
     | Some t => if bool_decide (t = lit "Recreate") then Recreate else RollingUpdate
     | None => RollingUpdate
     end).

(** The pods that occupy their node. *)
Definition occupies (p : PodSnapshot) : bool :=
  negb (bool_decide (pod_node p = []) || bool_decide (phase p = PodSucceeded)
        || bool_decide (phase p = PodFailed)).

Definition pods_per_node (ps : list PodSnapshot) : gmap str Z :=
  foldl (λ counts p,
    if occupies p
    then <[pod_node p := as_u32 (default 0 (counts !! pod_node p) + 1)]> counts
    else counts) ∅ ps.

Definition with_pod_count (scheduled : gmap str Z) (n : NodeSnapshot) : NodeSnapshot :=
  mkNode (node_name n) (node_status n) (node_roles n) (node_age_seconds n) (kubelet_version n)
    (cpu_capacity_millis n) (cpu_allocatable_millis n) (cpu_used_millis n)
    (mem_capacity_bytes n) (mem_allocatable_bytes n) (node_mem_used_bytes n)
    (default 0 (scheduled !! node_name n)) (pod_capacity n).

(** ** The engine *)

Record KubeEngine := mkEngine {
  engine_kind : ClusterKind;
  engine_version : option str;
  scoped_namespace : str;
  scope : KubeScope;
  resources : ResourceCache;
  metrics : MetricsCache;
}.

#[export] Instance KubeEngine_eta : Eta KubeEngine := λ e,
  mkEngine (engine_kind e) (engine_version e) (scoped_namespace e) (scope e) (resources e)
    (metrics e).

(** The end of [connect]: what was probed, and the two uses of the namespace. *)
Definition connected (kind : ClusterKind) (version namespace : option str)
    (resolved_namespace : str) : KubeEngine :=
  mkEngine kind version (default resolved_namespace namespace)
    (match namespace with Some ns => Namespace ns | None => AllNamespaces end)
    ResourceCache_default MetricsCache_default.

Section Connect.
(** [Debug] of a string. *)
Variable debug_str : str → str.

(** The namespace of the configuration, the failure to build a client, and the
    answer to the version probe are inputs. *)
Definition connect (namespace : option str) (config : result str ClusterError)
    (client_error : option str) (probe : option (ClusterKind * str))
    : result KubeEngine ClusterError :=
  match (match namespace with
         | Some ns =>
             if is_valid_namespace ns then None
             else Some (OtherError (lit "invalid namespace " ++ debug_str ns
                        ++ lit ": expected a DNS-1123 label (1-63 chars, lowercase alphanumeric "
                        ++ lit "or '-', starting and ending alphanumeric)"))
         | None => None
         end) with
  | Some e => Err e
  | None =>
      match config with
      | Err e => Err e
      | Ok resolved_namespace =>
          match client_error with
          | Some e => Err (Unreachable (lit "client init failed: " ++ e))
          | None =>
              Ok (connected (default Generic (fst <$> probe)) (snd <$> probe) namespace
                    resolved_namespace)
          end
      end
  end.
End Connect.

Definition snapshot (now_ms : Z) (self : KubeEngine) : KubeSnapshot :=
  let ps := (λ p, pod_to_snapshot p (metrics self) now_ms) <$> cached_pods (resources self) in
  let ns := (λ n, node_to_snapshot n (metrics self) now_ms) <$> cached_nodes (resources self) in
  mkKube (engine_kind self) (engine_version self) (scope_label (scope self))
    (0 <? last_update_ms (resources self)) (available (metrics self)) ps
    (with_pod_count (pods_per_node ps) <$> ns)
    ((λ d, deployment_to_snapshot d now_ms) <$> cached_deployments (resources self)).

(** In one step: the code lets go of the scope's lock before it takes the cache's,
    so that a snapshot taken in between would show old rows under the new label. *)
Definition set_scope (sc : KubeScope) (self : KubeEngine) : KubeEngine :=
  self <| scope := sc |>
       <| resources ::= λ r, r <| cached_pods := [] |> <| cached_deployments := [] |> |>.

Definition toggle_scope (self : KubeEngine) : KubeEngine :=
  set_scope (match scope self with
             | AllNamespaces => Namespace (scoped_namespace self)
             | Namespace _ => AllNamespaces
             end) self.

(** ** Polls *)

(** The three lists; [None] is an error or a timeout, and keeps the cache. *)
Definition tick_resources (pods : option (list Pod)) (nodes : option (list Node))
    (deployments : option (list Deployment)) (now_ms : Z) (w : ResourceCache) : ResourceCache :=
  let w := match pods with Some p => w <| cached_pods := p |> | None => w end in
  let w := match nodes with Some n => w <| cached_nodes := n |> | None => w end in
  let w := match deployments with Some d => w <| cached_deployments := d |> | None => w end in
  w <| last_update_ms := now_ms |>.

(** An item of a metrics reply: the strings at the paths the code follows. *)
Record PodMetrics := mkPodMetrics {
  pm_namespace : option str;
  pm_name : option str;
  usages : list (option str * option str);
}.

Record NodeMetrics := mkNodeMetrics {
  nm_name : option str;
  nm_cpu : option str;
  nm_memory : option str;
}.

Definition pod_usage (cs : list (option str * option str)) : Z * Z :=
  foldl (λ '(cpu, mem) '(c, m),
    (match c with Some c => Z.min (cpu + parse_metrics_cpu_to_millis c) u32_max | None => cpu end,
     match m with Some m => u64_saturating_add mem (parse_quantity_to_bytes m) | None => mem end))
    (0, 0) cs.

Definition add_pod_metrics (acc : gmap (str * str) (Z * Z)) (item : PodMetrics)
    : gmap (str * str) (Z * Z) :=
  let ns := default [] (pm_namespace item) in
  let name := default [] (pm_name item) in
  if negb (bool_decide (ns = [])) && negb (bool_decide (name = []))
  then <[(ns, name) := pod_usage (usages item)]> acc else acc.

Definition add_node_metrics (acc : gmap str (Z * Z)) (item : NodeMetrics) : gmap str (Z * Z) :=
  let name := default [] (nm_name item) in
  if bool_decide (name = []) then acc
  else <[name := (default 0 (parse_metrics_cpu_to_millis <$> nm_cpu item),
                  default 0 (parse_quantity_to_bytes <$> nm_memory item))]> acc.

(** Each reply: [None] when the fetch failed, and otherwise its items, none
    when the body does not parse. *)
Definition tick_metrics (pod_reply : option (list PodMetrics)) (node_reply : option (list NodeMetrics))
    : MetricsCache :=
  match pod_reply, node_reply with
  | None, None => MetricsCache_default
  | _, _ => mkMetrics true (foldl add_pod_metrics ∅ (default [] pod_reply))
                           (foldl add_node_metrics ∅ (default [] node_reply))
  end.

(** ** Interleaving

    Two loops and the user share the engine.  A poll reads the scope when it
    starts and writes the cache when its lists have come back; anything may
    happen in between. *)

Inductive kube_event : Type :=
| PollStart
| PollDone (pods : option (list Pod)) (nodes : option (list Node))
           (deployments : option (list Deployment)) (now_ms : Z)
| MetricsDone (pod_reply : option (list PodMetrics)) (node_reply : option (list NodeMetrics))
| ToggleScope.

(** The engine, and the scope a poll in flight is listing. *)
Definition kube_step (st : KubeEngine * option KubeScope) (ev : kube_event)
    : KubeEngine * option KubeScope :=
  let '(self, listing) := st in
  match ev with
  | PollStart =>
      (self, match listing with Some sc => Some sc | None => Some (scope self) end)
  | PollDone ps ns ds now =>
      match listing with
      | Some _ => (self <| resources ::= tick_resources ps ns ds now |>, None)
      | None => (self, None)
      end
  | MetricsDone p n => (self <| metrics := tick_metrics p n |>, listing)
  | ToggleScope => (toggle_scope self, listing)
  end.

Definition kube_run (evs : list kube_event) (self : KubeEngine) : KubeEngine * option KubeScope :=
  foldl kube_step (self, None) evs.

(** ** Properties *)

(** *** Quantities *)

Lemma strip_suffix_rev s k p :
  strip_suffix (s ++ k) p = reverse <$> strip_prefix (reverse k ++ reverse s) (reverse p).
Proof. unfold strip_suffix. by rewrite reverse_app. Qed.

Lemma quantity_trim ds suffix :
  forallb is_digit ds = true → Forall (λ c, is_whitespace c = false) suffix →
  trim (ds ++ suffix) = ds ++ suffix.
Proof. intros Hd Hs. apply trim_id, Forall_app. split; [by apply digits_no_space|done]. Qed.

(** Digits end with no suffix. *)
Lemma digits_strip_suffix ds p d :
  ds ≠ [] → forallb is_digit ds = true → is_digit d = false → strip_suffix ds (p ++ [d]) = None.
Proof.
  intros Hne Hd Hc. destruct (exists_last Hne) as (s & c & ->). apply strip_suffix_last.
  intros ->. rewrite forallb_app in Hd. simpl in Hd. rewrite Hc in Hd. by destruct (forallb _ _).
Qed.

Definition times (max mult v : Z) : Z := if v <=? max then Z.min (v * mult) max else 0.

Lemma with_suffix_none ms s :
  Forall (λ sm, strip_suffix s sm.1 = None) ms →
  with_suffix ms s = default 0 (parse_uint u64_max s).
Proof. induction 1 as [|[suffix m] ms Hs Hms IH]; simpl in *; [done|]. by rewrite Hs. Qed.

(** Evaluates the reversed suffixes a goal tries. *)
Ltac reverse_literals :=
  repeat match goal with
         | |- context [reverse (lit ?s)] =>
             let v := eval vm_compute in (reverse (lit s)) in change (reverse (lit s)) with v
         end.

Lemma with_suffix_found s suffix mult :
  (suffix, mult) ∈ multipliers →
  with_suffix multipliers (s ++ suffix)
  = match parse_uint u64_max s with Some n => Z.min (n * mult) u64_max | None => 0 end.
Proof.
  intros Hin. unfold multipliers in Hin.
  repeat (apply elem_of_cons in Hin as [[= -> ->]|Hin]);
    [unfold multipliers, with_suffix; rewrite !strip_suffix_rev; reverse_literals;
     cbn -[reverse u64_max Z.mul Z.pow]; by rewrite reverse_involutive..|].
  by apply not_elem_of_nil in Hin.
Qed.

Lemma multipliers_letters :
  Forall (λ sm : str * Z, Forall (λ c, is_whitespace c = false) sm.1 ∧
            is_digit (List.last sm.1 0) = false ∧ sm.1 ≠ []) multipliers.
Proof. refine (bool_decide_unpack _ _). vm_compute. exact I. Qed.

(** Memory quantities are read as Kubernetes writes them: digits alone are
    bytes, digits with one of the eight suffixes are multiplied by its power of
    1024 or of 1000 and capped at the 64-bit maximum, and a count that does not
    fit is 0. *)
Theorem quantity_bytes ds :
  ds ≠ [] → forallb is_digit ds = true →
  parse_quantity_to_bytes ds = times u64_max 1 (digits_value ds) ∧
  ∀ suffix mult, (suffix, mult) ∈ multipliers →
    parse_quantity_to_bytes (ds ++ suffix) = times u64_max mult (digits_value ds).
Proof.
  intros Hne Hd. unfold times, parse_quantity_to_bytes.
  pose proof (parse_uint_digits u64_max ds Hne Hd) as Hp.
  pose proof multipliers_letters as Hm. rewrite Forall_forall in Hm. split.
  - rewrite trim_id by (by apply digits_no_space). rewrite with_suffix_none, Hp.
    + destruct (Z.leb_spec (digits_value ds) u64_max); simpl; lia.
    + apply Forall_forall. intros [suffix m] (_ & Hl & Hs)%Hm. simpl in *.
      destruct (exists_last Hs) as (p & c & ->). rewrite last_last in Hl.
      by apply digits_strip_suffix.
  - intros suffix mult Hin. destruct (Hm _ Hin) as [Hw _].
    rewrite quantity_trim by done. rewrite (with_suffix_found ds suffix mult Hin), Hp.
    by destruct (Z.leb_spec (digits_value ds) u64_max).
Qed.

Lemma quantity_bytes_witness :
  [49; 54] ≠ [] ∧ forallb is_digit [49; 54] = true ∧
  (parse_quantity_to_bytes [49; 54] = times u64_max 1 16 ∧
   ∀ suffix mult, (suffix, mult) ∈ multipliers →
     parse_quantity_to_bytes ([49; 54] ++ suffix) = times u64_max mult 16).
Proof.
  split; [discriminate|split; [reflexivity|]]. apply (quantity_bytes [49; 54]);
    [discriminate|reflexivity].
Defined.

(** *** Pods per node *)

(** The pods of a snapshot that occupy the node [n]. *)
Definition occupants (n : str) (ps : list PodSnapshot) : list PodSnapshot :=
  List.filter (λ p, bool_decide (pod_node p = n) && negb (bool_decide (phase p = PodSucceeded))
                    && negb (bool_decide (phase p = PodFailed))) ps.

Lemma as_u32_succ n : as_u32 (as_u32 n + 1) = as_u32 (n + 1).
Proof. unfold as_u32. by rewrite Zplus_mod_idemp_l. Qed.

Lemma pods_per_node_spec n ps :
  n ≠ [] → default 0 (pods_per_node ps !! n) = as_u32 (Z.of_nat (length (occupants n ps))).
Proof.
  intros Hn. unfold pods_per_node, occupants.
  induction ps as [|p ps IH] using rev_ind; [done|].
  rewrite foldl_snoc, List.filter_app, length_app. simpl.
  set (counts := foldl _ ∅ ps) in *. unfold occupies at 1.
  destruct (decide (pod_node p = n)) as [Hp|Hp].
  - rewrite Hp, (bool_decide_eq_false_2 (n = [])), (bool_decide_eq_true_2 (n = n)) by done. simpl.
    destruct (bool_decide (phase p = PodSucceeded)), (bool_decide (phase p = PodFailed)); simpl;
      try (rewrite IH; f_equal; lia).
    rewrite lookup_insert_eq. simpl. rewrite IH, as_u32_succ. f_equal. lia.
  - rewrite (bool_decide_eq_false_2 (pod_node p = n)) by done. simpl.
    rewrite Nat.add_0_r, <- IH. case_match; [|done]. by rewrite lookup_insert_ne.
Qed.

(** The pod count of a node is the count of the pods shown on it: in every
    snapshot, each named node counts exactly the pods of that same snapshot that
    run on it and have neither succeeded nor failed, and a pod never has more
    containers ready than containers. *)
Theorem pod_counts_agree self now_ms :
  let snap := snapshot now_ms self in
  Forall (λ n, node_name n ≠ [] →
    pod_count n = as_u32 (Z.of_nat (length (occupants (node_name n) (pods snap))))) (nodes snap) ∧
  Forall (λ p, 0 ≤ (ready p).1 ≤ (ready p).2 ∧ (ready p).2 ≤ u8_max) (pods snap).
Proof.
  split.
  - apply Forall_fmap, Forall_forall. intros n _ Hn. by apply pods_per_node_spec.
  - apply Forall_fmap, Forall_forall. intros p _. simpl. unfold pod_ready_ratio, u8_max.
    destruct (container_statuses p) as [l|]; simpl; [|lia].
    pose proof (List.filter_length_le cs_ready l). lia.
Qed.

(** *** Scope *)

(** What a list in a scope may hold. *)
Definition of_scope (sc : KubeScope) (m : ObjectMeta) : Prop :=
  match sc with AllNamespaces => True | Namespace ns => meta_namespace m = Some ns end.

Definition cache_in_scope (self : KubeEngine) : Prop :=
  Forall (λ p, of_scope (scope self) (pod_metadata p)) (cached_pods (resources self)) ∧
  Forall (λ d, of_scope (scope self) (dep_metadata d)) (cached_deployments (resources self)).

Definition answers (sc : KubeScope) (ps : option (list Pod)) (ds : option (list Deployment)) : Prop :=
  Forall (λ p, of_scope sc (pod_metadata p)) (default [] ps) ∧
  Forall (λ d, of_scope sc (dep_metadata d)) (default [] ds).

(** The API server answers in the scope asked for, and the scope does not
    change while a poll is in flight. *)
Fixpoint orderly (st : KubeEngine * option KubeScope) (evs : list kube_event) : Prop :=
  match evs with
  | [] => True
  | ev :: evs =>
      match ev, st.2 with
      | PollDone ps _ ds _, Some sc => answers sc ps ds
      | ToggleScope, Some _ => False
      | _, _ => True
      end ∧ orderly (kube_step st ev) evs
  end.

Definition scoped_ok (st : KubeEngine * option KubeScope) : Prop :=
  cache_in_scope st.1 ∧ match st.2 with Some sc => sc = scope st.1 | None => True end.

Lemma tick_resources_in_scope self ps ns ds now :
  cache_in_scope self → answers (scope self) ps ds →
  cache_in_scope (self <| resources ::= tick_resources ps ns ds now |>).
Proof.
  intros [Hp Hd] [Hps Hds]. unfold cache_in_scope, tick_resources.
  destruct ps, ns, ds; by split.
Qed.

Lemma kube_step_ok st ev evs : scoped_ok st → orderly st (ev :: evs) → scoped_ok (kube_step st ev).
Proof.
  destruct st as [self listing]. intros [Hc Hl] [Ho _]. simpl in *.
  destruct ev as [|ps ns ds now|p n|]; simpl.
  - split; [done|]. by destruct listing.
  - destruct listing as [sc|]; [|done]. subst sc. split; [|done]. by apply tick_resources_in_scope.
  - by split.
  - destruct listing; [done|]. split; [|done]. split; constructor.
Qed.

(** C27: a scoped engine shows only its namespace: as long as the scope is not
    changed while a poll is in flight, whatever polls succeed or fail in part
    and however often the user switches between them, every pod and deployment
    in the cache belongs to the scope the snapshot is labelled with. *)
Theorem cache_follows_scope kind version namespace resolved evs :
  let self := connected kind version namespace resolved in
  orderly (self, None) evs → cache_in_scope (kube_run evs self).1.
Proof.
  intros self Ho. assert (scoped_ok (self, None)) as Hs by (split; [split; constructor|done]).
  unfold kube_run. generalize dependent (self, @None KubeScope). clear self.
  induction evs as [|ev evs IH]; intros st Ho Hs; [apply Hs|]. simpl.
  apply IH; [apply Ho|]. by eapply kube_step_ok.
Qed.

Definition demo_meta (ns name : string) : ObjectMeta :=
  mkMeta (Some (lit name)) (Some (lit ns)) None None None.
Definition demo_k8s_pod (ns name : string) : Pod := mkK8sPod (demo_meta ns name) None None.

Definition demo_polls : list kube_event :=
  [PollStart; PollDone (Some [demo_k8s_pod "kube-system" "dns"]) None None 1; ToggleScope;
   PollStart; PollDone (Some [demo_k8s_pod "team-a" "web"]) (Some []) None 2].

Lemma cache_follows_scope_witness :
  let self := connected Generic None None (lit "team-a") in
  cached_pods (resources (kube_run demo_polls self).1) = [demo_k8s_pod "team-a" "web"] ∧
  cache_in_scope (kube_run demo_polls self).1.
Proof.
  intros self. split; [reflexivity|].
  apply (cache_follows_scope Generic None None (lit "team-a") demo_polls).
  cbn. repeat split; repeat constructor.
Defined.

(** The proviso is needed: a poll that started cluster-wide and ends after the
    user has narrowed the scope puts back the rows of the other namespaces,
    under the label of the new one, until the next poll. *)
Lemma rescope_race :
  let st := kube_run [PollStart; ToggleScope;
                      PollDone (Some [demo_k8s_pod "kube-system" "dns"]) None None 1]
              (connected Generic None None (lit "team-a")) in
  let snap := snapshot 2 st.1 in
  current_namespace snap = lit "team-a" ∧ pod_namespace <$> pods snap = [lit "kube-system"].
Proof. split; reflexivity. Qed.

(** A cpu reading beyond 32 bits is not saturated, it wraps. *)
Lemma metrics_cpu_wraps : parse_metrics_cpu_to_millis (lit "4294967296000000n") = 0.
Proof. reflexivity. Qed.

(** The namespace given on the command line is checked before it can be the
    scope of a request; the one a cluster-wide engine narrows to comes from the
    configuration, and is not. *)
Lemma connect_checks_namespace debug_str namespace config client_error probe self :
  connect debug_str namespace config client_error probe = Ok self →
  ∀ ns, scope_namespace (scope self) = Some ns → is_valid_namespace ns = true.
Proof.
  unfold connect. intros H ns Hns.
  destruct namespace as [ns'|]; [destruct (is_valid_namespace ns') eqn:E|]; try done;
    destruct config as [r|], client_error; try done; injection H as <-; simpl in Hns; try done.
  by injection Hns as <-.
Qed.

Lemma narrowed_scope_is_unchecked :
  ∃ self, connect id None (Ok (lit "a/../b?c")) None None = Ok self ∧
    pod_path (scope (toggle_scope self))
      = lit "/apis/metrics.k8s.io/v1beta1/namespaces/a/../b?c/pods".
Proof. eexists. split; reflexivity. Qed.
