(* ===== verification/KubeClient.v ===== *)
(** * Talking to the API server: the requests of crates/muxtop-core/src/kube_engine.rs

    What the engine of KubeEngine.v asks of kube-rs and makes of the answers:
    the configuration, the version probe, the lists and the metrics, each under
    a timeout.  The client, serde_json and the clock of the answers are inputs. *)

From S2P Require Import Prelude Str Utf8 RsFloat Num Process Network Gpu Snapshots.
From S2P Require Import Cluster KubeEngine.
Local Open Scope Z_scope.
Local Open Scope record_scope.

Definition POLL_INTERVAL : Duration := from_secs 5.
Definition LIST_TIMEOUT : Duration := from_secs 3.
Definition MAX_METRICS_BODY : Z := 16 * 1024 * 1024.

(** ** serde_json's values *)

(** The names of an object's fields are distinct. *)
Inductive Json : Type :=
| JNull
| JBool (b : bool)
| JNumber (digits : str)
| JString (s : str)
| JArray (l : list Json)
| JObject (fields : list (str * Json)).

Definition get (key : str) (v : Json) : option Json :=
  match v with
  | JObject fields => snd <$> find (λ f, bool_decide (fst f = key)) fields
  | _ => None
  end.

(** [Value::pointer], the names between the slashes being no numbers. *)
Definition pointer (path : list str) (v : Json) : option Json := foldl (λ v key, v ≫= get key) (Some v) path.

Definition as_str (v : Json) : option str := match v with JString s => Some s | _ => None end.
Definition as_array (v : Json) : option (list Json) := match v with JArray l => Some l | _ => None end.

(** ** The configuration *)

Section Config.
(** kube-rs: a kubeconfig and a configuration, of which the code reads and
    writes the default namespace. *)
Context {Kubeconfig Config : Type}.
Variable read_from : str → result Kubeconfig str.
Variable from_custom_kubeconfig : Kubeconfig → option str → result Config str.
Variable incluster : result Config str.
Variable default_namespace : Config → str.
Variable with_default_namespace : str → Config → Config.

Definition namespaced (namespace : option str) (cfg : Config) : Config :=
  match namespace with Some ns => with_default_namespace ns cfg | None => cfg end.

(** The context is the only option set. *)
Definition build_config (source : KubeconfigSource) (context namespace : option str) : result Config ClusterError :=
  match source with
  | SourceNone => Err KubeconfigNotFound
  | SourceEnv path | SourceHome path =>
      match read_from path with
      | Err e => Err (Unreachable (lit "read kubeconfig " ++ path ++ lit ": " ++ e))
      | Ok kc =>
          match from_custom_kubeconfig kc context with
          | Err e => Err (Unreachable (lit "apply kubeconfig: " ++ e))
          | Ok cfg => Ok (namespaced namespace cfg)
          end
      end
  | InCluster =>
      match incluster with
      | Err e => Err (Unreachable (lit "in-cluster config: " ++ e))
      | Ok cfg => Ok (namespaced namespace cfg)
      end
  end.

(** The namespace [connect] resolves. *)
Definition resolved (source : KubeconfigSource) (context namespace : option str) : result str ClusterError :=
  match build_config source context namespace with Ok cfg => Ok (default_namespace cfg) | Err e => Err e end.
End Config.

(** ** Requests *)

Section Requests.
(** The text of a request by its path, [serde_json::from_str], and the texts of
    errors. *)
Variable request_text : str → Future (result str str).
Variable from_str : str → result Json str.
Variable utf8_error : list Z → str.
Variable debug_duration : Duration → str.

Definition probe_version : result (ClusterKind * str) ClusterError :=
  match timeout LIST_TIMEOUT (request_text (lit "/version")) with
  | None => Err (Unreachable (lit "/version timed out after " ++ debug_duration LIST_TIMEOUT))
  | Some (Err e) => Err (Unreachable (lit "/version: " ++ e))
  | Some (Ok body) =>
      match from_str body with
      | Err e => Err (OtherError (lit "/version parse: " ++ e))
      | Ok v =>
          let git_version := default [] (x ← get (lit "gitVersion") v; as_str x) in
          Ok (cluster_kind_from_git_version git_version, git_version)
      end
  end.

(** [Api::list]; a failure is logged. *)
Definition list_or_warn {K : Type} (listed : Future (result (list K) str)) : option (list K) :=
  match timeout LIST_TIMEOUT listed with
  | Some (Ok items) => Some items
  | _ => None
  end.

(** The three lists at once, and what is left of them in the cache. *)
Definition poll_resources (pods : Future (result (list Pod) str)) (nodes : Future (result (list Node) str))
    (deployments : Future (result (list Deployment) str)) (now_ms : Z) (w : ResourceCache) : ResourceCache :=
  tick_resources (list_or_warn pods) (list_or_warn nodes) (list_or_warn deployments) now_ms w.

(** [join!] waits for the slowest. *)
Definition poll_time {K L M : Type} (pods : Future K) (nodes : Future L) (deployments : Future M) : Duration :=
  Z.max (waited LIST_TIMEOUT pods) (Z.max (waited LIST_TIMEOUT nodes) (waited LIST_TIMEOUT deployments)).

(** *** Bodies *)

(** A body is what each read of it would give, and when: an error, or the bytes
    that fit, an empty read being its end.  It need not end. *)
Definition Body : Type := nat → Future (result (list Z) str).

(** [take(limit).read_to_end]: the time until the read number [i] and the ones
    after it are done.  [fuel] bounds the reads. *)
Fixpoint read_to_end (fuel : nat) (limit : Z) (i : nat) (body : Body) : Future (result (list Z) str) :=
  if limit <=? 0 then Some (0, Ok [])
  else match fuel with
  | O => None
  | S fuel =>
      '(t, r) ← body i;
      match r with
      | Err e => Some (t, Err e)
      | Ok [] => Some (t, Ok [])
      | Ok chunk =>
          let chunk := take (Z.to_nat limit) chunk in
          '(t', r) ← read_to_end fuel (limit - Z.of_nat (length chunk)) (S i) body;
          Some (t + t', match r with Ok rest => Ok (chunk ++ rest) | Err e => Err e end)
      end
  end.

(** What the buffer makes of itself once read. *)
Definition body_text (cap : Z) (r : result (list Z) str) : result str ClusterError :=
  match r with
  | Err e => Err (OtherError (lit "metrics body read: " ++ e))
  | Ok buf =>
      if cap <? Z.of_nat (length buf)
      then Err (OtherError (lit "metrics body exceeded " ++ show cap ++ lit " bytes; refusing to buffer it"))
      else match from_utf8 buf with
           | Some text => Ok text
           | None => Err (OtherError (lit "metrics body utf-8: " ++ utf8_error buf))
           end
  end.

Definition read_capped (body : Body) (cap : Z) : Future (result str ClusterError) :=
  '(t, r) ← read_to_end (Z.to_nat (cap + 1)) (cap + 1) 0 body; Some (t, body_text cap r).

(** A streamed request: refused, or a body. *)
Variable request_stream : str → Future (result Body str).

Definition read_capped_body (path : str) : Future (result str ClusterError) :=
  '(t, r) ← request_stream path;
  match r with
  | Err e => Some (t, Err (Unreachable e))
  | Ok body => '(t', r) ← read_capped body MAX_METRICS_BODY; Some (t + t', r)
  end.

Definition fetch_metrics_text (path : str) : option str :=
  match timeout LIST_TIMEOUT (read_capped_body path) with
  | Some (Ok body) => Some body
  | _ => None
  end.

(** *** Metrics *)

Definition str_at (path : list str) (v : Json) : option str := x ← pointer path v; as_str x.

Definition pod_item (item : Json) : PodMetrics :=
  mkPodMetrics (str_at [lit "metadata"; lit "namespace"] item) (str_at [lit "metadata"; lit "name"] item)
    ((λ c, (str_at [lit "usage"; lit "cpu"] c, str_at [lit "usage"; lit "memory"] c)) <$>
       default [] (cs ← get (lit "containers") item; as_array cs)).

Definition node_item (item : Json) : NodeMetrics :=
  mkNodeMetrics (str_at [lit "metadata"; lit "name"] item) (str_at [lit "usage"; lit "cpu"] item)
    (str_at [lit "usage"; lit "memory"] item).

(** The items of a reply; a body that is not the JSON expected has none. *)
Definition items_of (text : str) : list Json :=
  match from_str text with
  | Ok v => default [] (x ← get (lit "items") v; as_array x)
  | Err _ => []
  end.

Definition NODE_PATH : str := lit "/apis/metrics.k8s.io/v1beta1/nodes".

Definition poll_metrics (sc : KubeScope) : MetricsCache :=
  tick_metrics ((λ text, pod_item <$> items_of text) <$> fetch_metrics_text (pod_path sc))
               ((λ text, node_item <$> items_of text) <$> fetch_metrics_text NODE_PATH).

Definition metrics_time (sc : KubeScope) : Duration :=
  Z.max (waited LIST_TIMEOUT (read_capped_body (pod_path sc))) (waited LIST_TIMEOUT (read_capped_body NODE_PATH)).

(** *** Connecting *)

Definition connect_to (debug_str : str → str) (config : result str ClusterError) (client_error : option str)
    (namespace : option str) : result KubeEngine ClusterError :=
  connect debug_str namespace config client_error
    (match probe_version with Ok (kind, version) => Some (kind, version) | Err _ => None end).
End Requests.

(** ** The engine's own accessors *)

Definition metrics_available_now (self : KubeEngine) : bool := available (metrics self).

(** ** The loops

    [tokio::time::interval] with [MissedTickBehavior::Skip]: a tick that comes
    more than 5 ms late is followed by the next multiple of the period. *)

Definition next_deadline (period deadline now : Z) : Instant :=
  if deadline + from_millis 5 <? now then now + period - (now - deadline) mod period else deadline + period.

(** What the API server does with the three lists asked for at some time, and the
    clock of the cache. *)
Record ApiServer := mkApi {
  list_pods : Instant → Future (result (list Pod) str);
  list_nodes : Instant → Future (result (list Node) str);
  list_deployments : Instant → Future (result (list Deployment) str);
  unix_ms : Instant → Z;
}.

(** One poll, begun at [now]: when it is over, and the cache then. *)
Definition poll_at (api : ApiServer) (now : Instant) (cache : ResourceCache) : Instant * ResourceCache :=
  let over := now + poll_time (list_pods api now) (list_nodes api now) (list_deployments api now) in
  (over, poll_resources (list_pods api now) (list_nodes api now) (list_deployments api now)
           (unix_ms api over) cache).

(** The cache at time [t], the next [n] polls considered: the loop is due at
    [deadline] and free at [ready]. *)
Fixpoint cache_at (api : ApiServer) (n : nat) (deadline ready : Instant) (cache : ResourceCache) (t : Instant)
    : ResourceCache :=
  match n with
  | O => cache
  | S n =>
      let now := Z.max deadline ready in
      let '(over, cache') := poll_at api now cache in
      if t <? over then cache
      else cache_at api n (next_deadline POLL_INTERVAL deadline now) over cache' t
  end.

(** ** Properties *)

(** *** Reading a body *)

(** [n] reads from number [i] on that each gave something. *)
Fixpoint delivered (n : nat) (i : nat) (body : Body) : option (Duration * list Z) :=
  match n with
  | O => Some (0, [])
  | S n =>
      match body i with
      | Some (t, Ok (b :: chunk)) => '(t', rest) ← delivered n (S i) body; Some (t + t', b :: chunk ++ rest)
      | _ => None
      end
  end.

Lemma read_bounded fuel limit i body t buf :
  read_to_end fuel limit i body = Some (t, Ok buf) → Z.of_nat (length buf) ≤ Z.max 0 limit.
Proof.
  revert limit i t buf. induction fuel as [|fuel IH]; intros limit i t buf; simpl.
  { destruct (limit <=? 0); [|done]. intros [= <- <-]. simpl. lia. }
  destruct (Z.leb_spec limit 0); [intros [= <- <-]; simpl; lia|].
  destruct (body i) as [[t0 [[|b chunk]|e]]|]; simpl; try done.
  { intros [= <- <-]. simpl. lia. }
  set (c := take _ _). destruct (read_to_end _ _ _ _) as [[t' [rest|e]]|] eqn:E; simpl; try done.
  intros [= <- <-]. apply IH in E. rewrite length_app.
  assert (length c ≤ Z.to_nat limit)%nat by (unfold c; rewrite length_take; lia). lia.
Qed.

(** Every read but the last takes from the limit, so the limit is fuel enough. *)
Lemma read_fuel fuel k limit i body :
  limit ≤ Z.of_nat fuel → read_to_end (fuel + k) limit i body = read_to_end fuel limit i body.
Proof.
  revert limit i. induction fuel as [|fuel IH]; intros limit i Hl.
  { destruct k; simpl in *; by rewrite (proj2 (Z.leb_le limit 0)) by lia. }
  simpl. destruct (Z.leb_spec limit 0); [done|].
  destruct (body i) as [[t0 [[|b chunk]|e]]|]; [done| |done|done]. simpl.
  destruct (Z.to_nat limit) as [|n] eqn:En; [lia|]. simpl. rewrite IH by lia. done.
Qed.

(** Less than the limit was read exactly when the body ended there. *)
Lemma read_whole fuel limit i body t buf :
  limit ≤ Z.of_nat fuel → Z.of_nat (length buf) < limit →
  read_to_end fuel limit i body = Some (t, Ok buf) ↔
  ∃ n t0 t1, delivered n i body = Some (t0, buf) ∧ body (i + n)%nat = Some (t1, Ok []) ∧ t = t0 + t1.
Proof.
  revert limit i t buf. induction fuel as [|fuel IH]; intros limit i t buf Hf Hb; [lia|].
  cbn [read_to_end]. rewrite (proj2 (Z.leb_gt limit 0)) by lia.
  destruct (body i) as [[t0 [[|b chunk]|e]]|] eqn:E; cbn [mbind option_bind].
  - split.
    + intros [= <- <-]. exists 0%nat, 0, t0. rewrite Nat.add_0_r. by split_and!.
    + intros ([|n] & s0 & s1 & Hd & He & ->); cbn [delivered] in Hd; [|by rewrite E in Hd].
      rewrite Nat.add_0_r, E in He. by simplify_eq/=.
  - set (c := take _ _). split.
    + destruct (read_to_end _ _ _ _) as [[t' [rest|e]]|] eqn:Er; cbn [mbind option_bind]; try done. intros [= <- <-].
      assert (c = b :: chunk) as Ec.
      { apply take_ge. rewrite length_app in Hb. destruct (decide (length (b :: chunk) ≤ Z.to_nat limit)%nat); [done|].
        assert (length c = Z.to_nat limit) by (unfold c; rewrite length_take; lia). lia. }
      rewrite Ec in *. apply IH in Er; [|simpl in *; lia|rewrite length_app in Hb; simpl in *; lia].
      destruct Er as (n & s0 & s1 & Hd & He & ->). exists (S n), (t0 + s0), s1. cbn [delivered]. rewrite E, Hd.
      split_and!; [done|by rewrite Nat.add_succ_r|lia].
    + intros ([|n] & s0 & s1 & Hd & He & ->); cbn [delivered] in Hd; [rewrite Nat.add_0_r, E in He; discriminate|].
      rewrite E in Hd. destruct (delivered n (S i) body) as [[s rest]|] eqn:Ed; [|done]. simplify_eq/=.
      rewrite length_app in Hb. assert (c = b :: chunk) as -> by (apply take_ge; simpl in *; lia).
      rewrite (proj2 (IH (limit - Z.of_nat (length (b :: chunk))) (S i) (s + s1) rest ltac:(simpl in *; lia) ltac:(simpl in *; lia)));
        [|by exists n, s, s1; rewrite Nat.add_succ_r in He].
      simpl. f_equal. f_equal. lia.
  - split; [done|]. intros ([|n] & s0 & s1 & Hd & He & ->); cbn [delivered] in Hd; [rewrite Nat.add_0_r, E in He|rewrite E in Hd]; discriminate.
  - split; [done|]. intros ([|n] & s0 & s1 & Hd & He & ->); cbn [delivered] in Hd; [rewrite Nat.add_0_r, E in He|rewrite E in Hd]; discriminate.
Qed.

(** A body whose every read gives something fills the limit. *)
Lemma read_endless fuel limit i body :
  (∀ j, ∃ t chunk, body j = Some (t, Ok chunk) ∧ chunk ≠ []) → limit ≤ Z.of_nat fuel →
  ∃ t buf, read_to_end fuel limit i body = Some (t, Ok buf) ∧ Z.of_nat (length buf) = Z.max 0 limit.
Proof.
  intros Hb. revert limit i. induction fuel as [|fuel IH]; intros limit i Hl; cbn [read_to_end].
  { exists 0, []. rewrite (proj2 (Z.leb_le limit 0)) by lia. split; [done|]. simpl. lia. }
  destruct (Z.leb_spec limit 0); [exists 0, []; split; [done|simpl; lia]|].
  destruct (Hb i) as (t & [|b chunk] & E & Hn); [done|]. rewrite E. cbn [mbind option_bind].
  set (c := take _ _). assert (length c = min (Z.to_nat limit) (length (b :: chunk))) as Hc by apply length_take.
  destruct (IH (limit - Z.of_nat (length c)) (S i)) as (t' & buf & -> & Hlen).
  { simpl in Hc. lia. }
  exists (t + t'), (c ++ buf). split; [done|]. rewrite length_app. lia.
Qed.

(** C26: The metrics backend is not trusted, and what it sends is capped: no more
    than one byte past the cap is ever buffered, a body is accepted exactly when
    it ends within the cap and is UTF-8 (and then it is the text), and a body
    that never ends is refused. *)
Theorem metrics_body_is_capped utf8_error body cap :
  0 ≤ cap →
  (∀ t buf, read_to_end (Z.to_nat (cap + 1)) (cap + 1) 0 body = Some (t, Ok buf) → Z.of_nat (length buf) ≤ cap + 1) ∧
  (∀ t text, read_capped utf8_error body cap = Some (t, Ok text) →
     ∃ n t0 t1, delivered n 0 body = Some (t0, as_bytes text) ∧ body n = Some (t1, Ok []) ∧ t = t0 + t1 ∧
                Z.of_nat (length (as_bytes text)) ≤ cap) ∧
  (∀ n t0 t1 text, is_text text → delivered n 0 body = Some (t0, as_bytes text) → body n = Some (t1, Ok []) →
     Z.of_nat (length (as_bytes text)) ≤ cap → read_capped utf8_error body cap = Some (t0 + t1, Ok text)) ∧
  ((∀ j, ∃ t chunk, body j = Some (t, Ok chunk) ∧ chunk ≠ []) →
   ∃ t, read_capped utf8_error body cap =
        Some (t, Err (OtherError (lit "metrics body exceeded " ++ show cap ++ lit " bytes; refusing to buffer it")))).
Proof.
  intros Hcap. unfold read_capped. split_and!.
  - intros t buf E%read_bounded. lia.
  - intros t text. destruct (read_to_end _ _ _ _) as [[t' [buf|e]]|] eqn:E; simpl; try done.
    destruct (Z.ltb_spec cap (Z.of_nat (length buf))); [done|].
    destruct (from_utf8 buf) as [s|] eqn:Eu; [|done]. intros [= -> ->]. apply from_utf8_bytes in Eu as ->.
    apply read_whole in E as (n & t0 & t1 & Hd & He & ->); [|lia..]. by exists n, t0, t1.
  - intros n t0 t1 text Ht Hd He Hl.
    rewrite (proj2 (read_whole (Z.to_nat (cap + 1)) (cap + 1) 0 body (t0 + t1) (as_bytes text) ltac:(lia) ltac:(lia))) by (by exists n, t0, t1).
    cbn [mbind option_bind body_text]. rewrite (proj2 (Z.ltb_ge _ _)) by lia. by rewrite from_utf8_text.
  - intros Hb. destruct (read_endless (Z.to_nat (cap + 1)) (cap + 1) 0 body Hb) as (t & buf & -> & Hl); [lia|].
    exists t. cbn [mbind option_bind body_text]. by rewrite (proj2 (Z.ltb_lt _ _)) by lia.
Qed.

(** *** The pace of the polls *)

Ltac seconds := unfold LIST_TIMEOUT, POLL_INTERVAL, from_secs, NANOS_PER_SEC in *; lia.

Lemma poll_time_bounds {K L M : Type} (f : Future K) (g : Future L) (h : Future M) :
  poll_time f g h ≤ LIST_TIMEOUT.
Proof. unfold poll_time. destruct f as [[??]|], g as [[??]|], h as [[??]|]; simpl; lia. Qed.

(** A poll that starts on time leaves the loop free for the next one. *)
Lemma on_time api deadline ready cache :
  ready ≤ deadline →
  Z.max deadline ready = deadline ∧ next_deadline POLL_INTERVAL deadline deadline = deadline + POLL_INTERVAL ∧
  (poll_at api deadline cache).1 ≤ deadline + LIST_TIMEOUT ∧
  (poll_at api deadline cache).1 ≤ deadline + POLL_INTERVAL.
Proof.
  intros Hr. assert ((poll_at api deadline cache).1 ≤ deadline + LIST_TIMEOUT) as Hp.
  { unfold poll_at. cbn [fst]. pose proof (poll_time_bounds (list_pods api deadline) (list_nodes api deadline)
      (list_deployments api deadline)). lia. }
  split_and!; [lia| |done|].
  - unfold next_deadline. destruct (Z.ltb_spec (deadline + from_millis 5) deadline); [unfold from_millis in *; lia|done].
  - seconds.
Qed.

(** What every poll from some time on establishes holds from then on. *)
Lemma cache_stays (Q : ResourceCache → Prop) api changed n deadline ready cache t :
  (∀ s c, changed ≤ s → Q c → Q (poll_at api s c).2) →
  changed ≤ deadline → Q cache → Q (cache_at api n deadline ready cache t).
Proof.
  intros HQ. revert deadline ready cache. induction n as [|n IH]; intros deadline ready cache Hd Hc; [done|].
  cbn [cache_at]. pose proof (HQ (Z.max deadline ready) cache ltac:(lia) Hc) as H1.
  destruct (poll_at api (Z.max deadline ready) cache) as [over cache']. destruct (t <? over); [done|].
  apply IH; [|done]. unfold next_deadline. destruct (_ <? _); [|seconds].
  pose proof (Z.mod_pos_bound (Z.max deadline ready - deadline) POLL_INTERVAL ltac:(done)). lia.
Qed.

Lemma cache_catches_up (Q : ResourceCache → Prop) api changed n deadline ready cache t :
  (∀ s c, changed ≤ s → Q (poll_at api s c).2) →
  ready ≤ deadline → deadline < changed + POLL_INTERVAL →
  changed + POLL_INTERVAL + LIST_TIMEOUT ≤ t → t < deadline + Z.of_nat n * POLL_INTERVAL →
  Q (cache_at api n deadline ready cache t).
Proof.
  intros HQ. revert deadline ready cache. induction n as [|n IH]; intros deadline ready cache Hr Hd Ht Hn.
  { seconds. }
  cbn [cache_at]. destruct (on_time api deadline ready cache Hr) as (-> & -> & Ho1 & Ho2).
  pose proof (HQ deadline cache) as Hq. destruct (poll_at api deadline cache) as [over cache']. simpl in *.
  destruct (Z.ltb_spec t over); [seconds|]. destruct (Z.le_gt_cases changed deadline) as [Hc|Hc].
  - apply (cache_stays Q api changed); [by intros; apply HQ|seconds|by apply Hq].
  - apply IH; seconds.
Qed.

(** The server answers a list in time with items of which [P] holds. *)
Definition answers_with {K : Type} (P : list K → Prop) (listed : Future (result (list K) str)) : Prop :=
  ∃ items, list_or_warn listed = Some items ∧ P items.

Lemma poll_lists api s c :
  (∀ P, answers_with P (list_pods api s) → P (cached_pods (poll_at api s c).2)) ∧
  (∀ P, answers_with P (list_nodes api s) → P (cached_nodes (poll_at api s c).2)) ∧
  (∀ P, answers_with P (list_deployments api s) → P (cached_deployments (poll_at api s c).2)).
Proof.
  unfold poll_at, poll_resources, tick_resources. cbn [snd].
  split_and!; intros P (items & -> & Hp); repeat case_match; simplify_eq; done.
Qed.

(** C36: A change in the cluster, or of the scope, is in the cache eight seconds
    later at most.  The loop lists every five seconds from [t0] on, whatever the
    API server does.  If every list of pods asked for since [changed] is answered
    in time with items of which [P] holds, then [P] holds of the cached pods from
    eight seconds after [changed] on, even if no list of nodes or of deployments
    is ever answered; and the same for nodes and for deployments.  And while the
    lists of pods are not answered in time, the cache keeps the pods it had. *)
Theorem changes_are_listed api t0 changed n cache t :
  t0 ≤ changed → changed + from_secs 8 ≤ t → t < t0 + Z.of_nat n * from_secs 5 →
  (∀ P, (∀ s, changed ≤ s → answers_with P (list_pods api s)) →
        P (cached_pods (cache_at api n t0 t0 cache t))) ∧
  (∀ P, (∀ s, changed ≤ s → answers_with P (list_nodes api s)) →
        P (cached_nodes (cache_at api n t0 t0 cache t))) ∧
  (∀ P, (∀ s, changed ≤ s → answers_with P (list_deployments api s)) →
        P (cached_deployments (cache_at api n t0 t0 cache t))) ∧
  ((∀ s, t0 ≤ s → list_or_warn (list_pods api s) = None) →
   cached_pods (cache_at api n t0 t0 cache t) = cached_pods cache).
Proof.
  intros H0 H8 Hn.
  assert (∀ Q : ResourceCache → Prop, (∀ s c, changed ≤ s → Q (poll_at api s c).2) → Q (cache_at api n t0 t0 cache t))
    as Hq.
  { intros Q HQ. apply (cache_catches_up Q api changed); [done|done|seconds..]. }
  split_and!; [intros P HP..|intros Hnone].
  - apply (Hq (λ c, P (cached_pods c))). intros s c Hs. by apply poll_lists, HP.
  - apply (Hq (λ c, P (cached_nodes c))). intros s c Hs. by apply poll_lists, HP.
  - apply (Hq (λ c, P (cached_deployments c))). intros s c Hs. by apply poll_lists, HP.
  - apply (cache_stays (λ c, cached_pods c = cached_pods cache) api t0); [|done..].
    intros s c Hs Hc. unfold poll_at, poll_resources, tick_resources. cbn [snd]. rewrite (Hnone s Hs).
    repeat case_match; simplify_eq; done.
Qed.

(** *** What the metrics are *)

Section Metrics.
Variable from_str : str → result Json str.
Variable request_stream : str → Future (result Body str).
Variable utf8_error : list Z → str.

Lemma pods_added items acc ns name u :
  foldl add_pod_metrics acc items !! (ns, name) = Some u →
  acc !! (ns, name) = Some u ∨
  ∃ item, item ∈ items ∧ pm_namespace item = Some ns ∧ pm_name item = Some name ∧ ns ≠ [] ∧ name ≠ [] ∧
          u = pod_usage (usages item).
Proof.
  revert acc. induction items as [|item items IH]; intros acc; simpl; [by left|]. intros [Ha|H]%IH.
  2: { right. destruct H as (i & Hi & H). exists i. split; [by right|done]. }
  unfold add_pod_metrics in Ha. case_bool_decide as Hns; [by left|]. case_bool_decide as Hn; [by left|]. simpl in Ha.
  apply lookup_insert_Some in Ha as [[[= <- <-] <-]|[_ Ha]]; [|by left]. right. exists item. split; [left|].
  destruct (pm_namespace item), (pm_name item); simpl in *; done.
Qed.

(** Every reading shown is one the server sent for that pod in this poll; what a
    former poll had is gone. *)
Lemma metrics_come_from_the_reply sc ns name u :
  metrics_pods (poll_metrics from_str utf8_error request_stream sc) !! (ns, name) = Some u →
  ∃ text item, fetch_metrics_text utf8_error request_stream (pod_path sc) = Some text ∧
    item ∈ items_of from_str text ∧ str_at [lit "metadata"; lit "namespace"] item = Some ns ∧
    str_at [lit "metadata"; lit "name"] item = Some name ∧ u = pod_usage (usages (pod_item item)).
Proof.
  unfold poll_metrics, tick_metrics. destruct (fetch_metrics_text _ _ (pod_path sc)) as [text|]; simpl.
  - intros [Ha|(i & Hi & H1 & H2 & _ & _ & ->)]%pods_added; [by rewrite lookup_empty in Ha|].
    apply list_elem_of_fmap in Hi as (item & -> & Hi). by exists text, item.
  - destruct (fetch_metrics_text _ _ _); simpl; by rewrite lookup_empty.
Qed.
End Metrics.

(** *** Connecting *)

(** The namespace of the command line replaces the kubeconfig's. *)
Lemma flag_replaces_default {Kubeconfig Config : Type} read from_custom incluster (default_ns : Config → str) with_ns
    source context ns cfg :
  (∀ ns c, default_ns (with_ns ns c) = ns) →
  build_config (Kubeconfig := Kubeconfig) read from_custom incluster with_ns source context (Some ns) = Ok cfg →
  default_ns cfg = ns.
Proof.
  intros Hlaw. unfold build_config, namespaced.
  destruct source as [path|path| |]; [destruct (read path); [|done]; destruct (from_custom _ _); [|done]..|
    destruct incluster; [|done]|done]; intros [= <-]; apply Hlaw.
Qed.

(** A cluster that does not say its version is connected to all the same. *)
Lemma unprobed_cluster_connects text from_str dd debug_str ns resolved :
  probe_version text from_str dd = Err (Unreachable (lit "/version timed out after " ++ dd LIST_TIMEOUT)) →
  (∀ n, ns = Some n → is_valid_namespace n = true) →
  ∃ self, connect_to text from_str dd debug_str (Ok resolved) None ns = Ok self ∧
    engine_kind self = Generic ∧ engine_version self = None ∧ scope_namespace (scope self) = ns.
Proof.
  intros Hp Hn. unfold connect_to, connect. rewrite Hp. destruct ns as [n|]; [rewrite (Hn n eq_refl)|];
    (eexists; split; [reflexivity|done]).
Qed.

(** ** Witnesses *)

(** Two bytes in two reads. *)
Definition small_body : Body := λ i,
  match i with 0%nat => Some (1, Ok [123]) | 1%nat => Some (2, Ok [125]) | _ => Some (3, Ok []) end.

Lemma metrics_body_is_capped_witness :
  0 ≤ 2 ∧ read_capped (λ _, []) small_body 2 = Some (6, Ok (lit "{}")) ∧
  (∃ t, read_capped (λ _, []) (λ _, Some (1, Ok [48; 48])) 2 = Some (t, Err (OtherError
     (lit "metrics body exceeded " ++ show 2 ++ lit " bytes; refusing to buffer it")))).
Proof.
  split; [done|].
  destruct (metrics_body_is_capped (λ _, []) small_body 2 ltac:(done)) as (_ & _ & Hok & _).
  destruct (metrics_body_is_capped (λ _, []) (λ _, Some (1, Ok [48; 48])) 2 ltac:(done)) as (_ & _ & _ & Hlong).
  split.
  - apply (Hok 2%nat 3 3 (lit "{}")); [|reflexivity|reflexivity|vm_compute; discriminate].
    unfold is_text, is_char. repeat constructor; vm_compute; intuition discriminate.
  - apply Hlong. intros j. exists 1, [48; 48]. done.
Defined.

(** Nodes are never listed; a pod that appears after a second is there at nine. *)
Definition slow_api : ApiServer :=
  mkApi (λ s, Some (from_secs 2, Ok (if s <? from_secs 1 then []
                                     else [mkK8sPod (mkMeta (Some (lit "web")) None None None None) None None])))
    (λ _, None) (λ _, Some (from_secs 1, Err (lit "forbidden"))) (λ t, t).

Lemma changes_are_listed_witness :
  length (cached_pods (cache_at slow_api 3 0 0 (mkResources [] [] [] 0) (from_secs 7))) = 0%nat ∧
  length (cached_pods (cache_at slow_api 3 0 0 (mkResources [] [] [] 0) (from_secs 9))) = 1%nat.
Proof.
  split; [vm_compute; reflexivity|].
  destruct (changes_are_listed slow_api 0 (from_secs 1) 3 (mkResources [] [] [] 0) (from_secs 9))
    as (Hp & _); [vm_compute; discriminate|vm_compute; discriminate|vm_compute; reflexivity|].
  apply (Hp (λ l, length l = 1%nat)). intros s Hs. unfold answers_with, slow_api. cbn [list_pods].
  destruct (Z.ltb_spec s (from_secs 1)); [lia|]. eexists. split; reflexivity.
Defined.

(** An item of the reply, found where the code looks for it. *)
Example metrics_item :
  let item := JObject [(lit "metadata", JObject [(lit "namespace", JString (lit "team")); (lit "name", JString (lit "web"))]);
                       (lit "containers", JArray [JObject [(lit "usage", JObject [(lit "cpu", JString (lit "250m"));
                                                                                 (lit "memory", JString (lit "1Ki"))])]])] in
  pod_item item = mkPodMetrics (Some (lit "team")) (Some (lit "web")) [(Some (lit "250m"), Some (lit "1Ki"))] ∧
  pod_usage (usages (pod_item item)) = (250, 1024).
Proof. split; vm_compute; reflexivity. Qed.
