(* ===== verification/Docker.v ===== *)
(** * The container engine: crates/muxtop-core/src/container_engine.rs and
    docker_engine.rs

    Where the daemon is looked for, how it is connected to, and how its answers
    become a snapshot.  The types of bollard are records of the fields the code
    reads; what the daemon and the file system answer are inputs. *)

From S2P Require Import Prelude Str RsFloat Process Network Gpu Snapshots Num.
Local Open Scope Z_scope.

(** ** container_engine.rs *)

Inductive ConnectionTarget : Type :=
| Unix (path : str)
| Http (url : str).

Inductive EngineError : Type :=
| ConnectFailed (msg : str)
| ContainerNotFound (msg : str)
| PermissionDenied (msg : str)
| TimedOut (after : Duration)
| OtherEngine (msg : str).

Definition non_empty (s : str) : option str := if bool_decide (s = []) then None else Some s.

Definition parse_docker_host (raw : str) : option ConnectionTarget :=
  let raw := trim raw in
  match strip_prefix raw (lit "unix://") with
  | Some rest => Unix <$> non_empty rest
  | None =>
      match strip_prefix raw (lit "tcp://") with
      | Some rest => (λ rest, Http (lit "http://" ++ rest)) <$> non_empty rest
      | None =>
          if starts_with raw (lit "http://") || starts_with raw (lit "https://")
          then Some (Http raw) else None
      end
  end.

(** The warning about a host that is not the loopback is in DockerCalls.v. *)
Definition detect_with (env : str → option str) (exists_ : str → bool) (candidates : list str)
    : option ConnectionTarget :=
  match (raw ← env (lit "DOCKER_HOST"); parse_docker_host raw) with
  | Some target => Some target
  | None => Unix <$> find exists_ candidates
  end.

(** [Path::join] with a relative path. *)
Definition path_join (base p : str) : str :=
  if bool_decide (base = []) then p
  else if List.last base 0 =? 47 then base ++ p else base ++ 47 :: p.

Definition detect_socket (env : str → option str) (exists_ : str → bool)
    : option ConnectionTarget :=
  let podman_user := (λ x, path_join x (lit "podman/podman.sock")) <$> env (lit "XDG_RUNTIME_DIR") in
  detect_with env exists_
    ([lit "/var/run/docker.sock"] ++ match podman_user with Some p => [p] | None => [] end
     ++ [lit "/run/podman/podman.sock"]).

(** ** Connecting *)

Definition CONNECT_TIMEOUT : Duration := from_secs 5.
Definition STATS_TIMEOUT : Duration := from_millis 1500.
Definition ACTION_TIMEOUT : Duration := from_secs 10.

Record CachedCpu := mkCached { cpu_usage : Z; system_usage : Z }.

Record DockerEngine := mkDocker {
  docker_kind : EngineKind;
  last_cpu : gmap str CachedCpu;
}.

Definition detect_engine_kind (server_version operating_system : option str) : EngineKind :=
  let sv := to_ascii_lowercase <$> default [] server_version in
  let os := to_ascii_lowercase <$> default [] operating_system in
  if contains sv (lit "podman") || contains os (lit "podman") then Podman
  else if negb (bool_decide (sv = [])) then Snapshots.Docker
  else UnknownEngine.

Section Connecting.
(** Whether a path is a symbolic link, when it can be examined; and what
    connecting to a target and asking for its [/info] gives. *)
Variable symlink : str → option bool.
Variable dial : ConnectionTarget → result (option str * option str) EngineError.

Definition check_socket_symlink (path : str) (allow_symlink : bool) : result unit EngineError :=
  match symlink path with
  | None => Ok tt
  | Some true =>
      if allow_symlink then Ok tt
      else Err (ConnectFailed (lit "refusing to follow symlinked socket: " ++ path
                ++ lit " (auto-detected; pass --docker-socket explicitly to override)"))
  | Some false => Ok tt
  end.

(** The engine, and the targets that were dialled. *)
Definition connect_with (target : ConnectionTarget) (allow_symlink : bool)
    : result DockerEngine EngineError * list ConnectionTarget :=
  match (match target with
         | Unix path => check_socket_symlink path allow_symlink
         | Http _ => Ok tt
         end) with
  | Err e => (Err e, [])
  | Ok _ =>
      (match dial target with
       | Ok (sv, os) => Ok (mkDocker (detect_engine_kind sv os) ∅)
       | Err e => Err e
       end, [target])
  end.

Definition maybe_connect_default_engine (env : str → option str) (exists_ : str → bool)
    (override_socket : option str) : option DockerEngine * list ConnectionTarget :=
  let explicit := bool_decide (is_Some override_socket) in
  match (match override_socket with
         | Some path => Some (Unix path)
         | None => detect_socket env exists_
         end) with
  | None => (None, [])
  | Some target =>
      match connect_with target explicit with
      | (Ok engine, dialled) => (Some engine, dialled)
      | (Err _, dialled) => (None, dialled)
      end
  end.
End Connecting.

(** ** Reading the daemon's answers *)

Inductive BollardError : Type :=
| DockerResponseServerError (status_code : Z) (message : str)
| RequestTimeoutError
| TransportError (text : str)   (* IO, hyper, HTTP client, missing socket *)
| OtherBollard (text : str).

Definition map_bollard_error (e : BollardError) : EngineError :=
  match e with
  | DockerResponseServerError code message =>
      if code =? 404 then ContainerNotFound message
      else if code =? 403 then PermissionDenied message
      else OtherEngine (lit "HTTP " ++ show code ++ lit ": " ++ message)
  | RequestTimeoutError => TimedOut ACTION_TIMEOUT
  | TransportError text => ConnectFailed text
  | OtherBollard text => OtherEngine text
  end.

Inductive ContainerSummaryStateEnum : Type :=
| CREATED | RUNNING | PAUSED | RESTARTING | EXITED | DEAD | REMOVING | EMPTY.

Record ContainerSummary := mkSummary {
  sum_id : option str;
  sum_names : option (list str);
  sum_image : option str;
  sum_state : option ContainerSummaryStateEnum;
  sum_status : option str;
  sum_created : option Z;
}.

Record CpuStats := mkCpuStats {
  total_usage : option Z;          (* cpu_usage.total_usage *)
  system_cpu_usage : option Z;
  online_cpus : option Z;
}.

Record ContainerStatsResponse := mkStats {
  cpu_stats : option CpuStats;
  memory_stats : option (option Z * option Z);                (* usage, limit *)
  stats_networks : option (list (option Z * option Z));       (* rx and tx bytes *)
  io_service_bytes : option (list (option str * option Z));   (* op, value *)
}.

Definition compute_cpu_pct (stats : ContainerStatsResponse) (prev : option CachedCpu) : f32 :=
  match cpu_stats stats with
  | None => f32_zero
  | Some c =>
      let online := f64_of_Z (Z.max (default 1 (online_cpus c)) 1) in
      match prev with
      | None => f32_zero
      | Some p =>
          let cpu_delta :=
            f64_of_Z (saturating_sub (default 0 (total_usage c)) (cpu_usage p)) in
          let system_delta :=
            f64_of_Z (saturating_sub (default 0 (system_cpu_usage c)) (system_usage p)) in
          let hundred := f64_of_Z 100 in
          if float_gt system_delta (S754_zero false) then
            let pct := f64_mul (f64_mul (f64_div cpu_delta system_delta) online) hundred in
            f64_as_f32 (f64_clamp (S754_zero false) (f64_mul online hundred) pct)
          else f32_zero
      end
  end.

Definition map_state (state : option ContainerSummaryStateEnum) : ContainerState :=
  match state with
  | Some CREATED => CtrCreated
  | Some RUNNING => CtrRunning
  | Some PAUSED => CtrPaused
  | Some RESTARTING => CtrRestarting
  | Some EXITED => CtrExited
  | Some DEAD => CtrDead
  | Some REMOVING => CtrRemoving
  | _ => CtrExited
  end.

Fixpoint trim_slashes (s : str) : str :=
  match s with 47 :: s => trim_slashes s | _ => s end.

Definition canonical_name (names : option (list str)) (id : str) : str :=
  match (ns ← names; head ns) with
  | Some s => trim_slashes s
  | None => take 12 id
  end.

Definition sum_blkio (stats : ContainerStatsResponse) (op_label : str) : Z :=
  match io_service_bytes stats with
  | None => 0
  | Some entries =>
      foldl u64_saturating_add 0
        (omap snd (List.filter (λ e, bool_decide
                     ((λ op : str, to_ascii_lowercase <$> op) <$> fst e = Some op_label)) entries))
  end.

Definition sum_networks (stats : ContainerStatsResponse) : Z * Z :=
  match stats_networks stats with
  | None => (0, 0)
  | Some nets =>
      foldl (λ '(rx, tx) n, (u64_saturating_add rx (default 0 (fst n)),
                             u64_saturating_add tx (default 0 (snd n)))) (0, 0) nets
  end.

Definition build_snapshot (summary : ContainerSummary) (stats : ContainerStatsResponse)
    (prev : option CachedCpu) (now_ms : Z) : ContainerSnapshot * CachedCpu :=
  let id := default [] (sum_id summary) in
  let short_id := take 12 id in
  let '(rx, tx) := sum_networks stats in
  let cached := mkCached (default 0 (c ← cpu_stats stats; total_usage c))
                         (default 0 (c ← cpu_stats stats; system_cpu_usage c)) in
  let started := match sum_created summary with
                 | Some c => if 0 <? c then Z.min (c * 1000) u64_max else now_ms
                 | None => now_ms
                 end in
  (mkContainer short_id id (canonical_name (sum_names summary) short_id)
     (default (lit "<unknown>") (sum_image summary)) (map_state (sum_state summary))
     (default [] (sum_status summary)) (compute_cpu_pct stats prev)
     (default 0 (m ← memory_stats stats; m.1)) (default 0 (m ← memory_stats stats; m.2))
     rx tx (sum_blkio stats (lit "read")) (sum_blkio stats (lit "write")) started,
   cached).

(** ** One tick *)

(** [StreamExt::buffer_unordered]: every future's result, in the order they
    complete. *)
Class BufferUnordered := {
  completed : ∀ {A : Type}, list A → list A;
  completed_perm : ∀ {A : Type} (l : list A), completed l ≡ₚ l;
}.

Section Ticks.
Context {Bu : BufferUnordered}.

(** The future of one container. *)
Definition stats_future (stats_of : str → result ContainerStatsResponse EngineError) (now_ms : Z)
    (cache : gmap str CachedCpu) (c : ContainerSummary)
    : result (ContainerSnapshot * CachedCpu) EngineError :=
  let prev := id ← sum_id c; cache !! id in
  match sum_id c with
  | None => Err (OtherEngine (lit "container has no id"))
  | Some id =>
      match stats_of id with
      | Ok stats => Ok (build_snapshot c stats prev now_ms)
      | Err e => Err e
      end
  end.

(** The loop over the results: a failure drops its row only. *)
Definition keep_ok (acc : list ContainerSnapshot * gmap str CachedCpu)
    (r : result (ContainerSnapshot * CachedCpu) EngineError)
    : list ContainerSnapshot * gmap str CachedCpu :=
  match r with
  | Ok (snap, cached) => (acc.1 ++ [snap], <[ctr_id snap := cached]> acc.2)
  | Err _ => acc
  end.

Definition list_and_stats (listed : result (list ContainerSummary) BollardError)
    (stats_of : str → result ContainerStatsResponse EngineError) (now_ms : Z)
    (self : DockerEngine) : result (list ContainerSnapshot) EngineError * DockerEngine :=
  match listed with
  | Err e => (Err (map_bollard_error e), self)
  | Ok cs =>
      let results := completed (stats_future stats_of now_ms (last_cpu self) <$> cs) in
      let '(snapshots, new_cache) := foldl keep_ok ([], ∅) results in
      (Ok snapshots, mkDocker (docker_kind self) new_cache)
  end.
End Ticks.

(** ** Properties *)

Section DockerProps.
Context {Bu : BufferUnordered}.

(** A tick: what was listed, what each container's stats were, and when. *)
Definition tick : Type :=
  result (list ContainerSummary) BollardError * (str → result ContainerStatsResponse EngineError) * Z.

Definition docker_tick (st : list (result (list ContainerSnapshot) EngineError) * DockerEngine)
    (t : tick) : list (result (list ContainerSnapshot) EngineError) * DockerEngine :=
  let '(listed, stats_of, now) := t in
  let '(r, self) := list_and_stats listed stats_of now st.2 in
  (st.1 ++ [r], self).

(** The snapshots an engine produces over its life. *)
Definition docker_run (ticks : list tick) (self : DockerEngine)
    : list (result (list ContainerSnapshot) EngineError) * DockerEngine :=
  foldl docker_tick ([], self) ticks.

Definition rows_of (r : result (list ContainerSnapshot) EngineError) : list ContainerSnapshot :=
  unwrap_or r [].

Definition short_keys (m : gmap str CachedCpu) : Prop :=
  map_Forall (λ id _, (length id ≤ 12)%nat) m.

Lemma build_snapshot_ids c st prev now :
  ctr_id (build_snapshot c st prev now).1 = take 12 (default [] (sum_id c)) ∧
  id_full (build_snapshot c st prev now).1 = default [] (sum_id c) ∧
  cpu_pct (build_snapshot c st prev now).1 = compute_cpu_pct st prev.
Proof. unfold build_snapshot. by destruct (sum_networks st). Qed.

Lemma compute_cpu_pct_first stats : compute_cpu_pct stats None = f32_zero.
Proof. unfold compute_cpu_pct. by destruct (cpu_stats stats). Qed.

(** What a future's snapshot looks like. *)
Lemma stats_future_Ok stats_of now cache c snap cached :
  stats_future stats_of now cache c = Ok (snap, cached) →
  ∃ id stats, sum_id c = Some id ∧ stats_of id = Ok stats ∧
    ctr_id snap = take 12 id ∧ id_full snap = id ∧ cpu_pct snap = compute_cpu_pct stats (cache !! id).
Proof.
  unfold stats_future. destruct (sum_id c) as [id|] eqn:Ei; [|done].
  destruct (stats_of id) as [stats|] eqn:Es; [|done].
  intros H. injection H as H. exists id, stats. simpl in H.
  pose proof (build_snapshot_ids c stats (cache !! id) now) as (H1 & H2 & H3).
  rewrite H in H1, H2, H3. rewrite Ei in H1, H2. done.
Qed.

Lemma keep_ok_rows l acc :
  (foldl keep_ok acc l).1 = acc.1 ++ omap (λ r, match r with Ok p => Some (fst p) | Err _ => None end) l.
Proof.
  revert acc. induction l as [|r l IH]; intros acc; simpl; [by rewrite app_nil_r|].
  rewrite IH. destruct r as [[snap cached]|]; simpl; [by rewrite <- app_assoc|done].
Qed.

Lemma keep_ok_keys l acc :
  Forall (λ r : result (ContainerSnapshot * CachedCpu) EngineError,
    match r with Ok p => (length (ctr_id (fst p)) ≤ 12)%nat | Err _ => True end) l →
  short_keys acc.2 → short_keys (foldl keep_ok acc l).2.
Proof.
  revert acc. induction l as [|r l IH]; intros acc Hl Ha; simpl; [done|].
  inversion Hl as [|? ? Hr Hl']; subst. apply IH; [done|].
  destruct r as [[snap cached]|]; simpl in *; [|done]. by apply map_Forall_insert_2.
Qed.

Lemma omap_fmap {A B C} (f : A → B) (g : B → option C) (l : list A) :
  omap g (f <$> l) = omap (λ x, g (f x)) l.
Proof. induction l as [|x l IH]; [done|]. csimpl. by rewrite IH. Qed.

Lemma list_and_stats_rows cs stats_of now self :
  rows_of (list_and_stats (Ok cs) stats_of now self).1 ≡ₚ
  omap (λ c, match stats_future stats_of now (last_cpu self) c with
             | Ok p => Some (fst p) | Err _ => None end) cs.
Proof.
  unfold list_and_stats. destruct (foldl keep_ok _ _) as [rows cache] eqn:E. simpl.
  pose proof (keep_ok_rows (completed (stats_future stats_of now (last_cpu self) <$> cs)) ([], ∅))
    as H. rewrite E in H. simpl in H. rewrite H, completed_perm. by rewrite omap_fmap.
Qed.

Lemma list_and_stats_keys listed stats_of now self :
  short_keys (last_cpu self) → short_keys (last_cpu (list_and_stats listed stats_of now self).2).
Proof.
  intros Hk. unfold list_and_stats. destruct listed as [cs|e]; [|done].
  destruct (foldl keep_ok _ _) as [rows cache] eqn:E. simpl.
  change cache with (rows, cache).2. rewrite <- E. apply keep_ok_keys; [|by apply map_Forall_empty].
  rewrite completed_perm. apply Forall_fmap, Forall_forall. intros c _. simpl.
  destruct (stats_future _ _ _ c) as [[snap cached]|] eqn:Ef; [|done].
  apply stats_future_Ok in Ef as (id & stats & _ & _ & Hid & _). simpl. rewrite Hid, length_take. lia.
Qed.

(** C35: one bad container does not blank the tab: when the daemon answers the
    listing, the rows are exactly the containers whose statistics came back,
    each once, whatever the others failed with and in whatever order the
    requests complete. *)
Theorem failures_stay_in_their_row cs stats_of now self :
  ∃ rows, (list_and_stats (Ok cs) stats_of now self).1 = Ok rows ∧
    id_full <$> rows ≡ₚ omap (λ c, id ← sum_id c;
                                   if is_ok (stats_of id) then Some id else None) cs.
Proof.
  pose proof (list_and_stats_rows cs stats_of now self) as H.
  unfold list_and_stats in *. destruct (foldl keep_ok _ _) as [rows cache]. simpl in *.
  exists rows. split; [done|]. rewrite H, list_fmap_omap.
  rewrite (list_omap_ext _ (λ c, id ← sum_id c; if is_ok (stats_of id) then Some id else None) cs cs);
    [done|].
  apply Forall_Forall2_diag, Forall_forall. intros c _. simpl.
  destruct (stats_future stats_of now (last_cpu self) c) as [[snap cached]|] eqn:Ef.
  - apply stats_future_Ok in Ef as (id & stats & -> & Hs & _ & Hi & _). simpl. by rewrite Hs, Hi.
  - unfold stats_future in Ef. destruct (sum_id c) as [id|]; [|done]. simpl.
    by destruct (stats_of id).
Qed.

(** The ids of a tick, as long as Docker's: more than the twelve characters of
    the short form. *)
Definition full_ids (t : tick) : Prop :=
  match t.1.1 with
  | Ok cs => Forall (λ c, match sum_id c with Some id => (12 < length id)%nat | None => True end) cs
  | Err _ => True
  end.

Lemma tick_no_cpu cs stats_of now self :
  short_keys (last_cpu self) → full_ids (Ok cs, stats_of, now) →
  Forall (λ r, cpu_pct r = f32_zero) (rows_of (list_and_stats (Ok cs) stats_of now self).1).
Proof.
  intros Hk Hf. rewrite list_and_stats_rows. apply Forall_forall. intros snap Hin.
  apply list_elem_of_omap in Hin as (c & Hc & Ef).
  destruct (stats_future stats_of now (last_cpu self) c) as [[snap' cached]|] eqn:E; [|done].
  injection Ef as ->. apply stats_future_Ok in E as (id & stats & Hid & _ & _ & _ & ->).
  unfold full_ids in Hf. simpl in Hf. rewrite Forall_forall in Hf. pose proof (Hf c Hc) as Hl.
  rewrite Hid in Hl. destruct (last_cpu self !! id) as [p|] eqn:El; [|apply compute_cpu_pct_first].
  apply Hk in El. lia.
Qed.

(** The CPU column of the containers never shows anything.  The readings
    of a tick are filed under the short id and looked up, at the next tick,
    under the full one; so as long as ids are longer than twelve characters, as
    those of Docker and Podman are, every row of every tick of an engine's life
    says 0%. *)
Theorem cpu_is_always_zero kind ticks :
  Forall full_ids ticks →
  Forall (λ r, Forall (λ row, cpu_pct row = f32_zero) (rows_of r))
    (docker_run ticks (mkDocker kind ∅)).1.
Proof.
  intros Hf. unfold docker_run.
  assert (Forall (λ r, Forall (λ row, cpu_pct row = f32_zero) (rows_of r))
            ([] : list (result (list ContainerSnapshot) EngineError)) ∧
          short_keys (last_cpu (mkDocker kind ∅))) as Hst
    by (split; [constructor|apply map_Forall_empty]).
  change ([], mkDocker kind ∅).1 with ([] : list (result (list ContainerSnapshot) EngineError)) in Hst.
  generalize dependent (mkDocker kind ∅).
  generalize ([] : list (result (list ContainerSnapshot) EngineError)).
  induction Hf as [|[[listed stats_of] now] ticks Ht Hf IH]; intros done_ self [H1 H2]; [done|].
  simpl. destruct (list_and_stats listed stats_of now self) as [r self'] eqn:E.
  apply IH. split.
  - apply Forall_app. split; [done|]. constructor; [|constructor].
    destruct listed as [cs|e]; [|injection E as <- <-; constructor].
    pose proof (tick_no_cpu cs stats_of now self H2 Ht) as H. by rewrite E in H.
  - pose proof (list_and_stats_keys listed stats_of now self H2) as H. by rewrite E in H.
Qed.
End DockerProps.

(** C32: which socket is dialled: the one of [--docker-socket] as it is, a symbolic
    link or not, and no other; without it the one detected, whether guessed or
    named by DOCKER_HOST, but never when that is the path of a link, and then
    nothing is tried in its place; and a URL as it is.  The engine is there
    exactly when something was dialled and answered. *)
Theorem guessed_socket_is_no_symlink symlink dial env exists_ override_socket :
  let '(engine, dialled) := maybe_connect_default_engine symlink dial env exists_ override_socket in
  match override_socket, detect_socket env exists_ with
  | Some path, _ => dialled = [Unix path]
  | None, Some (Unix path) =>
      (symlink path = Some true → dialled = []) ∧ (symlink path ≠ Some true → dialled = [Unix path])
  | None, Some (Http url) => dialled = [Http url]
  | None, None => dialled = []
  end ∧
  (is_Some engine ↔ ∃ target info, dialled = [target] ∧ dial target = Ok info).
Proof.
  assert (∀ target : ConnectionTarget,
    is_Some (match dial target with Ok (sv, os) => Some (mkDocker (detect_engine_kind sv os) ∅) | Err _ => None end)
    ↔ ∃ t info, [target] = [t] ∧ dial t = Ok info) as Hdial.
  { intros target. destruct (dial target) as [[sv os]|e] eqn:Ed; split.
    - intros _. by exists target, (sv, os).
    - intros _. by eexists.
    - by intros [].
    - intros (t & info & [= <-] & Ht). congruence. }
  assert (is_Some (@None DockerEngine) ↔ ∃ target info, ([] : list ConnectionTarget) = [target] ∧ dial target = Ok info)
    as Hnone by (split; [by intros []|by intros (? & ? & ? & ?)]).
  unfold maybe_connect_default_engine, connect_with, check_socket_symlink.
  destruct override_socket as [path|].
  - rewrite bool_decide_eq_true_2 by eauto. specialize (Hdial (Unix path)).
    destruct (symlink path) as [[]|]; destruct (dial (Unix path)) as [[sv os]|]; by split.
  - rewrite bool_decide_eq_false_2 by (by intros [? [=]]).
    destruct (detect_socket env exists_) as [[path|url]|]; [| |by split].
    + specialize (Hdial (Unix path)). destruct (symlink path) as [[]|]; [by split|..];
        destruct (dial (Unix path)) as [[sv os]|]; by split.
    + specialize (Hdial (Http url)). destruct (dial (Http url)) as [[sv os]|]; by split.
Qed.

(** ** Witness: a container that uses a whole core between two ticks *)

Definition in_order : BufferUnordered := {| completed A l := l; completed_perm A l := reflexivity l |}.

Definition busy_id : str := lit "3f4e8a9b2c1d0e5f6a7b8c9d".

Definition busy_tick (n : Z) : tick :=
  (Ok [mkSummary (Some busy_id) None None (Some RUNNING) None None],
   λ _, Ok (mkStats (Some (mkCpuStats (Some (n * 1000)) (Some (n * 1000)) (Some 1))) None None None),
   n).

Lemma cpu_is_always_zero_witness :
  let out := (@docker_run in_order [busy_tick 1; busy_tick 2] (mkDocker Snapshots.Docker ∅)).1 in
  (λ r, ctr_id <$> rows_of r) <$> out = [[lit "3f4e8a9b2c1d"]; [lit "3f4e8a9b2c1d"]] ∧
  Forall (λ r, Forall (λ row, cpu_pct row = f32_zero) (rows_of r)) out.
Proof.
  intros out. split; [vm_compute; reflexivity|]. unfold out.
  apply (@cpu_is_always_zero in_order Snapshots.Docker [busy_tick 1; busy_tick 2]).
  assert (∀ n, full_ids (busy_tick n)) as Hf.
  { intros n. apply Forall_singleton. apply (bool_decide_unpack _). vm_compute. exact I. }
  apply Forall_cons. split; [apply Hf|]. apply Forall_singleton, Hf.
Defined.
