(* ===== verification/Collector.v ===== *)
(** * The collector: crates/muxtop-core/src/collector.rs

    Four loops share three slots and a cancellation token: the system loop
    emits a snapshot at each tick with what the slots hold, and one loop for
    each engine attached refreshes its slot.  A step is what one loop does when
    the runtime lets it: finish a poll, emit, or notice the cancellation.  What
    the engines, sysinfo and the channel answer comes with the step; the
    intervals only decide how often steps are offered. *)

From S2P Require Import Prelude Str RsFloat Process Network Gpu Snapshots.
Local Open Scope Z_scope.
Local Open Scope record_scope.

Definition CONTAINER_INTERVAL : Duration := from_secs 2.
Definition CLUSTER_INTERVAL : Duration := from_secs 5.
Definition GPU_INTERVAL : Duration := from_secs 1.

(** The engines a collector is built with; a container engine reports its
    kind. *)
Record Collector := mkCollector {
  interval : Duration;
  container_engine : option EngineKind;
  cluster_engine : bool;
  gpu_engine : bool;
}.

Definition with_all_engines (interval : Duration) (container_engine : option EngineKind)
    (cluster_engine gpu_engine : bool) : Collector :=
  mkCollector interval container_engine cluster_engine gpu_engine.
Definition with_engines (interval : Duration) (container_engine : option EngineKind)
    (cluster_engine : bool) : Collector :=
  with_all_engines interval container_engine cluster_engine false.
Definition with_container_engine (interval : Duration) (container_engine : option EngineKind)
    : Collector := with_all_engines interval container_engine false false.
Definition Collector_new (interval : Duration) : Collector :=
  with_all_engines interval None false false.

(** ** State *)

(** The loops that are still running. *)
Inductive loop : Type := SystemLoop | ContainerLoop | ClusterLoop | GpuLoop.

#[global] Instance loop_eq_dec : EqDecision loop.
Proof. solve_decision. Defined.

Record CollectorState := mkState {
  last_containers : option ContainersSnapshot;
  last_kube : option KubeSnapshot;
  last_gpu : option GpusSnapshot;
  running : list loop;
  cancelled : bool;
  sent : list SystemSnapshot;
}.

#[export] Instance CollectorState_eta : Eta CollectorState := λ s,
  mkState (last_containers s) (last_kube s) (last_gpu s) (running s) (cancelled s) (sent s).

(** The start of [run]: an engine that is not there is said to be unavailable
    at once, one that is there is waited for; a container slot is only ever
    filled by its loop. *)
Definition run (self : Collector) : CollectorState :=
  mkState None
    (if cluster_engine self then None else Some kube_unavailable)
    (if gpu_engine self then None else Some gpus_unavailable)
    ([SystemLoop] ++ (if container_engine self then [ContainerLoop] else [])
     ++ (if cluster_engine self then [ClusterLoop] else [])
     ++ (if gpu_engine self then [GpuLoop] else []))
    false [].

(** ** Steps *)

(** [mpsc::Sender::try_send]. *)
Inductive send_result : Type := Sent | Full | Closed.

Inductive collector_event : Type :=
| SystemTick (sys : System) (nets : list (str * NetworkData)) (unix_ms : option Z)
             (answer : send_result)
| ContainerPoll (r : result (list ContainerSnapshot) str)
| ClusterPoll (r : result KubeSnapshot str)
| GpuPoll (r : result GpusSnapshot GpuError)
| Cancel
| Notices (l : loop).

Definition stop (l : loop) (s : CollectorState) : CollectorState :=
  s <| running ::= List.filter (λ l', negb (bool_decide (l' = l))) |>.

Definition is_running (l : loop) (s : CollectorState) : bool := bool_decide (l ∈ running s).

Definition system_tick (sys : System) (nets : list (str * NetworkData)) (unix_ms : option Z)
    (answer : send_result) (s : CollectorState) : CollectorState :=
  let snapshot := SystemSnapshot_collect sys nets (last_containers s) (last_kube s) (last_gpu s)
                    unix_ms in
  match answer with
  | Sent => s <| sent ::= λ l, l ++ [snapshot] |>
  | Full => s
  | Closed => stop SystemLoop s
  end.

Definition container_poll (kind : EngineKind) (r : result (list ContainerSnapshot) str)
    : ContainersSnapshot :=
  match r with
  | Ok cs => mkContainers kind true cs
  | Err _ => containers_unavailable
  end.

Definition cluster_poll (r : result KubeSnapshot str) : KubeSnapshot :=
  match r with Ok snapshot => snapshot | Err _ => kube_unavailable end.

Definition gpu_poll (r : result GpusSnapshot GpuError) : GpusSnapshot :=
  match r with Ok snapshot => snapshot | Err e => gpus_unavailable_with (GpuError_fmt e) end.

Definition collector_step (self : Collector) (s : CollectorState) (e : collector_event)
    : CollectorState :=
  match e with
  | SystemTick sys nets ms answer =>
      if is_running SystemLoop s then system_tick sys nets ms answer s else s
  | ContainerPoll r =>
      match container_engine self with
      | Some kind =>
          if is_running ContainerLoop s
          then s <| last_containers := Some (container_poll kind r) |> else s
      | None => s
      end
  | ClusterPoll r =>
      if is_running ClusterLoop s then s <| last_kube := Some (cluster_poll r) |> else s
  | GpuPoll r => if is_running GpuLoop s then s <| last_gpu := Some (gpu_poll r) |> else s
  | Cancel => s <| cancelled := true |>
  | Notices l => if cancelled s then stop l s else s
  end.

Definition collector_run (self : Collector) (es : list collector_event) : CollectorState :=
  foldl (collector_step self) (run self) es.

(** The join handle completes when the system loop has ended and it has awaited
    the tasks of the others. *)
Definition finished (s : CollectorState) : bool := bool_decide (running s = []).

(** ** What a collector promises *)

(** *** Fresh data *)

Definition last_answer {A} (f : collector_event → option A) (es : list collector_event) : option A :=
  last (omap f es).

(** What the slots should hold after the events [pre]. *)
Definition containers_at (self : Collector) (pre : list collector_event)
    : option ContainersSnapshot :=
  kind ← container_engine self;
  container_poll kind <$>
    last_answer (λ e, match e with ContainerPoll r => Some r | _ => None end) pre.

Definition kube_at (self : Collector) (pre : list collector_event) : option KubeSnapshot :=
  if cluster_engine self
  then cluster_poll <$> last_answer (λ e, match e with ClusterPoll r => Some r | _ => None end) pre
  else Some kube_unavailable.

Definition gpu_at (self : Collector) (pre : list collector_event) : option GpusSnapshot :=
  if gpu_engine self
  then gpu_poll <$> last_answer (λ e, match e with GpuPoll r => Some r | _ => None end) pre
  else Some gpus_unavailable.

(** The snapshots to publish, by the events alone: one for each tick the channel
    has room for, made of the system's state and of the last answer of each
    engine before it. *)
Fixpoint published (self : Collector) (pre es : list collector_event) : list SystemSnapshot :=
  match es with
  | [] => []
  | e :: es =>
      match e with
      | SystemTick sys nets ms Sent =>
          [SystemSnapshot_collect sys nets (containers_at self pre) (kube_at self pre)
             (gpu_at self pre) ms]
      | _ => []
      end ++ published self (pre ++ [e]) es
  end.

(** Neither cancelled nor disconnected. *)
Definition undisturbed (e : collector_event) : bool :=
  match e with Cancel | SystemTick _ _ _ Closed => false | _ => true end.

Lemma last_answer_snoc {A} (f : collector_event → option A) pre e :
  last_answer f (pre ++ [e]) = match f e with Some a => Some a | None => last_answer f pre end.
Proof.
  unfold last_answer. rewrite omap_app. simpl. destruct (f e); simpl; [apply last_snoc|].
  by rewrite app_nil_r.
Qed.

Definition follows (self : Collector) (pre : list collector_event) (s : CollectorState) : Prop :=
  last_containers s = containers_at self pre ∧ last_kube s = kube_at self pre ∧
  last_gpu s = gpu_at self pre ∧ running s = running (run self) ∧ cancelled s = false.

Lemma running_run self l :
  l ∈ running (run self) ↔
  match l with
  | SystemLoop => True
  | ContainerLoop => is_Some (container_engine self)
  | ClusterLoop => cluster_engine self = true
  | GpuLoop => gpu_engine self = true
  end.
Proof.
  unfold run. simpl.
  destruct (container_engine self) as [k|], (cluster_engine self), (gpu_engine self), l; simpl;
    rewrite ?elem_of_cons, ?elem_of_nil; unfold is_Some; naive_solver.
Qed.

Lemma follows_step self pre s e :
  undisturbed e = true → follows self pre s → follows self (pre ++ [e]) (collector_step self s e).
Proof.
  intros Hu (H1 & H2 & H3 & H4 & H5).
  assert (∀ l, is_running l s = bool_decide (l ∈ running (run self))) as Hr
    by (intros l; unfold is_running; by rewrite H4).
  unfold follows, containers_at, kube_at, gpu_at. rewrite !last_answer_snoc.
  pose proof (running_run self) as Hrun. set (R := running (run self)) in *. clearbody R.
  destruct e as [sys nets ms answer|r|r|r| |l]; try done; simpl.
  - rewrite Hr, bool_decide_eq_true_2 by (by apply Hrun).
    unfold system_tick. by destruct answer.
  - destruct (container_engine self) as [kind|] eqn:Ek.
    + rewrite Hr, bool_decide_eq_true_2 by (apply Hrun; by eexists). done.
    + rewrite H1. unfold containers_at. by rewrite Ek.
  - rewrite Hr. unfold containers_at, kube_at, gpu_at in *.
    destruct (cluster_engine self) eqn:Ec.
    + by rewrite bool_decide_eq_true_2 by (by apply Hrun).
    + rewrite bool_decide_eq_false_2; [done|]. rewrite Hrun. congruence.
  - rewrite Hr. unfold containers_at, kube_at, gpu_at in *.
    destruct (gpu_engine self) eqn:Ec.
    + by rewrite bool_decide_eq_true_2 by (by apply Hrun).
    + rewrite bool_decide_eq_false_2; [done|]. rewrite Hrun. congruence.
  - by rewrite H5.
Qed.

Lemma sent_step self pre s e :
  undisturbed e = true → follows self pre s →
  sent (collector_step self s e) = sent s ++ published self pre [e].
Proof.
  intros Hu (H1 & H2 & H3 & H4 & H5).
  destruct e as [sys nets ms answer|r|r|r| |l]; simpl; rewrite ?app_nil_r; try done.
  - unfold is_running. rewrite H4, bool_decide_eq_true_2 by (by apply running_run).
    unfold system_tick. rewrite H1, H2, H3. destruct answer; simpl; by rewrite ?app_nil_r.
  - destruct (container_engine self); [|done]. by destruct (is_running ContainerLoop s).
  - by destruct (is_running ClusterLoop s).
  - by destruct (is_running GpuLoop s).
  - by rewrite H5.
Qed.

Lemma published_cons self pre e es :
  published self pre (e :: es) = published self pre [e] ++ published self (pre ++ [e]) es.
Proof. simpl. by rewrite app_nil_r. Qed.

(** C19: what a collector publishes is determined by what it was told: as long as
    it is neither cancelled nor disconnected, however the polls of the engines,
    their failures and the ticks interleave, the snapshots delivered are one for
    each tick the channel had room for, in order, each made of the state of the
    system at that tick and of the latest answer of every engine before it, a
    failed poll replacing the data rather than leaving it stale. *)
Theorem collector_publishes_latest self es :
  forallb undisturbed es = true → sent (collector_run self es) = published self [] es.
Proof.
  intros Hu. unfold collector_run.
  assert (follows self [] (run self)) as Hf.
  { unfold follows, containers_at, kube_at, gpu_at, run. simpl.
    by destruct (container_engine self), (cluster_engine self), (gpu_engine self). }
  change (published self [] es) with (sent (run self) ++ published self [] es).
  generalize dependent (run self). generalize (@nil collector_event).
  induction es as [|e es IH]; intros pre s Hf; [by rewrite app_nil_r|].
  simpl in Hu. apply andb_true_iff in Hu as [He Hu].
  rewrite published_cons, app_assoc, <- (sent_step self pre s e) by done.
  apply IH; [done|]. by apply follows_step.
Qed.

(** *** Shutdown *)

Lemma elem_of_stop l l' s : l ∈ running (stop l' s) ↔ l ∈ running s ∧ l ≠ l'.
Proof.
  unfold stop. simpl. rewrite list_elem_of_In, List.filter_In, <- list_elem_of_In.
  by rewrite negb_true_iff, bool_decide_eq_false.
Qed.

(** A loop that has ended stays ended, and a cancellation stays. *)
Lemma step_monotone self s e l :
  l ∈ running (collector_step self s e) → l ∈ running s.
Proof.
  destruct e as [sys nets ms []|r|r|r| |l']; simpl; repeat case_match; try done;
    by intros [? _]%elem_of_stop.
Qed.

Lemma cancelled_step self s e : cancelled s = true → cancelled (collector_step self s e) = true.
Proof. intros H. destruct e as [sys nets ms []|r|r|r| |l']; simpl; repeat case_match; done. Qed.

Lemma steps_monotone self s es l :
  l ∈ running (foldl (collector_step self) s es) → l ∈ running s.
Proof. revert s. induction es as [|e es IH]; intros s; [done|]. simpl. by intros ?%IH%step_monotone. Qed.

Lemma noticed_is_gone self es s l :
  cancelled s = true → Notices l ∈ es → l ∉ running (foldl (collector_step self) s es).
Proof.
  revert s. induction es as [|e es IH]; intros s Hc Hin; [by apply elem_of_nil in Hin|].
  simpl. apply elem_of_cons in Hin as [<-|Hin].
  - intros Hl%steps_monotone. simpl in Hl. rewrite Hc in Hl.
    by apply elem_of_stop in Hl as [_ ?].
  - apply IH; [by apply cancelled_step|done].
Qed.

(** C34: cancelling shuts everything down: after a cancellation, once every loop
    has been given the chance to notice it, whatever else happens in between,
    before or after, the join handle completes; and no step ever brings a loop
    back. *)
Theorem cancellation_terminates self before after :
  (∀ l, Notices l ∈ after) →
  finished (collector_run self (before ++ Cancel :: after)) = true ∧
  ∀ more, finished (collector_run self (before ++ Cancel :: after ++ more)) = true.
Proof.
  intros Hall.
  assert (∀ more, finished (collector_run self (before ++ Cancel :: after ++ more)) = true) as H.
  { intros more. unfold finished, collector_run. apply bool_decide_eq_true_2.
    rewrite foldl_app. simpl. rewrite foldl_app.
    destruct (running _) as [|l rest] eqn:E; [done|]. exfalso.
    assert (l ∈ running (foldl (collector_step self)
              (foldl (collector_step self) ((foldl (collector_step self) (run self) before)
                 <| cancelled := true |>) after) more)) as Hl by (rewrite E; left).
    apply steps_monotone in Hl. revert Hl. by apply noticed_is_gone. }
  split; [|done]. specialize (H []). by rewrite app_nil_r in H.
Qed.

Lemma keeps_running self l es s :
  l ≠ SystemLoop → Cancel ∉ es → cancelled s = false → l ∈ running s →
  l ∈ running (foldl (collector_step self) s es).
Proof.
  intros Hl. revert s. induction es as [|e es IH]; intros s Hnc Hc Hin; [done|].
  apply not_elem_of_cons in Hnc as [He Hnc]. simpl.
  assert (cancelled (collector_step self s e) = false ∧ l ∈ running (collector_step self s e))
    as [? ?]; [|by apply IH].
  destruct e as [sys nets ms []|r|r|r| |l']; simpl; repeat case_match; try done; try congruence.
  split; [done|]. by apply elem_of_stop.
Qed.

(** Only a cancellation does: with an engine attached, a receiver that goes
    away ends the system loop but not the collector, whose other loops go on
    polling and whose join handle never completes. *)
Theorem closed_channel_does_not_finish self es :
  is_Some (container_engine self) ∨ cluster_engine self = true ∨ gpu_engine self = true →
  Cancel ∉ es → finished (collector_run self es) = false.
Proof.
  intros He Hnc. unfold finished, collector_run. apply bool_decide_eq_false_2.
  assert (∃ l, l ≠ SystemLoop ∧ l ∈ running (run self)) as (l & Hl & Hin).
  { destruct He as [?|[?|?]]; [exists ContainerLoop|exists ClusterLoop|exists GpuLoop];
      (split; [done|by apply running_run]). }
  pose proof (keeps_running self l es (run self) Hl Hnc eq_refl Hin) as H.
  intros E. rewrite E in H. by apply elem_of_nil in H.
Qed.

(** ** Witnesses *)

Definition demo_sys : System :=
  mkSys (S754_zero false) [] 0 0 0 0 0 (S754_zero false, S754_zero false, S754_zero false) 0 [].

Definition demo_collector : Collector := with_engines (from_secs 1) (Some Docker) true.

Definition demo_events : list collector_event :=
  [SystemTick demo_sys [] None Sent; ContainerPoll (Ok []); SystemTick demo_sys [] None Sent;
   ContainerPoll (Err []); SystemTick demo_sys [] None Full; SystemTick demo_sys [] None Sent].

Lemma collector_publishes_latest_witness :
  forallb undisturbed demo_events = true ∧
  sys_containers <$> published demo_collector [] demo_events
    = [None; Some (mkContainers Docker true []); Some containers_unavailable] ∧
  sent (collector_run demo_collector demo_events) = published demo_collector [] demo_events.
Proof.
  split; [reflexivity|split; [reflexivity|]].
  apply (collector_publishes_latest demo_collector demo_events). reflexivity.
Defined.

Definition all_notice : list collector_event :=
  [Notices SystemLoop; Notices GpuLoop; ContainerPoll (Ok []); Notices ClusterLoop;
   Notices ContainerLoop].

Lemma cancellation_terminates_witness :
  finished (collector_run demo_collector (demo_events ++ Cancel :: all_notice)) = true ∧
  ∀ more, finished (collector_run demo_collector (demo_events ++ Cancel :: all_notice ++ more)) = true.
Proof.
  apply (cancellation_terminates demo_collector demo_events all_notice).
  intros []; unfold all_notice; rewrite !elem_of_cons; auto 10.
Defined.

Lemma closed_channel_does_not_finish_witness :
  Cancel ∉ [SystemTick demo_sys [] None Closed; Notices ContainerLoop] ∧
  finished (collector_run demo_collector
    [SystemTick demo_sys [] None Closed; Notices ContainerLoop]) = false.
Proof.
  assert (Cancel ∉ [SystemTick demo_sys [] None Closed; Notices ContainerLoop]) as Hc.
  { rewrite !not_elem_of_cons. split_and!; [discriminate|discriminate|apply not_elem_of_nil]. }
  split; [exact Hc|].
  apply (closed_channel_does_not_finish demo_collector); [left; by eexists|exact Hc].
Defined.
