(* ===== verification/Terminal.v ===== *)
(** * The terminal: crates/muxtop-tui/src/terminal.rs and [run] of lib.rs

    What the environment says the terminal can do, and the life of a session on
    it: every exit, the failing ones included, has to leave the terminal as it
    was.  crossterm's calls are operations on the state of the terminal, any of
    which may fail. *)

From S2P Require Import Prelude Str RsFloat Process Network Gpu.
Local Open Scope Z_scope.
Local Open Scope record_scope.

(** ** Capabilities *)

Inductive ColorSupport : Type := NoColor | Basic | Colors256 | TrueColor.

Inductive Breakpoint : Type := Xs | Sm | Md | Lg.

#[global] Instance ColorSupport_eq_dec : EqDecision ColorSupport.
Proof. solve_decision. Defined.
#[global] Instance Breakpoint_eq_dec : EqDecision Breakpoint.
Proof. solve_decision. Defined.

Definition from_width (width : Z) : Breakpoint :=
  if width <=? 59 then Xs else if width <=? 99 then Sm else if width <=? 139 then Md else Lg.

(** The derived order, in the order of declaration. *)
Definition Breakpoint_rank (b : Breakpoint) : Z :=
  match b with Xs => 0 | Sm => 1 | Md => 2 | Lg => 3 end.

Definition allows_side_panel (self : Breakpoint) : bool :=
  Breakpoint_rank Md <=? Breakpoint_rank self.

Record CapsOverrides := mkOverrides { no_color : bool; ascii : bool; no_mouse : bool }.

Definition CapsOverrides_default : CapsOverrides := mkOverrides false false false.

Record TermCaps := mkCaps {
  color_support : ColorSupport;
  unicode : bool;
  mouse : bool;
  caps_width : Z;
  caps_height : Z;
}.

#[export] Instance TermCaps_eta : Eta TermCaps := λ c,
  mkCaps (color_support c) (unicode c) (mouse c) (caps_width c) (caps_height c).

Definition TermCaps_default : TermCaps := mkCaps TrueColor true true 80 24.

Definition is_small (self : TermCaps) : bool := (caps_width self <? 80) || (caps_height self <? 24).

Definition breakpoint (self : TermCaps) : Breakpoint := from_width (caps_width self).

Definition set_size (width height : Z) (self : TermCaps) : TermCaps :=
  self <| caps_width := width |> <| caps_height := height |>.

Definition TRUECOLOR_TERMS : list str :=
  [lit "alacritty"; lit "contour"; lit "foot"; lit "ghostty"; lit "kitty"; lit "rio"; lit "wezterm"].

Definition TRUECOLOR_PROGRAMS : list str :=
  [lit "ghostty"; lit "iterm.app"; lit "wezterm"; lit "vscode"; lit "hyper"].

Section Detection.
Context {Tables : Unicode}.

Definition is_dumb (term : str) : bool := bool_decide (term = lit "dumb") || bool_decide (term = []).

Definition detect_color_support (term colorterm term_program : str) : ColorSupport :=
  let term := to_lowercase term in
  let colorterm := to_lowercase colorterm in
  let term_program := to_lowercase term_program in
  if is_dumb term then NoColor
  else if bool_decide (colorterm = lit "truecolor") || bool_decide (colorterm = lit "24bit")
  then TrueColor
  else if existsb (contains term) TRUECOLOR_TERMS then TrueColor
  else if existsb (λ p, bool_decide (p = term_program)) TRUECOLOR_PROGRAMS then TrueColor
  else if contains term (lit "256color") || contains term (lit "direct") then Colors256
  else if starts_with term (lit "nsterm") then Colors256
  else Basic.

Definition detect_unicode (platform : Platform) (term locale : str) : bool :=
  let term := to_lowercase term in
  if is_dumb term then false
  else if bool_decide (term = lit "linux") || starts_with term (lit "vt1")
          || starts_with term (lit "vt2") then false
  else
    let locale := to_lowercase locale in
    if contains locale (lit "utf-8") || contains locale (lit "utf8") then true
    else match platform with Windows | MacOS => true | _ => false end.

Definition detect_mouse (term : str) : bool :=
  let term := to_lowercase term in
  negb (bool_decide (term = []) || bool_decide (term = lit "dumb")
        || bool_decide (term = lit "linux") || starts_with term (lit "vt")).

(** The environment is a function; a variable that is not set reads as the
    empty string, except for [NO_COLOR]. *)
Definition detect_terminal_caps_with (platform : Platform) (env : str → option str)
    (size : option (Z * Z)) (overrides : CapsOverrides) : TermCaps :=
  let env_or k := default [] (env k) in
  let term := env_or (lit "TERM") in
  let no_color_env := match env (lit "NO_COLOR") with
                      | Some v => negb (bool_decide (v = [])) | None => false end in
  let locale := default [] (find (λ v, negb (bool_decide (v = [])))
                  [env_or (lit "LC_ALL"); env_or (lit "LC_CTYPE"); env_or (lit "LANG")]) in
  let '(width, height) := default (80, 24) size in
  mkCaps
    (if no_color overrides || no_color_env then NoColor
     else detect_color_support term (env_or (lit "COLORTERM")) (env_or (lit "TERM_PROGRAM")))
    (negb (ascii overrides) && detect_unicode platform term locale)
    (negb (no_mouse overrides) && detect_mouse term)
    width height.

Definition detect_terminal_caps (platform : Platform) (env : str → option str)
    (size : option (Z * Z)) : TermCaps :=
  detect_terminal_caps_with platform env size CapsOverrides_default.
End Detection.

(** ** The state of a terminal *)

Record Tty := mkTty {
  raw : bool;
  alternate : bool;
  mouse_capture : bool;
  cursor_hidden : bool;
  calls : nat;        (* how many operations were tried on it *)
}.

#[export] Instance Tty_eta : Eta Tty := λ t,
  mkTty (raw t) (alternate t) (mouse_capture t) (cursor_hidden t) (calls t).

Inductive tty_op : Type :=
| EnableRaw | DisableRaw
| EnterAlternateScreen | LeaveAlternateScreen
| EnableMouseCapture | DisableMouseCapture
| ShowCursor
| NewTerminal
| Draw.            (* ratatui hides the cursor of a frame that sets none *)

Definition effect (op : tty_op) (t : Tty) : Tty :=
  match op with
  | EnableRaw => t <| raw := true |>
  | DisableRaw => t <| raw := false |>
  | EnterAlternateScreen => t <| alternate := true |>
  | LeaveAlternateScreen => t <| alternate := false |>
  | EnableMouseCapture => t <| mouse_capture := true |>
  | DisableMouseCapture => t <| mouse_capture := false |>
  | ShowCursor => t <| cursor_hidden := false |>
  | NewTerminal => t
  | Draw => t <| cursor_hidden := true |>
  end.

(** A call succeeds, fails without having done anything, or fails when the
    terminal has already been told: a sequence that was written but not all of
    it, or not flushed. *)
Inductive reply : Type := Succeeded | Refused | HalfDone.

Section Session.
(** What each call answers: the number of calls made before, and the operation. *)
Variable answers : nat → tty_op → reply.

Definition try_op (op : tty_op) (t : Tty) : bool * Tty :=
  match answers (calls t) op with
  | Succeeded => (true, (effect op t) <| calls ::= S |>)
  | HalfDone => (false, (effect op t) <| calls ::= S |>)
  | Refused => (false, t <| calls ::= S |>)
  end.

(** [a?; b?; ...] and [execute!]: stop at the first failure. *)
Fixpoint try_all (ops : list tty_op) (t : Tty) : bool * Tty :=
  match ops with
  | [] => (true, t)
  | op :: ops => let '(ok, t) := try_op op t in if ok then try_all ops t else (false, t)
  end.

(** [let _ = a]: carry on whatever happened. *)
Definition attempt (op : tty_op) (t : Tty) : Tty := (try_op op t).2.

Definition restore_terminal (mouse_enabled : bool) (t : Tty) : bool * Tty :=
  try_all ([DisableRaw] ++ (if mouse_enabled then [DisableMouseCapture] else [])
           ++ [LeaveAlternateScreen; ShowCursor]) t.

Definition restore_stdout (mouse_enabled : bool) (t : Tty) : bool * Tty :=
  let t := if mouse_enabled then attempt DisableMouseCapture t else t in
  try_op LeaveAlternateScreen t.

(** A guard (the mouse was captured or not), or an error. *)
Definition init_terminal (want_mouse : bool) (t : Tty) : result bool unit * Tty :=
  let '(ok, t) := try_op EnableRaw t in
  if negb ok then (Err tt, t)
  else
    let '(ok, t) := try_op EnterAlternateScreen t in
    if negb ok then (Err tt, attempt DisableRaw t)
    else
      let '(mouse_enabled, t) := if want_mouse then try_op EnableMouseCapture t else (false, t) in
      let '(ok, t) := try_op NewTerminal t in
      if ok then (Ok mouse_enabled, t)
      else let t := (restore_stdout mouse_enabled t).2 in (Err tt, attempt DisableRaw t).

Definition drop_guard (mouse_enabled : bool) (t : Tty) : Tty := (restore_terminal mouse_enabled t).2.

Definition panic_hook (t : Tty) : Tty :=
  let t := attempt DisableRaw t in
  (try_all [DisableMouseCapture; LeaveAlternateScreen; ShowCursor] t).2.

(** A turn of the loop: an event that needs no frame, one that does, a poll that
    fails, or a panic. *)
Inductive turn : Type := Quiet | Frame | PollFailed | Panics.

Inductive outcome : Type := Exited | Failed | Panicked.

(** The loop, and how it ended. *)
Fixpoint event_loop (turns : list turn) (t : Tty) : outcome * Tty :=
  match turns with
  | [] => (Exited, t)
  | Quiet :: turns => event_loop turns t
  | Frame :: turns => let '(ok, t) := try_op Draw t in if ok then event_loop turns t else (Failed, t)
  | PollFailed :: _ => (Failed, t)
  | Panics :: _ => (Panicked, t)
  end.

(** From the end of the loop on, whatever it was.  Releases are built to abort on
    a panic; a test build unwinds, and drops the guard. *)
Definition leave (unwinds mouse_enabled : bool) (ended : outcome) (t : Tty) : outcome * Tty :=
  match ended with
  | Exited =>
      let '(ok, t) := restore_terminal mouse_enabled t in
      (if ok then Exited else Failed, drop_guard mouse_enabled t)
  | Failed => (Failed, drop_guard mouse_enabled t)
  | Panicked =>
      let t := panic_hook t in
      (Panicked, if unwinds then drop_guard mouse_enabled t else t)
  end.

Definition run (unwinds want_mouse : bool) (turns : list turn) (t : Tty) : outcome * Tty :=
  match init_terminal want_mouse t with
  | (Err _, t) => (Failed, t)
  | (Ok mouse_enabled, t) =>
      let '(ended, t) := event_loop turns t in leave unwinds mouse_enabled ended t
  end.

(** ** Properties *)

Definition restoring (op : tty_op) : bool :=
  match op with
  | DisableRaw | LeaveAlternateScreen | DisableMouseCapture | ShowCursor => true
  | _ => false
  end.

Definition cooked (t : Tty) : Prop :=
  raw t = false ∧ alternate t = false ∧ mouse_capture t = false ∧ cursor_hidden t = false.

(** A terminal the program may be drawing on; only a captured mouse is. *)
Definition captured_by (mouse_enabled : bool) (t : Tty) : Prop :=
  mouse_capture t = true → mouse_enabled = true.

(** What restores the terminal works, and what prepares it either works or leaves
    it alone; only a frame may be half drawn. *)
Hypothesis restores : ∀ n op, restoring op = true → answers n op = Succeeded.
Hypothesis prepares : ∀ n op, op ≠ Draw → answers n op ≠ HalfDone.

Lemma try_restoring op t : restoring op = true → try_op op t = (true, (effect op t) <| calls ::= S |>).
Proof. intros H. unfold try_op. by rewrite (restores _ _ H). Qed.

Lemma attempt_restoring op t : restoring op = true → attempt op t = (effect op t) <| calls ::= S |>.
Proof. intros H. unfold attempt. by rewrite try_restoring. Qed.

#[local] Arguments try_op op t : simpl never.

Lemma try_op_cases op t :
  op ≠ Draw →
  try_op op t = (true, (effect op t) <| calls ::= S |>) ∨ try_op op t = (false, t <| calls ::= S |>).
Proof. intros Hd%(prepares (calls t)). unfold try_op. destruct (answers (calls t) op); auto. done. Qed.

Lemma draw_captured m t : captured_by m t → captured_by m (try_op Draw t).2.
Proof. unfold try_op. by destruct (answers (calls t) Draw). Qed.

Ltac restore_ops :=
  repeat (rewrite ?attempt_restoring by done; rewrite ?try_restoring by done; cbn [try_all app fst snd]).

Lemma restore_terminal_cooks m t : captured_by m t → cooked (restore_terminal m t).2.
Proof.
  unfold captured_by, restore_terminal. intros Hm. destruct m; restore_ops; simpl; [by repeat split|].
  repeat split. simpl. destruct (mouse_capture t); [|done]. by discriminate (Hm eq_refl).
Qed.

Lemma panic_hook_cooks t : cooked (panic_hook t).
Proof. unfold panic_hook. restore_ops. by repeat split. Qed.

Lemma cooked_captured m t : cooked t → captured_by m t.
Proof. intros (_ & _ & H & _). unfold captured_by. congruence. Qed.

Lemma event_loop_captured m turns t : captured_by m t → captured_by m (event_loop turns t).2.
Proof.
  revert t. induction turns as [|[] turns IH]; intros t Hm; cbn [event_loop]; try done; [by apply IH|].
  pose proof (draw_captured m t Hm) as Hd. destruct (try_op Draw t) as [[] t1]; [by apply IH|done].
Qed.

Lemma init_terminal_ok want t :
  cooked t →
  match init_terminal want t with
  | (Ok m, t') => captured_by m t'
  | (Err _, t') => cooked t'
  end.
Proof.
  intros (Hr & Ha & Hm & Hc). unfold init_terminal.
  destruct (try_op_cases EnableRaw t ltac:(done)) as [-> | ->]; cbn [negb]; [|by repeat split].
  set (t1 := (effect EnableRaw t) <| calls ::= S |>).
  destruct (try_op_cases EnterAlternateScreen t1 ltac:(done)) as [-> | ->]; cbn [negb];
    [|restore_ops; subst t1; by repeat split].
  set (t2 := (effect EnterAlternateScreen t1) <| calls ::= S |>).
  set (p := if want then try_op EnableMouseCapture t2 else (false, t2)).
  assert (captured_by p.1 p.2 ∧ cursor_hidden p.2 = false) as [Hp Hcur].
  { unfold p, captured_by. destruct want; [|split; simpl; congruence].
    destruct (try_op_cases EnableMouseCapture t2 ltac:(done)) as [-> | ->]; split; simpl; congruence. }
  destruct p as [m t3]. simpl in Hp, Hcur.
  destruct (try_op_cases NewTerminal t3 ltac:(done)) as [-> | ->]; [done|].
  unfold restore_stdout. unfold captured_by in Hp. cbv zeta.
  destruct m; restore_ops; repeat split; simpl; try done.
  destruct (mouse_capture t3); [|done]. by discriminate (Hp eq_refl).
Qed.

Lemma leave_cooks unwinds m ended t : captured_by m t → cooked (leave unwinds m ended t).2.
Proof.
  intros Hl. destruct ended; simpl.
  - pose proof (restore_terminal_cooks m t Hl) as Hc.
    destruct (restore_terminal m t) as [ok t3]. simpl in *.
    by apply restore_terminal_cooks, cooked_captured.
  - by apply restore_terminal_cooks.
  - destruct unwinds; simpl; [|apply panic_hook_cooks].
    apply restore_terminal_cooks, cooked_captured, panic_hook_cooks.
Qed.

(** The terminal is given back: whatever part of the set-up is refused, whatever
    the session does, and however it ends (a quit, a failed poll or frame, or a
    panic, whether panics abort or unwind), a terminal that accepts being
    restored is out of raw mode, back on its main screen, with its mouse and its
    cursor. *)
Theorem terminal_restored unwinds want_mouse turns t :
  cooked t → cooked (run unwinds want_mouse turns t).2.
Proof.
  intros Ht. unfold run. pose proof (init_terminal_ok want_mouse t Ht) as Hi.
  destruct (init_terminal want_mouse t) as [[m|[]] t1]; [|done].
  pose proof (event_loop_captured m turns t1 Hi) as Hl.
  destruct (event_loop turns t1) as [ended t2]. by apply leave_cooks.
Qed.
End Session.

Definition fresh_tty : Tty := mkTty false false false false 0.

(** Everything that puts the terminal back works; the third frame cannot be
    drawn. *)
Definition third_frame_fails (n : nat) (op : tty_op) : reply :=
  if restoring op || negb (bool_decide (n = 6)%nat) then Succeeded else Refused.

Lemma third_frame_restores n op : restoring op = true → third_frame_fails n op = Succeeded.
Proof. intros H. unfold third_frame_fails. by rewrite H. Qed.

Lemma third_frame_prepares n op : op ≠ Draw → third_frame_fails n op ≠ HalfDone.
Proof. intros _. unfold third_frame_fails. by destruct (_ || _). Qed.

Lemma terminal_restored_witness :
  let turns := [Frame; Quiet; Frame; Frame; Quiet] in
  (run third_frame_fails false true turns fresh_tty).1 = Failed ∧
  cooked (run third_frame_fails false true turns fresh_tty).2.
Proof.
  intros turns. split; [reflexivity|].
  apply (terminal_restored third_frame_fails); [|apply third_frame_prepares|by repeat split].
  apply third_frame_restores.
Defined.

(** Without the second assumption it is not: the alternate screen is entered, the
    call fails all the same, and only raw mode is undone. *)
Example half_entered :
  let answers (n : nat) (op : tty_op) := match op with EnterAlternateScreen => HalfDone | _ => Succeeded end in
  alternate (run answers false true [] fresh_tty).2 = true.
Proof. reflexivity. Qed.

(** *** What is detected *)

Section DetectionProps.
Context {Tables : Unicode}.

(** An override always wins and a plain console gets plain output:
    [--no-color], or a non-empty [NO_COLOR], gives no colour; [--ascii] gives no
    Unicode; [--no-mouse] gives no mouse; and on the kernel's console, a dumb
    terminal or none at all there is neither Unicode nor mouse, and without a
    name no colour either, whatever the locale says. *)
Theorem plain_where_plain platform env size overrides :
  let caps := detect_terminal_caps_with platform env size overrides in
  (no_color overrides = true ∨ (∃ v, env (lit "NO_COLOR") = Some v ∧ v ≠ []) →
     color_support caps = NoColor) ∧
  (ascii overrides = true → unicode caps = false) ∧
  (no_mouse overrides = true → mouse caps = false) ∧
  (∀ term, default [] (env (lit "TERM")) = term →
     to_lowercase term = [] ∨ to_lowercase term = lit "dumb" ∨ to_lowercase term = lit "linux" →
     unicode caps = false ∧ mouse caps = false ∧
     (to_lowercase term ≠ lit "linux" → color_support caps = NoColor)).
Proof.
  unfold detect_terminal_caps_with. destruct (default (80, 24) size) as [w h]. cbn [unicode mouse color_support].
  split; [|split; [|split]].
  - intros [->|(v & -> & Hv)]; [done|]. rewrite (bool_decide_eq_false_2 (v = [])) by done.
    by rewrite orb_true_r.
  - by intros ->.
  - by intros ->.
  - intros term -> Ht. unfold detect_unicode, detect_mouse, detect_color_support, is_dumb.
    destruct Ht as [-> | [-> | ->]]; rewrite ?andb_false_r; split; try done; split; try done.
    + intros _. by destruct (_ || _).
    + intros _. by destruct (_ || _).
Qed.
End DetectionProps.
