(* ===== verification/Addr.v ===== *)
(** * Internet addresses

    The parser of the standard library behind [IpAddr::from_str], and its
    [SocketAddr].  IPv4 is four decimal bytes without leading zeros; IPv6 is
    groups of up to four hexadecimal digits, at most one [::], and an IPv4 tail. *)

From S2P Require Import Prelude Str RsFloat RateLimit Num.
Local Open Scope Z_scope.

Definition reader (A : Type) : Type := str → option (A * str).

Definition hex_digit (c : Z) : option Z :=
  if is_digit c then Some (c - 48)
  else if (97 <=? c) && (c <=? 102) then Some (c - 87)
  else if (65 <=? c) && (c <=? 70) then Some (c - 55)
  else None.

(** [char::to_digit] in base ten or sixteen. *)
Definition to_digit (radix c : Z) : option Z :=
  d ← hex_digit c; if d <? radix then Some d else None.

(** The longest run of digits. *)
Fixpoint read_digits (radix : Z) (s : str) : list Z * str :=
  match s with
  | [] => ([], [])
  | c :: s' =>
      match to_digit radix c with
      | Some d => let '(ds, r) := read_digits radix s' in (d :: ds, r)
      | None => ([], s)
      end
  end.

Definition read_number (radix max : Z) (max_digits : nat) (allow_zero_prefix : bool) : reader Z :=
  λ s,
  let '(ds, r) := read_digits radix s in
  let v := foldl (λ v d, v * radix + d) 0 ds in
  if bool_decide (ds = []) || bool_decide (max_digits < length ds)%nat
     || (negb allow_zero_prefix && (hd 1 ds =? 0) && bool_decide (1 < length ds)%nat)
     || (max <? v)
  then None else Some (v, r).

(** A separator before every element but the first. *)
Definition read_separator {A} (sep : Z) (first : bool) (f : reader A) : reader A :=
  λ s,
  if first then f s
  else match s with c :: s => if c =? sep then f s else None | [] => None end.

Definition read_octet (first : bool) : reader Z := read_separator 46 first (read_number 10 255 3 false).

Definition read_ipv4 : reader Z := λ s,
  '(a, s) ← read_octet true s;
  '(b, s) ← read_octet false s;
  '(c, s) ← read_octet false s;
  '(d, s) ← read_octet false s;
  Some (((a * 256 + b) * 256 + c) * 256 + d, s).

(** Up to [room] groups, and whether they ended in an IPv4 address. *)
Fixpoint read_groups (room : nat) (first : bool) (s : str) : list Z * bool * str :=
  match room with
  | O => ([], false, s)
  | S room =>
      match (if bool_decide (room = 0)%nat then None else read_separator 58 first read_ipv4 s) with
      | Some (v4, r) => ([v4 / 65536; v4 mod 65536], true, r)
      | None =>
          match read_separator 58 first (read_number 16 65535 4 true) s with
          | Some (g, r) =>
              let '(gs, v4, r) := read_groups room false r in (g :: gs, v4, r)
          | None => ([], false, s)
          end
      end
  end.

Definition groups_value (gs : list Z) : Z := foldl (λ v g, v * 65536 + g) 0 gs.

Definition read_ipv6 : reader Z := λ s,
  let '(head, v4, r) := read_groups 8 true s in
  if bool_decide (length head = 8)%nat then Some (groups_value head, r)
  else if v4 then None
  else match r with
       | 58 :: 58 :: r =>
           let '(tail, _, r) := read_groups (8 - S (length head)) true r in
           Some (groups_value (head ++ replicate (8 - length head - length tail) 0 ++ tail), r)
       | _ => None
       end.

Definition ip_from_str (s : str) : option IpAddr :=
  match (match read_ipv4 s with
         | Some (a, r) => Some (V4 a, r)
         | None => match read_ipv6 s with Some (a, r) => Some (V6 a, r) | None => None end
         end) with
  | Some (ip, []) => Some ip
  | _ => None
  end.

Record SocketAddr := mkAddr { ip : IpAddr; port : Z }.

Example ip_v4 : ip_from_str (lit "127.0.0.1") = Some (V4 2130706433).
Proof. reflexivity. Qed.
Example ip_v4_bad :
  ip_from_str (lit "127.0.0.01") = None ∧ ip_from_str (lit "127.0.0.256") = None
  ∧ ip_from_str (lit "127.0.0") = None ∧ ip_from_str (lit "127.0.0.1.") = None.
Proof. repeat split. Qed.
Example ip_v6 :
  ip_from_str (lit "::1") = Some (V6 1) ∧ ip_from_str (lit "::") = Some (V6 0)
  ∧ ip_from_str (lit "1::2:3") = Some (V6 (2 ^ 112 + 2 * 65536 + 3))
  ∧ ip_from_str (lit "::ffff:1.2.3.4") = Some (V6 (65535 * 2 ^ 32 + 16909060))
  ∧ ip_from_str (lit "1:2:3:4:5:6:7:8") = Some (V6 5192455318486707404433266433261576).
Proof. repeat split. Qed.
Example ip_v6_bad :
  ip_from_str (lit "1:2:3:4:5:6:7") = None ∧ ip_from_str (lit "12345::") = None
  ∧ ip_from_str (lit ":1") = None ∧ ip_from_str (lit "1::2::3") = None.
Proof. repeat split. Qed.

(** ** [Display] of an address *)

Definition display_v4 (a : Z) : str :=
  join (lit ".") (show <$> [a / 2 ^ 24 mod 256; a / 2 ^ 16 mod 256; a / 2 ^ 8 mod 256; a mod 256]).

Definition segments (a : Z) : list Z :=
  (λ i, a / 2 ^ (16 * i) mod 65536) <$> [7; 6; 5; 4; 3; 2; 1; 0].

(** [{:x}] of a segment. *)
Definition hex_lower (d : Z) : Z := if d <? 10 then 48 + d else 87 + d.
Definition display_hex (g : Z) : str :=
  let ds := [g / 4096; g / 256 mod 16; g / 16 mod 16; g mod 16] in
  let fix skip (ds : list Z) : list Z :=
    match ds with 0 :: ((_ :: _) as ds') => skip ds' | _ => ds end in
  hex_lower <$> skip ds.

(** The first of the longest runs of zero segments: where it starts, how long. *)
Fixpoint zero_runs (i : nat) (current longest : nat * nat) (gs : list Z) : nat * nat :=
  match gs with
  | [] => longest
  | g :: gs =>
      if g =? 0 then
        let current := if bool_decide (snd current = 0)%nat then (i, 1%nat)
                       else (fst current, S (snd current)) in
        zero_runs (S i) current
          (if bool_decide (snd longest < snd current)%nat then current else longest) gs
      else zero_runs (S i) (0%nat, 0%nat) longest gs
  end.

Definition display_v6 (a : Z) : str :=
  let gs := segments a in
  if (a / 2 ^ 32 =? 65535) then lit "::ffff:" ++ display_v4 (a mod 2 ^ 32)
  else
    let '(start, len) := zero_runs 0 (0%nat, 0%nat) (0%nat, 0%nat) gs in
    if bool_decide (1 < len)%nat
    then join (lit ":") (display_hex <$> take start gs) ++ lit "::"
         ++ join (lit ":") (display_hex <$> drop (start + len) gs)
    else join (lit ":") (display_hex <$> gs).

Definition display_ip (i : IpAddr) : str :=
  match i with V4 a => display_v4 a | V6 a => display_v6 a end.

Example display_examples :
  display_ip (V4 2130706433) = lit "127.0.0.1" ∧ display_ip (V6 1) = lit "::1"
  ∧ display_ip (V6 0) = lit "::" ∧ display_ip (V6 (65535 * 2 ^ 32 + 1)) = lit "::ffff:0.0.0.1"
  ∧ display_ip (V6 (65152 * 2 ^ 112 + 171)) = lit "fe80::ab"
  ∧ display_ip (V6 5192455318486707404433266433261576) = lit "1:2:3:4:5:6:7:8".
Proof. repeat split. Qed.
