(* ===== verification/Tls.v ===== *)
(** * TLS set-up: crates/muxtop-proto/src/tls.rs and muxtop-server/src/tls.rs

    Reading the [--remote] target, and what the two sides ask of rustls.  The
    resolver, the PEM reader, the validity of a host name, rustls itself, rcgen
    and the hash are the outside. *)

From S2P Require Import Prelude Str RsFloat RateLimit Num Addr.
Local Open Scope Z_scope.
Local Open Scope rust_scope.

(** ** The [--remote] target *)

Inductive RemoteTargetError : Type :=
| MissingPort (raw : str)
| InvalidPort (raw : str)
| DnsLookupFailed (host source : str)
| DnsNoAddresses (host : str)
| InvalidSni (host message : str).

(** The parts of a string around the first and around the last of a character. *)
Fixpoint split_once (c : Z) (s : str) : option (str * str) :=
  match s with
  | [] => None
  | x :: s => if x =? c then Some ([], s) else '(a, b) ← split_once c s; Some (x :: a, b)
  end.

Definition rsplit_once (c : Z) (s : str) : option (str * str) :=
  '(b, a) ← split_once c (reverse s); Some (reverse a, reverse b).

Definition split_host_port (input : str) : result (str * Z) RemoteTargetError :=
  match strip_prefix input (lit "[") with
  | Some rest =>
      '(host, after) <-? ok_or (split_once 93 rest) (MissingPort input);
      port_str <-? ok_or (strip_prefix after (lit ":")) (MissingPort input);
      port <-? ok_or (parse_uint u16_max port_str) (InvalidPort input);
      Ok (host, port)
  | None =>
      '(host, port_str) <-? ok_or (rsplit_once 58 input) (MissingPort input);
      port <-? ok_or (parse_uint u16_max port_str) (InvalidPort input);
      Ok (host, port)
  end.

Inductive ServerName : Type :=
| IpAddress (ip : IpAddr)
| DnsName (host : str).

Section Target.
(** [to_socket_addrs], and the complaint of [ServerName::try_from], if any, about
    a host that is not an address. *)
Variable resolve : str → Z → result (list SocketAddr) str.
Variable bad_dns_name : str → option str.

Definition parse_remote_target (input : str) : result (SocketAddr * ServerName) RemoteTargetError :=
  '(host, port) <-? split_host_port input;
  socket_addr <-? (match ip_from_str host with
                   | Some ip => Ok (mkAddr ip port)
                   | None =>
                       addrs <-? map_err (DnsLookupFailed host) (resolve host port);
                       ok_or (head addrs) (DnsNoAddresses host)
                   end);
  server_name <-? (match ip_from_str host with
                   | Some ip => Ok (IpAddress ip)
                   | None => match bad_dns_name host with
                             | Some message => Err (InvalidSni host message)
                             | None => Ok (DnsName host)
                             end
                   end);
  Ok (socket_addr, server_name).
End Target.

(** ** Connectors and acceptors *)

Inductive TlsClientError : Type := NoCaCertificates | ClientRustls (msg : str).

Inductive TlsError : Type := NoPrivateKey | NoCertificates | ServerRustls (msg : str) | CertGen (msg : str).

Section Rustls.
(** Certificates and keys as the PEM reader gives them, and rustls' opinion of
    them. *)
Context {Cert Key : Type}.
Variable pem_certs : str → option (list Cert).
Variable pem_key : str → option Key.
Variable bad_root : Cert → option str.
Variable bad_pair : list Cert → Key → option str.

(** How the client decides whom it is talking to. *)
Inductive TlsConnector : Type := VerifyAgainst (roots : list Cert) | NoVerifier.

Fixpoint add_roots (store certs : list Cert) : result (list Cert) TlsClientError :=
  match certs with
  | [] => Ok store
  | c :: certs => match bad_root c with
                  | Some e => Err (ClientRustls e)
                  | None => add_roots (store ++ [c]) certs
                  end
  end.

Definition connector_from_ca (ca_path : str) : result TlsConnector TlsClientError :=
  certs <-? ok_or (pem_certs ca_path) NoCaCertificates;
  if bool_decide (length certs = 0)%nat then Err NoCaCertificates
  else
    root_store <-? add_roots [] certs;
    Ok (VerifyAgainst root_store).

Definition connector_insecure : TlsConnector := NoVerifier.

Inductive TlsVersion : Type := TLS12 | TLS13.

Record TlsAcceptor := mkAcceptor { versions : list TlsVersion; chain : list Cert; key : Key }.

Definition acceptor_from_pem (cert_path key_path : str) : result TlsAcceptor TlsError :=
  certs <-? ok_or (pem_certs cert_path) NoCertificates;
  if bool_decide (length certs = 0)%nat then Err NoCertificates
  else
    key <-? ok_or (pem_key key_path) NoPrivateKey;
    match bad_pair certs key with
    | Some e => Err (ServerRustls e)
    | None => Ok (mkAcceptor [TLS13] certs key)
    end.
End Rustls.
Arguments TlsConnector Cert : clear implicits.
Arguments TlsAcceptor Cert Key : clear implicits.

(** ** The generated certificate *)

Definition CERT_VALIDITY_DAYS : Z := 90.

Inductive SanType : Type := SanIp (ip : IpAddr) | SanDns (name : str).
Inductive KeyUsagePurpose : Type := DigitalSignature | KeyEncipherment.

(** Times are in seconds. *)
Record CertificateParams := mkParams {
  subject_alt_names : list SanType;
  common_name : str;
  key_usages : list KeyUsagePurpose;
  not_before : Z;
  not_after : Z;
}.

Section SelfSigned.
(** rcgen: whether a name is an IA5 string, and the PEM texts of a certificate
    made from some parameters with a fresh key, and of that key. *)
Variable bad_ia5 : str → option str.
Variable self_sign : CertificateParams → result (str * str) str.

Definition self_signed_params (hostname : str) (now : Z) : result CertificateParams TlsError :=
  san <-? (match ip_from_str hostname with
           | Some ip => Ok (SanIp ip)
           | None => match bad_ia5 hostname with
                     | Some e => Err (CertGen e)
                     | None => Ok (SanDns hostname)
                     end
           end);
  Ok (mkParams [san] hostname [DigitalSignature; KeyEncipherment]
        (now - 3600) (now + CERT_VALIDITY_DAYS * 86400)).

Definition generate_self_signed (hostname : str) (now : Z) : result (str * str) TlsError :=
  params <-? self_signed_params hostname now;
  map_err CertGen (self_sign params).
End SelfSigned.

(** ** Fingerprints *)

(** One digit of [{:02X}]. *)
Definition hex_upper (d : Z) : Z := if d <? 10 then 48 + d else 55 + d.

Definition hex_byte (b : u8) : str := [hex_upper (u8_val b / 16); hex_upper (u8_val b mod 16)].

(** The loop over the digest, with the index it starts at. *)
Fixpoint fingerprint_from (i : nat) (bytes : list u8) : str :=
  match bytes with
  | [] => []
  | b :: bytes =>
      (if bool_decide (0 < i)%nat then [58] else []) ++ hex_byte b ++ fingerprint_from (S i) bytes
  end.

Section Fingerprint.
Variable sha256 : list u8 → list u8.

Definition cert_fingerprint (cert_der : list u8) : str := fingerprint_from 0 (sha256 cert_der).
End Fingerprint.

(** ** Properties *)

(** *** Targets *)

Lemma split_once_Some c s a b : split_once c s = Some (a, b) ↔ s = a ++ c :: b ∧ c ∉ a.
Proof.
  revert a b. induction s as [|x s IH]; intros a b; simpl.
  - split; [done|]. intros [H _]. by destruct a.
  - destruct (Z.eqb_spec x c) as [->|Hx].
    + split; [intros [= <- <-]; split; [done|apply not_elem_of_nil]|].
      intros [H Hn]. destruct a as [|y a]; [by injection H as <-|].
      injection H as <- _. by apply not_elem_of_cons in Hn as [? _].
    + destruct (split_once c s) as [[a' b']|] eqn:E; simpl.
      * destruct (proj1 (IH a' b') eq_refl) as [-> Hn]. split.
        -- intros [= <- <-]. split; [done|]. apply not_elem_of_cons. by split.
        -- intros [H Ha]. destruct a as [|y a]; [by injection H as ?|].
           injection H as <- H. apply not_elem_of_cons in Ha as [_ Ha].
           assert (Some (a', b') = Some (a, b)) as [= -> ->] by (by apply IH). done.
      * split; [done|]. intros [H Ha]. destruct a as [|y a]; [by injection H as ?|].
        injection H as <- H. apply not_elem_of_cons in Ha as [_ Ha].
        by assert (None = Some (a, b)) by (by apply IH).
Qed.

Lemma rsplit_once_Some c s a b : rsplit_once c s = Some (a, b) ↔ s = a ++ c :: b ∧ c ∉ b.
Proof.
  unfold rsplit_once. destruct (split_once c (reverse s)) as [[y x]|] eqn:E; simpl.
  - apply split_once_Some in E as [E Hy]. apply (f_equal reverse) in E.
    rewrite reverse_involutive, reverse_app, reverse_cons, <- app_assoc in E. subst s.
    split.
    + intros [= <- <-]. split; [done|]. by rewrite elem_of_reverse.
    + intros [H Hb].
      assert (split_once c (reverse (a ++ c :: b)) = Some (reverse b, reverse a)) as Hs.
      { apply split_once_Some. rewrite reverse_app, reverse_cons, <- app_assoc.
        split; [done|]. by rewrite elem_of_reverse. }
      rewrite <- H in Hs.
      assert (split_once c (reverse (reverse x ++ [c] ++ reverse y)) = Some (y, x)) as Ht.
      { apply split_once_Some. rewrite !reverse_app, !reverse_involutive, <- app_assoc. done. }
      rewrite Ht in Hs. injection Hs as -> ->. by rewrite !reverse_involutive.
  - split; [done|]. intros [-> Hb].
    assert (split_once c (reverse (a ++ c :: b)) = Some (reverse b, reverse a)) as Hs; [|by rewrite E in Hs].
    apply split_once_Some. rewrite reverse_app, reverse_cons, <- app_assoc.
    split; [done|]. by rewrite elem_of_reverse.
Qed.

(** What a target looks like: a host and the digits of a port, the host in
    brackets or not. *)
Definition target (input host port_str : str) : Prop :=
  input = host ++ lit ":" ++ port_str ∨ input = lit "[" ++ host ++ lit "]:" ++ port_str.

Lemma split_host_port_sound input h p :
  split_host_port input = Ok (h, p) →
  0 ≤ p ≤ u16_max ∧ ∃ port_str, target input h port_str ∧ parse_uint u16_max port_str = Some p.
Proof.
  unfold split_host_port.
  destruct (strip_prefix input (lit "[")) as [rest|] eqn:E.
  - apply strip_prefix_spec in E as ->.
    destruct (split_once 93 rest) as [[a b]|] eqn:E1; [|done]. simpl.
    apply split_once_Some in E1 as [-> _].
    destruct b as [|c b]; [done|]. destruct c as [|c|c]; try done.
    repeat (destruct c as [c|c|]; try done). simpl.
    destruct (parse_uint u16_max b) as [q|] eqn:E2; [|done]. intros [= <- <-].
    split; [by eapply parse_uint_bounds|]. exists b. split; [by right|done].
  - destruct (rsplit_once 58 input) as [[a b]|] eqn:E1; [|done]. simpl.
    apply rsplit_once_Some in E1 as [-> _].
    destruct (parse_uint u16_max b) as [q|] eqn:E2; [|done]. intros [= <- <-].
    split; [by eapply parse_uint_bounds|]. exists b. split; [by left|done].
Qed.

(** Printing a target and reading it back gives the same host and port, with
    an address in brackets or any other host bare; and whatever is read is part
    of what was typed: the host is verbatim in the input, followed by the digits
    of the port. *)
Theorem target_roundtrip host port :
  0 ≤ port ≤ u16_max →
  (93 ∉ host → split_host_port (lit "[" ++ host ++ lit "]:" ++ show port) = Ok (host, port)) ∧
  (hd 0 host ≠ 91 → split_host_port (host ++ lit ":" ++ show port) = Ok (host, port)) ∧
  ∀ input h p, split_host_port input = Ok (h, p) →
    0 ≤ p ≤ u16_max ∧ ∃ port_str, target input h port_str ∧ parse_uint u16_max port_str = Some p.
Proof.
  intros Hp. pose proof (parse_uint_show u16_max port Hp) as Hparse.
  destruct (show_spec port) as (_ & Hdig & _); [lia|].
  split; [|split].
  - intros Hh. unfold split_host_port. rewrite strip_prefix_app.
    rewrite (proj2 (split_once_Some 93 _ host (lit ":" ++ show port))) by done.
    unfold ok_or at 1. cbn [result_bind]. rewrite strip_prefix_app. simpl. by rewrite Hparse.
  - intros Hh. unfold split_host_port.
    destruct (strip_prefix _ (lit "[")) as [rest|] eqn:E.
    { apply strip_prefix_spec in E. destruct host as [|c host]; [done|].
      injection E as -> _. by simpl in Hh. }
    rewrite (proj2 (rsplit_once_Some 58 _ host (show port))).
    { simpl. by rewrite Hparse. }
    split; [done|]. intros Hin. rewrite forallb_forall in Hdig.
    apply list_elem_of_In, Hdig in Hin. done.
  - apply split_host_port_sound.
Qed.

Lemma target_roundtrip_witness :
  0 ≤ 4242 ≤ u16_max ∧
  split_host_port (lit "[::1]:4242") = Ok (lit "::1", 4242) ∧
  split_host_port (lit "example.com:4242") = Ok (lit "example.com", 4242).
Proof.
  assert (0 ≤ 4242 ≤ u16_max) as H by (unfold u16_max; lia). split; [exact H|]. split.
  - apply (target_roundtrip (lit "::1") 4242 H). apply (bool_decide_unpack _). exact I.
  - apply (target_roundtrip (lit "example.com") 4242 H). discriminate.
Defined.

(** C28: the certificate is checked against what the user typed: the name the
    handshake verifies is determined by the target alone, the address it spells
    or else the host itself; the resolver, whatever it answers, only chooses
    where to connect, and is not even asked about an address. *)
Theorem sni_is_what_was_typed resolve bad_dns_name input addr name :
  parse_remote_target resolve bad_dns_name input = Ok (addr, name) →
  ∃ host port_str, target input host port_str ∧
    match ip_from_str host with
    | Some a => name = IpAddress a ∧ ip addr = a ∧ parse_uint u16_max port_str = Some (port addr)
    | None => name = DnsName host ∧
        ∃ p addrs, parse_uint u16_max port_str = Some p ∧ resolve host p = Ok (addr :: addrs)
    end.
Proof.
  unfold parse_remote_target. intros H.
  apply result_bind_Ok in H as ([host p] & Hs & H).
  destruct (split_host_port_sound _ _ _ Hs) as (_ & port_str & Ht & Hp).
  exists host, port_str. split; [done|].
  destruct (ip_from_str host) as [a|].
  - simpl in H. by injection H as <- <-.
  - apply result_bind_Ok in H as (sa & Hsa & H).
    destruct (bad_dns_name host); [done|]. simpl in H. injection H as <- <-.
    split; [done|]. apply result_bind_Ok in Hsa as (addrs & Hr & Hh). apply map_err_Ok in Hr.
    destruct addrs as [|x addrs]; [done|]. injection Hh as ->. by exists p, addrs.
Qed.

Definition demo_resolve (host : str) (p : Z) : result (list SocketAddr) str :=
  Ok [mkAddr (V4 3221225985) p; mkAddr (V4 1) p].

Lemma sni_is_what_was_typed_witness :
  parse_remote_target demo_resolve (λ _, None) (lit "mon.example.com:4242")
    = Ok (mkAddr (V4 3221225985) 4242, DnsName (lit "mon.example.com")) ∧
  ∃ host port_str, target (lit "mon.example.com:4242") host port_str ∧
    match ip_from_str host with
    | Some a => DnsName (lit "mon.example.com") = IpAddress a ∧ V4 3221225985 = a
                ∧ parse_uint u16_max port_str = Some 4242
    | None => DnsName (lit "mon.example.com") = DnsName host ∧
        ∃ p addrs, parse_uint u16_max port_str = Some p
                   ∧ demo_resolve host p = Ok (mkAddr (V4 3221225985) 4242 :: addrs)
    end.
Proof.
  assert (parse_remote_target demo_resolve (λ _, None) (lit "mon.example.com:4242")
    = Ok (mkAddr (V4 3221225985) 4242, DnsName (lit "mon.example.com"))) as H by reflexivity.
  split; [exact H|]. exact (sni_is_what_was_typed demo_resolve (λ _, None) _ _ _ H).
Defined.

(** An IPv6 address without a port is not rejected: its last group is read as
    the port. *)
Lemma bare_ipv6_loses_a_group :
  parse_remote_target demo_resolve (λ _, None) (lit "fe80::1:2")
    = Ok (mkAddr (V6 (65152 * 2 ^ 112 + 1)) 2, IpAddress (V6 (65152 * 2 ^ 112 + 1))).
Proof. reflexivity. Qed.

(** *** Connectors *)

(** A connector made from a CA file verifies, against at least one root. *)
Lemma connector_from_ca_verifies {Cert} (pem_certs : str → option (list Cert)) bad_root ca c :
  connector_from_ca pem_certs bad_root ca = Ok c →
  ∃ r roots, c = VerifyAgainst (r :: roots) ∧ pem_certs ca = Some (r :: roots).
Proof.
  unfold connector_from_ca. destruct (pem_certs ca) as [certs|]; [|done]. simpl.
  case_bool_decide as Hl; [done|]. intros H. apply result_bind_Ok in H as (store & Ha & [= <-]).
  assert (store = certs) as ->.
  { change certs with ([] ++ certs) at 1. generalize dependent (@nil Cert). clear Hl.
    induction certs as [|x certs IH]; intros st Ha; simpl in Ha; [injection Ha as <-; by rewrite app_nil_r|].
    destruct (bad_root x); [done|]. apply IH in Ha. by rewrite <- app_assoc in Ha. }
  destruct certs as [|r roots]; [done|]. by exists r, roots.
Qed.

(** *** Fingerprints *)

Lemma hex_upper_inj a b : 0 ≤ a < 16 → 0 ≤ b < 16 → hex_upper a = hex_upper b → a = b.
Proof. unfold hex_upper. intros. destruct (Z.ltb_spec a 10), (Z.ltb_spec b 10); lia. Qed.

Lemma hex_byte_inj a b : hex_byte a = hex_byte b → a = b.
Proof.
  unfold hex_byte. intros H. injection H as Hd Hm. apply (inj u8_val).
  pose proof (u8_val_bounds a). pose proof (u8_val_bounds b).
  apply hex_upper_inj in Hd, Hm; Z.div_mod_to_equations; lia.
Qed.

Lemma fingerprint_from_S i bytes :
  fingerprint_from (S i) bytes = concat ((λ b, 58 :: hex_byte b) <$> bytes).
Proof. revert i. induction bytes as [|b bytes IH]; intros i; [done|]. simpl. by rewrite IH. Qed.

(** A fingerprint says exactly which digest it is of: two digests with the
    same fingerprint are equal, and that of a SHA-256 digest is 95 characters,
    32 pairs of hexadecimal digits with a colon between them. *)
Theorem fingerprint_faithful sha256 cert cert' :
  length (sha256 cert) = 32%nat → length (sha256 cert') = 32%nat →
  length (cert_fingerprint sha256 cert) = 95%nat ∧
  (cert_fingerprint sha256 cert = cert_fingerprint sha256 cert' ↔ sha256 cert = sha256 cert').
Proof.
  assert (∀ l : list u8, length (concat ((λ b, 58 :: hex_byte b) <$> l)) = (3 * length l)%nat) as Hlen.
  { induction l as [|b l IH]; [done|]. csimpl. rewrite IH. lia. }
  intros Hc Hc'. unfold cert_fingerprint. split.
  - destruct (sha256 cert) as [|b l]; [done|]. simpl. rewrite fingerprint_from_S, Hlen.
    simpl in Hc. lia.
  - split; [|by intros ->].
    destruct (sha256 cert) as [|b l], (sha256 cert') as [|b' l']; try done. simpl.
    rewrite !fingerprint_from_S. intros H.
    assert (hex_byte b = hex_byte b') as ->%hex_byte_inj by (unfold hex_byte; congruence).
    f_equal. simplify_list_eq. clear Hc Hc'. revert l' H.
    induction l as [|x l IH]; intros [|x' l'] H; try done. csimpl in H.
    assert (hex_byte x = hex_byte x') as ->%hex_byte_inj by (unfold hex_byte; congruence).
    f_equal. apply IH. simpl in H. congruence.
Qed.

Definition demo_digest (c : list u8) : list u8 := take 32 (c ++ replicate 32 x00).

Lemma fingerprint_faithful_witness :
  take 6 (cert_fingerprint demo_digest [xab; x0c]) = lit "AB:0C:" ∧
  length (cert_fingerprint demo_digest [xab; x0c]) = 95%nat ∧
  (cert_fingerprint demo_digest [xab; x0c] = cert_fingerprint demo_digest [xab; x0d]
   ↔ demo_digest [xab; x0c] = demo_digest [xab; x0d]).
Proof.
  split; [reflexivity|].
  apply (fingerprint_faithful demo_digest [xab; x0c] [xab; x0d]); reflexivity.
Defined.
