(* ===== verification/Startup.v ===== *)
(** * Starting up: what src/main.rs and muxtop-server/src/main.rs share

    Files, tokens, the log and the engines.  Files are a small file system with
    modes and symbolic links; everything else the programs meet outside is the
    [Host] interface. *)

From S2P Require Import Prelude Str RsFloat Process Network Gpu Snapshots Num Cluster.
From S2P Require Import KubeEngine Docker.
Local Open Scope Z_scope.
Local Open Scope record_scope.

(** ** A file system *)

Inductive node : Type :=
| RegularFile (mode : Z) (content : str)
| Directory (mode : Z)
| SymlinkTo (target : str).

(** What a program reaches for on this machine besides files: a container daemon,
    a cluster through its kubeconfig, the GPU drivers. *)
Inductive opening : Type :=
| Daemon (target : ConnectionTarget)
| ClusterOf (source : KubeconfigSource)
| GpuDrivers.

Record World := mkWorld { files : gmap str node; stderr : list str; opened : list opening }.

#[export] Instance World_eta : Eta World := λ w, mkWorld (files w) (stderr w) (opened w).

(** The daemons dialled. *)
Definition dialled (w : World) : list ConnectionTarget :=
  omap (λ o, match o with Daemon t => Some t | _ => None end) (opened w).

(** [anyhow::Error]: the messages of the chain, the outermost first. *)
Abbreviation Anyhow := (list str).

Definition M (A : Type) : Type := World → result A Anyhow * World.

Definition ret {A} (a : A) : M A := λ w, (Ok a, w).
Definition bail {A} (msg : str) : M A := λ w, (Err [msg], w).
Definition bind {A B} (m : M A) (k : A → M B) : M B :=
  λ w, match m w with (Ok a, w) => k a w | (Err e, w) => (Err e, w) end.
Definition context {A} (msg : str) (m : M A) : M A :=
  λ w, match m w with (Err e, w) => (Err (msg :: e), w) | r => r end.
Definition lift {A E} (display : E → str) (r : result A E) : M A :=
  λ w, (map_err (λ e, [display e]) r, w).
Definition eprintln (msg : str) : M unit := λ w, (Ok tt, w <| stderr ::= λ l, l ++ [msg] |>).

Declare Scope main_scope.
Delimit Scope main_scope with main.
Notation "x <- m ;; k" := (bind m (λ x, k))
  (at level 100, m at next level, right associativity) : main_scope.
Notation "m ;;; k" := (bind m (λ _, k)) (at level 100, k at level 200, right associativity) : main_scope.
Local Open Scope main_scope.

(** ** The host *)

Class Host := {
  (* the environment, the home and the directory for local data *)
  env : str → option str;
  home_dir : option str;
  data_local_dir : option str;
  (* paths the system refuses to touch, and what the engines find in the file system *)
  denied : str → option str;
  exists_ : str → bool;
  symlink : str → option bool;
  (* the daemon behind a target; kube-rs *)
  dial : ConnectionTarget → result (option str * option str) EngineError;
  build_config : KubeconfigSource → option str → option str → result str ClusterError;
  client_error : option str;
  probe : option (ClusterKind * str);
  (* [Debug] of a string *)
  debug_str : str → str;
}.

Section Startup.
Context {H : Host}.

(** ** Files *)

(** Links are followed once: a link to a link counts as dangling. *)
Definition follow (fs : gmap str node) (path : str) : str :=
  match fs !! path with Some (SymlinkTo t) => t | _ => path end.

Definition io {A} (path : str) (f : gmap str node → result (A * gmap str node) str) : M A := λ w,
  match denied path with
  | Some e => (Err [e], w)
  | None => match f (files w) with
            | Ok (a, fs) => (Ok a, w <| files := fs |>)
            | Err e => (Err [e], w)
            end
  end.

Definition read_to_string (path : str) : M str :=
  io path (λ fs, match fs !! follow fs path with
                 | Some (RegularFile _ content) => Ok (content, fs)
                 | Some (Directory _) => Err (lit "Is a directory (os error 21)")
                 | _ => Err (lit "No such file or directory (os error 2)")
                 end).

Definition create_dir_all (path : str) : M unit :=
  io path (λ fs, match fs !! path with
                 | None => Ok (tt, <[path := Directory 493]> fs)       (* 0755 *)
                 | Some _ =>
                     match fs !! follow fs path with
                     | Some (Directory _) => Ok (tt, fs)
                     | _ => Err (lit "File exists (os error 17)")
                     end
                 end).

Definition set_permissions (path : str) (mode : Z) : M unit :=
  io path (λ fs, match fs !! follow fs path with
                 | Some (Directory _) => Ok (tt, <[follow fs path := Directory mode]> fs)
                 | Some (RegularFile _ c) => Ok (tt, <[follow fs path := RegularFile mode c]> fs)
                 | _ => Err (lit "No such file or directory (os error 2)")
                 end).

(** [write + create + truncate] with [O_NOFOLLOW]: the mode is for a file that is
    created. *)
Definition open_nofollow (mode : Z) (path : str) : M unit :=
  io path (λ fs, match fs !! path with
                 | None => Ok (tt, <[path := RegularFile mode []]> fs)
                 | Some (RegularFile m _) => Ok (tt, <[path := RegularFile m []]> fs)
                 | Some (Directory _) => Err (lit "Is a directory (os error 21)")
                 | Some (SymlinkTo _) => Err (lit "Too many levels of symbolic links (os error 40)")
                 end).

(** [create + append]. *)
Definition open_append (path : str) : M unit :=
  io path (λ fs, match fs !! follow fs path with
                 | None => Ok (tt, <[follow fs path := RegularFile 420 []]> fs)  (* 0644 *)
                 | Some (RegularFile _ _) => Ok (tt, fs)
                 | _ => Err (lit "Is a directory (os error 21)")
                 end).

Definition write_all (path : str) (text : str) : M unit :=
  io path (λ fs, match fs !! path with
                 | Some (RegularFile m c) => Ok (tt, <[path := RegularFile m (c ++ text)]> fs)
                 | _ => Err (lit "Bad file descriptor (os error 9)")
                 end).

(** ** Tokens *)

Record Token := mkToken { token_text : str }.

Definition into_inner (self : Token) : str := token_text self.

Definition Token_fmt (self : Token) : str := lit "Token(" ++ [34] ++ lit "[REDACTED]" ++ [34] ++ lit ")".

Definition read_token_file (path : str) : M Token :=
  raw <- context (lit "failed to read --token-file " ++ path) (read_to_string path) ;;
  let trimmed := trim raw in
  if bool_decide (trimmed = []) then
    bail (lit "--token-file " ++ path ++ lit " is empty after trimming whitespace")
  else if bool_decide (str_len trimmed < 16)%nat then
    bail (lit "--token-file " ++ path ++ lit " contains a " ++ show (Z.of_nat (str_len trimmed))
          ++ lit "-char token; minimum is 16 characters")
  else ret (mkToken trimmed).

(** The token of a command line; [required] is the complaint when it has none. *)
Definition auth_token_of (token_file token : option str) (required : str) : M Token :=
  match token_file with
  | Some path => read_token_file path
  | None =>
      match token with
      | Some t =>
          if bool_decide (16 ≤ str_len t)%nat then ret (mkToken t)
          else if bool_decide (t ≠ []) then
            bail (lit "Authentication token is too short (" ++ show (Z.of_nat (str_len t))
                  ++ lit " chars). Use at least 16 characters for security.")
          else bail required
      | None => bail required
      end
  end.

(** ** The log and the engines *)

Definition data_dir : str := path_join (default (lit ".") data_local_dir) (lit "muxtop").

Definition init_tracing (log_name : str) : M unit :=
  context (lit "failed to create muxtop data directory") (create_dir_all data_dir) ;;;
  context (lit "failed to open log file") (open_append (path_join data_dir log_name)).

Definition detect_kubeconfig : KubeconfigSource :=
  detect_kubeconfig_with env exists_ ((λ h, path_join h (lit ".kube/config")) <$> home_dir)
    (lit "/var/run/secrets/kubernetes.io/serviceaccount/token").

Definition container_engine_of (enabled : bool) (docker_socket : option str) : M (option DockerEngine) :=
  λ w,
  if enabled then
    let '(engine, targets) :=
      maybe_connect_default_engine symlink dial env exists_ docker_socket in
    (Ok engine, w <| opened ::= λ l, l ++ (Daemon <$> targets) |>)
  else (Ok None, w).

Definition cluster_engine_of (enabled : bool) (context namespace : option str) : M (option KubeEngine) :=
  λ w,
  if enabled then
    let source := detect_kubeconfig in
    (Ok (match connect debug_str namespace (build_config source context namespace)
                 client_error probe with
         | Ok engine => Some engine
         | Err _ => None
         end), w <| opened ::= λ l, l ++ [ClusterOf source] |>)
  else (Ok None, w).

(** The detection never fails: only whether there is an engine is kept here. *)
Definition gpu_engine_of (enabled : bool) : M bool :=
  λ w, if enabled then (Ok true, w <| opened ::= λ l, l ++ [GpuDrivers] |>) else (Ok false, w).

(** ** Reading a run back *)

Lemma bind_Ok {A B} (m : M A) (k : A → M B) w b w' :
  bind m k w = (Ok b, w') ↔ ∃ a w1, m w = (Ok a, w1) ∧ k a w1 = (Ok b, w').
Proof.
  unfold bind. split.
  - destruct (m w) as [[a|e] w1]; [|done]. intros ?. by exists a, w1.
  - by intros (a & w1 & -> & ?).
Qed.

Lemma context_Ok {A} msg (m : M A) w a w' : context msg m w = (Ok a, w') ↔ m w = (Ok a, w').
Proof. unfold context. destruct (m w) as [[?|?] ?]; naive_solver. Qed.

Lemma lift_Ok {A E} (display : E → str) (r : result A E) w a w' :
  lift display r w = (Ok a, w') ↔ r = Ok a ∧ w' = w.
Proof. unfold lift. destruct r; simpl; naive_solver. Qed.

Lemma eprintln_files msg w a w' : eprintln msg w = (Ok a, w') → files w' = files w.
Proof. by intros [= _ <-]. Qed.

Lemma io_Ok {A} (path : str) (f : gmap str node → result (A * gmap str node) str) w a w' :
  io path f w = (Ok a, w') → f (files w) = Ok (a, files w').
Proof.
  unfold io. destruct (denied path); [done|]. destruct (f (files w)) as [[a1 fs]|]; [|done].
  by intros [= <- <-].
Qed.

Lemma set_permissions_dir path mode w a w' m :
  files w !! follow (files w) path = Some (Directory m) →
  set_permissions path mode w = (Ok a, w') →
  files w' = <[follow (files w) path := Directory mode]> (files w).
Proof. intros Hd Hs%io_Ok. rewrite Hd in Hs. by injection Hs as _ <-. Qed.

(** The directory, behind a link or not, exists after [create_dir_all], which
    touches nothing else. *)
Lemma create_dir_all_Ok path w a w' :
  create_dir_all path w = (Ok a, w') →
  follow (files w') path = follow (files w) path ∧
  (∃ m, files w' !! follow (files w) path = Some (Directory m)) ∧
  ∀ p, p ≠ follow (files w) path → files w' !! p = files w !! p.
Proof.
  intros Hs%io_Ok. destruct (files w !! path) as [n|] eqn:E.
  - destruct (files w !! follow (files w) path) as [[| m |]|] eqn:Et; try done.
    injection Hs as _ <-. by eauto.
  - injection Hs as _ <-. unfold follow. rewrite E, lookup_insert_eq.
    split; [done|]. split; [by eexists|]. intros p Hp. by rewrite lookup_insert_ne.
Qed.

Lemma open_nofollow_Ok mode path w a w' :
  open_nofollow mode path w = (Ok a, w') →
  (∀ t, files w !! path ≠ Some (SymlinkTo t)) ∧ (∀ m, files w !! path ≠ Some (Directory m)) ∧
  files w' = <[path := RegularFile (match files w !! path with
                                    | Some (RegularFile m _) => m | _ => mode end) []]> (files w).
Proof.
  intros Hs%io_Ok. destruct (files w !! path) as [[m c|m|t]|]; try done; by injection Hs as _ <-.
Qed.

Lemma write_all_Ok path text w a w' m c :
  files w !! path = Some (RegularFile m c) → write_all path text w = (Ok a, w') →
  files w' = <[path := RegularFile m (c ++ text)]> (files w).
Proof. intros E Hs%io_Ok. rewrite E in Hs. by injection Hs as _ <-. Qed.

(** Only attaching an engine opens anything. *)
Definition quiet {A} (m : M A) : Prop := ∀ w, opened (m w).2 = opened w.

Lemma quiet_ret {A} (a : A) : quiet (ret a).
Proof. done. Qed.
Lemma quiet_bail {A} msg : quiet (bail (A := A) msg).
Proof. done. Qed.
Lemma quiet_eprintln msg : quiet (eprintln msg).
Proof. done. Qed.
Lemma quiet_lift {A E} (display : E → str) (r : result A E) : quiet (lift display r).
Proof. done. Qed.
Lemma quiet_bind {A B} (m : M A) (k : A → M B) : quiet m → (∀ a, quiet (k a)) → quiet (bind m k).
Proof.
  intros Hm Hk w. unfold bind. specialize (Hm w). destruct (m w) as [[a|e] w1]; simpl in *; [|done].
  by rewrite Hk.
Qed.
Lemma quiet_context {A} msg (m : M A) : quiet m → quiet (context msg m).
Proof. intros Hm w. unfold context. specialize (Hm w). by destruct (m w) as [[]]. Qed.
Lemma quiet_io {A} (path : str) (f : gmap str node → result (A * gmap str node) str) : quiet (io path f).
Proof.
  intros w. unfold io. destruct (denied path); [done|]. by destruct (f (files w)) as [[]|].
Qed.

Lemma quiet_Ok {A} (m : M A) w a w' : quiet m → m w = (Ok a, w') → opened w' = opened w.
Proof. intros Hq E. specialize (Hq w). by rewrite E in Hq. Qed.

(** What attaching the engines opens, each only when it is enabled. *)
Lemma container_engine_of_Ok enabled socket w e w' :
  container_engine_of enabled socket w = (Ok e, w') →
  files w' = files w ∧ stderr w' = stderr w ∧
  ∃ targets, opened w' = opened w ++ (Daemon <$> targets) ∧
             (enabled = false → e = None ∧ targets = []).
Proof.
  unfold container_engine_of. destruct enabled.
  - destruct (maybe_connect_default_engine _ _ _ _ _) as [e1 ts]. intros [= _ <-].
    split; [done|]. split; [done|]. by exists ts.
  - intros [= <- <-]. split; [done|]. split; [done|]. exists []. by rewrite app_nil_r.
Qed.

Lemma cluster_engine_of_Ok enabled ctx namespace w e w' :
  cluster_engine_of enabled ctx namespace w = (Ok e, w') →
  files w' = files w ∧ stderr w' = stderr w ∧
  opened w' = opened w ++ (if enabled then [ClusterOf detect_kubeconfig] else []) ∧
  (enabled = false → e = None).
Proof.
  unfold cluster_engine_of. destruct enabled; intros [= <- <-]; simpl; rewrite ?app_nil_r; done.
Qed.

Lemma gpu_engine_of_Ok enabled w e w' :
  gpu_engine_of enabled w = (Ok e, w') →
  files w' = files w ∧ stderr w' = stderr w ∧
  opened w' = opened w ++ (if enabled then [GpuDrivers] else []) ∧ e = enabled.
Proof. unfold gpu_engine_of. destruct enabled; intros [= <- <-]; simpl; rewrite ?app_nil_r; done. Qed.

Lemma dialled_others w w' targets others :
  opened w' = (opened w ++ (Daemon <$> targets)) ++ others →
  Forall (λ o, ∀ t, o ≠ Daemon t) others → dialled w' = dialled w ++ targets.
Proof.
  intros Ho Hn. unfold dialled. rewrite Ho, !omap_app, <- app_assoc. clear Ho. f_equal.
  induction targets as [|t ts IH]; cbn; [|by f_equal].
  induction Hn as [|o os Ho Hn IH]; [done|]. destruct o as [t|s|]; [by destruct (Ho t)|exact IH..].
Qed.

(** An accepted token. *)
Lemma auth_token_of_Ok token_file token required w t w' :
  auth_token_of token_file token required w = (Ok t, w') →
  (16 ≤ str_len (token_text t))%nat ∧ w' = w ∧
  match token_file with
  | Some path => ∃ m raw, files w !! follow (files w) path = Some (RegularFile m raw)
                          ∧ token_text t = trim raw
  | None => token = Some (token_text t)
  end.
Proof.
  unfold auth_token_of. destruct token_file as [path|].
  - unfold read_token_file. intros Hs. apply bind_Ok in Hs as (raw & w1 & Hr & Hs).
    apply context_Ok in Hr. unfold read_to_string, io in Hr. destruct (denied path); [done|].
    destruct (files w !! follow (files w) path) as [[m c| |]|] eqn:E; try done.
    assert (raw = c ∧ w1 = w) as [-> ->] by (destruct w; by injection Hr as <- <-).
    case_bool_decide; [done|]. case_bool_decide; [done|]. injection Hs as <- <-. simpl.
    split; [lia|]. split; [done|]. by exists m, c.
  - destruct token as [x|]; [|done]. case_bool_decide; [|by case_bool_decide].
    by intros [= <- <-].
Qed.
End Startup.

#[export] Hint Resolve quiet_ret quiet_bail quiet_eprintln quiet_lift quiet_bind quiet_context
  quiet_io : muxtop.
#[export] Hint Extern 1 (quiet (create_dir_all _)) => apply quiet_io : muxtop.
#[export] Hint Extern 1 (quiet (set_permissions _ _)) => apply quiet_io : muxtop.
#[export] Hint Extern 1 (quiet (open_nofollow _ _)) => apply quiet_io : muxtop.
#[export] Hint Extern 1 (quiet (open_append _)) => apply quiet_io : muxtop.
#[export] Hint Extern 1 (quiet (write_all _ _)) => apply quiet_io : muxtop.
