(* ===== verification/ServerMain.v ===== *)
(** * Starting the server: crates/muxtop-server/src/main.rs

    The command line as clap hands it over, with the constraints its attributes
    declare; the checks on the token, the certificate and the rate; the key
    material that [--tls-generate] writes; and what is started in the end. *)

From S2P Require Import Prelude Str RsFloat Process Network Gpu Snapshots Num Cluster.
From S2P Require Import KubeEngine Docker Collector RateLimit Addr Tls Startup.
From S2P Require Server.
Local Open Scope Z_scope.
Local Open Scope record_scope.
Local Open Scope main_scope.

(** ** The command line *)

Record ServerCli := mkServerCli {
  bind_addr : SocketAddr;
  refresh : Z;
  token : option str;
  token_file : option str;
  max_clients : nat;
  rate_limit_per_ip : f32;
  tls_cert : option str;
  tls_key : option str;
  tls_generate : bool;
  docker_socket : option str;
  no_containers : bool;
  kube_context : option str;
  kube_namespace : option str;
  no_kube : bool;
  no_gpu : bool;
}.

(** What the attributes of the arguments have clap enforce. *)
Definition ServerCli_declared (cli : ServerCli) : bool :=
  (1 <=? refresh cli) && (refresh cli <=? 3600)
  && negb (bool_decide (is_Some (token cli)) && bool_decide (is_Some (token_file cli)))
  && eqb (bool_decide (is_Some (tls_cert cli))) (bool_decide (is_Some (tls_key cli)))
  && negb (tls_generate cli && (bool_decide (is_Some (tls_cert cli))
                                || bool_decide (is_Some (tls_key cli))))
  && match kube_namespace cli with Some ns => is_valid_namespace ns | None => true end
  && negb (no_kube cli && bool_decide (is_Some (kube_context cli))).

(** ** The outside of TLS *)

Class TlsHost := {
  Cert : Type;
  Key : Type;
  (* the PEM reader, on the files as they are *)
  pem_certs : gmap str node → str → option (list Cert);
  pem_key : gmap str node → str → option Key;
  (* rustls on a chain and its key; rcgen *)
  bad_pair : list Cert → Key → option str;
  bad_ia5 : str → option str;
  self_sign : CertificateParams → result (str * str) str;
  (* the DER of the certificates of a PEM text, never none of those rcgen prints *)
  parse_pem : str → result (list u8 * list (list u8)) str;
  sha256 : list u8 → list u8;
  (* [Display] *)
  TlsError_fmt : TlsError → str;
  display_f32 : f32 → str;
}.

Section ServerMain.
Context {H : Host} {T : TlsHost}.

(** ** Key material *)

Definition ensure_data_dir (path : str) : M unit :=
  context (lit "failed to create muxtop data directory") (create_dir_all path) ;;;
  context (lit "failed to chmod 0700 " ++ path) (set_permissions path 448).

Definition open_secret_file_for_write (path : str) : M unit :=
  context (lit "failed to open " ++ path ++ lit " (O_NOFOLLOW)") (open_nofollow 384 path).

Definition write_fingerprint_file (path fingerprint : str) : M unit :=
  context (lit "failed to open " ++ path ++ lit " (fingerprint)") (open_nofollow 420 path) ;;;
  write_all path fingerprint ;;;
  write_all path [10].

Definition load_acceptor (msg cert_path key_path : str) : M (TlsAcceptor Cert Key) := λ w,
  context msg (lift TlsError_fmt
    (acceptor_from_pem (pem_certs (files w)) (pem_key (files w)) bad_pair cert_path key_path)) w.

(** The branch of [--tls-generate]. *)
Definition generate_acceptor (bind_ip : IpAddr) (now : Z) : M (TlsAcceptor Cert Key) :=
  pems <- context (lit "failed to generate self-signed cert")
            (lift TlsError_fmt (generate_self_signed bad_ia5 self_sign (display_ip bind_ip) now)) ;;
  let '(cert_pem, key_pem) := (pems : str * str) in
  certs <- context (lit "failed to parse generated certificate") (lift (λ e, e) (parse_pem cert_pem)) ;;
  let fingerprint := cert_fingerprint sha256 (fst certs) in
  eprintln (lit "TLS: using auto-generated self-signed certificate") ;;;
  eprintln (lit "TLS: SHA-256 fingerprint: " ++ fingerprint) ;;;
  ensure_data_dir data_dir ;;;
  let cert_path := path_join data_dir (lit "server.crt") in
  let key_path := path_join data_dir (lit "server.key") in
  let fp_path := path_join data_dir (lit "server.fingerprint") in
  open_secret_file_for_write cert_path ;;;
  write_all cert_path cert_pem ;;;
  open_secret_file_for_write key_path ;;;
  write_all key_path key_pem ;;;
  write_fingerprint_file fp_path fingerprint ;;;
  eprintln (lit "TLS: cert saved to " ++ cert_path ++ lit ", key saved to " ++ key_path) ;;;
  eprintln (lit "TLS: fingerprint saved to " ++ fp_path) ;;;
  load_acceptor (lit "failed to load generated TLS certificate") cert_path key_path.

Definition tls_acceptor_of (cli : ServerCli) (now : Z) : M (TlsAcceptor Cert Key) :=
  match tls_cert cli, tls_key cli with
  | Some cert_path, Some key_path =>
      load_acceptor (lit "failed to load TLS certificate/key") cert_path key_path
  | _, _ =>
      if tls_generate cli then generate_acceptor (ip (bind_addr cli)) now
      else bail (lit "TLS is required. Use --tls-cert/--tls-key to provide certificates, or "
                 ++ lit "--tls-generate for a self-signed certificate.")
  end.

(** What [main] starts: the collector and the accept loop, which share a
    cancellation token. *)
Record StartedServer := mkStarted {
  served : Collector;
  server_config : Server.ServerConfig;
  listen_on : SocketAddr;
  auth_token : str;
  refresh_hz : Z;
  tls_acceptor : TlsAcceptor Cert Key;
}.

Definition server_main (cli : ServerCli) (now : Z) : M StartedServer :=
  init_tracing (lit "muxtop-server.log") ;;;
  auth <- auth_token_of (token_file cli) (token cli)
    (lit "Authentication token is required. Set --token <secret>, --token-file <path>, or the "
     ++ lit "MUXTOP_TOKEN env var (minimum 16 characters).") ;;
  acceptor <- tls_acceptor_of cli now ;;
  (if float_lt (rate_limit_per_ip cli) f32_zero then
     bail (lit "--rate-limit-per-ip must be ≥ 0 (got " ++ display_f32 (rate_limit_per_ip cli)
           ++ lit ")")
   else ret tt) ;;;
  container_engine <- container_engine_of (negb (no_containers cli)) (docker_socket cli) ;;
  cluster_engine <- cluster_engine_of (negb (no_kube cli)) (kube_context cli) (kube_namespace cli) ;;
  gpu_engine <- gpu_engine_of (negb (no_gpu cli)) ;;
  ret (mkStarted
    (with_all_engines (from_secs (refresh cli)) (docker_kind <$> container_engine)
       (bool_decide (is_Some cluster_engine)) gpu_engine)
    (Server.mkConfig (max_clients cli) (rate_limit_per_ip cli))
    (bind_addr cli) (into_inner auth) (as_u32 (refresh cli)) acceptor).

(** ** Properties *)

Lemma load_acceptor_Ok msg cert_path key_path w acc w' :
  load_acceptor msg cert_path key_path w = (Ok acc, w') →
  w' = w ∧ versions acc = [TLS13] ∧ chain acc ≠ [] ∧
  pem_certs (files w) cert_path = Some (chain acc) ∧ pem_key (files w) key_path = Some (key acc).
Proof.
  intros H1. apply context_Ok, lift_Ok in H1 as [H1 ->]. split; [done|].
  unfold acceptor_from_pem in H1.
  destruct (pem_certs (files w) cert_path) as [certs|]; [|done]. cbn [ok_or result_bind] in H1.
  case_bool_decide as Hl; [done|].
  destruct (pem_key (files w) key_path) as [k|]; [|done]. cbn [ok_or result_bind] in H1.
  destruct (bad_pair certs k); [done|]. injection H1 as <-. simpl.
  repeat split. by intros ->.
Qed.

Lemma quiet_init_tracing log : quiet (init_tracing log).
Proof. unfold init_tracing. auto 10 with muxtop. Qed.

Lemma quiet_load_acceptor msg c k : quiet (load_acceptor msg c k).
Proof. intros w. by apply quiet_context. Qed.

Lemma quiet_tls_acceptor cli now : quiet (tls_acceptor_of cli now).
Proof.
  unfold tls_acceptor_of.
  assert (quiet (generate_acceptor (ip (bind_addr cli)) now)) as Hg.
  { unfold generate_acceptor. apply quiet_bind; [auto with muxtop|]. intros [c k].
    unfold ensure_data_dir, open_secret_file_for_write, write_fingerprint_file.
    repeat (apply quiet_bind; [auto 10 with muxtop|intros ?]). apply quiet_load_acceptor. }
  destruct (tls_cert cli) as [c|], (tls_key cli) as [k|]; try (destruct (tls_generate cli));
    auto using quiet_load_acceptor with muxtop.
Qed.

Lemma generate_acceptor_Ok bind_ip now w acc w' :
  generate_acceptor bind_ip now w = (Ok acc, w') →
  versions acc = [TLS13] ∧ chain acc ≠ [] ∧
  pem_certs (files w') (path_join data_dir (lit "server.crt")) = Some (chain acc) ∧
  pem_key (files w') (path_join data_dir (lit "server.key")) = Some (key acc).
Proof.
  intros Hg. unfold generate_acceptor in Hg. apply bind_Ok in Hg as ([c k] & w1 & _ & Hg).
  do 11 (apply bind_Ok in Hg as (? & ? & _ & Hg)). by apply load_acceptor_Ok in Hg as (-> & ?).
Qed.

Lemma tls_acceptor_of_Ok cli now w acc w' :
  tls_acceptor_of cli now w = (Ok acc, w') →
  versions acc = [TLS13] ∧ chain acc ≠ [] ∧ ∃ cert_path key_path,
    (tls_cert cli = Some cert_path ∧ tls_key cli = Some key_path ∨
     tls_generate cli = true ∧ cert_path = path_join data_dir (lit "server.crt")
                             ∧ key_path = path_join data_dir (lit "server.key")) ∧
    pem_certs (files w') cert_path = Some (chain acc) ∧
    pem_key (files w') key_path = Some (key acc).
Proof.
  unfold tls_acceptor_of. intros Ht.
  destruct (tls_cert cli) as [c|], (tls_key cli) as [k|];
    [apply load_acceptor_Ok in Ht as (-> & Hv & Hc & Hp & Hk);
     split; [done|]; split; [done|]; exists c, k; split; [by left|done]|..].
  all: destruct (tls_generate cli); [|done]; apply generate_acceptor_Ok in Ht as (Hv & Hc & Hp & Hk);
    split; [done|]; split; [done|]; do 2 eexists; split; [by right|done].
Qed.

(** C17: the server never starts unprotected: whenever its command line leads to
    a server at all, clients must present a token of at least sixteen bytes, the
    one of the file or of the option; the connection is TLS 1.3 with the chain
    and key of the files that were given or that were just generated; the rate
    limit is not below zero (NaN is not, and passes); and of the container
    daemon, the cluster and the GPU drivers only what was not disabled is
    attached or even opened. *)
Theorem server_start_guarded cli now w st w' :
  ServerCli_declared cli = true →
  server_main cli now w = (Ok st, w') →
  (16 ≤ str_len (auth_token st))%nat ∧
  versions (tls_acceptor st) = [TLS13] ∧ chain (tls_acceptor st) ≠ [] ∧
  (∃ cert_path key_path,
     (tls_cert cli = Some cert_path ∧ tls_key cli = Some key_path ∧ tls_generate cli = false ∨
      tls_generate cli = true ∧ cert_path = path_join data_dir (lit "server.crt")
                              ∧ key_path = path_join data_dir (lit "server.key")) ∧
     pem_certs (files w') cert_path = Some (chain (tls_acceptor st)) ∧
     pem_key (files w') key_path = Some (key (tls_acceptor st))) ∧
  float_lt (Server.rate_limit_per_ip (server_config st)) f32_zero = false ∧
  (no_containers cli = true → container_engine (served st) = None ∧ dialled w' = dialled w) ∧
  (no_kube cli = true → cluster_engine (served st) = false) ∧
  (no_gpu cli = true → gpu_engine (served st) = false) ∧
  (∃ targets, opened w' = opened w ++ (Daemon <$> targets)
                          ++ (if no_kube cli then [] else [ClusterOf detect_kubeconfig])
                          ++ (if no_gpu cli then [] else [GpuDrivers]) ∧
              (no_containers cli = true → targets = [])) ∧
  NANOS_PER_SEC ≤ interval (served st) ∧ refresh_hz st = refresh cli.
Proof.
  intros Hd Hm. unfold ServerCli_declared in Hd. rewrite !andb_true_iff in Hd.
  destruct Hd as [[[[[[Hr1 Hr2] _] Hpair] Hconf] _] _].
  unfold server_main in Hm. apply bind_Ok in Hm as ([] & w1 & Hi & Hm).
  apply bind_Ok in Hm as (auth & w2 & Ha & Hm). apply auth_token_of_Ok in Ha as (Hlen & -> & _).
  apply bind_Ok in Hm as (acc & w3 & Ht & Hm).
  pose proof (quiet_Ok _ _ _ _ (quiet_init_tracing _) Hi) as Hq1.
  pose proof (quiet_Ok _ _ _ _ (quiet_tls_acceptor cli now) Ht) as Hq2.
  apply tls_acceptor_of_Ok in Ht as (Hv & Hch & cert_path & key_path & Hp & Hc & Hk).
  apply bind_Ok in Hm as ([] & w4 & Hrate & Hm).
  destruct (float_lt (rate_limit_per_ip cli) f32_zero) eqn:Hneg; [done|]. injection Hrate as <-.
  apply bind_Ok in Hm as (engine & w5 & He & Hm). apply bind_Ok in Hm as (cluster & w6 & Hkc & Hm).
  apply bind_Ok in Hm as (gpu & w7 & Hg & [= <- <-]).
  apply container_engine_of_Ok in He as (Hf5 & _ & ts & He2 & He3).
  apply cluster_engine_of_Ok in Hkc as (Hf6 & _ & Hk2 & Hk3).
  apply gpu_engine_of_Ok in Hg as (Hf7 & _ & Hg2 & ->).
  assert (opened w7 = (opened w ++ (Daemon <$> ts))
                        ++ (if no_kube cli then [] else [ClusterOf detect_kubeconfig])
                        ++ (if no_gpu cli then [] else [GpuDrivers])) as Hop.
  { rewrite Hg2, Hk2, He2, Hq2, Hq1, <- !app_assoc. by destruct (no_kube cli), (no_gpu cli). }
  simpl. split_and!; try done.
  - exists cert_path, key_path. rewrite Hf7, Hf6, Hf5. split; [|done].
    destruct Hp as [(Hc1 & Hk1)|Hg]; [|by right]. left. repeat split; try done.
    rewrite Hc1, Hk1 in Hconf. by destruct (tls_generate cli).
  - intros Hno. rewrite Hno in He3. destruct He3 as [-> ->]; [done|]. split; [done|].
    rewrite (dialled_others _ _ _ _ Hop); [by rewrite app_nil_r|].
    destruct (no_kube cli), (no_gpu cli); repeat constructor; done.
  - intros Hno. rewrite Hno in Hk3. by rewrite Hk3.
  - by intros ->.
  - exists ts. rewrite Hop, <- app_assoc. split; [done|]. intros Hno. rewrite Hno in He3. by apply He3.
  - unfold from_secs, NANOS_PER_SEC. apply Z.leb_le in Hr1. lia.
  - unfold as_u32. apply Z.mod_small. apply Z.leb_le in Hr1, Hr2. lia.
Qed.

(** *** The generated key *)

Lemma path_join_inj base p q : path_join base p = path_join base q → p = q.
Proof.
  unfold path_join. case_bool_decide; [done|]. destruct (_ =? 47); intros E%app_inv_head; [done|].
  by injection E.
Qed.

(** The mode of a file that is there, or the one a new file gets. *)
Definition mode_at (fs : gmap str node) (path : str) (created : Z) : Z :=
  match fs !! path with Some (RegularFile m _) => m | _ => created end.

Definition no_link (fs : gmap str node) (path : str) : Prop :=
  (∀ t, fs !! path ≠ Some (SymlinkTo t)) ∧ ∀ m, fs !! path ≠ Some (Directory m).

Lemma secret_written path text w a w1 b w2 :
  open_secret_file_for_write path w = (Ok a, w1) → write_all path text w1 = (Ok b, w2) →
  no_link (files w) path ∧
  files w2 = <[path := RegularFile (mode_at (files w) path 384) text]> (files w).
Proof.
  intros (Hs & Hd & Hf)%context_Ok%open_nofollow_Ok Hw. split; [done|].
  eapply write_all_Ok in Hw; [|rewrite Hf; apply lookup_insert_eq].
  rewrite Hw, Hf. by rewrite insert_insert_eq.
Qed.

Lemma fingerprint_written path text w a w2 :
  write_fingerprint_file path text w = (Ok a, w2) →
  no_link (files w) path ∧
  files w2 = <[path := RegularFile (mode_at (files w) path 420) (text ++ [10])]> (files w).
Proof.
  unfold write_fingerprint_file. intros H1.
  apply bind_Ok in H1 as ([] & w3 & H1 & H2). apply bind_Ok in H2 as ([] & w4 & H2 & H3).
  apply context_Ok, open_nofollow_Ok in H1 as (Hs & Hd & Hf). split; [done|].
  eapply write_all_Ok in H2; [|rewrite Hf; apply lookup_insert_eq].
  eapply write_all_Ok in H3; [|rewrite H2; apply lookup_insert_eq].
  rewrite H3, H2, Hf. by rewrite !insert_insert_eq.
Qed.

Lemma data_dir_ensured path w a w' :
  ensure_data_dir path w = (Ok a, w') →
  files w' !! follow (files w) path = Some (Directory 448) ∧
  ∀ p, p ≠ follow (files w) path → files w' !! p = files w !! p.
Proof.
  unfold ensure_data_dir. intros H1. apply bind_Ok in H1 as ([] & w1 & H1 & H2).
  apply context_Ok, create_dir_all_Ok in H1 as (Hf & (m & Hd) & Hr).
  apply context_Ok in H2. rewrite <- Hf in Hd.
  pose proof (set_permissions_dir _ _ _ _ _ _ Hd H2) as Hs. rewrite Hf in Hs.
  rewrite Hs. split; [apply lookup_insert_eq|]. intros p Hp. rewrite lookup_insert_ne by done. by apply Hr.
Qed.

Definition cert_file : str := path_join data_dir (lit "server.crt").
Definition key_file : str := path_join data_dir (lit "server.key").
Definition fingerprint_file : str := path_join data_dir (lit "server.fingerprint").

Lemma three_distinct :
  cert_file ≠ key_file ∧ cert_file ≠ fingerprint_file ∧ key_file ≠ fingerprint_file.
Proof. repeat split; by intros E%path_join_inj. Qed.

(** The three files written one after the other, from a file system [fs0] that is
    [fs] but for the directory [D]. *)
Lemma three_written fs D m fs0 fs1 fs2 fs3 c k f :
  fs0 !! D = Some (Directory m) → (∀ p, p ≠ D → fs0 !! p = fs !! p) →
  no_link fs0 cert_file → fs1 = <[cert_file := RegularFile (mode_at fs0 cert_file 384) c]> fs0 →
  no_link fs1 key_file → fs2 = <[key_file := RegularFile (mode_at fs1 key_file 384) k]> fs1 →
  no_link fs2 fingerprint_file →
  fs3 = <[fingerprint_file := RegularFile (mode_at fs2 fingerprint_file 420) f]> fs2 →
  fs3 !! D = Some (Directory m) ∧
  Forall (λ path, ∀ t, fs !! path ≠ Some (SymlinkTo t)) [cert_file; key_file; fingerprint_file] ∧
  fs3 !! cert_file = Some (RegularFile (mode_at fs cert_file 384) c) ∧
  fs3 !! key_file = Some (RegularFile (mode_at fs key_file 384) k) ∧
  fs3 !! fingerprint_file = Some (RegularFile (mode_at fs fingerprint_file 420) f) ∧
  ∀ p, p ∉ [D; cert_file; key_file; fingerprint_file] → fs3 !! p = fs !! p.
Proof.
  intros Hd Hr [L1 D1] -> [L2 D2] -> [L3 D3] ->. destruct three_distinct as (Hck & Hcf & Hkf).
  assert (D ≠ cert_file) as HDc by (intros E; apply (D1 m); by rewrite <- E).
  rewrite lookup_insert_ne in L2 by done.
  assert (D ≠ key_file) as HDk by (intros E; apply (D2 m); rewrite <- E; by rewrite lookup_insert_ne).
  rewrite !lookup_insert_ne in L3 by done.
  assert (D ≠ fingerprint_file) as HDf.
  { intros E. apply (D3 m). rewrite <- E. by rewrite !lookup_insert_ne. }
  rewrite Hr in L1, L2, L3 by done. split; [by rewrite !lookup_insert_ne|].
  split; [by repeat constructor|]. unfold mode_at.
  repeat first [rewrite lookup_insert_eq | rewrite lookup_insert_ne by done | rewrite Hr by done].
  do 3 (split; [done|]). intros p Hn. rewrite !not_elem_of_cons in Hn.
  destruct Hn as (HpD & Hpc & Hpk & Hpf & _). rewrite !lookup_insert_ne by done. by apply Hr.
Qed.

(** C33: what [--tls-generate] leaves when it succeeds: the data directory, or the
    directory its link leads to, has mode 0700; its three files hold the
    certificate and the key of one self-signed pair for the address bound, and
    the fingerprint of that certificate.  None of the three was a link, and a
    file that is created has mode 0600 (the fingerprint 0644), while one that
    was there keeps its mode.  Nothing else is changed. *)
Theorem generated_key_is_private bind_ip now w acc w' :
  generate_acceptor bind_ip now w = (Ok acc, w') →
  ∃ cert_pem key_pem params ders,
    self_sign params = Ok (cert_pem, key_pem) ∧ common_name params = display_ip bind_ip ∧
    parse_pem cert_pem = Ok ders ∧
    files w' !! follow (files w) data_dir = Some (Directory 448) ∧
    Forall (λ path, ∀ t, files w !! path ≠ Some (SymlinkTo t)) [cert_file; key_file; fingerprint_file] ∧
    files w' !! cert_file = Some (RegularFile (mode_at (files w) cert_file 384) cert_pem) ∧
    files w' !! key_file = Some (RegularFile (mode_at (files w) key_file 384) key_pem) ∧
    files w' !! fingerprint_file
      = Some (RegularFile (mode_at (files w) fingerprint_file 420)
                (cert_fingerprint sha256 (fst ders) ++ [10])) ∧
    ∀ p, p ∉ [follow (files w) data_dir; cert_file; key_file; fingerprint_file] →
         files w' !! p = files w !! p.
Proof.
  intros Hg. unfold generate_acceptor in Hg. apply bind_Ok in Hg as ([c k] & w1 & Hp & Hg).
  apply context_Ok, lift_Ok in Hp as [Hp ->].
  unfold generate_self_signed in Hp. apply result_bind_Ok in Hp as (params & Hps & Hp).
  apply map_err_Ok in Hp.
  apply bind_Ok in Hg as (certs & w2 & Hc & Hg). apply context_Ok, lift_Ok in Hc as [Hc ->].
  exists c, k, params, certs. split; [done|].
  split. { unfold self_signed_params in Hps. apply result_bind_Ok in Hps as (san & _ & [= <-]). done. }
  split; [done|].
  apply bind_Ok in Hg as (? & w3 & Hm1 & Hg). apply eprintln_files in Hm1.
  apply bind_Ok in Hg as (? & w4 & Hm2 & Hg). apply eprintln_files in Hm2.
  apply bind_Ok in Hg as (? & w5 & He & Hg). apply data_dir_ensured in He as [Hd Hr].
  rewrite Hm2, Hm1 in Hd, Hr.
  apply bind_Ok in Hg as (? & w6 & Ho1 & Hg). apply bind_Ok in Hg as (? & w7 & Hw1 & Hg).
  destruct (secret_written _ _ _ _ _ _ _ Ho1 Hw1) as [Hl1 Hf1].
  apply bind_Ok in Hg as (? & w8 & Ho2 & Hg). apply bind_Ok in Hg as (? & w9 & Hw2 & Hg).
  destruct (secret_written _ _ _ _ _ _ _ Ho2 Hw2) as [Hl2 Hf2].
  apply bind_Ok in Hg as (? & w10 & Hw3 & Hg). apply fingerprint_written in Hw3 as [Hl3 Hf3].
  apply bind_Ok in Hg as (? & w11 & Hm3 & Hg). apply eprintln_files in Hm3.
  apply bind_Ok in Hg as (? & w12 & Hm4 & Hg). apply eprintln_files in Hm4.
  apply load_acceptor_Ok in Hg as (-> & _). rewrite Hm4, Hm3.
  eapply three_written; eauto.
Qed.
End ServerMain.

(** ** Witnesses *)

Definition demo_host : Host := {|
  env _ := None; home_dir := Some (lit "/home/u"); data_local_dir := Some (lit "/home/u/.local/share");
  denied _ := None; exists_ _ := false; symlink _ := None;
  dial _ := Err (ConnectFailed (lit "refused"));
  build_config _ _ _ := Err KubeconfigNotFound; client_error := None; probe := None;
  debug_str s := s;
|}.

Definition pem_text (fs : gmap str node) (path : str) : option str :=
  match fs !! path with Some (RegularFile _ c) => Some c | _ => None end.

Definition demo_tls : TlsHost := {|
  Cert := str; Key := str;
  pem_certs fs path := (λ c, [c]) <$> pem_text fs path; pem_key := pem_text;
  bad_pair _ _ := None; bad_ia5 _ := None;
  self_sign _ := Ok (lit "CERT", lit "KEY"); parse_pem _ := Ok ([], []);
  sha256 _ := replicate 32 x00;
  TlsError_fmt _ := []; display_f32 _ := [];
|}.

Definition demo_cli : ServerCli :=
  mkServerCli (mkAddr (V4 2130706433) 4242) 5 (Some (lit "my-super-secret-token-1234")) None 4
    (f32_of_Z 10) None None true None false None None true false.

Definition empty_world : World := mkWorld ∅ [] [].

Definition demo_start : result (StartedServer (T := demo_tls)) Anyhow * World :=
  server_main (H := demo_host) demo_cli 0 empty_world.

Lemma server_start_guarded_witness :
  ∃ st w', demo_start = (Ok st, w') ∧ refresh_hz st = 5 ∧ (16 ≤ str_len (auth_token st))%nat.
Proof.
  assert (is_ok (fst demo_start) = true) as Hok by (vm_compute; reflexivity).
  destruct demo_start as [[st|e] w'] eqn:E; [|discriminate Hok].
  exists st, w'. split; [reflexivity|].
  destruct (server_start_guarded (H := demo_host) (T := demo_tls) demo_cli 0 empty_world st w'
              eq_refl E) as (Hl & _ & _ & _ & _ & _ & _ & _ & _ & _ & Hr).
  split; [exact Hr|exact Hl].
Defined.

Definition demo_generated : result (TlsAcceptor str str) Anyhow * World :=
  generate_acceptor (H := demo_host) (T := demo_tls) (V4 2130706433) 0 empty_world.

Lemma generated_key_is_private_witness :
  ∃ acc w', demo_generated = (Ok acc, w') ∧ ∃ cert_pem key_pem params,
    self_sign (TlsHost := demo_tls) params = Ok (cert_pem, key_pem) ∧
    common_name params = lit "127.0.0.1" ∧
    files w' !! key_file (H := demo_host)
      = Some (RegularFile (mode_at ∅ (key_file (H := demo_host)) 384) key_pem).
Proof.
  assert (is_ok (fst demo_generated) = true) as Hok by (vm_compute; reflexivity).
  destruct demo_generated as [[acc|e] w'] eqn:E; [|discriminate Hok].
  exists acc, w'. split; [reflexivity|].
  destruct (generated_key_is_private (H := demo_host) (T := demo_tls) (V4 2130706433) 0 empty_world
              acc w' E) as (c & k & params & ders & Hs & Hn & _ & _ & _ & _ & Hk & _).
  exists c, k, params. split; [exact Hs|]. split; [exact Hn|exact Hk].
Defined.

(** The log is opened through links, and before the directory is secured: a link
    planted as the log makes the server create its own key file readable by
    everyone, before it writes the key there. *)
Definition planted : World :=
  mkWorld (<[data_dir (H := demo_host) := Directory 511]>
           (<[path_join (data_dir (H := demo_host)) (lit "muxtop-server.log")
              := SymlinkTo (key_file (H := demo_host))]> ∅)) [] [].

Lemma planted_log_link :
  files (server_main (H := demo_host) (T := demo_tls) demo_cli 0 planted).2 !! key_file (H := demo_host)
    = Some (RegularFile 420 (lit "KEY")).
Proof. vm_compute. reflexivity. Qed.

(** The minimum is sixteen bytes, not characters. *)
Lemma eight_characters_are_enough :
  ∃ t, auth_token_of (H := demo_host) None (Some (lit "éééééééé")) [] empty_world
       = (Ok t, empty_world) ∧ length (token_text t) = 8%nat.
Proof. eexists. split; reflexivity. Qed.

(** A rate that is not a number passes the check for negative ones. *)
Lemma nan_rate_is_accepted :
  float_lt S754_nan f32_zero = false.
Proof. reflexivity. Qed.
