(* ===== verification/ClientMain.v ===== *)
(** * Starting muxtop: src/main.rs

    What the command line of the terminal program leads to: a collector on this
    machine or a session with a server, never both, and the configuration the
    application is given. *)

From S2P Require Import Prelude Str RsFloat Process Network Gpu Snapshots Num Cluster.
From S2P Require Import KubeEngine Docker Collector RateLimit Addr Tls Startup.
From S2P Require Ui App Terminal.
Local Open Scope Z_scope.
Local Open Scope record_scope.
Local Open Scope main_scope.

(** ** The command line *)

Record Cli := mkCli {
  refresh : Z;
  filter : option str;
  sort : SortField;
  tree : bool;
  theme : Ui.ThemeKind;
  no_color : bool;
  ascii : bool;
  no_mouse : bool;
  about : bool;
  remote : option str;
  token : option str;
  token_file : option str;
  tls_ca : option str;
  tls_skip_verify : bool;
  docker_socket : option str;
  no_containers : bool;
  kube_context : option str;
  kube_namespace : option str;
  no_kube : bool;
  no_gpu : bool;
  bench_run : option Z;
}.

Definition Cli_declared (cli : Cli) : bool :=
  (1 <=? refresh cli) && (refresh cli <=? 3600)
  && negb (bool_decide (is_Some (token cli)) && bool_decide (is_Some (token_file cli)))
  && negb (tls_skip_verify cli && bool_decide (is_Some (tls_ca cli)))
  && match kube_namespace cli with Some ns => is_valid_namespace ns | None => true end
  && negb (no_kube cli && bool_decide (is_Some (kube_context cli))).

(** ** The outside of the client *)

Class ClientHost := {
  Cert : Type;
  pem_certs : str → option (list Cert);
  bad_root : Cert → option str;
  resolve : str → Z → result (list SocketAddr) str;
  bad_dns_name : str → option str;
  (* [Display] *)
  RemoteTargetError_fmt : RemoteTargetError → str;
  TlsClientError_fmt : TlsClientError → str;
}.

Definition display_addr (a : SocketAddr) : str :=
  match ip a with
  | V4 _ => display_ip (ip a) ++ lit ":" ++ show (port a)
  | V6 _ => lit "[" ++ display_ip (ip a) ++ lit "]:" ++ show (port a)
  end.

Section ClientMain.
Context {H : Host} {C : ClientHost}.

(** What feeds the application. *)
Inductive source : Type :=
| LocalCollector (collector : Collector)
| RemoteCollector (addr : SocketAddr) (token : option str) (connector : TlsConnector Cert)
    (server_name : ServerName).

(** What [run_app] sets going: the source, and the arguments of [muxtop_tui::run]
    or of the benchmark loop. *)
Record Launch := mkLaunch {
  fed_by : source;
  config : App.CliConfig;
  caps : Terminal.CapsOverrides;
  tui_engine : option DockerEngine;
  tui_cluster_engine : option KubeEngine;
  bench_seconds : option Z;
}.

Definition tls_connector_of (cli : Cli) : M (TlsConnector Cert) :=
  match tls_ca cli with
  | Some ca_path =>
      context (lit "failed to load TLS CA certificate")
        (lift TlsClientError_fmt (connector_from_ca pem_certs bad_root ca_path))
  | None =>
      if tls_skip_verify cli then ret (connector_insecure (Cert := Cert))
      else bail (lit "TLS CA certificate is required. Use --tls-ca <path> to specify the server's "
                 ++ lit "certificate, or --tls-skip-verify for development (INSECURE).")
  end.

Definition insecure_banner : str :=
  lit "============================================================" ++ [10]
  ++ lit "WARNING: --tls-skip-verify is set." ++ [10]
  ++ lit "Server certificates will NOT be validated. Anyone on the" ++ [10]
  ++ lit "network path can impersonate the muxtop-server. Use only" ++ [10]
  ++ lit "on a trusted local-loopback or development network." ++ [10]
  ++ lit "============================================================".

Definition is_remote_cli (cli : Cli) : bool := bool_decide (is_Some (remote cli)).

Definition parsed_remote_of (cli : Cli) : M (option (str * SocketAddr * ServerName)) :=
  match remote cli with
  | Some addr_str =>
      r <- context (lit "invalid --remote target: " ++ addr_str)
             (lift RemoteTargetError_fmt (parse_remote_target resolve bad_dns_name addr_str)) ;;
      ret (Some (addr_str, fst r, snd r))
  | None => ret None
  end.

Definition source_of (cli : Cli) (parsed_remote : option (str * SocketAddr * ServerName))
    (container_engine : option DockerEngine) (cluster_engine : option KubeEngine)
    (gpu_engine : bool) : M source :=
  match parsed_remote with
  | Some (_, addr, server_name) =>
      auth <- auth_token_of (token_file cli) (token cli)
        (lit "Authentication token is required for remote connections. Set --token <secret>, "
         ++ lit "--token-file <path>, or the MUXTOP_TOKEN env var (minimum 16 characters).") ;;
      connector <- tls_connector_of cli ;;
      ret (RemoteCollector addr (Some (into_inner auth)) connector server_name)
  | None =>
      ret (LocalCollector (with_all_engines (from_secs (refresh cli))
             (docker_kind <$> container_engine) (bool_decide (is_Some cluster_engine)) gpu_engine))
  end.

Definition run_app (cli : Cli) : M Launch :=
  init_tracing (lit "muxtop.log") ;;;
  (if tls_skip_verify cli then eprintln insecure_banner else ret tt) ;;;
  (if is_remote_cli cli && negb (refresh cli =? 1) then
     eprintln (lit "warning: --refresh is ignored in remote mode (server dictates timing)")
   else ret tt) ;;;
  container_engine <- container_engine_of (negb (is_remote_cli cli) && negb (no_containers cli))
                        (docker_socket cli) ;;
  cluster_engine <- cluster_engine_of (negb (is_remote_cli cli) && negb (no_kube cli))
                      (kube_context cli) (kube_namespace cli) ;;
  gpu_engine <- gpu_engine_of (negb (is_remote_cli cli) && negb (no_gpu cli)) ;;
  parsed_remote <- parsed_remote_of cli ;;
  src <- source_of cli parsed_remote container_engine cluster_engine gpu_engine ;;
  let connection_mode := match parsed_remote with
                         | Some (raw, addr, _) => App.Remote raw (display_addr addr)
                         | None => App.Local
                         end in
  ret (mkLaunch src
    (App.mkCliConfig (filter cli) (sort cli) (tree cli) connection_mode (theme cli))
    (Terminal.mkOverrides (no_color cli) (ascii cli) (no_mouse cli))
    container_engine cluster_engine (bench_run cli)).

(** [main]: the fast path of [--about], or the application. *)
Definition main (cli : Cli) : M (option Launch) :=
  if about cli then ret None else launch <- run_app cli ;; ret (Some launch).

(** ** Properties *)

Lemma parsed_remote_of_Ok cli w p w' :
  parsed_remote_of cli w = (Ok p, w') →
  w' = w ∧ match remote cli with
           | Some raw => ∃ addr name, p = Some (raw, addr, name)
               ∧ parse_remote_target resolve bad_dns_name raw = Ok (addr, name)
           | None => p = None
           end.
Proof.
  unfold parsed_remote_of. destruct (remote cli) as [raw|]; [|by intros [= <- <-]].
  intros H1. apply bind_Ok in H1 as ([addr name] & w1 & H1 & [= <- <-]).
  apply context_Ok, lift_Ok in H1 as [H1 ->]. eauto.
Qed.

Lemma tls_connector_of_Ok cli w c w' :
  tls_connector_of cli w = (Ok c, w') →
  w' = w ∧ match tls_ca cli with
           | Some ca => ∃ r roots, c = VerifyAgainst (r :: roots) ∧ pem_certs ca = Some (r :: roots)
           | None => c = NoVerifier ∧ tls_skip_verify cli = true
           end.
Proof.
  unfold tls_connector_of. destruct (tls_ca cli) as [ca|].
  - intros H1. apply context_Ok, lift_Ok in H1 as [H1 ->]. split; [done|].
    by eapply connector_from_ca_verifies.
  - destruct (tls_skip_verify cli); [|done]. by intros [= <- <-].
Qed.

(** What a launch against a server is. *)
Definition remote_launch (cli : Cli) (target : str) (l : Launch) (w w' : World) : Prop :=
  ∃ addr name tok connector,
    fed_by l = RemoteCollector addr (Some tok) connector name ∧
    parse_remote_target resolve bad_dns_name target = Ok (addr, name) ∧
    (16 ≤ str_len tok)%nat ∧
    match connector with
    | VerifyAgainst roots => roots ≠ [] ∧ ∃ ca, tls_ca cli = Some ca ∧ pem_certs ca = Some roots
    | NoVerifier => tls_skip_verify cli = true ∧ insecure_banner ∈ stderr w'
    end ∧
    tui_engine l = None ∧ tui_cluster_engine l = None ∧ opened w' = opened w ∧
    App.is_remote (App.with_config (config l)) = true.

Definition local_launch (cli : Cli) (l : Launch) (w w' : World) : Prop :=
  ∃ c, fed_by l = LocalCollector c ∧
    interval c = from_secs (refresh cli) ∧
    container_engine c = docker_kind <$> tui_engine l ∧
    cluster_engine c = bool_decide (is_Some (tui_cluster_engine l)) ∧
    gpu_engine c = negb (no_gpu cli) ∧
    (no_containers cli = true → tui_engine l = None) ∧
    (no_kube cli = true → tui_cluster_engine l = None) ∧
    (∃ targets, opened w' = opened w ++ (Daemon <$> targets)
                            ++ (if no_kube cli then [] else [ClusterOf detect_kubeconfig])
                            ++ (if no_gpu cli then [] else [GpuDrivers]) ∧
                (no_containers cli = true → targets = [])) ∧
    App.is_remote (App.with_config (config l)) = false.

Lemma quiet_start cli log :
  quiet (init_tracing log ;;; (if tls_skip_verify cli then eprintln insecure_banner else ret tt)).
Proof. unfold init_tracing. destruct (tls_skip_verify cli); auto 10 with muxtop. Qed.

(** C23: what is watched is one machine: with [--remote] the application is fed by
    a session with that server alone, under the name that was typed, with a
    token of at least sixteen bytes, verified against the given roots unless
    verification was explicitly and loudly turned off; nothing of this machine
    is opened (no container daemon, no kubeconfig or cluster, no GPU driver), no
    local engine exists, and the application is in its read-only remote mode.
    Without it the application is local, acts on the very engines its collector
    polls, and opens what was not disabled and nothing else. *)
Theorem one_source cli w l w' :
  run_app cli w = (Ok l, w') →
  match remote cli with
  | Some target => remote_launch cli target l w w'
  | None => local_launch cli l w w'
  end.
Proof.
  unfold run_app. intros Hr.
  apply bind_Ok in Hr as ([] & w1 & Hi & Hr). apply bind_Ok in Hr as ([] & w2 & Hb & Hr).
  assert (opened w2 = opened w) as Hq
    by (apply (quiet_Ok _ _ tt _ (quiet_start cli (lit "muxtop.log"))); apply bind_Ok; eauto).
  assert (tls_skip_verify cli = true → insecure_banner ∈ stderr w2) as Hban.
  { intros Hs. rewrite Hs in Hb. injection Hb as <-. simpl. apply elem_of_app. right. by left. }
  apply bind_Ok in Hr as ([] & w3 & Hw & Hr).
  assert (opened w3 = opened w2 ∧ (insecure_banner ∈ stderr w2 → insecure_banner ∈ stderr w3))
    as [Hq3 Hb3].
  { destruct (is_remote_cli cli && negb (refresh cli =? 1)); injection Hw as <-; [|done].
    split; [done|]. intros Hin. simpl. apply elem_of_app. by left. }
  apply bind_Ok in Hr as (engine & w4 & He & Hr). apply bind_Ok in Hr as (cluster & wk & Hk & Hr).
  apply bind_Ok in Hr as (gpu & wg & Hg & Hr). apply bind_Ok in Hr as (parsed & w5 & Hp & Hr).
  apply bind_Ok in Hr as (src & w6 & Hs & [= <- <-]).
  apply container_engine_of_Ok in He as (_ & He1 & ts & He2 & He3).
  apply cluster_engine_of_Ok in Hk as (_ & Hk1 & Hk2 & Hk3).
  apply gpu_engine_of_Ok in Hg as (_ & Hg1 & Hg2 & Hg3).
  apply parsed_remote_of_Ok in Hp as (-> & Hp). unfold is_remote_cli in *.
  destruct (remote cli) as [target|] eqn:Er.
  - destruct Hp as (addr & name & -> & Hp).
    assert (bool_decide (is_Some (Some target)) = true) as Ht by done. rewrite Ht in *.
    simpl in *. rewrite app_nil_r in *. destruct He3 as [-> ->]; [done|]. rewrite app_nil_r in *.
    rewrite Hk3 by done.
    unfold source_of in Hs. apply bind_Ok in Hs as (auth & w7 & Ha & Hs).
    apply auth_token_of_Ok in Ha as (Hlen & -> & _).
    apply bind_Ok in Hs as (c & w8 & Hc & [= <- <-]). apply tls_connector_of_Ok in Hc as (-> & Hc).
    exists addr, name, (into_inner auth), c. simpl. split_and!; try done; [|congruence].
    destruct (tls_ca cli) as [ca|].
    + destruct Hc as (r & roots & -> & Hpem). split; [done|]. by exists ca.
    + destruct Hc as [-> Hskip]. split; [done|].
      rewrite Hg1, Hk1, He1. by apply Hb3, Hban.
  - subst parsed. assert (bool_decide (is_Some (@None str)) = false) as Hn by done.
    rewrite Hn in *. simpl in He3, Hk2, Hk3, Hg2, Hg3, Hs.
    injection Hs as <- <-. eexists. simpl. split_and!; try done.
    + intros Hno. rewrite Hno in He3. by apply He3.
    + intros Hno. rewrite Hno in Hk3. by apply Hk3.
    + exists ts. split; [|intros Hno; rewrite Hno in He3; by apply He3].
      rewrite Hg2, Hk2, He2, Hq3, Hq, <- !app_assoc. by destruct (no_kube cli), (no_gpu cli).
Qed.
End ClientMain.

(** ** The benchmark loop and the about text *)

Section Bench.
Context {Uc : Unicode} {Us : UnstableSort}.

(** The snapshots received before the deadline; [None] is the end of the
    channel. *)
Fixpoint bench_loop (received : list (option SystemSnapshot)) (app : App.AppState) : App.AppState :=
  match received with
  | Some snap :: received => bench_loop received (App.recompute_visible (App.apply_snapshot snap app))
  | _ => app
  end.

Definition bench_run_loop (received : list (option SystemSnapshot)) (config : App.CliConfig)
    : App.AppState := bench_loop received (App.with_config config).
End Bench.

Definition about_lines (version : str) : list str :=
  [lit "muxtop v" ++ version; lit "A modern, multiplexed system monitor for the terminal"; [];
   lit "License:     MIT OR Apache-2.0"; lit "Repository:  https://github.com/lucasschimmel/muxtop";
   lit "Authors:     Lucas Schimmel"; [];
   lit "Privacy:     muxtop collects NO telemetry, NO analytics,";
   lit "             and phones home to NOBODY. Ever."].

(** ** Witness *)

Definition quiet_host : Host := {|
  env _ := None; home_dir := None; data_local_dir := Some (lit "/home/u/.local/share");
  denied _ := None; exists_ _ := true; symlink _ := None;
  dial _ := Ok (Some (lit "24.0"), None);
  build_config _ _ _ := Err KubeconfigNotFound; client_error := None; probe := None;
  debug_str s := s;
|}.

Definition demo_client_host : ClientHost := {|
  Cert := str;
  pem_certs path := if bool_decide (path = lit "/etc/ca.pem") then Some [lit "ROOT"] else None;
  bad_root _ := None; resolve := demo_resolve; bad_dns_name _ := None;
  RemoteTargetError_fmt _ := []; TlsClientError_fmt _ := [];
|}.

Definition demo_args : Cli :=
  mkCli 5 None Cpu false Ui.TokyoNight false false false false (Some (lit "mon.example.com:4242"))
    (Some (lit "my-super-secret-token-1234")) None (Some (lit "/etc/ca.pem")) false None false
    None None false false None.

Definition demo_launch : result (Launch (C := demo_client_host)) Anyhow * World :=
  run_app (H := quiet_host) demo_args (mkWorld ∅ [] []).

Lemma one_source_witness :
  ∃ l w', demo_launch = (Ok l, w') ∧ tui_engine l = None ∧ opened w' = [] ∧
    ∃ addr name tok connector, fed_by l = RemoteCollector addr (Some tok) connector name
      ∧ (16 ≤ str_len tok)%nat.
Proof.
  assert (is_ok (fst demo_launch) = true) as Hok by (vm_compute; reflexivity).
  destruct demo_launch as [[l|e] w'] eqn:E; [|discriminate Hok].
  exists l, w'. split; [reflexivity|].
  destruct (one_source (H := quiet_host) (C := demo_client_host) demo_args (mkWorld ∅ [] []) l w' E)
    as (addr & name & tok & c & Hf & _ & Hlen & _ & He & _ & Hd & _).
  split; [exact He|]. split; [exact Hd|]. exists addr, name, tok, c. split; [exact Hf|exact Hlen].
Defined.
