(* ===== verification/Amd.v ===== *)
(** * The AMD backend: crates/muxtop-core/src/amd_engine.rs

    The amdgpu files of sysfs, as two functions: the text of a file that can be
    read and the names in a directory.  Every attribute may be missing. *)

From S2P Require Import Prelude Str RsFloat Process Network Gpu Snapshots Num Docker.
From stdpp Require sorting.
Local Open Scope Z_scope.

Definition DRM_ROOT : str := lit "/sys/class/drm".
Definition PCI_VENDOR_AMD : str := lit "0x1002".

Class Sysfs := {
  read_file : str → option str;
  (* [None] inside for a name that is not UTF-8 *)
  read_dir : str → option (list (option str));
}.

Section Amd.
Context {Fs : Sysfs}.

Definition read_trimmed (path : str) : option str := trim <$> read_file path.

Definition read_u64 (path : str) : option Z := s ← read_trimmed path; parse_uint u64_max s.

Definition hz_to_mhz (hz : Z) : Z := as_u32 (hz / 1000000).

Definition uw_to_watts (uw : Z) : f32 := f32_div (f32_of_Z uw) (f32_of_Z 1000000).

(** ** Discovery *)

Definition parse_card_number (name : str) : option Z :=
  rest ← strip_prefix name (lit "card");
  if bool_decide (rest = []) || negb (forallb is_digit rest) then None
  else parse_uint u32_max rest.

Definition is_amd_card (device_dir : str) : bool :=
  match read_trimmed (path_join device_dir (lit "vendor")) with
  | Some v => bool_decide (to_ascii_lowercase <$> v = to_ascii_lowercase <$> PCI_VENDOR_AMD)
  | None => false
  end.

(** An entry of the directory: a card with its number, or nothing of interest. *)
Definition probe_entry (drm_root : str) (file_name : option str) : option (Z * str) :=
  name ← file_name;
  card_number ← parse_card_number name;
  let device_dir := path_join (path_join drm_root name) (lit "device") in
  if is_amd_card device_dir then Some (card_number, device_dir) else None.

Definition discover_cards (drm_root : str) : list str :=
  match read_dir drm_root with
  | None => []
  | Some entries => snd <$> sort_by (by_key Z.compare fst) (omap (probe_entry drm_root) entries)
  end.

(** ** One card *)

(** The entries of [device/hwmon], whose paths differ in their last component
    only: the least. *)
Definition find_hwmon (device_dir : str) : option str :=
  let dir := path_join device_dir (lit "hwmon") in
  entries ← read_dir dir;
  path_join dir <$>
    head (sort_by str_cmp (List.filter (λ n, starts_with n (lit "hwmon")) (omap id entries))).

Definition read_fan_pct (hwmon : str) : option f32 :=
  pwm ← read_u64 (path_join hwmon (lit "pwm1"));
  let max := match read_u64 (path_join hwmon (lit "pwm1_max")) with
             | Some m => if 0 <? m then m else 255
             | None => 255
             end in
  Some (f64_clamp f32_zero (f32_of_Z 100)
          (f32_mul (f32_div (f32_of_Z pwm) (f32_of_Z max)) (f32_of_Z 100))).

(** The loop over the lines of a clock table. *)
Fixpoint active_dpm_mhz (ls : list str) : option Z :=
  match ls with
  | [] => None
  | line :: ls =>
      let line := trim line in
      if negb (ends_with 42 line) then active_dpm_mhz ls
      else
        part ← split_on 58 line !! 1%nat;
        let value := to_ascii_lowercase <$> trim (trim_end_matches 42 (trim part)) in
        let digits := take_while is_digit value in
        if bool_decide (digits = []) then active_dpm_mhz ls else parse_uint u32_max digits
  end.

Definition read_active_dpm_mhz (path : str) : option Z :=
  content ← read_trimmed path; active_dpm_mhz (str_lines content).

Definition or_else {A} (o : option A) (k : option A) : option A :=
  match o with Some a => Some a | None => k end.

Definition read_device_name (device_dir : str) : str :=
  let by_id := match read_trimmed (path_join device_dir (lit "device")) with
               | Some id => if bool_decide (id = []) then lit "AMD GPU" else lit "AMD GPU " ++ id
               | None => lit "AMD GPU"
               end in
  match read_trimmed (path_join device_dir (lit "product_name")) with
  | Some name => if bool_decide (name = []) then by_id else name
  | None => by_id
  end.

Definition read_bus_id (device_dir : str) : str :=
  match read_trimmed (path_join device_dir (lit "uevent")) with
  | None => []
  | Some uevent =>
      match head (omap (λ line, strip_prefix line (lit "PCI_SLOT_NAME=")) (str_lines uevent)) with
      | Some s => trim s
      | None => []
      end
  end.

Definition read_device (device_dir : str) (index : Z) (driver_version : option str)
    : GpuDeviceSnapshot :=
  let hwmon := find_hwmon device_dir in
  let dev name := read_u64 (path_join device_dir (lit name)) in
  let hw name := h ← hwmon; read_u64 (path_join h (lit name)) in
  mkGpuDevice index Amd AmdSysfs (read_device_name device_dir) (read_bus_id device_dir) driver_version
    (f32_of_Z <$> dev "gpu_busy_percent"%string)
    (f32_of_Z <$> dev "mem_busy_percent"%string)
    (dev "mem_info_vram_used"%string) (dev "mem_info_vram_total"%string)
    ((λ v, f32_div (f32_of_Z v) (f32_of_Z 1000)) <$> hw "temp1_input"%string)
    (uw_to_watts <$> or_else (hw "power1_average"%string) (hw "power1_input"%string))
    (uw_to_watts <$> hw "power1_cap"%string)
    (or_else (hz_to_mhz <$> hw "freq1_input"%string)
       (read_active_dpm_mhz (path_join device_dir (lit "pp_dpm_sclk"))))
    (or_else (hz_to_mhz <$> hw "freq2_input"%string)
       (read_active_dpm_mhz (path_join device_dir (lit "pp_dpm_mclk"))))
    (h ← hwmon; read_fan_pct h) None None false.

(** ** The engine *)

Record AmdEngine := mkAmd { cards : list str; amd_driver_version : option str }.

Definition connect_at (drm_root : str) : result AmdEngine GpuError :=
  let cards := discover_cards drm_root in
  if bool_decide (length cards = 0)%nat then
    Err (DriverUnavailable (lit "AMD") (lit "no amdgpu card found under " ++ drm_root))
  else Ok (mkAmd cards (read_trimmed (lit "/sys/module/amdgpu/version"))).

Definition connect : result AmdEngine GpuError := connect_at DRM_ROOT.

Definition device_count (self : AmdEngine) : nat := length (cards self).

Definition collect (cards : list str) (driver_version : option str) : GpusSnapshot :=
  let devices := imap (λ i dir, read_device dir (as_u32 (Z.of_nat i)) driver_version) cards in
  if bool_decide (length devices = 0)%nat then gpus_unavailable_with (lit "no amdgpu card readable")
  else mkGpus [AmdSysfs] true devices [] [].

(** The blocking task that reads the files runs to its end. *)
Definition snapshot (self : AmdEngine) : result GpusSnapshot GpuError :=
  Ok (collect (cards self) (amd_driver_version self)).

(** ** Properties *)

Lemma amd_collect_numbered cs v : Z.of_nat (length cs) ≤ u32_max → numbered (collect cs v).
Proof.
  intros Hl. unfold collect. case_bool_decide as H0; [by split|]. split; simpl; [|constructor].
  rewrite length_imap. apply list_eq. intros i. rewrite list_lookup_fmap, list_lookup_imap.
  destruct (cs !! i) as [d|] eqn:E; simpl.
  - pose proof (lookup_lt_Some _ _ _ E). rewrite lookup_seqZ_lt by lia.
    unfold as_u32, u32_max in *. rewrite Z.mod_small by lia. f_equal.
  - apply lookup_ge_None in E. by rewrite lookup_seqZ_ge by lia.
Qed.

(** *** Discovery *)

Lemma probe_entry_Some drm_root name n dir :
  probe_entry drm_root name = Some (n, dir) →
  ∃ s, name = Some s ∧ parse_card_number s = Some n ∧ is_amd_card dir = true ∧
       dir = path_join (path_join drm_root s) (lit "device").
Proof.
  unfold probe_entry. destruct name as [s|]; [|done]. simpl.
  destruct (parse_card_number s) as [k|] eqn:E; [|done]. simpl.
  destruct (is_amd_card _) eqn:Ea; [|done]. intros [= <- <-]. eauto.
Qed.

Lemma by_number_total : total_preorder (λ _ : Z * str, True) (by_key Z.compare fst).
Proof.
  split; unfold by_key.
  - intros a b _ _. by rewrite Z.compare_antisym.
  - intros a b c _ _ _. rewrite !Z.compare_le_iff. lia.
Qed.

Lemma in_order_unique (l l' : list (Z * str)) :
  NoDup (fst <$> l) → l ≡ₚ l' → sort_by (by_key Z.compare fst) l = sort_by (by_key Z.compare fst) l'.
Proof.
  intros Hnd Hp.
  assert (∀ k, NoDup (fst <$> k) → StronglySorted (λ a b : Z * str, fst a < fst b)
                                      (sort_by (by_key Z.compare fst) k)) as Hs.
  { intros k Hk.
    pose proof (sort_by_in_order _ _ k by_number_total ltac:(by apply Forall_true)) as Ho.
    assert (NoDup (fst <$> sort_by (by_key Z.compare fst) k)) as Hk' by (by rewrite sort_by_perm).
    induction Ho as [|a k' Ho IH Ha]; [constructor|]. csimpl in Hk'. apply NoDup_cons in Hk' as [Hn Hk'].
    constructor; [by apply IH|]. rewrite Forall_forall in *. intros b Hb. specialize (Ha b Hb).
    unfold by_key in Ha. rewrite Z.compare_le_iff in Ha.
    assert (fst a ≠ fst b) by (intros E; apply Hn; rewrite E; by apply list_elem_of_fmap_2). lia. }
  assert (AntiSymm (=) (λ a b : Z * str, fst a < fst b)) by (intros ? ? ? ?; lia).
  apply (sorting.StronglySorted_unique (λ a b : Z * str, fst a < fst b)); [by apply Hs|..].
  - apply Hs. by rewrite <- Hp.
  - by rewrite !sort_by_perm.
Qed.
End Amd.

(** What is found in a directory, in the order it is listed. *)
Definition found_cards {Fs : Sysfs} (drm_root : str) : list (Z * str) :=
  match read_dir drm_root with Some entries => omap (probe_entry drm_root) entries | None => [] end.

(** The cards are AMD's and keep their places: whatever else the directory
    holds (connectors, render nodes, cards of other vendors), each card found is
    the device directory of a [cardN] entry whose vendor is AMD; and listing the
    same entries in another order gives the same cards in the same order, since
    they are ordered by number. *)
Theorem discovery_is_stable (fs fs' : Sysfs) drm_root entries entries' :
  @read_dir fs drm_root = Some entries → @read_dir fs' drm_root = Some entries' →
  entries ≡ₚ entries' → (∀ p, @read_file fs p = @read_file fs' p) →
  NoDup (fst <$> @found_cards fs drm_root) →
  @discover_cards fs drm_root = @discover_cards fs' drm_root ∧
  Forall (λ dir, ∃ name n, Some name ∈ entries ∧ name = lit "card" ++ n ∧ forallb is_digit n = true ∧
                           @is_amd_card fs dir = true ∧
                           dir = path_join (path_join drm_root name) (lit "device"))
    (@discover_cards fs drm_root).
Proof.
  intros He He' Hp Hf Hnd. unfold discover_cards, found_cards in *. rewrite He in *. rewrite He'.
  assert (∀ x, @probe_entry fs' drm_root x = @probe_entry fs drm_root x) as Hprobe.
  { intros x. unfold probe_entry, is_amd_card, read_trimmed. destruct x as [s|]; [|done]. simpl.
    destruct (parse_card_number s); [|done]. simpl. by rewrite Hf. }
  split.
  - f_equal. apply in_order_unique; [done|].
    rewrite (list_omap_ext (@probe_entry fs' drm_root) (@probe_entry fs drm_root) entries' entries')
      by (by apply Forall_Forall2_diag, Forall_true).
    by rewrite Hp.
  - apply Forall_fmap, Forall_forall. intros [n dir] Hin. rewrite sort_by_perm in Hin.
    apply list_elem_of_omap in Hin as (x & Hx & Hs).
    apply probe_entry_Some in Hs as (name & -> & Hn & Ha & ->). simpl.
    unfold parse_card_number in Hn. destruct (strip_prefix name (lit "card")) as [rest|] eqn:E; [|done].
    apply strip_prefix_spec in E as ->. simpl in Hn.
    destruct (bool_decide (rest = [])), (forallb is_digit rest) eqn:Ed; try done.
    by exists (lit "card" ++ rest), rest.
Qed.

(** *** Clock tables *)

(** A line of a table as the kernel prints it, the active one starred. *)
Definition dpm_line (i : Z) (mhz : Z) (active : bool) : str :=
  show i ++ lit ": " ++ show mhz ++ lit "Mhz" ++ (if active then lit " *" else []).

Definition dpm_table (clocks : list Z) (active : option nat) : str :=
  join [10] (imap (λ i mhz, dpm_line (Z.of_nat i) mhz (bool_decide (active = Some i))) clocks) ++ [10].

Lemma digits_head s t : s ≠ [] → forallb is_digit s = true → not_space_at (head (s ++ t)).
Proof.
  intros Hne Hd. destruct s as [|c s]; [done|]. simpl in *. apply andb_true_iff in Hd as [Hc _].
  by apply digit_not_space.
Qed.

Lemma dpm_line_ends i mhz active :
  0 ≤ i → not_space_at (head (dpm_line i mhz active)) ∧ not_space_at (last (dpm_line i mhz active)).
Proof.
  intros Hi. destruct (show_spec i Hi) as (Hne & Hd & _). split; [by apply digits_head|].
  unfold dpm_line. rewrite !app_assoc. destruct active; [by rewrite last_app|].
  rewrite app_nil_r. by rewrite last_app.
Qed.

Lemma digits_no_char c s : is_digit c = false → forallb is_digit s = true → Forall (λ x, x ≠ c) s.
Proof.
  intros Hc Hs. apply Forall_forall. intros x Hx ->. rewrite forallb_forall in Hs.
  apply list_elem_of_In, Hs in Hx. congruence.
Qed.

(** What the loop does with one line. *)
Lemma active_dpm_line i mhz active ls :
  0 ≤ i → 0 ≤ mhz ≤ u32_max →
  active_dpm_mhz (dpm_line i mhz active :: ls) = if active then Some mhz else active_dpm_mhz ls.
Proof.
  intros Hi Hm. destruct (dpm_line_ends i mhz active Hi) as [Hh Hl].
  cbn [active_dpm_mhz]. rewrite trim_fixed by done.
  assert (ends_with 42 (dpm_line i mhz active) = active) as ->.
  { unfold ends_with, dpm_line. rewrite !app_assoc.
    destruct active; [by rewrite last_app|]. rewrite app_nil_r. by rewrite last_app. }
  destruct active; [|done]. simpl negb. cbv iota.
  destruct (show_spec i Hi) as (_ & Hdi & _). destruct (show_spec mhz) as (Hnem & Hdm & _); [lia|].
  assert (split_on 58 (dpm_line i mhz true) = [show i; lit " " ++ show mhz ++ lit "Mhz *"]) as ->.
  { unfold dpm_line. change (lit ": " ++ show mhz ++ lit "Mhz" ++ lit " *")
      with (58 :: lit " " ++ show mhz ++ lit "Mhz *").
    rewrite split_on_app by (by apply digits_no_char). f_equal.
    rewrite split_on_none; [done|]. apply Forall_app; split; [by repeat constructor|].
    apply Forall_app; split; [by apply digits_no_char|by repeat constructor]. }
  change ([show i; lit " " ++ show mhz ++ lit "Mhz *"] !! 1%nat)
    with (Some (lit " " ++ show mhz ++ lit "Mhz *")).
  cbn [mbind option_bind].
  assert (trim (lit " " ++ show mhz ++ lit "Mhz *") = (show mhz ++ lit "Mhz ") ++ [42]) as ->.
  { rewrite <- (app_nil_r (show mhz ++ lit "Mhz *")).
    rewrite trim_around; [by rewrite <- app_assoc|by repeat constructor|constructor| | |].
    - by destruct (show mhz).
    - by apply digits_head.
    - by rewrite last_app. }
  assert (trim_end_matches 42 ((show mhz ++ lit "Mhz ") ++ [42]) = show mhz ++ lit "Mhz ") as ->.
  { unfold trim_end_matches. rewrite reverse_app, reverse_app. simpl.
    change (reverse (lit "Mhz ")) with (lit " zhM"). simpl.
    rewrite !reverse_cons, reverse_involutive, <- !app_assoc. done. }
  assert (trim (show mhz ++ lit "Mhz ") = show mhz ++ lit "Mhz") as ->.
  { change (show mhz ++ lit "Mhz ") with ([] ++ show mhz ++ lit "Mhz" ++ lit " ").
    rewrite (app_assoc (show mhz)).
    rewrite trim_around; [done|constructor|by repeat constructor| | |].
    - by destruct (show mhz).
    - by apply digits_head.
    - by rewrite last_app. }
  rewrite fmap_app.
  assert (to_ascii_lowercase <$> show mhz = show mhz) as ->.
  { clear - Hdm. induction (show mhz) as [|c s IH]; [done|]. csimpl. simpl in Hdm.
    apply andb_true_iff in Hdm as [Hc Hs]. rewrite IH by done. f_equal.
    unfold to_ascii_lowercase, is_ascii_uppercase, is_digit in *. destruct (Z.leb_spec 65 c); [|done].
    lia. }
  rewrite take_while_app by done. rewrite bool_decide_eq_false_2 by done. by apply parse_uint_show.
Qed.

Lemma active_dpm_table clocks active off :
  Forall (λ n, 0 ≤ n ≤ u32_max) clocks →
  active_dpm_mhz (imap (λ i mhz, dpm_line (Z.of_nat (off + i)) mhz (bool_decide (active = Some (off + i)%nat)))
                    clocks)
  = match active with Some k => if bool_decide (off ≤ k)%nat then clocks !! (k - off)%nat else None
                    | None => None end.
Proof.
  intros Hc. revert off. induction Hc as [|n clocks Hn _ IH]; intros off.
  { destruct active as [k|]; [|done]. by case_bool_decide. }
  cbn [imap]. rewrite active_dpm_line by (done || lia). rewrite Nat.add_0_r.
  specialize (IH (S off)).
  assert (imap ((λ i mhz, dpm_line (Z.of_nat (off + i)) mhz (bool_decide (active = Some (off + i)%nat))) ∘ S)
            clocks
          = imap (λ i mhz, dpm_line (Z.of_nat (S off + i)) mhz (bool_decide (active = Some (S off + i)%nat)))
              clocks) as ->.
  { apply imap_ext. intros i x _. simpl. by rewrite Nat.add_succ_r. }
  rewrite IH. destruct active as [k|]; [|done].
  destruct (decide (k = off)) as [->|Hk].
  - rewrite (bool_decide_eq_true_2 (Some off = Some off)) by done.
    rewrite bool_decide_eq_true_2 by lia. by rewrite Nat.sub_diag.
  - rewrite (bool_decide_eq_false_2 (Some k = Some off)) by congruence.
    destruct (decide (off ≤ k)%nat).
    + rewrite !bool_decide_eq_true_2 by lia. by replace (k - off)%nat with (S (k - S off)) by lia.
    + by rewrite !bool_decide_eq_false_2 by lia.
Qed.

Lemma dpm_line_printable i mhz active :
  0 ≤ i → 0 ≤ mhz →
  dpm_line i mhz active ≠ [] ∧ Forall (λ c, c ≠ 10 ∧ c ≠ 13) (dpm_line i mhz active).
Proof.
  intros Hi Hm. destruct (show_spec i Hi) as (Hne & Hdi & _). destruct (show_spec mhz Hm) as (_ & Hdm & _).
  assert (∀ s, forallb is_digit s = true → Forall (λ c, c ≠ 10 ∧ c ≠ 13) s) as Hd.
  { intros s Hs. apply Forall_and. by split; apply digits_no_char. }
  split; [unfold dpm_line; by destruct (show i)|].
  unfold dpm_line. repeat (apply Forall_app; split); try (by apply Hd); try (by repeat constructor).
  by destruct active; repeat constructor.
Qed.

(** The ends of joined lines are those of the first and of the last. *)
Lemma join_ends (ls : list str) :
  Forall (λ l, l ≠ [] ∧ not_space_at (head l) ∧ not_space_at (last l)) ls → ls ≠ [] →
  join [10] ls ≠ [] ∧ not_space_at (head (join [10] ls)) ∧ not_space_at (last (join [10] ls)).
Proof.
  induction 1 as [|l ls (Hne & Hh & Hl) Hls IH]; [done|]. intros _.
  destruct ls as [|l' ls]; [done|]. destruct (IH ltac:(done)) as (IHne & _ & IHl).
  change (join [10] (l :: l' :: ls)) with (l ++ [10] ++ join [10] (l' :: ls)).
  split; [by destruct l|]. split; [by destruct l|].
  rewrite !last_app. destruct (last (join [10] (l' :: ls))) eqn:E; [done|].
  by apply last_None in E.
Qed.

(** The clock shown is the active one: reading a table printed by the kernel
    gives the frequency of the starred state, and nothing when no state is
    starred, as while the card changes state. *)
Theorem dpm_roundtrip {Fs : Sysfs} path clocks active :
  Forall (λ n, 0 ≤ n ≤ u32_max) clocks →
  read_file path = Some (dpm_table clocks active) →
  read_active_dpm_mhz path = k ← active; clocks !! k.
Proof.
  intros Hc Hf. unfold read_active_dpm_mhz, read_trimmed. rewrite Hf. simpl.
  pose proof (active_dpm_table clocks active 0 Hc) as Ht. simpl in Ht.
  set (ls := imap _ clocks) in Ht.
  assert (∀ P, (∀ i n b, 0 ≤ i → 0 ≤ n ≤ u32_max → P (dpm_line i n b)) → Forall P ls) as Hall.
  { intros P HP. apply Forall_lookup. intros i l Hl. unfold ls in Hl. rewrite list_lookup_imap in Hl.
    destruct (clocks !! i) as [n|] eqn:E; [|done]. injection Hl as <-. apply HP; [lia|].
    exact (proj1 (Forall_lookup _ _) Hc i n E). }
  unfold dpm_table. fold ls.
  assert (trim (join [10] ls ++ [10]) = join [10] ls) as ->.
  { destruct (decide (ls = [])) as [->|Hne]; [done|].
    destruct (join_ends ls) as (H1 & H2 & H3); [|done|].
    - apply Hall. intros i n b Hi Hn. split; [by apply dpm_line_printable; lia|by apply dpm_line_ends].
    - apply (trim_around [] (join [10] ls) [10]); by repeat constructor. }
  rewrite str_lines_join by (apply Hall; intros; apply dpm_line_printable; lia).
  rewrite Ht. destruct active as [k|]; [|done]. simpl. by rewrite Nat.sub_0_r.
Qed.

(** *** Witnesses *)

Definition demo_dir : list (option str) :=
  [Some (lit "card1"); Some (lit "renderD128"); Some (lit "card0-DP-1"); None; Some (lit "card0")].

Definition demo_sysfs (entries : list (option str)) : Sysfs := {|
  read_dir p := if bool_decide (p = DRM_ROOT) then Some entries else None;
  read_file p := if ends_with 114 p then Some (lit "0x1002" ++ [10])      (* .../vendor *)
                 else if ends_with 107 p then Some (dpm_table [500; 1200; 2200] (Some 1%nat))
                 else None;
|}.

Lemma discovery_is_stable_witness :
  @discover_cards (demo_sysfs demo_dir) DRM_ROOT
    = [lit "/sys/class/drm/card0/device"; lit "/sys/class/drm/card1/device"] ∧
  @discover_cards (demo_sysfs demo_dir) DRM_ROOT
    = @discover_cards (demo_sysfs (reverse demo_dir)) DRM_ROOT.
Proof.
  split; [vm_compute; reflexivity|].
  apply (discovery_is_stable (demo_sysfs demo_dir) (demo_sysfs (reverse demo_dir)) DRM_ROOT
           demo_dir (reverse demo_dir)); [reflexivity|reflexivity| |reflexivity|].
  - symmetry. apply reverse_Permutation.
  - apply (bool_decide_unpack _). vm_compute. exact I.
Defined.

Lemma dpm_roundtrip_witness :
  dpm_table [500; 1200; 2200] (Some 1%nat)
    = lit "0: 500Mhz" ++ [10] ++ lit "1: 1200Mhz *" ++ [10] ++ lit "2: 2200Mhz" ++ [10] ∧
  @read_active_dpm_mhz (demo_sysfs demo_dir) (lit "pp_dpm_sclk") = Some 1200.
Proof.
  split; [reflexivity|].
  apply (@dpm_roundtrip (demo_sysfs demo_dir) (lit "pp_dpm_sclk") [500; 1200; 2200] (Some 1%nat));
    [|reflexivity].
  repeat constructor; discriminate.
Defined.

