(* ===== verification/Nvml.v ===== *)
(** * The NVIDIA backend: crates/muxtop-core/src/nvml_engine.rs

    NVML is a library: a device is the record of what its queries answer, each
    of which may be refused. *)

From S2P Require Import Prelude Str RsFloat Gpu.
Local Open Scope Z_scope.

(** What nvml-wrapper's [Device] answers; a percentage, a size or a clock is the
    integer of the library, a process its PID and the memory it is known to
    use. *)
Record Device := mkDevice {
  utilization_rates : option (Z * Z);          (* gpu, memory *)
  memory_info : option (Z * Z);                (* used, total *)
  enforced_power_limit : option Z;
  power_management_limit : option Z;
  dev_name : option str;
  pci_bus_id : option str;
  temperature : option Z;
  power_usage : option Z;
  graphics_clock : option Z;
  memory_clock : option Z;
  fan_speed : option Z;
  encoder_utilization : option Z;
  decoder_utilization : option Z;
  running_compute_processes : option (list (Z * option Z));
  running_graphics_processes : option (list (Z * option Z));
}.

Class NvmlLib := {
  device_count : result Z str;
  device_by_index : Z → option Device;
  sys_driver_version : option str;
}.

(** ** Processes *)

Abbreviation merged_map := (gmap Z (GpuProcessKind * option Z)).

(** One process of a list, with the entry it has and the order pids were met. *)
Definition absorb_one (kind : GpuProcessKind) (acc : merged_map * list Z) (proc_info : Z * option Z)
    : merged_map * list Z :=
  let '(merged, order) := acc in
  let '(pid, mem) := proc_info in
  match merged !! pid with
  | Some (k, m) =>
      (<[pid := (merge k kind, match m with None => mem | Some _ => m end)]> merged, order)
  | None => (<[pid := (kind, mem)]> merged, order ++ [pid])
  end.

Definition absorb (procs : list (Z * option Z)) (kind : GpuProcessKind)
    (acc : merged_map * list Z) : merged_map * list Z := foldl (absorb_one kind) acc procs.

Definition collect_processes (device : Device) (device_index : Z) : list GpuProcessSnapshot :=
  let acc := match running_compute_processes device with
             | Some procs => absorb procs Compute (∅, [])
             | None => (∅, [])
             end in
  let '(merged, order) := match running_graphics_processes device with
                          | Some procs => absorb procs Graphics acc
                          | None => acc
                          end in
  omap (λ pid, (λ e, mkGpuProcess pid device_index [] (fst e) (snd e)) <$> merged !! pid) order.

(** ** Devices *)

Definition milli (z : Z) : f32 := f32_div (f32_of_Z z) (f32_of_Z 1000).

Definition device_snapshot (device : Device) (index : Z) (driver_version : option str)
    : GpuDeviceSnapshot :=
  let power_limit_mw := match enforced_power_limit device with
                        | Some mw => Some mw | None => power_management_limit device end in
  mkGpuDevice index Nvidia Gpu.Nvml (default [] (dev_name device)) (default [] (pci_bus_id device))
    driver_version
    (f32_of_Z ∘ fst <$> utilization_rates device) (f32_of_Z ∘ snd <$> utilization_rates device)
    (fst <$> memory_info device) (snd <$> memory_info device)
    (f32_of_Z <$> temperature device) (milli <$> power_usage device) (milli <$> power_limit_mw)
    (graphics_clock device) (memory_clock device) (f32_of_Z <$> fan_speed device)
    (f32_of_Z <$> encoder_utilization device) (f32_of_Z <$> decoder_utilization device) true.

Section NvmlEngine.
Context {Lib : NvmlLib}.

(** One index of the loop; a device that cannot be opened is skipped. *)
Definition read_index (driver_version : option str)
    (acc : list GpuDeviceSnapshot * list GpuProcessSnapshot) (index : Z)
    : list GpuDeviceSnapshot * list GpuProcessSnapshot :=
  match device_by_index index with
  | None => acc
  | Some device =>
      let '(devices, processes) := acc in
      let devices := devices ++ [device_snapshot device (as_u32 (Z.of_nat (length devices)))
                                   driver_version] in
      let device_index := as_u32 (Z.of_nat (length devices - 1)) in
      (devices, processes ++ collect_processes device device_index)
  end.

Definition collect (driver_version : option str) : result GpusSnapshot GpuError :=
  match device_count with
  | Err e => Err (Query (lit "nvmlDeviceGetCount failed: " ++ e))
  | Ok count =>
      let '(devices, processes) := foldl (read_index driver_version) ([], []) (seqZ 0 count) in
      if bool_decide (length devices = 0)%nat then
        Ok (gpus_unavailable_with (lit "NVML reported devices but none could be read"))
      else Ok (mkGpus [Gpu.Nvml] true devices processes [])
  end.

Record NvmlEngine := mkNvml { nvml_driver_version : option str }.

(** [connect], once the library has loaded. *)
Definition connect (init : result unit str) : result NvmlEngine GpuError :=
  match init with
  | Err e => Err (DriverUnavailable (lit "NVIDIA") e)
  | Ok _ =>
      match device_count with
      | Err e => Err (DriverUnavailable (lit "NVIDIA") (lit "device enumeration failed: " ++ e))
      | Ok count =>
          if count =? 0 then
            Err (DriverUnavailable (lit "NVIDIA") (lit "NVML loaded but reports no devices"))
          else Ok (mkNvml sys_driver_version)
      end
  end.

Definition snapshot (self : NvmlEngine) : result GpusSnapshot GpuError :=
  collect (nvml_driver_version self).
End NvmlEngine.

(** ** Properties *)

(** *** Processes *)

(** Everything a device says of its processes, in the order it is asked. *)
Definition observed (device : Device) : list (Z * GpuProcessKind * option Z) :=
  ((λ p, (fst p, Compute, snd p)) <$> default [] (running_compute_processes device)) ++
  ((λ p, (fst p, Graphics, snd p)) <$> default [] (running_graphics_processes device)).

Definition about (pid : Z) (obs : list (Z * GpuProcessKind * option Z))
    : list (Z * GpuProcessKind * option Z) := List.filter (λ o, fst (fst o) =? pid) obs.

(** Each pid once, at its first place. *)
Definition first_seen (pids : list Z) : list Z :=
  foldl (λ seen pid, if bool_decide (pid ∈ seen) then seen else seen ++ [pid]) [] pids.

(** The kind all observations agree on, and the first memory figure known. *)
Definition kind_of (obs : list (Z * GpuProcessKind * option Z)) : GpuProcessKind :=
  foldl merge UnknownKind (snd ∘ fst <$> obs).
Definition memory_of (obs : list (Z * GpuProcessKind * option Z)) : option Z := head (omap snd obs).

Definition absorb_obs (acc : merged_map * list Z) (o : Z * GpuProcessKind * option Z)
    : merged_map * list Z := absorb_one (snd (fst o)) acc (fst (fst o), snd o).

Lemma absorb_observed device :
  foldl absorb_obs (∅, []) (observed device)
  = let acc := match running_compute_processes device with
               | Some procs => absorb procs Compute (∅, []) | None => (∅, []) end in
    match running_graphics_processes device with
    | Some procs => absorb procs Graphics acc | None => acc end.
Proof.
  unfold observed. rewrite foldl_app.
  assert (∀ k procs acc, foldl absorb_obs acc ((λ p : Z * option Z, (fst p, k, snd p)) <$> procs)
                         = absorb procs k acc) as Hf.
  { intros k procs. induction procs as [|[pid m] procs IH]; intros acc; [done|]. csimpl.
    by rewrite IH. }
  rewrite !Hf. by destruct (running_compute_processes device), (running_graphics_processes device).
Qed.

Lemma about_snoc pid obs o :
  about pid (obs ++ [o]) = about pid obs ++ (if fst (fst o) =? pid then [o] else []).
Proof. unfold about. rewrite List.filter_app. simpl. by destruct (_ =? pid). Qed.

Lemma about_nonempty pid obs : about pid obs ≠ [] ↔ pid ∈ fst ∘ fst <$> obs.
Proof.
  unfold about. induction obs as [|o obs IH]; csimpl; [split; [done|by intros ?%elem_of_nil]|].
  rewrite elem_of_cons. destruct (Z.eqb_spec (fst (fst o)) pid) as [E|E]; simpl.
  - split; [intros _; by left|done].
  - rewrite IH. unfold compose. split; [by right|]. intros [?|?]; [congruence|done].
Qed.

(** After any observations: the order is that of first sight, and an entry
    summarises what was said about its pid. *)
Lemma absorb_obs_spec obs :
  let acc := foldl absorb_obs (∅, []) obs in
  snd acc = first_seen (fst ∘ fst <$> obs) ∧
  (∀ pid, pid ∈ snd acc ↔ pid ∈ fst ∘ fst <$> obs) ∧
  ∀ pid, fst acc !! pid = if bool_decide (about pid obs = []) then None
                          else Some (kind_of (about pid obs), memory_of (about pid obs)).
Proof.
  induction obs as [|[[pid k] m] obs IH] using rev_ind; simpl.
  { split; [done|]. split; [done|]. intros pid. apply lookup_empty. }
  rewrite foldl_app. destruct (foldl absorb_obs (∅, []) obs) as [merged order]. simpl in *.
  destruct IH as (Ho & Hin & Hm).
  unfold first_seen. rewrite fmap_app, foldl_app. fold (first_seen (fst ∘ fst <$> obs)).
  rewrite <- Ho. simpl. unfold absorb_obs. simpl.
  assert (∀ pid', about pid' (obs ++ [(pid, k, m)])
                  = about pid' obs ++ (if pid =? pid' then [(pid, k, m)] else [])) as Hab
    by (intros; apply about_snoc).
  rewrite (Hm pid). destruct (decide (about pid obs = [])) as [E|E].
  - rewrite bool_decide_eq_true_2 by done.
    assert (pid ∉ order) as Hno by (rewrite Hin, <- about_nonempty; naive_solver).
    rewrite bool_decide_eq_false_2 by done. simpl. split; [done|]. split.
    + intros p. rewrite !elem_of_app, Hin. done.
    + intros p. rewrite Hab. destruct (Z.eqb_spec pid p) as [<-|Hp].
      * rewrite lookup_insert_eq, E. simpl. unfold kind_of, memory_of. simpl. by destruct m, k.
      * by rewrite lookup_insert_ne, app_nil_r, Hm.
  - rewrite bool_decide_eq_false_2 by done. simpl.
    assert (pid ∈ order) as Hyes by (by rewrite Hin, <- about_nonempty).
    rewrite bool_decide_eq_true_2 by done. split; [done|]. split.
    + intros p. rewrite elem_of_app, <- Hin, list_elem_of_singleton. naive_solver.
    + intros p. rewrite Hab. destruct (Z.eqb_spec pid p) as [<-|Hp].
      * rewrite lookup_insert_eq, bool_decide_eq_false_2 by (by intros [? _]%app_nil).
        unfold kind_of, memory_of. rewrite fmap_app, foldl_app, omap_app, head_app. simpl.
        f_equal. f_equal. destruct (head (omap snd (about pid obs))); [done|]. by destruct m.
      * by rewrite lookup_insert_ne, app_nil_r, Hm.
Qed.

(** A process is listed once on its device: the processes of a device are
    the distinct pids of its two lists, in the order first met, each with the
    kind that combines every observation of it and the first memory figure the
    driver gave; a list the driver refuses counts as empty. *)
Theorem processes_listed_once device device_index :
  let obs := observed device in
  collect_processes device device_index
  = (λ pid, mkGpuProcess pid device_index [] (kind_of (about pid obs)) (memory_of (about pid obs)))
      <$> first_seen (fst ∘ fst <$> obs) ∧
  NoDup (first_seen (fst ∘ fst <$> obs)) ∧
  ∀ pid, pid ∈ first_seen (fst ∘ fst <$> obs) ↔ pid ∈ fst ∘ fst <$> obs.
Proof.
  intros obs. pose proof (absorb_obs_spec obs) as (Ho & Hin & Hm).
  pose proof (absorb_observed device) as Ha. fold obs in Ha.
  unfold collect_processes. cbv zeta in Ha |- *. rewrite <- Ha. clear Ha.
  destruct (foldl absorb_obs (∅, []) obs) as [merged order]. simpl in *. subst order.
  split; [|split; [|done]].
  - assert (∀ pid, pid ∈ first_seen (fst ∘ fst <$> obs) → merged !! pid
        = Some (kind_of (about pid obs), memory_of (about pid obs))) as Hs.
    { intros pid Hp%Hin%about_nonempty. by rewrite Hm, bool_decide_eq_false_2. }
    clear Hin Hm. induction (first_seen (fst ∘ fst <$> obs)) as [|pid l IH]; [done|].
    csimpl. rewrite (Hs pid) by (by left). csimpl. f_equal. apply IH. intros p Hp. apply Hs. by right.
  - unfold first_seen. clear. generalize (fst ∘ fst <$> obs). intros pids.
    assert (∀ seen : list Z, NoDup seen → NoDup (foldl (λ seen pid,
              if bool_decide (pid ∈ seen) then seen else seen ++ [pid]) seen pids)) as H.
    { induction pids as [|p pids IH]; intros seen Hs; [done|]. simpl. apply IH.
      case_bool_decide; [done|]. apply NoDup_app. split; [done|]. split; [|apply NoDup_singleton].
      by intros x Hx ->%list_elem_of_singleton. }
    apply H. constructor.
Qed.

(** *** The snapshot *)

Lemma collect_processes_index device i :
  Forall (λ p, device_index p = i) (collect_processes device i).
Proof.
  unfold collect_processes.
  lazymatch goal with |- Forall _ (let '(_, _) := ?x in _) => destruct x as [m o] end.
  apply Forall_forall. intros p Hp. apply list_elem_of_omap in Hp as (pid & _ & Hp).
  destruct (m !! pid); [|done]. by injection Hp as <-.
Qed.

Lemma read_indices_numbered {Lib : NvmlLib} v idx acc :
  let well acc := index <$> fst acc = seqZ 0 (Z.of_nat (length (fst acc))) ∧
    Forall (λ p : GpuProcessSnapshot, 0 ≤ device_index p < Z.of_nat (length (fst acc)))
      (snd acc : list GpuProcessSnapshot) in
  Z.of_nat (length (fst acc) + length idx) ≤ u32_max →
  well acc → well (foldl (read_index v) acc idx).
Proof.
  intros well. revert acc. induction idx as [|i idx IH]; intros [ds ps] Hl Hw; [done|].
  simpl in *. apply IH.
  - unfold read_index. destruct (device_by_index i); simpl; [rewrite length_app; simpl|]; lia.
  - unfold read_index. destruct (device_by_index i) as [d|]; [|done].
    destruct Hw as [Hd Hp]. simpl in *.
    assert (as_u32 (Z.of_nat (length ds)) = Z.of_nat (length ds)) as Hu
      by (apply as_u32_small; unfold is_u32; lia).
    split; simpl.
    + rewrite fmap_app, Hd, length_app, Nat2Z.inj_add, seqZ_app by lia. simpl. by rewrite Hu.
    + rewrite length_app. simpl. replace (length ds + 1 - 1)%nat with (length ds) by lia. rewrite Hu.
      apply Forall_app. split.
      * eapply Forall_impl; [exact Hp|]. intros p ?. simpl in *. lia.
      * eapply Forall_impl; [apply collect_processes_index|]. intros p ->. lia.
Qed.

Lemma nvml_collect_numbered {Lib : NvmlLib} v count s :
  device_count = Ok count → count ≤ u32_max → collect v = Ok s → numbered s.
Proof.
  intros Hc Hle. unfold collect. rewrite Hc.
  pose proof (read_indices_numbered v (seqZ 0 count) ([], [])) as Hn. simpl in Hn.
  destruct (foldl (read_index v) ([], []) (seqZ 0 count)) as [ds ps].
  case_bool_decide; intros [= <-]; [by split|].
  destruct Hn as [Hd Hp]; [rewrite length_seqZ; unfold u32_max in *; lia|done|]. by split.
Qed.

(** A process of the snapshot sits on a row that is the device which reported its
    pid. *)
Definition reported {Lib : NvmlLib} (v : option str) (ds : list GpuDeviceSnapshot)
    (p : GpuProcessSnapshot) : Prop :=
  ∃ i device, device_by_index i = Some device ∧
    ds !! Z.to_nat (device_index p) = Some (device_snapshot device (device_index p) v) ∧
    gpu_pid p ∈ fst ∘ fst <$> observed device.

Lemma collect_processes_pids device i :
  Forall (λ p, gpu_pid p ∈ fst ∘ fst <$> observed device) (collect_processes device i).
Proof.
  pose proof (absorb_obs_spec (observed device)) as (_ & Hin & _).
  pose proof (absorb_observed device) as Ha. unfold collect_processes. cbv zeta in *.
  rewrite <- Ha. destruct (foldl absorb_obs (∅, []) (observed device)) as [merged order].
  apply Forall_forall. intros p Hp. apply list_elem_of_omap in Hp as (pid & Ho & Hp).
  destruct (merged !! pid); [|done]. injection Hp as <-. by apply Hin.
Qed.

Lemma read_indices_reported {Lib : NvmlLib} v idx acc :
  Z.of_nat (length (fst acc) + length idx) ≤ u32_max →
  Forall (reported v (fst acc)) (snd acc) →
  let acc' := foldl (read_index v) acc idx in Forall (reported v (fst acc')) (snd acc').
Proof.
  revert acc. induction idx as [|i idx IH]; intros [ds ps] Hl Hw; [done|]. simpl in *. apply IH.
  - unfold read_index. destruct (device_by_index i); simpl; [rewrite length_app; simpl|]; lia.
  - unfold read_index. destruct (device_by_index i) as [d|] eqn:Ed; [|done]. simpl.
    assert (as_u32 (Z.of_nat (length ds)) = Z.of_nat (length ds)) as Hu
      by (apply as_u32_small; unfold is_u32; lia).
    rewrite length_app. simpl. replace (length ds + 1 - 1)%nat with (length ds) by lia. rewrite Hu.
    apply Forall_app. split.
    + eapply Forall_impl; [exact Hw|]. intros p (j & dev & ? & Hd & ?). exists j, dev.
      split; [done|]. split; [|done]. apply lookup_app_l_Some, Hd.
    + pose proof (collect_processes_pids d (Z.of_nat (length ds))) as Hpid.
      pose proof (collect_processes_index d (Z.of_nat (length ds))) as Hidx.
      eapply Forall_impl; [apply Forall_and; split; [exact Hpid|exact Hidx]|].
      intros p [Hp Hi]. exists i, d. split; [done|]. split; [|done]. rewrite Hi, Nat2Z.id.
      by rewrite lookup_app_r, Nat.sub_diag by lia.
Qed.

Lemma collect_reported {Lib : NvmlLib} v count s :
  device_count = Ok count → count ≤ u32_max → collect v = Ok s →
  Forall (reported v (devices s)) (gpu_processes s).
Proof.
  intros Hc Hle. unfold collect. rewrite Hc.
  pose proof (read_indices_reported v (seqZ 0 count) ([], [])) as Hn. simpl in Hn.
  destruct (foldl (read_index v) ([], []) (seqZ 0 count)) as [ds ps].
  case_bool_decide; intros [= <-]; simpl; [constructor|].
  apply Hn; [rewrite length_seqZ; unfold u32_max in *; lia|constructor].
Qed.

Lemma read_indices_length {Lib : NvmlLib} v idx acc :
  (length (fst (foldl (read_index v) acc idx)) ≤ length (fst acc) + length idx)%nat.
Proof.
  revert acc. induction idx as [|i idx IH]; intros acc; simpl; [lia|]. etrans; [apply IH|].
  destruct acc as [ds ps]. unfold read_index. destruct (device_by_index i); simpl; [|lia].
  rewrite length_app. simpl. lia.
Qed.

Lemma collect_length {Lib : NvmlLib} v count s :
  device_count = Ok count → collect v = Ok s → (length (devices s) ≤ Z.to_nat count)%nat.
Proof.
  intros Hc. unfold collect. rewrite Hc.
  pose proof (read_indices_length v (seqZ 0 count) ([], [])) as Hn. simpl in Hn.
  destruct (foldl (read_index v) ([], []) (seqZ 0 count)) as [ds ps].
  case_bool_decide; intros [= <-]; simpl; [lia|]. by rewrite length_seqZ in Hn.
Qed.

Example a_device_lists_dual_use_once :
  let d := mkDevice None None None None None None None None None None None None None
             (Some [(7, None); (9, Some 4)]) (Some [(7, Some 64); (12, None)]) in
  collect_processes d 3
  = [mkGpuProcess 7 3 [] Both (Some 64); mkGpuProcess 9 3 [] Compute (Some 4);
     mkGpuProcess 12 3 [] Graphics None].
Proof. vm_compute. reflexivity. Qed.
