(* ===== verification/IoRegistry.v ===== *)
(** * The IORegistry: crates/muxtop-core/src/apple/ioregistry.rs

    What the registry says of the accelerators, the blob of clocks and the size of
    memory.  Objects obtained from CoreFoundation and IOKit are counted: a heap
    remembers which are live, and whether one was used or released when it was
    not; [owns] is the specification the sampler (AppleGpu.v) shares. *)

From S2P Require Import Prelude Str Utf8 Num.
Local Open Scope Z_scope.
Local Open Scope record_scope.

(** [String::from_utf8_lossy]. *)
Definition from_utf8_lossy (bs : list u8) : str := lossy None (u8_val <$> bs).

(** ** Objects *)

(** The objects created and not yet released; [faults] counts uses and releases
    of an object that is not live. *)
Record Heap := mkHeap { live : gset nat; next : nat; faults : nat }.

#[export] Instance Heap_eta : Eta Heap := λ h, mkHeap (live h) (next h) (faults h).

Definition create (h : Heap) : nat * Heap :=
  (next h, h <| live ::= λ l, {[next h]} ∪ l |> <| next ::= S |>).

Definition touch (x : nat) (h : Heap) : Heap :=
  if bool_decide (x ∈ live h) then h else h <| faults ::= S |>.

Definition CFRelease (x : nat) (h : Heap) : Heap :=
  if bool_decide (x ∈ live h) then h <| live ::= λ l, l ∖ {[x]} |> else h <| faults ::= S |>.

(** The objects of a vector, dropped with it. *)
Definition drop_all (xs : list nat) (h : Heap) : Heap := foldr CFRelease h xs.

(** ** Property dictionaries *)

(** [CFNumber] carries what [to_i64] answers. *)
Inductive CFType : Type :=
| CFString (text : str)
| CFNumber (to_i64 : option Z)
| CFData (bytes : list u8)
| CFDictionary (entries : list (str * CFType))
| CFOther.

Abbreviation Properties := (list (str * CFType)).

Definition cf_find (props : Properties) (key : str) : option CFType :=
  snd <$> find (λ e, bool_decide (fst e = key)) props.

Definition string_value (props : Properties) (key : str) : option str :=
  value ← cf_find props key;
  match value with
  | CFString s => Some s
  | CFData bytes =>
      let text := trim (trim_end_matches 0 (from_utf8_lossy bytes)) in
      if bool_decide (text = []) then None else Some text
  | _ => None
  end.

Definition number_value (props : Properties) (key : str) : option Z :=
  value ← cf_find props key;
  match value with CFNumber n => n | _ => None end.

Definition data_value (props : Properties) (key : str) : option (list u8) :=
  value ← cf_find props key;
  match value with CFData bytes => Some bytes | _ => None end.

(** The erased dictionary is read the same way. *)
Definition untyped_number (dict : Properties) (key : str) : option Z := number_value dict key.

(** What the IORegistry says of an accelerator. *)
Record AcceleratorInfo := mkAccelerator {
  model : option str;
  class : option str;
  gpu_core_count : option Z;
  acc_driver_version : option str;
  acc_utilization_pct : option Z;
  in_use_memory_bytes : option Z;
}.

Definition is_apple_gpu (self : AcceleratorInfo) : bool :=
  match class self with Some c => starts_with c (lit "AGX") | None => false end.

Definition try_from (max n : Z) : option Z := if (0 <=? n) && (n <=? max) then Some n else None.

Definition decode_accelerator (props : Properties) : AcceleratorInfo :=
  let stats := value ← cf_find props (lit "PerformanceStatistics");
               match value with CFDictionary d => Some d | _ => None end in
  mkAccelerator
    (string_value props (lit "model"))
    (string_value props (lit "IOClass"))
    (number_value props (lit "gpu-core-count") ≫= try_from u32_max)
    (string_value props (lit "IOSourceVersion"))
    (s ← stats; untyped_number s (lit "Device Utilization %"))
    (s ← stats; n ← untyped_number s (lit "In use system memory"); try_from u64_max n).

(** ** Matching services *)

Inductive MatchBy : Type := ByClass (c : str) | ByName (n : str).

(** IOKit's answers at one moment: whether the matcher gives a dictionary, the
    services found (for each, its properties if they can be read) or a failure,
    and [hw.memsize]. *)
Record IOKit := mkIOKit {
  matcher : MatchBy → bool;
  services : MatchBy → option (list (option Properties));
  memsize : option Z;
}.

Definition unified_memory_bytes (k : IOKit) : option Z := memsize k.

(** The loop over the iterator: every entry is released, and the dictionaries
    read are kept. *)
Fixpoint next_entries (iterator : nat) (es : list (option Properties)) (h : Heap)
    : list (nat * Properties) * Heap :=
  let h := touch iterator h in
  match es with
  | [] => ([], h)
  | e :: es =>
      let '(entry, h) := create h in
      let h := touch entry h in
      let '(out, h) := match e with
                       | Some p => let '(d, h) := create h in ([(d, p)], h)
                       | None => ([], h)
                       end in
      let h := CFRelease entry h in
      let '(rest, h) := next_entries iterator es h in
      (out ++ rest, h)
  end.

(** The call consumes the matching dictionary, found or not. *)
Definition matching_properties (k : IOKit) (by_ : MatchBy) (h : Heap) : list (nat * Properties) * Heap :=
  if negb (matcher k by_) then ([], h)
  else
    let '(matching, h) := create h in
    let h := CFRelease matching h in
    match services k by_ with
    | None => ([], h)
    | Some es =>
        let '(iterator, h) := create h in
        let '(out, h) := next_entries iterator es h in
        (out, CFRelease iterator h)
    end.

Definition accelerators (k : IOKit) (h : Heap) : list AcceleratorInfo * Heap :=
  let '(out, h) := matching_properties k (ByClass (lit "IOAccelerator")) h in
  (decode_accelerator ∘ snd <$> out, drop_all (fst <$> out) h).

Definition gpu_dvfs_blob (k : IOKit) (h : Heap) : option (list u8) * Heap :=
  let '(out, h) := matching_properties k (ByName (lit "pmgr")) h in
  (head (omap (λ props, data_value (snd props) (lit "voltage-states9")) out), drop_all (fst <$> out) h).

(** ** Ownership *)

(** Nothing was misused, and the live objects are exactly these, once each. *)
Record owns (h : Heap) (xs : list nat) : Prop := {
  no_faults : faults h = 0%nat;
  live_these : live h = list_to_set xs;
  held_once : NoDup xs;
  held_old : ∀ x, x ∈ xs → (x < next h)%nat;
}.

Lemma owns_create h xs : owns h xs → owns (snd (create h)) (fst (create h) :: xs).
Proof.
  intros [Hf Hl Hn Ho]. constructor; simpl; [done|by rewrite Hl| |].
  - constructor; [|done]. intros Hx. apply Ho in Hx. lia.
  - intros x Hx. apply list_elem_of_In in Hx as [<-|Hx]; [lia|].
    apply list_elem_of_In, Ho in Hx. lia.
Qed.

Lemma owns_touch x h xs : x ∈ xs → owns h xs → owns (touch x h) xs.
Proof.
  intros Hx Hw. unfold touch. rewrite bool_decide_eq_true_2; [done|].
  rewrite (live_these _ _ Hw). by apply elem_of_list_to_set.
Qed.

Lemma owns_release x h xs : owns h (x :: xs) → owns (CFRelease x h) xs.
Proof.
  intros [Hf Hl Hn Ho]. apply NoDup_cons in Hn as [Hx Hn].
  assert (x ∉@{gset nat} list_to_set xs) as Hx' by by rewrite elem_of_list_to_set.
  unfold CFRelease. rewrite bool_decide_eq_true_2.
  - constructor; simpl; [done| |done|].
    + rewrite Hl. simpl. rewrite difference_union_distr_l_L, difference_diag_L.
      rewrite (left_id_L ∅ (∪)). apply difference_disjoint_L. set_solver.
    + intros y Hy. apply Ho. by apply list_elem_of_further.
  - rewrite Hl. apply elem_of_list_to_set, list_elem_of_here.
Qed.

Lemma owns_perm h xs ys : xs ≡ₚ ys → owns h xs → owns h ys.
Proof.
  intros Hp [Hf Hl Hn Ho]. constructor; [done| | |].
  - rewrite Hl. by apply list_to_set_perm_L.
  - by rewrite <- Hp.
  - intros x. rewrite <- Hp. apply Ho.
Qed.

(** Release an object held anywhere. *)
Lemma owns_release_in x ys xs h : owns h (ys ++ x :: xs) → owns (CFRelease x h) (ys ++ xs).
Proof. intros Hw. apply owns_release. eapply owns_perm, Hw. symmetry. apply Permutation_middle. Qed.

Ltac among := repeat first [apply list_elem_of_here | apply list_elem_of_further].

Lemma owns_nothing h : owns h [] → faults h = 0%nat ∧ live h = ∅.
Proof. intros Hw. split; [apply Hw|]. apply (live_these _ _ Hw). Qed.

Definition empty_heap : Heap := mkHeap ∅ 0 0.

Lemma owns_empty_heap : owns empty_heap [].
Proof. constructor; [done|done|constructor|]. intros x Hx. by apply elem_of_nil in Hx. Qed.


(** A call that gives objects to its caller and keeps none. *)
Lemma owns_drop_all xs ys h : owns h (xs ++ ys) → owns (drop_all xs h) ys.
Proof.
  revert ys. induction xs as [|x xs IH]; intros ys Hw; simpl; [done|].
  apply owns_release, IH. eapply owns_perm, Hw. simpl. apply Permutation_middle.
Qed.

Lemma owns_next_entries iterator es h held :
  iterator ∈ held → owns h held →
  let '(out, h') := next_entries iterator es h in owns h' ((fst <$> out) ++ held).
Proof.
  intros Hi. revert h held Hi. induction es as [|e es IH]; intros h held Hi Hw.
  { by apply owns_touch. }
  cbn [next_entries]. apply (owns_touch iterator) in Hw; [|done].
  generalize dependent (touch iterator h). clear h. intros h Hw.
  apply owns_create in Hw. destruct (create h) as [entry h1]. cbn [fst snd] in Hw.
  apply (owns_touch entry) in Hw; [|among].
  generalize dependent (touch entry h1). clear h1. intros h1 Hw.
  assert (∀ out h2, owns h2 ((fst <$> out) ++ entry :: held) →
            let '(rest, h3) := next_entries iterator es (CFRelease entry h2) in
            owns h3 ((fst <$> out ++ rest) ++ held)) as Hstep.
  { intros out h2 H2. apply owns_release_in in H2. apply IH in H2; [|set_solver].
    destruct (next_entries iterator es _) as [rest h3]. eapply owns_perm, H2.
    rewrite fmap_app, <- !app_assoc. apply Permutation_app_swap_app. }
  destruct e as [p|].
  - apply owns_create in Hw. destruct (create h1) as [d h2]. cbn [fst snd] in Hw.
    specialize (Hstep [(d, p)] h2 Hw). by destruct (next_entries iterator es _).
  - specialize (Hstep [] h1 Hw). by destruct (next_entries iterator es _).
Qed.

Lemma owns_matching k by_ h held :
  owns h held → let '(out, h') := matching_properties k by_ h in owns h' ((fst <$> out) ++ held).
Proof.
  intros Hw. unfold matching_properties. destruct (matcher k by_); [|done]. cbn [negb].
  apply owns_create in Hw. destruct (create h) as [m h1]. cbn [fst snd] in Hw.
  apply owns_release in Hw. destruct (services k by_) as [es|]; [|done].
  apply owns_create in Hw. destruct (create (CFRelease m h1)) as [it h2]. cbn [fst snd] in Hw.
  apply (owns_next_entries it es) in Hw; [|among]. destruct (next_entries it es h2) as [out h3].
  by apply owns_release_in.
Qed.

Lemma owns_accelerators k h held : owns h held → owns (accelerators k h).2 held.
Proof.
  intros Hw. unfold accelerators. apply (owns_matching k (ByClass (lit "IOAccelerator"))) in Hw.
  destruct (matching_properties k _ h) as [out h1]. by apply owns_drop_all.
Qed.

Lemma owns_gpu_dvfs_blob k h held : owns h held → owns (gpu_dvfs_blob k h).2 held.
Proof.
  intros Hw. unfold gpu_dvfs_blob. apply (owns_matching k (ByName (lit "pmgr"))) in Hw.
  destruct (matching_properties k _ h) as [out h1]. by apply owns_drop_all.
Qed.

