(* ===== verification/AppleGpu.v ===== *)
(** * The Apple backend: crates/muxtop-core/src/apple/

    The figures of metrics.rs, the sampler of ioreport.rs and the engine of
    engine.rs, whose CoreFoundation objects are counted (IoRegistry.v). *)

From S2P Require Import Prelude Str RsFloat Process Network Gpu Snapshots Num.
From S2P Require Import IoRegistry.
Local Open Scope Z_scope.
Local Open Scope record_scope.

(** ** metrics.rs *)

Abbreviation DvfsTable := (list Z).

Definition DVFS_ENTRY_LEN : nat := 8.
Definition MAX_PLAUSIBLE_CLOCK_MHZ : Z := 4000.

Definition u32_from_le_bytes (a b c d : u8) : Z :=
  u8_val a + 256 * (u8_val b + 256 * (u8_val c + 256 * u8_val d)).

(** The loop over the entries, each of eight bytes. *)
Fixpoint dvfs_entries (blob : list u8) : option DvfsTable :=
  match blob with
  | a :: b :: c :: d :: _ :: _ :: _ :: _ :: blob =>
      let mhz := (u32_from_le_bytes a b c d + 500000) / 1000000 in
      if MAX_PLAUSIBLE_CLOCK_MHZ <? mhz then None
      else table ← dvfs_entries blob; Some (mhz :: table)
  | _ => Some []
  end.

Definition parse_dvfs_table (blob : list u8) : option DvfsTable :=
  if bool_decide (blob = []) || negb (length blob mod DVFS_ENTRY_LEN =? 0)%nat then None
  else dvfs_entries blob.

Definition state_index (name : str) : option nat :=
  if bool_decide (to_ascii_lowercase <$> name = lit "off") then Some 0%nat
  else
    digits ← match strip_prefix name (lit "P") with
             | Some d => Some d | None => strip_prefix name (lit "p") end;
    if bool_decide (digits = []) || negb (forallb is_digit digits) then None
    else Z.to_nat <$> parse_uint u64_max digits.

(** The clock of a state: unknown, with or without any time spent in it. *)
Definition clock_of (table : DvfsTable) (name : str) : option Z :=
  index ← state_index name; table !! index.

(** The loop of the weighted clock: the weighted sum, the active and the known
    ticks. *)
Fixpoint weigh (table : DvfsTable) (residencies : list (str * Z)) (weighted active known : Z)
    : option (Z * Z * Z) :=
  match residencies with
  | [] => Some (weighted, active, known)
  | (name, ticks) :: rest =>
      match clock_of table name with
      | Some clock =>
          if 0 <? clock then weigh table rest (weighted + ticks * clock) (active + ticks) (known + ticks)
          else weigh table rest weighted active (known + ticks)
      | None => if ticks =? 0 then weigh table rest weighted active known else None
      end
  end.

Definition residency_weighted_clock_mhz (residencies : list (str * Z)) (table : DvfsTable) : option Z :=
  match weigh table residencies 0 0 0 with
  | None => None
  | Some (weighted, active_ticks, known_ticks) =>
      if known_ticks =? 0 then None
      else if active_ticks =? 0 then Some 0
      else let clock := weighted / active_ticks in if clock <=? u32_max then Some clock else None
  end.

Fixpoint active_time (table : DvfsTable) (residencies : list (str * Z)) (active total : Z)
    : option (Z * Z) :=
  match residencies with
  | [] => Some (active, total)
  | (name, ticks) :: rest =>
      match clock_of table name with
      | Some clock => active_time table rest (if 0 <? clock then active + ticks else active) (total + ticks)
      | None => if ticks =? 0 then active_time table rest active total else None
      end
  end.

Definition active_residency_pct (residencies : list (str * Z)) (table : DvfsTable) : option f32 :=
  match active_time table residencies 0 0 with
  | None => None
  | Some (active, total) =>
      if total =? 0 then None
      else Some (f64_as_f32 (f64_mul (f64_div (f64_of_Z active) (f64_of_Z total)) (f64_of_Z 100)))
  end.

Definition energy_unit_joules (unit : str) : option f64 :=
  let u := trim unit in
  if bool_decide (u = lit "nJ") then Some (decimal_to_f64 false 1 (-9))
  else if bool_decide (u ∈ [lit "uJ"; 181 :: lit "J"; 956 :: lit "J"]) then Some (decimal_to_f64 false 1 (-6))
  else if bool_decide (u = lit "mJ") then Some (decimal_to_f64 false 1 (-3))
  else if bool_decide (u = lit "J") then Some (f64_of_Z 1)
  else None.

Definition energy_delta_to_watts (delta : Z) (unit : str) (elapsed : Duration) : option f32 :=
  if delta <? 0 then None
  else
    let seconds := as_secs_f64 elapsed in
    if float_le seconds (S754_zero false) then None
    else
      joules ← f64_mul (f64_of_Z delta) <$> energy_unit_joules unit;
      Some (f64_as_f32 (f64_div joules seconds)).

Definition clamp_pct (raw : Z) : f32 := f64_clamp f32_zero (f32_of_Z 100) (f32_of_Z raw).

(** ** engine.rs *)

Definition device_name (info : AcceleratorInfo) : str :=
  let base := match model info with
              | Some m => m
              | None => default (lit "Apple GPU") (class info)
              end in
  match gpu_core_count info with
  | Some cores => if 0 <? cores then base ++ lit " (" ++ show cores ++ lit "-core GPU)" else base
  | None => base
  end.

Record DeviceInputs := mkInputs {
  in_index : Z;
  info : AcceleratorInfo;
  in_power_watts : option f32;
  in_graphics_clock_mhz : option Z;
  residency_pct : option f32;
  in_unified_memory_bytes : option Z;
}.

Definition build_device (input : DeviceInputs) : GpuDeviceSnapshot :=
  mkGpuDevice (in_index input) Apple AppleIoReport (device_name (info input)) []
    (acc_driver_version (info input))
    (match clamp_pct <$> acc_utilization_pct (info input) with
     | Some p => Some p | None => residency_pct input end)
    None (in_use_memory_bytes (info input)) (in_unified_memory_bytes input) None (in_power_watts input) None
    (in_graphics_clock_mhz input) None None None None false.

Record IntervalReport := mkReport {
  energy : option (Z * str);
  residencies : list (str * Z);
  elapsed : Duration;
}.

#[export] Instance IntervalReport_eta : Eta IntervalReport := λ r,
  mkReport (energy r) (residencies r) (elapsed r).

(** The body of [collect], once the sampler and the registry have answered. *)
Definition report_devices (unified : option Z) (dvfs : option DvfsTable) (interval : option IntervalReport)
    (accs : list AcceleratorInfo) : GpusSnapshot :=
  let power_watts := report ← interval; '(delta, unit) ← energy report;
                     energy_delta_to_watts delta unit (elapsed report) in
  let residency := report ← interval; table ← dvfs; Some (residencies report, table) in
  let graphics_clock_mhz := '(res, table) ← residency; residency_weighted_clock_mhz res table in
  let residency_pct := '(res, table) ← residency; active_residency_pct res table in
  let devices := imap (λ index info,
      build_device (mkInputs (as_u32 (Z.of_nat index)) info power_watts graphics_clock_mhz residency_pct
                      unified)) (List.filter is_apple_gpu accs) in
  if bool_decide (length devices = 0)%nat then
    gpus_unavailable_with (lit "the Apple GPU disappeared from the IORegistry")
  else mkGpus [AppleIoReport] true devices [] [].

(** ** ioreport.rs *)

Definition LIB_IOREPORT : str := lit "/usr/lib/libIOReport.dylib".
Definition GROUP_ENERGY : str := lit "Energy Model".
Definition GROUP_GPU_STATS : str := lit "GPU Stats".
Definition SUBGROUP_PERF_STATES : str := lit "GPU Performance States".
Definition CHANNEL_GPU_ENERGY : str := lit "GPU Energy".
Definition CHANNEL_GPU : str := lit "GPU".
Definition MIN_SAMPLE_INTERVAL : Duration := from_millis 100.

(** ** ioreport.rs: reports *)

Record Channel := mkChannel {
  ch_group : str;
  ch_subgroup : str;
  ch_name : str;
  ch_value : Z;
  ch_unit : str;
  ch_states : list (str * Z);
}.

(** One channel of a delta, with the report so far and whether its energy is
    from the preferred channel. *)
Definition decode_channel (acc : IntervalReport * bool) (channel : Channel) : IntervalReport * bool :=
  let '(report, have_preferred_energy) := acc in
  if bool_decide (ch_group channel = GROUP_ENERGY) then
    let preferred := bool_decide (ch_name channel = CHANNEL_GPU_ENERGY) in
    if preferred || (bool_decide (ch_name channel = CHANNEL_GPU) && negb have_preferred_energy)
    then (report <| energy := Some (ch_value channel, ch_unit channel) |>,
          have_preferred_energy || preferred)
    else acc
  else if bool_decide (ch_group channel = GROUP_GPU_STATS)
          && bool_decide (ch_subgroup channel = SUBGROUP_PERF_STATES)
  then (report <| residencies ::= λ l, l ++ ((λ '(name, ticks), (name, Z.max ticks 0))
                                               <$> ch_states channel) |>, have_preferred_energy)
  else acc.

(** [None] is a delta without its array of channels. *)
Definition decode (channels : option (list Channel)) : IntervalReport :=
  match channels with
  | None => mkReport None [] 0
  | Some items => fst (foldl decode_channel (mkReport None [] 0, false) items)
  end.

(** ** ioreport.rs: the sampler *)

Record IoReportSampler := mkSampler {
  subscription : nat;
  sampler_channels : nat;
  previous : option (nat * Instant);
}.

#[export] Instance IoReportSampler_eta : Eta IoReportSampler := λ s,
  mkSampler (subscription s) (sampler_channels s) (previous s).

(** What the library answers to [open]: whether it loads, the first symbol it
    lacks, whether each group exists and the subscription is granted, and whether
    the out-parameter of that call receives an object the caller owns, which is
    not documented. *)
Record Library := mkLibrary {
  loads : result unit str;
  lacks : option (str * str);
  has_energy : bool;
  has_perf : bool;
  subscribes : bool;
  gives_view : bool;
}.

(** [subscribed], the subscription's own view of the channels, is an object when
    the library gives one; the code keeps no reference to it and never releases
    it. *)
Definition open (l : Library) (h : Heap) : result IoReportSampler GpuError * Heap :=
  match loads l, lacks l with
  | Err e, _ =>
      (Err (DriverUnavailable (lit "Apple") (LIB_IOREPORT ++ lit " could not be loaded: " ++ e)), h)
  | Ok _, Some (name, e) =>
      (Err (DriverUnavailable (lit "Apple")
              (name ++ lit " is missing from " ++ LIB_IOREPORT ++ lit ": " ++ e)), h)
  | Ok _, None =>
  if negb (has_energy l) then
    (Err (Query (lit "IOReport has no '" ++ GROUP_ENERGY ++ lit "' group on this host")), h)
  else
    let '(channels, h) := create h in
    let h := if has_perf l then
               let '(perf_channels, h) := create h in
               CFRelease perf_channels (touch perf_channels (touch channels h))
             else h in
    let h := touch channels h in
    let h := if gives_view l then snd (create h) else h in
    if subscribes l then
      let '(subscription, h) := create h in (Ok (mkSampler subscription channels None), h)
    else (Err (Query (lit "IOReportCreateSubscription was refused")), CFRelease channels h)
  end.

(** What IOReport answers to one call: a sample or not, and a delta or not, with
    its channels. *)
Record Answers := mkAnswers { sampled : bool; delta : option (option (list Channel)); now : Instant }.

Definition sample (a : Answers) (self : IoReportSampler) (h : Heap)
    : option IntervalReport * IoReportSampler * Heap :=
  let h := touch (sampler_channels self) (touch (subscription self) h) in
  if negb (sampled a) then (None, self, h)
  else
    let '(current, h) := create h in
    match previous self with
    | None => (None, self <| previous := Some (current, now a) |>, h)
    | Some (prev, taken) =>
        if duration_since (now a) taken <? MIN_SAMPLE_INTERVAL then
          (None, self <| previous := Some (prev, taken) |>, CFRelease current h)
        else
          let h := touch current (touch prev h) in
          match delta a with
          | None => (None, self <| previous := Some (current, now a) |>, CFRelease prev h)
          | Some channels =>
              let '(d, h) := create h in
              let h := CFRelease prev h in
              let h := touch d h in
              let report := (decode channels) <| elapsed := duration_since (now a) taken |> in
              (Some report, self <| previous := Some (current, now a) |>, CFRelease d h)
          end
    end.

Definition drop_sampler (self : IoReportSampler) (h : Heap) : Heap :=
  let h := match previous self with Some (s, _) => CFRelease s h | None => h end in
  CFRelease (subscription self) (CFRelease (sampler_channels self) h).

(** ** engine.rs: the engine *)

Record Inner := mkInner {
  inner_unified_memory_bytes : option Z;
  inner_dvfs : option DvfsTable;
  sampler : option IoReportSampler;
}.

#[export] Instance Inner_eta : Eta Inner := λ i,
  mkInner (inner_unified_memory_bytes i) (inner_dvfs i) (sampler i).

Definition MACOS_UNSUPPORTED_GPU_DETAIL : str := lit
  "no Apple Silicon GPU on this Mac — muxtop's macOS backend does not cover the AMD or Intel GPU in an Intel Mac".

Definition connect (k : IOKit) (l : Library) (h : Heap) : result Inner GpuError * Heap :=
  let '(accs, h) := accelerators k h in
  if bool_decide (accs = []) then
    (Err (DriverUnavailable (lit "Apple") (lit "no IOAccelerator service in the IORegistry")), h)
  else if negb (existsb is_apple_gpu accs) then (Err (GpuUnsupported MACOS_UNSUPPORTED_GPU_DETAIL), h)
  else
    let '(blob, h) := gpu_dvfs_blob k h in
    let dvfs := blob ≫= parse_dvfs_table in
    let '(opened, h) := open l h in
    (Ok (mkInner (unified_memory_bytes k) dvfs
           (match opened with Ok s => Some s | Err _ => None end)), h).

(** One snapshot, under the lock. *)
Definition collect (k : IOKit) (a : Answers) (self : Inner) (h : Heap) : GpusSnapshot * Inner * Heap :=
  let '(interval, self, h) :=
    match sampler self with
    | Some s => let '(r, s, h) := sample a s h in (r, self <| sampler := Some s |>, h)
    | None => (None, self, h)
    end in
  let '(accs, h) := accelerators k h in
  (report_devices (inner_unified_memory_bytes self) (inner_dvfs self) interval accs, self, h).

(** The snapshots of a session, and what is left. *)
Fixpoint collect_all (ticks : list (IOKit * Answers)) (self : Inner) (h : Heap)
    : list GpusSnapshot * Inner * Heap :=
  match ticks with
  | [] => ([], self, h)
  | (k, a) :: ticks =>
      let '(s, self, h) := collect k a self h in
      let '(ss, self, h) := collect_all ticks self h in
      (s :: ss, self, h)
  end.

Definition drop_inner (self : Inner) (h : Heap) : Heap :=
  match sampler self with Some s => drop_sampler s h | None => h end.

(** ** Properties *)

(** *** The snapshot *)

Lemma report_devices_numbered unified dvfs interval accs :
  Z.of_nat (length accs) ≤ u32_max →
  numbered (report_devices unified dvfs interval accs).
Proof.
  intros Hl. unfold report_devices. case_bool_decide as H0; [by split|]. split; simpl; [|constructor].
  pose proof (List.filter_length_le is_apple_gpu accs) as Hf.
  rewrite length_imap. apply list_eq. intros i. rewrite list_lookup_fmap, list_lookup_imap.
  destruct (List.filter is_apple_gpu accs !! i) as [d|] eqn:E; simpl.
  - pose proof (lookup_lt_Some _ _ _ E). rewrite lookup_seqZ_lt by lia.
    unfold as_u32, u32_max in *. rewrite Z.mod_small by lia. f_equal.
  - apply lookup_ge_None in E. by rewrite lookup_seqZ_ge by lia.
Qed.

(** *** The clock *)

Definition ticking (table : DvfsTable) (residencies : list (str * Z)) : list Z :=
  omap (λ '(name, ticks), c ← clock_of table name;
          if (0 <? c) && (0 <? ticks) then Some c else None) residencies.

Lemma weigh_bounds table res lo hi w a k w' a' k' :
  Forall (λ r, 0 ≤ snd r) res → Forall (λ c, lo ≤ c ≤ hi) (ticking table res) →
  lo * a ≤ w ≤ hi * a → 0 ≤ a →
  weigh table res w a k = Some (w', a', k') → lo * a' ≤ w' ≤ hi * a' ∧ 0 ≤ a'.
Proof.
  intros Ht. revert w a k. induction Ht as [|[name ticks] res Hn Ht IH]; intros w a k Hc Hw Ha; simpl.
  { intros [= <- <- <-]. done. }
  unfold ticking in Hc. csimpl in Hc. fold (ticking table res) in Hc. simpl in Hn.
  destruct (clock_of table name) as [c|]; simpl in Hc.
  - destruct (Z.ltb_spec 0 c) as [Hpos|]; [|by apply IH].
    destruct (Z.ltb_spec 0 ticks) as [Hlt|]; simpl in Hc.
    + inversion_clear Hc as [|? ? Hb Hc']. apply IH; [done|nia|lia].
    + replace ticks with 0 by lia. rewrite Z.mul_0_l, !Z.add_0_r. by apply IH.
  - destruct (ticks =? 0); [by apply IH|done].
Qed.

(** The clock shown is one the chip ran at, on average: it lies between the
    slowest and the fastest clock among the states that had any time, or is zero
    when the chip was parked throughout; and a state the table does not know
    gives no clock at all rather than a wrong one. *)
Theorem clock_within_states residencies table lo hi clock :
  Forall (λ r, 0 ≤ snd r) residencies →
  Forall (λ c, lo ≤ c ≤ hi) (ticking table residencies) →
  residency_weighted_clock_mhz residencies table = Some clock →
  (clock = 0 ∨ lo ≤ clock ≤ hi) ∧
  Forall (λ r, 0 < snd r → is_Some (clock_of table (fst r))) residencies.
Proof.
  intros Ht Hc. unfold residency_weighted_clock_mhz.
  destruct (weigh table residencies 0 0 0) as [[[w a] k]|] eqn:E; [|done]. intros Hs. split.
  - apply (weigh_bounds _ _ lo hi) in E as [Hw Ha]; try done; [|lia].
    destruct (k =? 0); [done|]. destruct (Z.eqb_spec a 0); [left; congruence|]. right.
    destruct (w / a <=? u32_max); [|done]. injection Hs as <-.
    split; [apply Z.div_le_lower_bound; lia|]. apply Z.div_le_upper_bound; lia.
  - clear Hs Hc Ht. revert E. generalize 0 at 1 2 3. intros z E.
    assert (∀ w0 a0 k0, weigh table residencies w0 a0 k0 = Some (w, a, k) →
              Forall (λ r, 0 < snd r → is_Some (clock_of table (fst r))) residencies) as H;
      [|by eapply H].
    clear E. induction residencies as [|[name ticks] res IH]; intros w0 a0 k0 E; [constructor|].
    simpl in E. destruct (clock_of table name) as [c|] eqn:Ec.
    + constructor; [intros _; simpl; rewrite Ec; by eexists|]. destruct (0 <? c); by eapply IH.
    + destruct (Z.eqb_spec ticks 0); [|done]. constructor; [simpl; lia|]. by eapply IH.
Qed.

Lemma clock_within_states_witness :
  residency_weighted_clock_mhz [(lit "OFF", 900); (lit "P1", 30); (lit "P3", 70)] [0; 338; 618; 796]
    = Some 658 ∧ (658 = 0 ∨ 338 ≤ 658 ≤ 796).
Proof.
  assert (residency_weighted_clock_mhz [(lit "OFF", 900); (lit "P1", 30); (lit "P3", 70)]
            [0; 338; 618; 796] = Some 658) as H by reflexivity.
  split; [exact H|].
  apply (clock_within_states _ _ 338 796 658) in H as [H _]; [exact H| |].
  - repeat constructor; discriminate.
  - repeat constructor; discriminate.
Defined.

(** *** Objects *)

Definition held (self : IoReportSampler) : list nat :=
  match previous self with Some (p, _) => [p] | None => [] end
  ++ [sampler_channels self; subscription self].

Lemma owns_sample a self h lost :
  owns h (held self ++ lost) → let '(_, self', h') := sample a self h in owns h' (held self' ++ lost).
Proof.
  destruct self as [sub ch prev]. unfold held, sample. cbn [previous sampler_channels subscription].
  rewrite <- app_assoc. intros Hw.
  assert (owns (touch ch (touch sub h))
            (match prev with Some (p, _) => [p] | None => [] end ++ [ch; sub] ++ lost)) as Hu.
  { apply owns_touch; [apply elem_of_app; right; among|].
    apply owns_touch; [apply elem_of_app; right; among|done]. }
  generalize dependent (touch ch (touch sub h)). clear Hw h. intros h Hu.
  destruct (sampled a); cbn [negb]; [|by rewrite <- app_assoc].
  apply owns_create in Hu. destruct (create h) as [cur h1]. cbn [fst snd] in Hu.
  destruct prev as [[p t]|]; simpl in Hu; [|exact Hu].
  destruct (duration_since (now a) t <? MIN_SAMPLE_INTERVAL); [by apply owns_release|].
  apply (owns_touch p) in Hu; [|among]. apply (owns_touch cur) in Hu; [|among].
  generalize dependent (touch cur (touch p h1)). intros h2 Hu.
  destruct (delta a) as [channels|]; [|by apply (owns_release_in p [cur])].
  apply owns_create in Hu. destruct (create h2) as [d h3]. cbn [fst snd] in Hu.
  simpl. apply owns_release, owns_touch; [among|]. by apply (owns_release_in p [d; cur]).
Qed.

Lemma owns_drop self h lost : owns h (held self ++ lost) → owns (drop_sampler self h) lost.
Proof.
  destruct self as [sub ch prev]. unfold held, drop_sampler. simpl. intros Hw.
  apply owns_release, owns_release. destruct prev as [[p t]|]; [by apply owns_release|done].
Qed.

(** What [open] may give up for good: the view of the channels, no more. *)
Definition unreleased (l : Library) (lost : list nat) : Prop :=
  (length lost ≤ if gives_view l then 1 else 0)%nat.

Lemma nothing_unreleased l : unreleased l [].
Proof. unfold unreleased. simpl. lia. Qed.

Lemma owns_view l h xs :
  owns h xs →
  ∃ lost, unreleased l lost ∧ owns (if gives_view l then snd (create h) else h) (xs ++ lost).
Proof.
  intros Hw. unfold unreleased. destruct (gives_view l).
  - exists [fst (create h)]. split; [done|]. eapply owns_perm, owns_create, Hw.
    apply Permutation_cons_append.
  - exists []. split; [done|]. by rewrite app_nil_r.
Qed.

Lemma owns_open l h :
  owns h [] →
  ∃ lost, unreleased l lost ∧ match open l h with
                             | (Ok self, h) => owns h (held self ++ lost)
                             | (Err _, h) => owns h lost
                             end.
Proof.
  intros Hw. unfold open.
  destruct (loads l); [|exists []; by split; [apply nothing_unreleased|]].
  destruct (lacks l) as [[name e]|]; [exists []; by split; [apply nothing_unreleased|]|].
  destruct (has_energy l); [|exists []; by split; [apply nothing_unreleased|]]. cbn [negb].
  apply owns_create in Hw as H1. destruct (create h) as [ch h1]. cbn [fst snd] in H1.
  set (h2 := if has_perf l then _ else _). assert (owns h2 [ch]) as H2.
  { subst h2. destruct (has_perf l); [|done]. pose proof (owns_create _ _ H1) as Hc.
    destruct (create h1) as [pc h3]. apply owns_release. repeat (apply owns_touch; [among|]). done. }
  clearbody h2. apply (owns_touch ch) in H2; [|among].
  apply (owns_view l) in H2 as (lost & Hlost & H3). exists lost. split; [done|].
  generalize dependent (if gives_view l then snd (create (touch ch h2)) else touch ch h2). intros h3 H3.
  destruct (subscribes l); [|by apply owns_release].
  apply owns_create in H3. destruct (create h3) as [sub h4]. cbn [fst snd] in H3.
  eapply owns_perm, H3. apply perm_swap.
Qed.

(** What the engine holds. *)
Definition held_inner (self : Inner) : list nat :=
  match sampler self with Some s => held s | None => [] end.

Lemma held_inner_length self : (length (held_inner self) ≤ 3)%nat.
Proof. unfold held_inner, held. destruct (sampler self) as [[? ? [[]|]]|]; simpl; lia. Qed.

Lemma owns_connect k l h :
  owns h [] → match connect k l h with
              | (Ok self, h) => ∃ lost, unreleased l lost ∧ owns h (held_inner self ++ lost)
              | (Err _, h) => owns h []
              end.
Proof.
  intros Hw. unfold connect. apply (owns_accelerators k) in Hw.
  destruct (accelerators k h) as [accs h1]. simpl in Hw.
  case_bool_decide; [done|]. destruct (existsb is_apple_gpu accs); [|done]. cbn [negb].
  apply (owns_gpu_dvfs_blob k) in Hw. destruct (gpu_dvfs_blob k h1) as [blob h2]. simpl in Hw.
  apply (owns_open l) in Hw as (lost & Hlost & Hw). destruct (open l h2) as [[s|e] h3]; by exists lost.
Qed.

Lemma owns_collect k a self h lost :
  owns h (held_inner self ++ lost) →
  let '(_, self', h') := collect k a self h in owns h' (held_inner self' ++ lost).
Proof.
  intros Hw. unfold collect. destruct (sampler self) as [s|] eqn:Es.
  - unfold held_inner in Hw. rewrite Es in Hw. apply (owns_sample a) in Hw.
    destruct (sample a s h) as [[r s'] h1]. apply (owns_accelerators k) in Hw.
    by destruct (accelerators k h1) as [accs h2].
  - apply (owns_accelerators k) in Hw. by destruct (accelerators k h) as [accs h2].
Qed.

Lemma owns_collect_all ticks self h lost :
  owns h (held_inner self ++ lost) →
  let '(_, self', h') := collect_all ticks self h in owns h' (held_inner self' ++ lost).
Proof.
  revert self h. induction ticks as [|[k a] ticks IH]; intros self h Hs; simpl; [done|].
  pose proof (owns_collect k a self h lost Hs) as H1. destruct (collect k a self h) as [[s self1] h1].
  specialize (IH self1 h1 H1). by destruct (collect_all ticks self1 h1) as [[ss self2] h2].
Qed.

Lemma owns_drop_inner self h lost : owns h (held_inner self ++ lost) → owns (drop_inner self h) lost.
Proof.
  unfold held_inner, drop_inner. destruct (sampler self) as [s|]; [apply owns_drop|done].
Qed.

(** C22: the Apple engine is memory-safe, whatever the system answers (no
    matching service, unreadable properties, no library, no group, no
    subscription, no sample, no delta, samples too close together).  No object is
    used or released after its release, and none is left when it could not
    connect.  When it could, it gave up for good at most the one dictionary the
    subscription hands back, which the code chooses not to release; whatever
    snapshots follow, at most three other objects are alive between them; and
    when the engine is dropped, exactly that dictionary is left. *)
Theorem apple_memory_safe kit library :
  match connect kit library empty_heap with
  | (Err _, h) => faults h = 0%nat ∧ live h = ∅
  | (Ok self, h) => ∃ view : gset nat,
      (size view ≤ if gives_view library then 1 else 0)%nat ∧
      ∀ ticks,
        let '(_, self', h') := collect_all ticks self h in
        faults h' = 0%nat ∧ view ⊆ live h' ∧ (size (live h' ∖ view) ≤ 3)%nat ∧
        faults (drop_inner self' h') = 0%nat ∧ live (drop_inner self' h') = view
  end.
Proof.
  pose proof (owns_connect kit library _ owns_empty_heap) as Ho.
  destruct (connect kit library empty_heap) as [[self|e] h]; [|by apply owns_nothing].
  destruct Ho as (lost & Hlost & Ho). exists (list_to_set lost). split.
  { rewrite size_list_to_set; [done|]. by eapply NoDup_app, held_once. }
  intros ticks. pose proof (owns_collect_all ticks self h lost Ho) as Hs.
  destruct (collect_all ticks self h) as [[rs self'] h'].
  apply owns_drop_inner in Hs as Hd. pose proof (held_once _ _ Hs) as Hn.
  apply NoDup_app in Hn as (Hn & Hdis & _).
  rewrite (live_these _ _ Hs), list_to_set_app_L. split; [apply Hs|]. split; [set_solver|].
  split; [|split; [apply Hd|apply (live_these _ _ Hd)]].
  rewrite difference_union_distr_l_L, difference_diag_L, (right_id_L ∅ (∪)), difference_disjoint_L
    by set_solver.
  rewrite size_list_to_set by done. apply held_inner_length.
Qed.

