(* ===== verification/GpuHost.v ===== *)
(** * The GPUs of a host: gpu_engine.rs over its three backends

    The detection and the merge of Gpu.v, applied to the backends of Nvml.v, Amd.v
    and AppleGpu.v.  The libraries and the files may answer differently at every
    call: the engines are those of one moment, the snapshot of another. *)

From S2P Require Import Prelude Str RsFloat Process Network Gpu Snapshots Num.
From S2P Require Import Nvml Amd IoRegistry AppleGpu.
Local Open Scope Z_scope.
Local Open Scope record_scope.

Inductive engine : Type :=
| NvidiaEngine (e : Nvml.NvmlEngine)
| AmdCards (e : Amd.AmdEngine)
| AppleEngine (e : AppleGpu.Inner).

(** What a platform answers when asked: a library, a file system, the registry
    and IOReport. *)
Record Moment := mkMoment {
  nvml_lib : NvmlLib;
  sysfs : Sysfs;
  iokit : IOKit;
  ioreport : Answers;
  heap : Heap;
}.

Definition connected {A B E} (f : A → B) (r : result A E) : result B E :=
  match r with Ok a => Ok (f a) | Err e => Err e end.

(** [detect_gpu_engines], each backend connected when it is asked. *)
Definition host_engines (platform : Platform) (init : result unit str) (library : Library) (m : Moment)
    : str + list engine :=
  detect_gpu_engines
    (connected NvidiaEngine (Nvml.connect (Lib := nvml_lib m) init))
    (connected AmdCards (Amd.connect (Fs := sysfs m)))
    (connected AppleEngine (fst (AppleGpu.connect (iokit m) library (heap m))))
    platform.

Definition engine_snapshot (m : Moment) (e : engine) : answer :=
  match e with
  | NvidiaEngine e => Nvml.snapshot (Lib := nvml_lib m) e
  | AmdCards e => Amd.snapshot (Fs := sysfs m) e
  | AppleEngine e => Ok (fst (fst (AppleGpu.collect (iokit m) (ioreport m) e (heap m))))
  end.

(** One poll of what was detected. *)
Definition host_snapshot (engines : str + list engine) (m : Moment) : answer :=
  match engines with
  | inl reason => NullGpuEngine_snapshot reason
  | inr engines => CompositeGpuEngine_snapshot (engine_snapshot m <$> engines)
  end.

(** ** Properties *)

(** The devices an engine can have. *)
Definition bound (m : Moment) (e : engine) : nat :=
  match e with
  | NvidiaEngine _ => match Nvml.device_count (NvmlLib := nvml_lib m) with
                      | Ok n => Z.to_nat n | Err _ => 0 end
  | AmdCards e => length (cards e)
  | AppleEngine _ => length (default [] (services (iokit m) (ByClass (lit "IOAccelerator"))))
  end.

Definition rooms (m : Moment) (engines : str + list engine) : nat :=
  match engines with inl _ => 0 | inr es => sum_list (bound m <$> es) end.

Lemma next_entries_length it es h : (length (next_entries it es h).1 ≤ length es)%nat.
Proof.
  revert h. induction es as [|e es IH]; intros h; [simpl; lia|]. cbn [next_entries].
  destruct (create _) as [entry h1].
  destruct e as [p|]; [destruct (create (touch entry h1)) as [d h2]; specialize (IH (CFRelease entry h2))
                      |specialize (IH (CFRelease entry (touch entry h1)))];
    destruct (next_entries it es _) as [rest h3]; rewrite ?length_app; simpl in *; lia.
Qed.

Lemma accelerators_length k h :
  (length (accelerators k h).1 ≤ length (default [] (services k (ByClass (lit "IOAccelerator")))))%nat.
Proof.
  unfold accelerators, matching_properties. destruct (matcher k _); [|simpl; lia]. cbn [negb].
  destruct (create h) as [m h1]. destruct (services k _) as [es|]; [|simpl; lia].
  destruct (create _) as [it h2]. pose proof (next_entries_length it es h2).
  destruct (next_entries it es h2) as [out h3]. simpl in *. by rewrite length_fmap.
Qed.

Lemma report_devices_length unified dvfs interval accs :
  (length (devices (report_devices unified dvfs interval accs)) ≤ length accs)%nat.
Proof.
  unfold report_devices. case_bool_decide; simpl; [lia|]. rewrite length_imap.
  apply List.filter_length_le.
Qed.

(** Every backend numbers its devices, within its bound. *)
Lemma engine_numbered m e s :
  Z.of_nat (bound m e) ≤ u32_max → engine_snapshot m e = Ok s →
  numbered s ∧ (length (devices s) ≤ bound m e)%nat.
Proof.
  destruct e as [e|e|e]; simpl; intros Hb.
  - revert Hb. unfold Nvml.snapshot. destruct (Nvml.device_count (NvmlLib := nvml_lib m)) as [count|er] eqn:Hc; intros Hb.
    + intros Hs. split; [|by eapply collect_length].
      eapply nvml_collect_numbered; [exact Hc| |exact Hs]. unfold u32_max in *. lia.
    + unfold Nvml.collect. by rewrite Hc.
  - intros [= <-]. split; [by apply amd_collect_numbered|].
    unfold Amd.collect. case_bool_decide; simpl; [lia|]. by rewrite length_imap.
  - intros [= <-]. unfold AppleGpu.collect.
    destruct (match sampler e with Some s => _ | None => _ end) as [[interval self] h].
    pose proof (accelerators_length (iokit m) h) as Hl.
    destruct (accelerators (iokit m) h) as [accs h']. simpl in *.
    split; [apply report_devices_numbered; lia|].
    etrans; [apply report_devices_length|exact Hl].
Qed.

Lemma engines_numbered m es :
  Z.of_nat (sum_list (bound m <$> es)) ≤ u32_max →
  Forall numbered (usable (engine_snapshot m <$> es)) ∧
  (sum_list (length ∘ devices <$> usable (engine_snapshot m <$> es)) ≤ sum_list (bound m <$> es))%nat.
Proof.
  induction es as [|e es IH]; csimpl; intros Hb; [by split|].
  destruct IH as [IHn IHl]; [lia|].
  destruct (engine_snapshot m e) as [s|er] eqn:Es; csimpl; [|split; [done|lia]].
  destruct (available s); csimpl; [|split; [done|lia]].
  destruct (engine_numbered m e s) as [Hn Hl]; [lia|done|].
  split; [by constructor|].
  lia.
Qed.

(** A process of a backend that has any sits on the NVIDIA card that reported
    it. *)
Definition truthful (m : Moment) (a : GpuProcessSnapshot * option GpuDeviceSnapshot) : Prop :=
  ∃ i v device, device_by_index (NvmlLib := nvml_lib m) i = Some device ∧
    snd a = Some (device_snapshot device 0 v) ∧
    gpu_pid (fst a) ∈ fst ∘ fst <$> observed device.

Lemma engine_truthful m e s :
  Z.of_nat (bound m e) ≤ u32_max → engine_snapshot m e = Ok s →
  Forall (truthful m) (attributions s).
Proof.
  intros Hb Hs. destruct (engine_numbered m e s Hb Hs) as [Hn _].
  destruct e as [e|e|e]; simpl in *.
  - unfold Nvml.snapshot in Hs. destruct (Nvml.device_count (NvmlLib := nvml_lib m)) as [count|er] eqn:Hc;
      [|by unfold Nvml.collect in Hs; rewrite Hc in Hs].
    assert (count ≤ u32_max) as Hle by (unfold u32_max in *; lia).
    pose proof (collect_reported _ _ _ Hc Hle Hs) as Hr.
    apply Forall_fmap. apply Forall_forall. intros p Hp.
    pose proof (proj1 (Forall_forall _ _) Hr p Hp) as (i & d & Hd & Hrow & Hpid).
    pose proof (proj1 (Forall_forall _ _) (numbered_processes _ Hn) p Hp) as Hi. simpl in Hi.
    exists i, (nvml_driver_version e), d. split; [done|]. simpl. split; [|done].
    by rewrite owner_numbered, Hrow by (done || lia).
  - injection Hs as <-. unfold attributions, Amd.collect. case_bool_decide; constructor.
  - injection Hs as <-. unfold AppleGpu.collect.
    destruct (match sampler e with Some s => _ | None => _ end) as [[interval self] h].
    destruct (accelerators (iokit m) h) as [accs h']. unfold attributions, report_devices. simpl.
    case_bool_decide; constructor.
Qed.

Lemma engines_truthful m es :
  Z.of_nat (sum_list (bound m <$> es)) ≤ u32_max →
  Forall (truthful m) (concat (attributions <$> usable (engine_snapshot m <$> es))).
Proof.
  induction es as [|e es IH]; csimpl; intros Hb; [constructor|].
  assert (Forall (truthful m) (concat (attributions <$> usable (engine_snapshot m <$> es)))) as H
    by (apply IH; lia).
  destruct (engine_snapshot m e) as [s|er] eqn:Es; csimpl; [|done].
  destruct (available s); csimpl; [|done]. apply Forall_app. split; [|done].
  eapply engine_truthful; [|exact Es]. lia.
Qed.

(** C25: on a whole host, a process is shown on the card that runs it: whichever
    backends were found and whatever each one answers afterwards, the snapshot is
    produced, its devices are numbered from zero, and every process of it sits on
    a row that is, but for its number, the NVIDIA device that reported its pid. *)
Theorem host_shows_processes_on_their_card platform init library found now_ :
  let engines := host_engines platform init library found in
  Z.of_nat (rooms now_ engines) ≤ u32_max →
  ∃ s, host_snapshot engines now_ = Ok s ∧
    index <$> devices s = seqZ 0 (Z.of_nat (length (devices s))) ∧
    ∀ p, p ∈ gpu_processes s →
      ∃ d i v device, owner s p = Some d ∧
        device_by_index (NvmlLib := nvml_lib now_) i = Some device ∧
        d <| index := 0 |> = device_snapshot device 0 v ∧
        gpu_pid p ∈ fst ∘ fst <$> observed device.
Proof.
  intros engines. destruct engines as [reason|es]; simpl; intros Hb.
  { eexists. split; [reflexivity|]. split; [done|]. by intros p ?%elem_of_nil. }
  destruct (engines_numbered now_ es Hb) as [Hn Hl].
  destruct (composite_keeps_owners (engine_snapshot now_ <$> es)) as (s & Hs & Hi & Ha); [done|lia|].
  exists s. split; [done|]. split; [done|]. intros p Hp.
  pose proof (engines_truthful now_ es Hb) as Ht. rewrite <- Ha in Ht.
  assert ((p <| device_index := 0 |>, (λ d, d <| index := 0 |>) <$> owner s p) ∈ attributions s) as Hin
    by (apply list_elem_of_fmap; by exists p).
  destruct (proj1 (Forall_forall _ _) Ht _ Hin) as (i & v & device & Hd & Ho & Hpid). simpl in *.
  destruct (owner s p) as [d|] eqn:Ed; [|done]. apply (inj Some) in Ho.
  exists d, i, v, device. done.
Qed.

(** *** A host *)

Definition demo_card (procs : list (Z * option Z)) : Device :=
  mkDevice None None None None (Some (lit "RTX")) None None None None None None None None
    (Some procs) None.

(** The first of three NVIDIA cards cannot be opened; there is one AMD card. *)
Definition demo_moment : Moment := mkMoment
  {| Nvml.device_count := Ok 3;
     device_by_index := λ i, if i =? 0 then None else Some (demo_card [(40 + i, Some 7)]);
     sys_driver_version := None |}
  {| read_file := λ path, if bool_decide (path = lit "/sys/class/drm/card0/device/vendor")
                          then Some (lit "0x1002" ++ [10]) else None;
     read_dir := λ path, if bool_decide (path = DRM_ROOT) then Some [Some (lit "card0")] else None |}
  (mkIOKit (λ _, false) (λ _, None) None) (mkAnswers false None 0) empty_heap.

Definition demo_engines : str + list engine :=
  host_engines Linux (Ok tt) (mkLibrary (Err []) None false false false false) demo_moment.

Lemma host_shows_processes_on_their_card_witness :
  rooms demo_moment demo_engines = 4%nat ∧
  ∃ s, host_snapshot demo_engines demo_moment = Ok s ∧
    index <$> devices s = seqZ 0 (Z.of_nat (length (devices s))) ∧
    ∀ p, p ∈ gpu_processes s →
      ∃ d i v device, owner s p = Some d ∧
        device_by_index (NvmlLib := nvml_lib demo_moment) i = Some device ∧
        d <| index := 0 |> = device_snapshot device 0 v ∧
        gpu_pid p ∈ fst ∘ fst <$> observed device.
Proof.
  assert (rooms demo_moment demo_engines = 4%nat) as Hr by (vm_compute; reflexivity).
  split; [exact Hr|].
  apply (host_shows_processes_on_their_card Linux (Ok tt) (mkLibrary (Err []) None false false false false)
           demo_moment demo_moment).
  change (Z.of_nat (rooms demo_moment demo_engines) ≤ u32_max). rewrite Hr. done.
Defined.

Example demo_host :
  (λ a, match a with
        | Ok s => (gpu_pid <$> gpu_processes s, device_index <$> gpu_processes s, length (devices s))
        | Err _ => ([], [], 0%nat) end) (host_snapshot demo_engines demo_moment)
  = ([41; 42], [0; 1], 3%nat).
Proof. vm_compute. reflexivity. Qed.
