(* ===== verification/Theme.v ===== *)
(** * Colours and characters of the interface

    crates/muxtop-tui/src/ui/theme.rs (ramps, semantic tokens, component styles)
    and ui/glyphs.rs (the two sets of characters, truncation).  Colours and styles
    are ratatui's data types; a style is what its builder calls amount to. *)

From S2P Require Import Prelude Str RsFloat Num Ui Terminal.
Local Open Scope Z_scope.
Local Open Scope record_scope.

(** ** ratatui's colours and styles *)

Module Color.
Inductive Color : Type :=
| Reset | Black | Red | Green | Yellow | Blue | Magenta | Cyan | Gray | DarkGray | White
| Rgb (r g b : Z) | Indexed (i : Z).
End Color.
Abbreviation Color := Color.Color.

#[global] Instance Color_eq_dec : EqDecision Color.
Proof. solve_decision. Defined.

#[global] Instance ThemeKind_eq_dec : EqDecision ThemeKind.
Proof. solve_decision. Defined.

#[global] Instance ColorSupport_eq_dec : EqDecision ColorSupport.
Proof. solve_decision. Defined.

(** Modifiers are flags. *)
Definition BOLD : Z := 1.
Definition DIM : Z := 2.
Definition UNDERLINED : Z := 8.
Definition REVERSED : Z := 64.

Record Style := mkStyle { fg_ : option Color; bg_ : option Color; modifiers : Z }.

#[export] Instance Style_eta : Eta Style := λ s, mkStyle (fg_ s) (bg_ s) (modifiers s).

#[global] Instance Style_eq_dec : EqDecision Style.
Proof. solve_decision. Defined.

Definition Style_default : Style := mkStyle None None 0.
Definition with_fg (c : Color) (s : Style) : Style := s <| fg_ := Some c |>.
Definition with_bg (c : Color) (s : Style) : Style := s <| bg_ := Some c |>.
Definition add_modifier (m : Z) (s : Style) : Style := s <| modifiers ::= Z.lor m |>.

(** ** Ramps *)

Record Ramp := mkRamp {
  r_bg : Color; r_bg_alt : Color; r_surface : Color; r_overlay : Color; r_border : Color;
  r_fg : Color; r_fg_muted : Color; r_fg_subtle : Color; r_fg_inverse : Color;
  r_sel_bg : Color; r_sel_fg : Color;
  r_cyan : Color; r_purple : Color; r_green : Color; r_yellow : Color; r_red : Color; r_blue : Color;
}.

Import Color.

Definition TOKYO_NIGHT_RGB : Ramp := mkRamp
  (Rgb 26 27 38) (Rgb 30 32 48) (Rgb 36 40 59) (Rgb 41 46 66) (Rgb 59 66 97)
  (Rgb 192 202 245) (Rgb 134 145 190) (Rgb 86 95 137) (Rgb 26 27 38)
  (Rgb 55 65 115) (Rgb 255 255 255)
  (Rgb 125 207 255) (Rgb 187 154 247) (Rgb 158 206 106) (Rgb 224 175 104) (Rgb 247 118 142)
  (Rgb 122 162 247).

Definition TOKYO_NIGHT_256 : Ramp := mkRamp
  (Indexed 234) (Indexed 235) (Indexed 236) (Indexed 237) (Indexed 238)
  (Indexed 189) (Indexed 146) (Indexed 60) (Indexed 234)
  (Indexed 60) (Indexed 255)
  (Indexed 117) (Indexed 141) (Indexed 149) (Indexed 179) (Indexed 210) (Indexed 111).

Definition TOKYO_DAY_RGB : Ramp := mkRamp
  (Rgb 225 226 231) (Rgb 213 214 219) (Rgb 200 202 212) (Rgb 183 193 227) (Rgb 160 166 189)
  (Rgb 52 59 88) (Rgb 101 109 145) (Rgb 132 140 181) (Rgb 225 226 231)
  (Rgb 183 193 227) (Rgb 26 27 38)
  (Rgb 0 113 151) (Rgb 120 71 189) (Rgb 88 117 57) (Rgb 140 108 62) (Rgb 196 26 74) (Rgb 45 91 179).

Definition TOKYO_DAY_256 : Ramp := mkRamp
  (Indexed 255) (Indexed 254) (Indexed 253) (Indexed 252) (Indexed 247)
  (Indexed 236) (Indexed 60) (Indexed 103) (Indexed 255)
  (Indexed 152) (Indexed 232)
  (Indexed 31) (Indexed 91) (Indexed 64) (Indexed 136) (Indexed 125) (Indexed 26).

Definition ANSI_DARK : Ramp := mkRamp
  Reset Reset Black Black DarkGray Gray DarkGray DarkGray Black Blue White
  Cyan Magenta Green Yellow Red Blue.

Definition NO_COLOR : Ramp := mkRamp
  Reset Reset Reset Reset Reset Reset Reset Reset Reset Reset Reset
  Reset Reset Reset Reset Reset Reset.

Definition ramp_for (kind : ThemeKind) (support : ColorSupport) : Ramp :=
  match kind, support with
  | _, NoColor | Mono, _ => NO_COLOR
  | TokyoNight, TrueColor => TOKYO_NIGHT_RGB
  | TokyoNight, Colors256 => TOKYO_NIGHT_256
  | TokyoNight, Basic => ANSI_DARK
  | TokyoNightLight, TrueColor => TOKYO_DAY_RGB
  | TokyoNightLight, Colors256 => TOKYO_DAY_256
  | TokyoNightLight, Basic => ANSI_DARK
  end.

(** ** Tokens *)

Record Theme := mkTheme {
  bg : Color; surface : Color; header_bg : Color; overlay_bg : Color; border : Color;
  border_focus : Color;
  fg : Color; text_dim : Color; text_subtle : Color; fg_inverse : Color;
  accent_primary : Color; accent_secondary : Color;
  selection_bg : Color; selection_fg : Color; selection_edge : Color;
  success : Color; warning : Color; danger : Color; info : Color; sleeping : Color;
  bar_empty : Color; scrollbar_thumb : Color; scrollbar_track : Color;
  mono : bool; light : bool;
}.

Definition with_kind (kind : ThemeKind) (support : ColorSupport) : Theme :=
  let r := ramp_for kind support in
  let mono := bool_decide (support = NoColor) || bool_decide (kind = Mono) in
  mkTheme (r_bg r) (r_bg_alt r) (r_surface r) (r_bg_alt r) (r_border r) (r_cyan r)
    (r_fg r) (r_fg_muted r) (r_fg_subtle r) (r_fg_inverse r)
    (r_cyan r) (r_purple r)
    (r_sel_bg r) (r_sel_fg r) (r_cyan r)
    (r_green r) (r_yellow r) (r_red r) (r_blue r) (r_fg_subtle r)
    (r_overlay r) (r_fg_subtle r) (r_overlay r)
    mono (bool_decide (kind = TokyoNightLight)).

Definition new (support : ColorSupport) : Theme := with_kind TokyoNight support.

Definition Theme_default : Theme := new TrueColor.

Definition is_mono (self : Theme) : bool := mono self.
Definition is_light (self : Theme) : bool := light self.

Definition gauge_color (self : Theme) (percent : f64) : Color :=
  if float_ge percent (f64_of_Z 80) then danger self
  else if float_ge percent (f64_of_Z 50) then warning self
  else success self.

Definition level_color (self : Theme) (level : Level) : Color :=
  match level with
  | Level.Info => info self
  | Level.Success => success self
  | Level.Warning => warning self
  | Level.Error => danger self
  | Level.Neutral => text_dim self
  end.

(** ** Component styles *)

Section Styles.
Variable self : Theme.

Definition body : Style := with_bg (bg self) (with_fg (fg self) Style_default).

Definition dim : Style :=
  let s := with_fg (text_dim self) Style_default in
  if mono self then add_modifier DIM s else s.

Definition subtle : Style :=
  let s := with_fg (text_subtle self) Style_default in
  if mono self then add_modifier DIM s else s.

Definition strong : Style := add_modifier BOLD (with_fg (fg self) Style_default).

Definition accent : Style := add_modifier BOLD (with_fg (accent_primary self) Style_default).

Definition accent_fill : Style :=
  if mono self then add_modifier (Z.lor REVERSED BOLD) Style_default
  else add_modifier BOLD (with_bg (accent_primary self) (with_fg (fg_inverse self) Style_default)).

Definition chrome : Style := with_bg (header_bg self) (with_fg (fg self) Style_default).

Definition table_header : Style :=
  if mono self then add_modifier (Z.lor BOLD UNDERLINED) Style_default
  else add_modifier BOLD (with_bg (header_bg self) (with_fg (accent_primary self) Style_default)).

Definition selected_row : Style :=
  if mono self then add_modifier REVERSED Style_default
  else add_modifier BOLD (with_bg (selection_bg self) (with_fg (selection_fg self) Style_default)).

Definition row (odd : bool) : Style :=
  if mono self then Style_default
  else if odd then with_bg (surface self) (with_fg (fg self) Style_default)
  else with_bg (bg self) (with_fg (fg self) Style_default).

Definition level_style (level : Level) : Style :=
  let s := with_fg (level_color self level) Style_default in
  match mono self, level with
  | true, Level.Error => add_modifier (Z.lor BOLD REVERSED) s
  | true, Level.Warning => add_modifier BOLD s
  | true, Level.Neutral => add_modifier DIM s
  | _, _ => s
  end.

Definition level_fill (level : Level) : Style :=
  if mono self then add_modifier (Z.lor REVERSED BOLD) Style_default
  else add_modifier BOLD (with_bg (level_color self level) (with_fg (fg_inverse self) Style_default)).

Definition border_style (focused : bool) : Style :=
  if mono self then
    if focused then add_modifier BOLD Style_default else add_modifier DIM Style_default
  else if focused then with_fg (border_focus self) Style_default
  else with_fg (border self) Style_default.

Definition key_style : Style :=
  if mono self then add_modifier (Z.lor BOLD REVERSED) Style_default
  else add_modifier BOLD (with_bg (selection_bg self) (with_fg (fg self) Style_default)).

Definition key_desc : Style :=
  if mono self then Style_default
  else with_bg (header_bg self) (with_fg (text_dim self) Style_default).
End Styles.

(** ** Glyphs *)

Record Glyphs := mkGlyphs {
  meter_full : str; meter_empty : str; meter_partials : list str; spark : list str;
  sort_desc : str; sort_asc : str; sel_edge : str; scroll_thumb : str; scroll_track : str;
  tree_branch : str; tree_last : str; tree_pipe : str; tree_gap : str;
  st_running : str; st_idle : str; st_paused : str; st_warn : str; st_dead : str; st_unknown : str;
  arrow_up : str; arrow_down : str; chevron : str; spinner : list str;
  sep : str; cursor : str; conn_local : str; conn_remote : str; conn_down : str;
  ellipsis : str; none : str; dash : str; unicode : bool;
}.

Definition UNICODE_PARTIALS : list str := lit <$> ["▏"; "▎"; "▍"; "▌"; "▋"; "▊"; "▉"]%string.
Definition UNICODE_SPARK : list str := lit <$> ["▁"; "▂"; "▃"; "▄"; "▅"; "▆"; "▇"; "█"]%string.
Definition ASCII_SPARK : list str := lit <$> ["."; "."; ":"; ":"; "|"; "|"; "#"; "#"]%string.
Definition UNICODE_SPINNER : list str :=
  lit <$> ["⠋"; "⠙"; "⠹"; "⠸"; "⠼"; "⠴"; "⠦"; "⠧"; "⠇"; "⠏"]%string.
Definition ASCII_SPINNER : list str := lit <$> ["-"; "\"; "|"; "/"]%string.

Definition UNICODE : Glyphs := mkGlyphs
  (lit "█") (lit " ") UNICODE_PARTIALS UNICODE_SPARK
  (lit "▼") (lit "▲") (lit "▎") (lit "█") (lit "│")
  (lit "├── ") (lit "└── ") (lit "│   ") (lit "    ")
  (lit "●") (lit "○") (lit "◐") (lit "▲") (lit "✕") (lit "?")
  (lit "↑") (lit "↓") (lit "›") UNICODE_SPINNER
  (lit "·") (lit "█") (lit "●") (lit "◆") (lit "✕")
  (lit "…") (lit "—") (lit "—") true.

Definition ASCII : Glyphs := mkGlyphs
  (lit "|") (lit " ") [] ASCII_SPARK
  (lit "v") (lit "^") (lit ">") (lit "#") (lit "|")
  (lit "|-- ") (lit "\-- ") (lit "|   ") (lit "    ")
  (lit "R") (lit "S") (lit "T") (lit "!") (lit "X") (lit "?")
  (lit "^") (lit "v") (lit ">") ASCII_SPINNER
  (lit "-") (lit "_") (lit "*") (lit "@") (lit "X")
  (lit "~") (lit "-") (lit "-") false.

Definition Glyphs_new (unicode : bool) : Glyphs := if unicode then UNICODE else ASCII.

(** Corners, sides, top and bottom of a panel in the ASCII set. *)
Definition ASCII_BORDER : list str := lit <$> ["+"; "+"; "+"; "+"; "|"; "|"; "-"; "-"]%string.

Inductive BorderType : Type := Rounded | Plain.
Definition border_type (self : Glyphs) : BorderType := if unicode self then Rounded else Plain.

(** ratatui's rounded set is an argument. *)
Definition border_set (ROUNDED : list str) (self : Glyphs) : list str :=
  if unicode self then ROUNDED else ASCII_BORDER.

(** An index out of range panics. *)
Definition spinner_frame (tick : nat) (self : Glyphs) : option str :=
  spinner self !! (tick mod length (spinner self))%nat.

Definition spark_level (value max : Z) (self : Glyphs) : option str :=
  if max =? 0 then spark self !! 0%nat
  else
    let idx := float_as_uint u64_max
                 (f64_round (f64_mul (f64_div (f64_of_Z (Z.min value max)) (f64_of_Z max)) (f64_of_Z 7))) in
    spark self !! Z.to_nat (Z.min idx 7).

Definition truncate (s : str) (width : nat) (self : Glyphs) : str :=
  if (width =? 0)%nat then []
  else if (length s <=? width)%nat then s
  else if (width =? 1)%nat then ellipsis self
  else take (width - 1) s ++ ellipsis self.

(** ** Properties *)

(** *** Colours *)

(** The colours a terminal can show. *)
Definition shows (support : ColorSupport) (c : Color) : bool :=
  match support, c with
  | _, Reset => true
  | NoColor, _ => false
  | Basic, (Rgb _ _ _ | Indexed _) => false
  | Colors256, Rgb _ _ _ => false
  | _, _ => true
  end.

Definition style_shows (support : ColorSupport) (s : Style) : bool :=
  forallb (shows support) (option_list (fg_ s) ++ option_list (bg_ s)).

Definition levels : list Level :=
  [Level.Info; Level.Success; Level.Warning; Level.Error; Level.Neutral].

Definition all_styles (t : Theme) : list Style :=
  [body t; dim t; subtle t; strong t; accent t; accent_fill t; chrome t; table_header t; selected_row t;
   row t true; row t false; border_style t true; border_style t false; key_style t; key_desc t]
  ++ (level_style t <$> levels) ++ (level_fill t <$> levels).

Definition tokens (t : Theme) : list Color :=
  [bg t; surface t; header_bg t; overlay_bg t; border t; border_focus t; fg t; text_dim t; text_subtle t;
   fg_inverse t; accent_primary t; accent_secondary t; selection_bg t; selection_fg t; selection_edge t;
   success t; warning t; danger t; info t; sleeping t; bar_empty t; scrollbar_thumb t; scrollbar_track t].

(** What must not look the same. *)
Definition told_apart (t : Theme) : bool :=
  bool_decide (selected_row t ≠ row t true) && bool_decide (selected_row t ≠ row t false)
  && bool_decide (table_header t ≠ row t true) && bool_decide (table_header t ≠ row t false)
  && bool_decide (border_style t true ≠ border_style t false)
  && bool_decide (key_style t ≠ key_desc t)
  && forallb (λ l, forallb (λ l', bool_decide (l = l')
       || negb (bool_decide (level_style t l = level_style t l'))
       || (mono t && bool_decide (l = Level.Info ∨ l = Level.Success)
                  && bool_decide (l' = Level.Info ∨ l' = Level.Success))) levels) levels.

(** Every theme fits every terminal: at each colour depth, no token and no style
    uses a colour the terminal cannot show (none at all without colour), and the
    selected row, the header, the focused panel, a key and each severity still
    look different from what they must be told from; without colour only a
    success looks like an information. *)
Theorem theme_fits_terminal kind support :
  let t := with_kind kind support in
  Forall (λ c, shows support c = true) (tokens t) ∧
  Forall (λ s, style_shows support s = true) (all_styles t) ∧
  told_apart t = true ∧
  is_mono t = bool_decide (support = NoColor ∨ kind = Mono).
Proof.
  intros t. subst t.
  split; [|split; [|split]]; destruct kind, support; try (vm_compute; reflexivity);
    repeat constructor.
Qed.

(** *** Glyphs *)

Definition marks (g : Glyphs) : list str :=
  [meter_full g; meter_empty g; sort_desc g; sort_asc g; sel_edge g; scroll_thumb g; scroll_track g;
   st_running g; st_idle g; st_paused g; st_warn g; st_dead g; st_unknown g; arrow_up g; arrow_down g;
   chevron g; sep g; cursor g; conn_local g; conn_remote g; conn_down g; ellipsis g; none g; dash g]
  ++ meter_partials g ++ spark g ++ spinner g.

Definition connectors (g : Glyphs) : list str := [tree_branch g; tree_last g; tree_pipe g; tree_gap g].

(** Every mark is one character and every tree connector four; without Unicode
    all are printable ASCII; the eight levels of a sparkline and the partial
    cells of a meter are there, so no lookup in them can panic. *)
Theorem glyphs_one_cell u :
  let g := Glyphs_new u in
  Forall (λ m, length m = 1%nat) (marks g) ∧ Forall (λ m, length m = 4%nat) (connectors g) ∧
  (u = false → Forall (Forall (λ c, 32 ≤ c < 127)) (marks g ++ connectors g ++ ASCII_BORDER)) ∧
  length (spark g) = 8%nat ∧ length (meter_partials g) = (if u then 7 else 0)%nat ∧
  (∀ tick, is_Some (spinner_frame tick g)) ∧
  ∀ value max, is_Some (spark_level value max g).
Proof.
  assert (∀ us, length (spark (Glyphs_new us)) = 8%nat) as Hs by (by intros []).
  split; [destruct u; repeat constructor|]. split; [destruct u; repeat constructor|].
  split; [intros ->; repeat constructor; discriminate|].
  split; [apply Hs|]. split; [by destruct u|]. split.
  - intros tick. apply lookup_lt_is_Some. apply Nat.mod_upper_bound. by destruct u.
  - intros value max. unfold spark_level. destruct (max =? 0); apply lookup_lt_is_Some; rewrite Hs; lia.
Qed.

(** The ellipsis takes the last of the cells that are left. *)
Lemma truncate_length g s w :
  length (ellipsis g) = 1%nat → length (truncate s w g) = Nat.min (length s) w.
Proof.
  intros He. unfold truncate. destruct (Nat.eqb_spec w 0); [simpl; lia|].
  destruct (Nat.leb_spec (length s) w); [lia|]. destruct (Nat.eqb_spec w 1); [lia|].
  rewrite length_app, length_take. lia.
Qed.

Lemma truncate_fits g s w : (length s ≤ w)%nat → truncate s w g = s.
Proof.
  intros Hl. unfold truncate. destruct (Nat.eqb_spec w 0).
  - by destruct s; simpl in *; [|lia].
  - by rewrite (proj2 (Nat.leb_le _ _)).
Qed.

Lemma Glyphs_ellipsis u : length (ellipsis (Glyphs_new u)) = 1%nat.
Proof. by destruct u. Qed.
