(* ===== verification/FloatFacts.v ===== *)
(** * Facts about binary64

    How far the rounding of SpecFloat is from the exact result, which integers are
    represented exactly, and what comes back of them. *)

From S2P Require Import Prelude Str RsFloat Num.
Local Open Scope Z_scope.

Definition f64_sub : f64 → f64 → f64 := SFsub 53 1024.

(** [f64::floor]. *)
Definition f64_floor (x : f64) : f64 :=
  match x with
  | S754_finite s m e =>
      if 0 <=? e then x
      else binary_normalize 53 1024 (cond_Zopp s (Zpos m) / 2 ^ (- e)) 0 s
  | _ => x
  end.

(** ** Digits and shifts *)

Lemma digits2_pos_log2 p : Zpos (digits2_pos p) = Z.log2 (Zpos p) + 1.
Proof.
  induction p as [p IH|p IH|]; simpl digits2_pos; [..|done]; rewrite Pos2Z.inj_succ, IH.
  - change (Zpos p~1) with (2 * Zpos p + 1). rewrite Z.log2_succ_double by lia. lia.
  - change (Zpos p~0) with (2 * Zpos p). rewrite Z.log2_double by lia. lia.
Qed.

Lemma shr_1_m mrs : 0 ≤ shr_m mrs → shr_m (shr_1 mrs) = shr_m mrs / 2.
Proof.
  destruct mrs as [m r s]. simpl. intros Hm. destruct m as [|[p|p|]|]; simpl; try done; try lia.
  - change (Zpos p~1) with (2 * Zpos p + 1). apply Z.div_unique with 1; lia.
  - change (Zpos p~0) with (2 * Zpos p). by rewrite Z.mul_comm, Z.div_mul.
Qed.

Lemma shr_iter_m p mrs : 0 ≤ shr_m mrs → shr_m (iter_pos shr_1 p mrs) = shr_m mrs / 2 ^ Zpos p.
Proof.
  revert mrs. induction p as [p IH|p IH|]; intros mrs Hm; simpl; [| |by apply shr_1_m].
  - assert (0 ≤ shr_m (shr_1 mrs)) as H1 by (rewrite shr_1_m by done; by apply Z.div_pos).
    assert (0 ≤ shr_m (iter_pos shr_1 p (shr_1 mrs))) as H2
      by (rewrite IH by done; apply Z.div_pos; lia).
    rewrite IH, IH, shr_1_m by done. rewrite !Z.div_div by lia. f_equal.
    change (Zpos p~1) with (2 * Zpos p + 1). replace (2 * Zpos p + 1) with (1 + Zpos p + Zpos p) by lia.
    rewrite !Z.pow_add_r by lia. ring.
  - assert (0 ≤ shr_m (iter_pos shr_1 p mrs)) as H2 by (rewrite IH by done; apply Z.div_pos; lia).
    rewrite IH, IH by done. rewrite Z.div_div by lia. f_equal.
    change (Zpos p~0) with (2 * Zpos p). replace (2 * Zpos p) with (Zpos p + Zpos p) by lia.
    by rewrite Z.pow_add_r by lia.
Qed.

(** Shifting by a whole number of places. *)
Lemma shr_m_div m e n :
  0 ≤ m → 0 ≤ n →
  shr_m (fst (shr (shr_record_of_loc m loc_Exact) e n)) = m / 2 ^ n ∧
  snd (shr (shr_record_of_loc m loc_Exact) e n) = e + n.
Proof.
  intros Hm Hn. destruct n as [|p|]; [| |lia].
  - simpl. rewrite Z.div_1_r, Z.add_0_r. done.
  - cbn [shr fst snd]. rewrite shr_iter_m by done. done.
Qed.

(** Nothing is lost when the places shifted out are zero. *)
Lemma shr_1_exact q : 0 ≤ q → shr_1 (shr_record_of_loc (q * 2) loc_Exact) = shr_record_of_loc q loc_Exact.
Proof. intros Hq. destruct q as [|p|]; [done| |lia]. by rewrite Z.mul_comm. Qed.

Lemma iter_pos_xI {A} (f : A → A) p x : iter_pos f p~1 x = iter_pos f p (iter_pos f p (f x)).
Proof. reflexivity. Qed.
Lemma iter_pos_xO {A} (f : A → A) p x : iter_pos f p~0 x = iter_pos f p (iter_pos f p x).
Proof. reflexivity. Qed.

Lemma shr_iter_exact p q :
  0 ≤ q → iter_pos shr_1 p (shr_record_of_loc (q * 2 ^ Zpos p) loc_Exact) = shr_record_of_loc q loc_Exact.
Proof.
  revert q. induction p as [p IH|p IH|]; intros q Hq; rewrite ?iter_pos_xI, ?iter_pos_xO.
  - change (Zpos p~1) with (2 * Zpos p + 1). replace (2 * Zpos p + 1) with (Zpos p + Zpos p + 1) by lia.
    rewrite !Z.pow_add_r by lia. change (2 ^ 1) with 2. rewrite !Z.mul_assoc.
    rewrite shr_1_exact by (repeat apply Z.mul_nonneg_nonneg; lia). rewrite IH by (apply Z.mul_nonneg_nonneg; lia).
    by apply IH.
  - change (Zpos p~0) with (2 * Zpos p). replace (2 * Zpos p) with (Zpos p + Zpos p) by lia.
    rewrite !Z.pow_add_r by lia. rewrite !Z.mul_assoc. rewrite IH by (apply Z.mul_nonneg_nonneg; lia).
    by apply IH.
  - by apply shr_1_exact.
Qed.

Lemma shr_exact m e n :
  0 ≤ m → 0 ≤ n → m mod 2 ^ n = 0 →
  loc_of_shr_record (fst (shr (shr_record_of_loc m loc_Exact) e n)) = loc_Exact.
Proof.
  intros Hm Hn Hd. destruct n as [|p|]; [done| |lia]. cbn [shr fst].
  assert (0 < 2 ^ Zpos p) by lia. rewrite (Z.div_mod m (2 ^ Zpos p)), Hd, Z.add_0_r by lia.
  rewrite Z.mul_comm, shr_iter_exact by (apply Z.div_pos; lia). done.
Qed.

(** ** Rounding *)

Lemma round_nearest_cases mx l :
  round_nearest_even mx l = mx ∨ round_nearest_even mx l = mx + 1.
Proof. destruct l as [|[]]; simpl; try destruct (Z.even mx); auto. Qed.

(** A mantissa of 53 digits or more, in the range of normal numbers: the result
    is normal, and in units of its last place it is the exact value rounded down
    or up. *)
Lemma round_spec sx M e :
  2 ^ 52 ≤ M → Z.log2 M + e ≤ 1022 → -1022 ≤ Z.log2 M + e →
  let n := Z.log2 M - 52 in
  ∃ m e', binary_round_aux 53 1024 sx M e loc_Exact = S754_finite sx m e' ∧
    2 ^ 52 ≤ Zpos m < 2 ^ 53 ∧ (e' = e + n ∨ e' = e + n + 1) ∧
    (Zpos m * 2 ^ (e' - (e + n)) = M / 2 ^ n ∨
     M mod 2 ^ n ≠ 0 ∧ Zpos m * 2 ^ (e' - (e + n)) = M / 2 ^ n + 1).
Proof.
  intros HM Hhi Hlo n. assert (52 ≤ Z.log2 M) as Hd by (apply Z.log2_le_pow2; lia).
  assert (0 ≤ n) as Hn by lia. unfold binary_round_aux.
  assert (fexp 53 1024 (Zdigits2 M + e) - e = n) as Hf.
  { destruct M as [|p|]; [lia| |lia]. unfold Zdigits2, fexp, emin. rewrite digits2_pos_log2. lia. }
  unfold shr_fexp at 1. rewrite Hf.
  pose proof (shr_m_div M e n ltac:(lia) Hn) as (Hm & He).
  pose proof (shr_exact M e n ltac:(lia) Hn) as Hl.
  destruct (shr (shr_record_of_loc M loc_Exact) e n) as [mrs e1]. cbn [fst snd] in Hm, He, Hl.
  assert (2 ^ 52 ≤ shr_m mrs < 2 ^ 53) as Hq.
  { rewrite Hm. pose proof (Z.log2_spec M ltac:(lia)) as [Hl1 Hl2].
    replace (Z.log2 M) with (n + 52) in Hl1, Hl2 by lia. rewrite Z.pow_add_r in Hl1 by lia.
    replace (Z.succ (n + 52)) with (n + 53) in Hl2 by lia. rewrite Z.pow_add_r in Hl2 by lia.
    split; [apply Z.div_le_lower_bound; lia|apply Z.div_lt_upper_bound; lia]. }
  rewrite <- Hm. set (q := shr_m mrs) in *.
  set (r := round_nearest_even q (loc_of_shr_record mrs)).
  assert (r = q ∨ M mod 2 ^ n ≠ 0 ∧ r = q + 1) as Hr.
  { destruct (round_nearest_cases q (loc_of_shr_record mrs)) as [|E]; [by left|].
    destruct (decide (M mod 2 ^ n = 0)) as [H0|]; [|by right]. left. unfold r. by rewrite Hl. }
  clearbody r. clear Hm Hl Hf. subst e1.
  destruct (decide (r = 2 ^ 53)) as [->|Hne].
  - (* the carry *)
    exists (2 ^ 52)%positive, (e + n + 1).
    replace (shr_fexp 53 1024 (2 ^ 53) (e + n) loc_Exact) with
      ({| shr_m := 2 ^ 52; shr_r := false; shr_s := false |}, e + n + 1).
    + cbn [shr_m]. rewrite (proj2 (Z.leb_le _ _)) by lia. split; [done|]. split; [done|].
      split; [by right|]. replace (e + n + 1 - (e + n)) with 1 by lia. lia.
    + unfold shr_fexp. replace (fexp 53 1024 (Zdigits2 (2 ^ 53) + (e + n)) - (e + n)) with 1; [done|].
      unfold fexp, emin. change (Zdigits2 (2 ^ 53)) with 54. lia.
  - assert (2 ^ 52 ≤ r < 2 ^ 53) as Hr2 by lia. destruct r as [|p|]; [lia| |lia].
    exists p, (e + n).
    replace (shr_fexp 53 1024 (Zpos p) (e + n) loc_Exact) with
      ({| shr_m := Zpos p; shr_r := false; shr_s := false |}, e + n).
    + cbn [shr_m]. rewrite (proj2 (Z.leb_le _ _)) by lia. split; [done|]. split; [done|].
      split; [by left|]. rewrite Z.sub_diag, Z.mul_1_r. destruct Hr as [|[? ?]]; auto.
    + assert (Z.log2 (Zpos p) = 52) as Hlp by (apply Z.log2_unique; lia).
      unfold shr_fexp. replace (fexp 53 1024 (Zdigits2 (Zpos p) + (e + n)) - (e + n)) with 0; [done|].
      unfold fexp, emin, Zdigits2. rewrite digits2_pos_log2. lia.
Qed.

(** ** Integers *)

(** How far an integer is moved up to have 53 digits. *)
Definition lift_of (z : Z) : Z := 52 - Z.log2 z.

Lemma lift_bounds z : 0 < z < 2 ^ 53 → 0 ≤ lift_of z ≤ 52 ∧ 2 ^ 52 ≤ z * 2 ^ lift_of z < 2 ^ 53.
Proof.
  intros Hz. pose proof (Z.log2_nonneg z) as H0.
  assert (Z.log2 z < 53) as H1 by (apply Z.log2_lt_pow2; lia).
  unfold lift_of. split; [lia|]. pose proof (Z.log2_spec z ltac:(lia)) as [Hl Hu].
  replace (2 ^ 52) with (2 ^ Z.log2 z * 2 ^ (52 - Z.log2 z)) by (rewrite <- Z.pow_add_r by lia; f_equal; lia).
  replace (2 ^ 53) with (2 ^ Z.succ (Z.log2 z) * 2 ^ (52 - Z.log2 z))
    by (rewrite <- Z.pow_add_r by lia; f_equal; lia).
  assert (0 < 2 ^ (52 - Z.log2 z)) by (apply Z.pow_pos_nonneg; lia). nia.
Qed.

Lemma iter_xO p k : Zpos (Pos.iter xO p k) = Zpos p * 2 ^ Zpos k.
Proof.
  induction k as [|k IH] using Pos.peano_ind; simpl; [lia|].
  rewrite Pos.iter_succ, Pos2Z.inj_succ, Z.pow_succ_r by lia.
  change (Zpos (Pos.iter xO p k)~0) with (2 * Zpos (Pos.iter xO p k)). rewrite IH. lia.
Qed.

(** An integer of at most 53 bits is represented exactly. *)
Lemma f64_of_Z_exact z :
  0 < z < 2 ^ 53 →
  ∃ m, f64_of_Z z = S754_finite false m (- lift_of z) ∧ Zpos m = z * 2 ^ lift_of z.
Proof.
  intros Hz. pose proof (lift_bounds z Hz) as [Hk Hm]. set (k := lift_of z) in *.
  destruct z as [|p|]; [lia| |lia]. unfold f64_of_Z, binary_normalize, binary_round.
  assert (Z.log2 (Zpos p) = 52 - k) as Hlog by (subst k; unfold lift_of; lia).
  assert (fexp 53 1024 (Zpos (digits2_pos p) + 0) = - k) as ->.
  { unfold fexp, emin. rewrite digits2_pos_log2. lia. }
  assert (∃ m, shl_align p 0 (- k) = (m, - k) ∧ Zpos m = Zpos p * 2 ^ k) as (m & -> & E).
  { unfold shl_align. rewrite Z.sub_0_r. destruct k as [|d|]; [| |lia].
    - exists p. split; [done|]. rewrite Z.pow_0_r. lia.
    - exists (Pos.iter xO p d). split; [done|]. apply iter_xO. }
  rewrite <- E in Hm. assert (Z.log2 (Zpos m) = 52) as Hlm by (apply Z.log2_unique; lia).
  destruct (round_spec false (Zpos m) (- k)) as (m' & e' & Hr & Hb & He & Hv); [lia..|].
  rewrite Hlm in *. simpl in Hv. rewrite Z.sub_diag, Z.add_0_r in *. rewrite Z.div_1_r in Hv.
  rewrite Hr. destruct Hv as [Hv|[Hv _]]; [|by rewrite Z.mod_1_r in Hv]. destruct He as [->| ->].
  - rewrite Z.sub_diag, Z.mul_1_r in Hv. exists m'. split; [done|]. lia.
  - replace (- k + 1 - - k) with 1 in Hv by lia. lia.
Qed.

Lemma float_as_uint_nonneg max x : 0 ≤ max → 0 ≤ float_as_uint max x.
Proof.
  intros Hm. destruct x as [| [] | | [] m e]; simpl; try lia.
  apply Z.min_glb; [done|]. apply Z.shiftl_nonneg. lia.
Qed.

(** ... and read back. *)
Lemma as_uint_of_Z max z : 0 ≤ z < 2 ^ 53 → z ≤ max → float_as_uint max (f64_of_Z z) = z.
Proof.
  intros Hz Hmax. destruct (decide (z = 0)) as [->|Hne]; [done|].
  destruct (f64_of_Z_exact z ltac:(lia)) as (m & -> & E). pose proof (lift_bounds z ltac:(lia)) as [Hk _].
  cbn [float_as_uint]. rewrite E, Z.shiftl_div_pow2, Z.opp_involutive by lia.
  rewrite Z.div_mul by (apply Z.pow_nonzero; lia). lia.
Qed.

(** An integer moved up further than it need be is rounded to itself, ... *)
Lemma round_exact z k :
  0 < z < 2 ^ 53 → lift_of z ≤ k ≤ 500 →
  binary_round_aux 53 1024 false (z * 2 ^ k) (- k) loc_Exact = f64_of_Z z.
Proof.
  intros Hz Hk. destruct (f64_of_Z_exact z Hz) as (p & -> & Hp).
  pose proof (lift_bounds z Hz) as [Hl Hb]. set (n := k - lift_of z).
  assert (z * 2 ^ k = Zpos p * 2 ^ n) as ->
    by (rewrite Hp, <- Z.mul_assoc, <- Z.pow_add_r by lia; f_equal; f_equal; lia).
  assert (Z.log2 (Zpos p * 2 ^ n) = 52 + n) as Hlog.
  { rewrite Z.log2_mul_pow2 by lia. rewrite (Z.log2_unique (Zpos p) 52) by lia. lia. }
  assert (0 < 2 ^ n) as Hn by (apply Z.pow_pos_nonneg; lia).
  destruct (round_spec false (Zpos p * 2 ^ n) (- k)) as (m & e & -> & Hm & He & Hv); [nia|lia|lia|].
  rewrite Hlog in He, Hv. replace (52 + n - 52) with n in He, Hv by lia.
  rewrite Z.div_mul, Z.mod_mul in Hv by lia. destruct Hv as [Hv|[Hv _]]; [|done].
  destruct He as [->| ->].
  - rewrite Z.sub_diag, Z.mul_1_r in Hv. injection Hv as ->. f_equal. lia.
  - replace (- k + n + 1 - (- k + n)) with 1 in Hv by lia. lia.
Qed.

(** ... so products and quotients that are integers are exact, ... *)
Lemma f64_mul_exact a b :
  0 < a → 0 < b → a * b < 2 ^ 53 → f64_mul (f64_of_Z a) (f64_of_Z b) = f64_of_Z (a * b).
Proof.
  intros Ha Hb Hab. assert (a < 2 ^ 53 ∧ b < 2 ^ 53) as [Ha2 Hb2] by nia.
  destruct (f64_of_Z_exact a ltac:(lia)) as (p & -> & Hp). destruct (f64_of_Z_exact b ltac:(lia)) as (q & -> & Hq).
  pose proof (lift_bounds a ltac:(lia)) as [Hla _]. pose proof (lift_bounds b ltac:(lia)) as [Hlb _].
  cbn [f64_mul SFmul xorb]. change (Zpos (p * q)) with (Zpos p * Zpos q). rewrite Hp, Hq.
  replace (a * 2 ^ lift_of a * (b * 2 ^ lift_of b)) with (a * b * 2 ^ (lift_of a + lift_of b))
    by (rewrite Z.pow_add_r by lia; ring).
  replace (- lift_of a + - lift_of b) with (- (lift_of a + lift_of b)) by lia.
  apply round_exact; [nia|]. split; [|lia].
  pose proof (Z.log2_mul_below a b ltac:(lia) ltac:(lia)). unfold lift_of in *. lia.
Qed.

Lemma f64_div_exact a b :
  0 < a → 0 < b → a * b < 2 ^ 53 → f64_div (f64_of_Z (a * b)) (f64_of_Z b) = f64_of_Z a.
Proof.
  intros Ha Hb Hab. assert (a < 2 ^ 53 ∧ b < 2 ^ 53 ∧ 0 < a * b) as (Ha2 & Hb2 & Hpos) by nia.
  destruct (f64_of_Z_exact (a * b) ltac:(lia)) as (p & -> & Hp).
  destruct (f64_of_Z_exact b ltac:(lia)) as (q & -> & Hq).
  pose proof (lift_bounds (a * b) ltac:(lia)) as [Hla Hpb]. pose proof (lift_bounds b ltac:(lia)) as [Hlb Hqb].
  rewrite <- Hp in Hpb. rewrite <- Hq in Hqb.
  assert (∀ r, 2 ^ 52 ≤ Zpos r < 2 ^ 53 → Zdigits2 (Zpos r) = 53) as Hd.
  { intros r Hr. unfold Zdigits2. rewrite digits2_pos_log2, (Z.log2_unique (Zpos r) 52); lia. }
  unfold f64_div, SFdiv, SFdiv_core_binary. rewrite !Hd by lia.
  set (l1 := lift_of (a * b)) in *. set (l2 := lift_of b) in *.
  replace (fexp 53 1024 (53 + - l1 - (53 + - l2))) with (l2 - l1 - 53) by (unfold fexp, emin; lia).
  replace (Z.min (l2 - l1 - 53) (- l1 - - l2)) with (l2 - l1 - 53) by lia.
  replace (- l1 - - l2 - (l2 - l1 - 53)) with 53 by lia.
  rewrite Z.shiftl_mul_pow2 by lia. set (k := l1 + 53 - l2).
  assert (Zpos p * 2 ^ 53 = a * 2 ^ k * Zpos q) as Hpq.
  { rewrite Hp, Hq. replace (a * 2 ^ k * (b * 2 ^ l2)) with (a * b * (2 ^ k * 2 ^ l2)) by ring.
    rewrite <- Z.mul_assoc, <- !Z.pow_add_r by lia. do 2 f_equal. lia. }
  assert (Z.div_eucl (Zpos p * 2 ^ 53) (Zpos q) = (a * 2 ^ k, 0)) as ->.
  { rewrite (surjective_pairing (Z.div_eucl _ _)).
    change (fst (Z.div_eucl ?x ?y)) with (x / y). change (snd (Z.div_eucl ?x ?y)) with (x mod y).
    rewrite Hpq. rewrite Z.div_mul, Z.mod_mul by lia. done. }
  assert (new_location (Zpos q) 0 = loc_Exact) as ->
    by (unfold new_location, new_location_even, new_location_odd; by destruct (Z.even _)).
  cbn [xorb]. replace (l2 - l1 - 53) with (- k) by lia. apply round_exact; [lia|]. split; [|lia].
  pose proof (Z.log2_mul_above a b ltac:(lia) ltac:(lia)). unfold k, l1, l2, lift_of. lia.
Qed.

(** A larger one is rounded to one of its size. *)
Lemma f64_of_Z_size z :
  0 < z < 2 ^ 64 →
  ∃ m e, f64_of_Z z = S754_finite false m e ∧ 2 ^ 52 ≤ Zpos m < 2 ^ 53 ∧
    Z.log2 z - 52 ≤ e ≤ Z.log2 z - 51.
Proof.
  intros Hz. destruct (decide (z < 2 ^ 53)) as [Hs|Hs].
  { destruct (f64_of_Z_exact z ltac:(lia)) as (m & -> & Hm). pose proof (lift_bounds z ltac:(lia)) as [_ Hb].
    exists m, (- lift_of z). split; [done|]. split; [lia|]. unfold lift_of. lia. }
  assert (53 ≤ Z.log2 z) by (apply Z.log2_le_pow2; lia).
  assert (Z.log2 z < 64) by (apply Z.log2_lt_pow2; lia).
  destruct (round_spec false z 0) as (m & e & Hr & Hm & He & _); [lia..|].
  exists m, e. split; [|split; [done|lia]].
  destruct z as [|p|]; [lia| |lia]. rewrite <- Hr.
  unfold f64_of_Z, binary_normalize, binary_round.
  assert (fexp 53 1024 (Zpos (digits2_pos p) + 0) = Z.log2 (Zpos p) - 52) as ->
    by (unfold fexp, emin; rewrite digits2_pos_log2; lia).
  unfold shl_align. destruct (Z.log2 (Zpos p) - 52 - 0) eqn:E; [lia|done|lia].
Qed.

(** Division by a power of two moves the exponent. *)
Lemma f64_div_pow2 m e k :
  2 ^ 52 ≤ Zpos m < 2 ^ 53 → -500 ≤ e ≤ 500 → 0 ≤ k ≤ 52 →
  f64_div (S754_finite false m e) (f64_of_Z (2 ^ k)) = S754_finite false m (e - k).
Proof.
  intros Hm He Hk.
  assert (f64_of_Z (2 ^ k) = S754_finite false (2 ^ 52) (k - 52)) as ->.
  { destruct (f64_of_Z_exact (2 ^ k)) as (q & -> & Hq).
    { split; [apply Z.pow_pos_nonneg; lia|]. apply Z.pow_lt_mono_r; lia. }
    unfold lift_of in *. rewrite Z.log2_pow2, <- Z.pow_add_r in * by lia.
    replace (k + (52 - k)) with 52 in Hq by lia. injection Hq as ->. f_equal. lia. }
  unfold f64_div, SFdiv, SFdiv_core_binary. change (Zdigits2 (Zpos (2 ^ 52))) with 53.
  assert (Zdigits2 (Zpos m) = 53) as -> by (unfold Zdigits2; rewrite digits2_pos_log2, (Z.log2_unique (Zpos m) 52); lia).
  replace (fexp 53 1024 (53 + e - (53 + (k - 52)))) with (e - k - 1) by (unfold fexp, emin; lia).
  replace (Z.min (e - k - 1) (e - (k - 52))) with (e - k - 1) by lia.
  replace (e - (k - 52) - (e - k - 1)) with 53 by lia. rewrite Z.shiftl_mul_pow2 by lia.
  assert (Z.div_eucl (Zpos m * 2 ^ 53) (Zpos (2 ^ 52)) = (2 * Zpos m, 0)) as ->.
  { rewrite (surjective_pairing (Z.div_eucl _ _)).
    change (fst (Z.div_eucl ?x ?y)) with (x / y). change (snd (Z.div_eucl ?x ?y)) with (x mod y).
    change (Zpos (2 ^ 52)) with (2 ^ 52). replace (Zpos m * 2 ^ 53) with (2 * Zpos m * 2 ^ 52) by lia.
    rewrite Z.div_mul, Z.mod_mul by lia. done. }
  change (new_location (Zpos (2 ^ 52)) 0) with loc_Exact. cbn [xorb].
  assert (Z.log2 (2 * Zpos m) = 53) as Hlog by (apply Z.log2_unique; lia).
  destruct (round_spec false (2 * Zpos m) (e - k - 1)) as (m' & e' & -> & Hm' & He' & Hv); [lia..|].
  rewrite Hlog in He', Hv. change (53 - 52) with 1 in He', Hv. change (2 ^ 1) with 2 in Hv.
  rewrite (Z.mul_comm 2), Z.div_mul, Z.mod_mul in Hv by lia. destruct Hv as [Hv|[Hv _]]; [|done].
  destruct He' as [->| ->].
  - rewrite Z.sub_diag, Z.mul_1_r in Hv. injection Hv as ->. f_equal. lia.
  - replace (e - k - 1 + 1 + 1 - (e - k - 1 + 1)) with 1 in Hv by lia. lia.
Qed.

(** ... and flooring keeps an integer. *)
Lemma f64_floor_exact z : 0 ≤ z < 2 ^ 53 → f64_floor (f64_of_Z z) = f64_of_Z z.
Proof.
  intros Hz. destruct (decide (z = 0)) as [->|]; [done|].
  destruct (f64_of_Z_exact z ltac:(lia)) as (p & E & Hp). pose proof (lift_bounds z ltac:(lia)) as [Hl _].
  rewrite E at 1. cbn [f64_floor]. destruct (Z.leb_spec 0 (- lift_of z)); [done|].
  cbn [cond_Zopp]. rewrite Hp, Z.opp_involutive, Z.div_mul by (apply Z.pow_nonzero; lia). done.
Qed.

(** Rounding to the nearest integer, half up, of a positive number below it. *)
Lemma as_uint_round max m e :
  e < 0 → (2 * Zpos m + 2 ^ (- e)) / (2 * 2 ^ (- e)) < 2 ^ 53 →
  (2 * Zpos m + 2 ^ (- e)) / (2 * 2 ^ (- e)) ≤ max →
  float_as_uint max (f64_round (S754_finite false m e))
  = (2 * Zpos m + 2 ^ (- e)) / (2 * 2 ^ (- e)).
Proof.
  intros He Hb Hmax. unfold f64_round. rewrite (proj2 (Z.leb_gt _ _)) by lia. cbn [cond_Zopp].
  apply as_uint_of_Z; [|done]. split; [|done].
  assert (0 < 2 ^ (- e)) by (apply Z.pow_pos_nonneg; lia). apply Z.div_pos; lia.
Qed.

(** ** A fraction of an integer *)

(** The product with a constant [c * 2^-53] of [1/2, 1): a mantissa below 2^53 at
    an exponent that leaves [lift_of t - 1] places, and, in units of the doubled
    last place, within one of the exact product rounded down. *)
Lemma mul_fraction t c :
  0 < t < 2 ^ 32 → 2 ^ 52 ≤ Zpos c < 2 ^ 53 →
  ∃ m e k d, f64_mul (f64_of_Z t) (S754_finite false c (-53)) = S754_finite false m e ∧
    e < 0 ∧ Zpos m < 2 ^ 53 ∧ - e = lift_of t + k - d ∧ 0 ≤ k ≤ 1 ∧ 0 ≤ d ≤ 1 ∧
    t * 2 ^ lift_of t * Zpos c / 2 ^ (53 - k) ≤ Zpos m * 2 ^ d
      ≤ t * 2 ^ lift_of t * Zpos c / 2 ^ (53 - k) + 1 ∧
    (k = 0 → 2 ^ 105 ≤ t * 2 ^ lift_of t * Zpos c).
Proof.
  intros Ht Hc. destruct (f64_of_Z_exact t ltac:(lia)) as (p & -> & Hp).
  pose proof (lift_bounds t ltac:(lia)) as [Hk Hm]. rewrite <- Hp in Hm |- *.
  assert (20 < lift_of t) as Hl.
  { assert (Z.log2 t < 32) by (apply Z.log2_lt_pow2; lia). unfold lift_of. lia. }
  set (M := Zpos p * Zpos c). assert (2 ^ 104 ≤ M < 2 ^ 106) as HM by (subst M; nia).
  assert (104 ≤ Z.log2 M) by (apply Z.log2_le_pow2; lia).
  assert (Z.log2 M < 106) by (apply Z.log2_lt_pow2; lia).
  destruct (round_spec false M (- lift_of t - 53)) as (m & e & Hr & Hb & He & Hv); [lia..|].
  exists m, e, (105 - Z.log2 M), (e - (- lift_of t - 53 + (Z.log2 M - 52))).
  replace (53 - (105 - Z.log2 M)) with (Z.log2 M - 52) by lia.
  split; [exact Hr|]. split; [lia|]. split; [lia|]. split; [lia|]. split; [lia|]. split; [lia|].
  split; [lia|]. intros Hk0. replace 105 with (Z.log2 M) by lia. by apply Z.log2_spec; lia.
Qed.

(** Half of [t], rounded, is the half rounded up, ... *)
Lemma half_round t :
  0 < t < 2 ^ 32 →
  float_as_uint u64_max (f64_round (f64_mul (f64_of_Z t) (S754_finite false 4503599627370496 (-53))))
  ≤ (t + 1) / 2.
Proof.
  intros Ht. destruct (mul_fraction t 4503599627370496 Ht ltac:(lia))
    as (m & e & k & d & -> & He & Hm & Hk & Hk1 & Hd & [_ Hv] & H0).
  pose proof (lift_bounds t ltac:(lia)) as [Hl Hb].
  assert (1 ≤ lift_of t) as Hl1.
  { assert (Z.log2 t < 32) by (apply Z.log2_lt_pow2; lia). unfold lift_of. lia. }
  assert (k = 1) as -> by (destruct (decide (k = 0)); [specialize (H0 ltac:(done)); lia|lia]).
  change (53 - 1) with 52 in Hv. change (Zpos 4503599627370496) with (2 ^ 52) in Hv.
  rewrite Z.div_mul in Hv by lia.
  assert (0 < 2 ^ (- e)) as Hp by (apply Z.pow_pos_nonneg; lia).
  assert (2 ^ (- e) * 2 ^ d = 2 * 2 ^ lift_of t) as Ee.
  { rewrite <- Z.pow_add_r by lia. replace (- e + d) with (1 + lift_of t) by lia.
    by rewrite Z.pow_add_r by lia. }
  assert (2 ≤ 2 ^ lift_of t) as H2.
  { replace (lift_of t) with (1 + (lift_of t - 1)) by lia. rewrite Z.pow_add_r by lia.
    assert (0 < 2 ^ (lift_of t - 1)) by (apply Z.pow_pos_nonneg; lia). lia. }
  assert ((2 * Zpos m + 2 ^ (- e)) / (2 * 2 ^ (- e)) ≤ (t + 1) / 2) as Hle.
  { apply Z.lt_succ_r, Z.div_lt_upper_bound; [lia|].
    assert (0 < 2 ^ d) as Hd2 by (apply Z.pow_pos_nonneg; lia).
    pose proof (Z.div_mod (t + 1) 2 ltac:(lia)) as Hq. pose proof (Z.mod_pos_bound (t + 1) 2 ltac:(lia)) as Hr.
    set (q := (t + 1) / 2) in *. apply (Zmult_lt_reg_r _ _ (2 ^ d)); [lia|]. 
    replace (2 * 2 ^ (- e) * Z.succ q * 2 ^ d) with (2 * Z.succ q * (2 ^ (- e) * 2 ^ d)) by ring.
    replace ((2 * Zpos m + 2 ^ (- e)) * 2 ^ d) with (2 * (Zpos m * 2 ^ d) + 2 ^ (- e) * 2 ^ d) by ring.
    rewrite Ee. nia. }
  assert ((t + 1) / 2 < 2 ^ 33) by (apply Z.div_lt_upper_bound; lia).
  rewrite as_uint_round; [lia|lia|lia|]. unfold u64_max. lia.
Qed.

(** ... and no more than any larger fraction of it. *)
Lemma fraction_round t c :
  0 < t < 2 ^ 32 → 2 ^ 52 < Zpos c < 2 ^ 53 →
  (t + 1) / 2
  ≤ float_as_uint u64_max (f64_round (f64_mul (f64_of_Z t) (S754_finite false c (-53)))).
Proof.
  intros Ht Hc. destruct (mul_fraction t c Ht ltac:(lia))
    as (m & e & k & d & -> & He & Hm & Hk & Hk1 & Hd & [Hv _] & _).
  pose proof (lift_bounds t ltac:(lia)) as [Hl Hb]. set (P := t * 2 ^ lift_of t) in *.
  assert (0 < 2 ^ (- e)) as Hp by (apply Z.pow_pos_nonneg; lia).
  assert (0 < 2 ^ d) as Hd2 by (apply Z.pow_pos_nonneg; lia).
  assert (2 ^ (- e) * 2 ^ d = 2 ^ k * 2 ^ lift_of t) as Ee
    by (rewrite <- !Z.pow_add_r by lia; f_equal; lia).
  assert (2 ^ k * P ≤ 2 * (P * Zpos c / 2 ^ (53 - k))) as Hh.
  { assert (k = 0 ∨ k = 1) as [-> | ->] by lia.
    - change (2 ^ 0) with 1. change (53 - 0) with 53.
      pose proof (Z.div_mod (P * Zpos c) (2 ^ 53) ltac:(lia)).
      pose proof (Z.mod_pos_bound (P * Zpos c) (2 ^ 53) ltac:(lia)).
      set (q := P * Zpos c / 2 ^ 53) in *. nia.
    - change (2 ^ 1) with 2. change (53 - 1) with 52.
      apply Z.mul_le_mono_nonneg_l; [lia|]. apply Z.div_le_lower_bound; [lia|]. nia. }
  assert (t * 2 ^ (- e) ≤ 2 * Zpos m) as Hhalf.
  { apply (Zmult_le_reg_r _ _ (2 ^ d)); [lia|]. rewrite <- Z.mul_assoc, Ee.
    replace (t * (2 ^ k * 2 ^ lift_of t)) with (2 ^ k * P) by (unfold P; ring). lia. }
  assert ((2 * Zpos m + 2 ^ (- e)) / (2 * 2 ^ (- e)) < 2 ^ 53).
  { apply Z.div_lt_upper_bound; [lia|]. nia. }
  rewrite as_uint_round; [|lia|lia|unfold u64_max; lia].
  apply Z.div_le_lower_bound; [lia|].
  pose proof (Z.mul_div_le (t + 1) 2 ltac:(lia)). nia.
Qed.

(** ** Quotients that are numbers *)

Lemma shr_fexp_nonneg m e l : 0 ≤ m → 0 ≤ shr_m (fst (shr_fexp 53 1024 m e l)).
Proof.
  intros Hm. unfold shr_fexp. assert (0 ≤ shr_m (shr_record_of_loc m l)) as H by (by destruct l as [|[]]).
  destruct (_ - e) as [|p|p]; [exact H| |exact H]. cbn [shr fst]. rewrite shr_iter_m by done.
  apply Z.div_pos; [done|]. by apply Z.pow_pos_nonneg.
Qed.

Lemma round_not_nan s m e l : 0 ≤ m → is_nan (binary_round_aux 53 1024 s m e l) = false.
Proof.
  intros Hm. unfold binary_round_aux. pose proof (shr_fexp_nonneg m e l Hm) as H1.
  destruct (shr_fexp 53 1024 m e l) as [mrs e1]. cbn [fst] in H1.
  set (r := round_nearest_even _ _). assert (0 ≤ r) as Hr.
  { unfold r. destruct (round_nearest_cases (shr_m mrs) (loc_of_shr_record mrs)) as [-> | ->]; lia. }
  pose proof (shr_fexp_nonneg r e1 loc_Exact Hr) as H2.
  destruct (shr_fexp 53 1024 r e1 loc_Exact) as [mrs2 e2]. cbn [fst] in H2.
  destruct (shr_m mrs2); [done|by destruct (_ <=? _)|lia].
Qed.

Lemma u64_finite z : is_u64 z → is_finite (f64_of_Z z) = true.
Proof.
  unfold is_u64, u64_max. intros Hz. destruct (decide (z = 0)) as [->|]; [done|].
  by destruct (f64_of_Z_size z ltac:(lia)) as (m & e & -> & _).
Qed.

(** A finite dividend, and a divisor neither zero nor a NaN. *)
Lemma div_not_nan x y :
  is_finite x = true → is_nan y = false → float_eq y (S754_zero false) = false →
  is_nan (f64_div x y) = false.
Proof.
  destruct x as [s|s| |s m e], y as [t|t| |t n k]; try done. intros _ _ _. unfold f64_div, SFdiv.
  destruct (SFdiv_core_binary 53 1024 (Zpos m) e (Zpos n) k) as [[q k'] l] eqn:E.
  apply round_not_nan. unfold SFdiv_core_binary in E. cbn zeta in E.
  set (m' := match _ with Z0 => _ | Zpos _ => _ | Zneg _ => _ end) in E.
  assert (0 ≤ m') as Hm by (unfold m'; destruct (_ - _); [lia|apply Z.shiftl_nonneg; lia|lia]).
  clearbody m'. pose proof (Z_div_mod m' (Zpos n) ltac:(lia)) as Hd.
  destruct (Z.div_eucl m' (Zpos n)) as [q' r]. injection E as <- _ _. nia.
Qed.
