(* ===== verification/Canvas.v ===== *)
(** * What the interface draws on

    A frame is the list of the widgets rendered into it, in order.  ratatui's
    layout solver is an interface with the documented properties the views rely
    on.  Panels, overlays, placeholders and badges are those of
    crates/muxtop-tui/src/ui/widgets/{panel,overlay,empty,badge}.rs. *)

From S2P Require Import Prelude Str RsFloat Num Ui Terminal Theme.
Local Open Scope Z_scope.
Local Open Scope record_scope.

(** ** Text *)

Definition spaces (n : nat) : str := replicate n 32.

Record Span := mkSpan { span_text : str; span_style : Style }.

Abbreviation Line := (list Span).

Definition raw (text : str) : Span := mkSpan text Style_default.

(** The characters of a line. *)
Definition line_text (l : Line) : str := concat (span_text <$> l).

(** ** Areas *)

Record Rect := mkRect { x : Z; y : Z; r_width : Z; r_height : Z }.

#[export] Instance Rect_eta : Eta Rect := λ r, mkRect (x r) (y r) (r_width r) (r_height r).

Definition right_of (r : Rect) : Z := x r + r_width r.
Definition bottom_of (r : Rect) : Z := y r + r_height r.

(** Coordinates and sizes are [u16] that do not run past it. *)
Definition rect_ok (r : Rect) : Prop :=
  0 ≤ x r ∧ 0 ≤ y r ∧ 0 ≤ r_width r ∧ 0 ≤ r_height r ∧ right_of r ≤ u16_max ∧ bottom_of r ≤ u16_max.

Definition within (outer inner : Rect) : Prop :=
  x outer ≤ x inner ∧ y outer ≤ y inner ∧ 0 ≤ r_width inner ∧ 0 ≤ r_height inner ∧
  right_of inner ≤ right_of outer ∧ bottom_of inner ≤ bottom_of outer.

#[global] Instance within_dec a b : Decision (within a b).
Proof. unfold within. apply _. Defined.

(** ** Widgets *)

Inductive Alignment : Type := AlignLeft | AlignCenter | AlignRight.

Inductive Widget : Type :=
| Paragraph (alignment : Alignment) (style : Style) (lines : list Line)
| Wrapping (alignment : Alignment) (lines : list Line)
| Block (title : option (str * Style)) (bottom : option (str * Style)) (borders : list str)
    (border : Style) (inner_style : Style)
| Clear.

Abbreviation Frame := (list (Rect * Widget)).

Definition render_widget (w : Widget) (area : Rect) (frame : Frame) : Frame := frame ++ [(area, w)].

(** What a widget writes. *)
Definition widget_texts (w : Widget) : list str :=
  match w with
  | Paragraph _ _ lines | Wrapping _ lines => lines ≫= fmap span_text
  | Block title bottom borders _ _ =>
      (fst <$> option_list title) ++ (fst <$> option_list bottom) ++ borders
  | Clear => []
  end.

(** ** ratatui's layouts *)

Inductive Constraint : Type := Length (n : Z) | Fill (n : Z) | Percentage (n : Z).

(** Parts are in order and inside; a fixed part next to one that fills has its
    size when there is room.  The inside of a bordered block loses one cell on
    every side. *)
Class Layouts := {
  horizontal : list Constraint → Rect → list Rect;
  vertical : list Constraint → Rect → list Rect;
  block_inner : Rect → Rect;
  ROUNDED : list str;
  horizontal_length : ∀ cs r, length (horizontal cs r) = length cs;
  vertical_length : ∀ cs r, length (vertical cs r) = length cs;
  horizontal_within : ∀ cs r, rect_ok r → Forall (within r) (horizontal cs r);
  vertical_within : ∀ cs r, rect_ok r → Forall (within r) (vertical cs r);
  horizontal_fill_length : ∀ n r, rect_ok r → 0 ≤ n ≤ r_width r →
    horizontal [Fill 1; Length n] r
    = [r <| r_width := r_width r - n |>;
       r <| x := right_of r - n |> <| r_width := n |>];
  vertical_length_fill : ∀ n r, rect_ok r → 0 ≤ n ≤ r_height r →
    vertical [Length n; Fill 1] r
    = [r <| r_height := n |>;
       r <| y := y r + n |> <| r_height := r_height r - n |>];
  block_inner_within : ∀ r, rect_ok r → within r (block_inner r);
  ROUNDED_printable : Forall (Forall (λ c, 32 ≤ c ∧ c ≠ 127)) ROUNDED;
}.

(** ** Panels *)

Section Widgets.
Context `{!Layouts}.

Definition block (title : option str) (focused : bool) (theme : Theme) (glyphs : Glyphs) : Widget :=
  Block ((λ t, (lit " " ++ t ++ lit " ", if focused then accent theme else dim theme)) <$> title) None
    (border_set ROUNDED glyphs) (border_style theme focused) Style_default.

Definition centered (width height : Z) (area : Rect) : Rect :=
  let w := Z.min width (r_width area) in
  let h := Z.min height (r_height area) in
  mkRect (x area + (r_width area - w) / 2) (y area + (r_height area - h) / 2) w h.

Definition u16_saturating_mul (a b : Z) : Z := Z.min (a * b) u16_max.

Definition centered_percent (percent_x percent_y : Z) (area : Rect) : Rect :=
  let w := u16_saturating_mul (r_width area) (Z.min percent_x 100) / 100 in
  let h := u16_saturating_mul (r_height area) (Z.min percent_y 100) / 100 in
  centered (Z.max w 1) (Z.max h 1) area.

(** The area left for the contents, empty when there is no room. *)
Definition popup (area : Rect) (title : str) (theme : Theme) (glyphs : Glyphs) (frame : Frame)
    : Rect * Frame :=
  if (r_width area <? 3) || (r_height area <? 3) then (mkRect (x area) (y area) 0 0, frame)
  else
    let frame := render_widget Clear area frame in
    (block_inner area, render_widget (block (Some title) true theme glyphs) area frame).

Definition hint_title (hint : str) : str := lit " " ++ hint ++ lit " ".

(** ** Placeholders *)

Record EmptyState := mkEmpty {
  es_title : str;
  es_reason : option str;
  es_remedy : option str;
  es_level : Level;
}.

Definition no_match (noun : str) : EmptyState :=
  mkEmpty noun (Some (lit "No rows match the active filter."))
    (Some (lit "Press Esc to clear it, or / to edit it.")) Level.Neutral.

Definition empty_state (title : str) (reason : option str) : EmptyState :=
  mkEmpty title reason None Level.Neutral.

Definition error_state (title reason remedy : str) : EmptyState :=
  mkEmpty title (Some reason) (Some remedy) Level.Error.

Definition waiting (what : str) : EmptyState := mkEmpty what None None Level.Info.

Definition render_empty (area : Rect) (state : EmptyState) (theme : Theme) (frame : Frame) : Frame :=
  if (r_height area =? 0) || (r_width area =? 0) then frame
  else
    let lines :=
      [[mkSpan (es_title state) (add_modifier BOLD (level_style theme (es_level state)))]]
      ++ match es_reason state with
         | Some reason => [[raw []]; [mkSpan reason (dim theme)]] | None => [] end
      ++ match es_remedy state with Some remedy => [[mkSpan remedy (subtle theme)]] | None => [] end in
    let content_h := Z.of_nat (length lines) in
    let top_pad := saturating_sub (r_height area) content_h / 2 in
    let pad := Z.min top_pad (saturating_sub (r_height area) 1) in
    let inner := area <| y := y area + pad |> <| r_height := r_height area - pad |> in
    render_widget (Paragraph AlignCenter Style_default lines) inner frame.
End Widgets.

(** ** Badges *)

Definition marker (level : Level) (glyphs : Glyphs) : str :=
  match level with
  | Level.Success => st_running glyphs
  | Level.Neutral => st_idle glyphs
  | Level.Info => st_paused glyphs
  | Level.Warning => st_warn glyphs
  | Level.Error => st_dead glyphs
  end.

Definition filled (text : str) (level : Level) (theme : Theme) : Span :=
  mkSpan (lit " " ++ text ++ lit " ") (level_fill theme level).

Definition marked (text : str) (level : Level) (theme : Theme) (glyphs : Glyphs) : Span :=
  mkSpan (marker level glyphs ++ lit " " ++ text) (level_style theme level).

Definition chip (label value : str) (theme : Theme) : list Span :=
  [mkSpan (label ++ lit ": ") (subtle theme); mkSpan value (with_fg (fg theme) (dim theme))].

(** ** Properties *)

Lemma within_refl r : rect_ok r → within r r.
Proof. unfold rect_ok, within, right_of, bottom_of. lia. Qed.

Lemma within_trans a b c : within a b → within b c → within a c.
Proof. unfold within, right_of, bottom_of. lia. Qed.

Lemma within_ok a b : rect_ok a → within a b → rect_ok b.
Proof. unfold rect_ok, within, right_of, bottom_of. lia. Qed.

Lemma within_centered w h area : 0 ≤ w → 0 ≤ h → rect_ok area → within area (centered w h area).
Proof.
  unfold rect_ok, within, centered, right_of, bottom_of. intros Hw Hh (?&?&?&?&?&?). simpl.
  pose proof (Z.div_pos (r_width area - Z.min w (r_width area)) 2).
  pose proof (Z.div_pos (r_height area - Z.min h (r_height area)) 2).
  pose proof (Z.mul_div_le (r_width area - Z.min w (r_width area)) 2).
  pose proof (Z.mul_div_le (r_height area - Z.min h (r_height area)) 2). lia.
Qed.

(** Everything drawn after [frame] lies in [area]. *)
Definition draws_in (area : Rect) (frame frame' : Frame) : Prop :=
  ∃ ops, frame' = frame ++ ops ∧ Forall (λ op, within area (fst op)) ops.

Lemma draws_in_refl area frame : draws_in area frame frame.
Proof. exists []. rewrite app_nil_r. by split. Qed.

Lemma draws_in_trans area f1 f2 f3 : draws_in area f1 f2 → draws_in area f2 f3 → draws_in area f1 f3.
Proof.
  intros (o1 & -> & H1) (o2 & -> & H2). exists (o1 ++ o2). rewrite app_assoc. split; [done|].
  by apply Forall_app.
Qed.

Lemma draws_in_widget area a w frame : within area a → draws_in area frame (render_widget w a frame).
Proof. intros Ha. exists [(a, w)]. split; [done|]. by constructor. Qed.

Lemma draws_in_mono area area' f f' : within area area' → draws_in area' f f' → draws_in area f f'.
Proof.
  intros Hw (ops & -> & Ho). exists ops. split; [done|]. eapply Forall_impl; [exact Ho|].
  intros op. by apply within_trans.
Qed.

#[export] Hint Resolve draws_in_refl draws_in_widget within_refl : muxtop.

Section WidgetProps.
Context `{!Layouts}.

Lemma render_empty_in area state theme frame :
  rect_ok area → draws_in area frame (render_empty area state theme frame).
Proof.
  intros Hok. unfold render_empty. destruct (_ || _) eqn:E; [apply draws_in_refl|].
  apply draws_in_widget. apply orb_false_iff in E as [E1%Z.eqb_neq E2%Z.eqb_neq].
  set (n := Z.of_nat _). pose proof (Z.div_pos (saturating_sub (r_height area) n) 2).
  unfold rect_ok, within, right_of, bottom_of, saturating_sub in *. simpl. lia.
Qed.

Lemma popup_in area title theme glyphs frame :
  rect_ok area →
  let '(inner, frame') := popup area title theme glyphs frame in
  within area inner ∧ draws_in area frame frame'.
Proof.
  intros Hok. unfold popup. destruct (_ || _).
  - split; [unfold rect_ok, within, right_of, bottom_of in *; simpl; lia|apply draws_in_refl].
  - split; [by apply block_inner_within|].
    eapply draws_in_trans; apply draws_in_widget; by apply within_refl.
Qed.
End WidgetProps.

(** ** A solver with these properties *)

Definition reserved (cs : list Constraint) : Z :=
  foldr (λ c, Z.add match c with Length n => Z.max 0 n | _ => 0 end) 0 cs.

Definition clamp_size (s left : Z) : Z := Z.max 0 (Z.min s left).

(** Each part in turn; one that fills leaves room for the fixed ones after it. *)
Fixpoint sizes (cs : list Constraint) (left : Z) : list Z :=
  match cs with
  | [] => []
  | c :: cs =>
      let s := clamp_size match c with
                          | Length n => n
                          | Percentage p => left * p / 100
                          | Fill _ => left - reserved cs
                          end left in
      s :: sizes cs (left - s)
  end.

Fixpoint columns_of (ss : list Z) (r : Rect) : list Rect :=
  match ss with
  | [] => []
  | s :: ss => r <| r_width := s |>
               :: columns_of ss (r <| x := x r + s |> <| r_width := r_width r - s |>)
  end.

Fixpoint rows_of (ss : list Z) (r : Rect) : list Rect :=
  match ss with
  | [] => []
  | s :: ss => r <| r_height := s |>
               :: rows_of ss (r <| y := y r + s |> <| r_height := r_height r - s |>)
  end.

Definition shrink (r : Rect) : Rect :=
  let dx := Z.min 1 (r_width r) in
  let dy := Z.min 1 (r_height r) in
  mkRect (x r + dx) (y r + dy) (saturating_sub (r_width r) 2) (saturating_sub (r_height r) 2).

Lemma columns_of_within cs r : rect_ok r → Forall (within r) (columns_of (sizes cs (r_width r)) r).
Proof.
  revert r. induction cs as [|c cs IH]; intros r Hr; simpl; [constructor|].
  set (s := clamp_size _ _). assert (0 ≤ s ≤ r_width r) by (subst s; unfold clamp_size, rect_ok in *; lia).
  set (r' := r <| x := x r + s |> <| r_width := r_width r - s |>).
  assert (rect_ok r' ∧ within r r') as [Hr' Hw].
  { subst r'. unfold rect_ok, within, right_of, bottom_of in *. simpl. lia. }
  constructor.
  - unfold rect_ok, within, right_of, bottom_of in *. simpl. lia.
  - specialize (IH r' Hr'). eapply Forall_impl; [exact IH|]. intros q. by apply within_trans.
Qed.

Lemma rows_of_within cs r : rect_ok r → Forall (within r) (rows_of (sizes cs (r_height r)) r).
Proof.
  revert r. induction cs as [|c cs IH]; intros r Hr; simpl; [constructor|].
  set (s := clamp_size _ _). assert (0 ≤ s ≤ r_height r) by (subst s; unfold clamp_size, rect_ok in *; lia).
  set (r' := r <| y := y r + s |> <| r_height := r_height r - s |>).
  assert (rect_ok r' ∧ within r r') as [Hr' Hw].
  { subst r'. unfold rect_ok, within, right_of, bottom_of in *. simpl. lia. }
  constructor.
  - unfold rect_ok, within, right_of, bottom_of in *. simpl. lia.
  - specialize (IH r' Hr'). eapply Forall_impl; [exact IH|]. intros q. by apply within_trans.
Qed.

Lemma rect_eq a b :
  x a = x b → y a = y b → r_width a = r_width b → r_height a = r_height b → a = b.
Proof. destruct a, b. simpl. by intros -> -> -> ->. Qed.

Lemma columns_of_length cs r k : length (columns_of (sizes cs k) r) = length cs.
Proof. revert r k. induction cs; intros; simpl; [done|]. f_equal. auto. Qed.

Lemma rows_of_length cs r k : length (rows_of (sizes cs k) r) = length cs.
Proof. revert r k. induction cs; intros; simpl; [done|]. f_equal. auto. Qed.

Program Definition greedy_layouts : Layouts := {|
  horizontal cs r := columns_of (sizes cs (r_width r)) r;
  vertical cs r := rows_of (sizes cs (r_height r)) r;
  block_inner := shrink;
  ROUNDED := lit <$> ["╭"; "╮"; "╰"; "╯"; "│"; "│"; "─"; "─"]%string;
|}.
Next Obligation. intros. apply columns_of_length. Qed.
Next Obligation. intros. apply rows_of_length. Qed.
Next Obligation. intros. by apply columns_of_within. Qed.
Next Obligation. intros. by apply rows_of_within. Qed.
Next Obligation.
  intros n [rx ry rw rh] Hr Hn. unfold rect_ok, right_of, bottom_of, clamp_size in *. simpl in *.
  f_equal; [|f_equal]; apply rect_eq; simpl; unfold clamp_size; lia.
Qed.
Next Obligation.
  intros n [rx ry rw rh] Hr Hn. unfold rect_ok, right_of, bottom_of, clamp_size in *. simpl in *.
  f_equal; [|f_equal]; apply rect_eq; simpl; unfold clamp_size; lia.
Qed.
Next Obligation.
  intros r Hr. unfold shrink, rect_ok, within, right_of, bottom_of, saturating_sub in *. simpl. lia.
Qed.
Next Obligation. repeat constructor; discriminate. Qed.
