(* ===== verification/Columns.v ===== *)
(** * Columns of a table: crates/muxtop-tui/src/ui/widgets/columns.rs *)

From S2P Require Import Prelude Str RsFloat Process Ui Terminal Theme Canvas.
From Stdlib Require Import Sorting.Sorted.
Local Open Scope Z_scope.
Local Open Scope record_scope.

Inductive Align : Type := Left | Right.

Inductive Width : Type := Fixed (w : Z) | Flex (min : Z).

Definition PRIO_ESSENTIAL : Z := 0.
Definition PRIO_HIGH : Z := 1.
Definition PRIO_MEDIUM : Z := 2.
Definition PRIO_LOW : Z := 3.

Record Column := mkColumn { label : str; width : Width; align : Align; priority : Z }.

Definition fixed (label : str) (width : Z) (align : Align) (priority : Z) : Column :=
  mkColumn label (Fixed width) align priority.

Definition flex (label : str) (min : Z) (priority : Z) : Column :=
  mkColumn label (Flex min) Left priority.

Definition min_width (c : Column) : Z := match width c with Fixed w => w | Flex min => min end.

Definition is_flex (c : Column) : bool := match width c with Flex _ => true | Fixed _ => false end.

(** ** Layout *)

(** Original index and width of the columns that survive. *)
Record ColumnLayout := mkLayout { visible : list (nat * Z) }.

Section Resolve.
Variable columns : list Column.

Definition essential (i : nat) : bool :=
  match columns !! i with Some c => priority c =? PRIO_ESSENTIAL | None => true end.

(** The key [(Reverse(priority), Reverse(i))]. *)
Definition drop_cmp (a b : nat * Column) : comparison :=
  match priority (snd b) ?= priority (snd a) with Eq => (fst b ?= fst a)%nat | c => c end.

Definition droppable : list nat :=
  fst <$> sort_by drop_cmp (List.filter (λ p, negb (priority (snd p) =? PRIO_ESSENTIAL))
                              (imap pair columns)).

Definition kept (dropped : list nat) : list (nat * Column) :=
  List.filter (λ p, negb (bool_decide (fst p ∈ dropped))) (imap pair columns).

Definition sum_min (l : list (nat * Column)) : Z := foldr (λ p, Z.add (min_width (snd p))) 0 l.

Fixpoint drop_until (width : Z) (dropped drop_iter : list nat) : list nat :=
  if sum_min (kept dropped) <=? width then dropped
  else match drop_iter with
       | [] => dropped
       | i :: drop_iter => drop_until width (i :: dropped) drop_iter
       end.

Definition resolve (width : Z) : ColumnLayout :=
  let kept := kept (drop_until width [] droppable) in
  let flex_idx := fst <$> find (λ p, is_flex (snd p)) kept in
  let slack := saturating_sub width (sum_min kept) in
  mkLayout ((λ '(i, c),
    let w := match Columns.width c with
             | Fixed w => w
             | Flex min => if bool_decide (Some i = flex_idx) then min + slack else min
             end in (i, Z.min w u16_max)) <$> kept).
End Resolve.

(** The columns left after skipping some, each with its original index. *)
Fixpoint skip_columns (remaining : nat) (l : list (nat * Column)) : list (nat * Column) :=
  match l with
  | [] => []
  | (i, c) :: l =>
      if (priority c =? PRIO_ESSENTIAL) || (remaining =? 0)%nat then (i, c) :: skip_columns remaining l
      else skip_columns (remaining - 1) l
  end.

(** Indexing past the end panics; the indices are those of the kept columns. *)
Definition resolve_scrolled (columns : list Column) (width : Z) (skip : nat) : ColumnLayout :=
  if (skip =? 0)%nat then resolve columns width
  else
    let left := skip_columns skip (imap pair columns) in
    mkLayout (omap (λ '(i, w), original ← (fst <$> left) !! i; Some (original, w))
                (visible (resolve (snd <$> left) width))).

Definition shows_column (self : ColumnLayout) (idx : nat) : bool :=
  existsb (λ v, (fst v =? idx)%nat) (visible self).

Definition total_width (self : ColumnLayout) : Z := foldr (λ v, Z.add (snd v)) 0 (visible self) mod 65536.

Definition layout_len (self : ColumnLayout) : nat := length (visible self).

(** ** Cells *)

Definition cell (text : str) (width : Z) (align : Align) (glyphs : Glyphs) : str :=
  let width := Z.to_nat width in
  if (width =? 0)%nat then []
  else match align with
       | Left => let t := truncate text width glyphs in t ++ spaces (width - length t)
       | Right =>
           let inner := Nat.max (width - 1) 1 in
           let t := truncate text inner glyphs in
           spaces (inner - length t) ++ t ++ (if (inner <? width)%nat then [32] else [])
       end.

Definition header_line (columns : list Column) (layout : ColumnLayout) (sort_col : option nat)
    (descending : bool) (theme : Theme) (glyphs : Glyphs) : Line :=
  let arrow := if descending then sort_desc glyphs else sort_asc glyphs in
  let base := table_header theme in
  omap (λ '(idx, width),
    col ← columns !! idx;
    let active := bool_decide (sort_col = Some idx) in
    let label := if active then label col ++ arrow else label col in
    let style := if active then add_modifier (Z.lor BOLD UNDERLINED) (with_fg (accent_primary theme) base)
                 else base in
    Some (mkSpan (cell label width (align col) glyphs) style)) (visible layout).

(** ** Properties *)

(** *** Cells *)

Lemma cell_length text w a g :
  length (ellipsis g) = 1%nat → length (cell text w a g) = Z.to_nat w.
Proof.
  intros He. unfold cell, spaces. destruct (Nat.eqb_spec (Z.to_nat w) 0) as [->|Hw]; [done|].
  destruct a.
  - rewrite length_app, length_replicate. rewrite truncate_length by done. lia.
  - rewrite !length_app, length_replicate. rewrite truncate_length by done.
    destruct (Nat.ltb_spec (Nat.max (Z.to_nat w - 1) 1) (Z.to_nat w)); simpl; lia.
Qed.

(** *** Which columns stay *)

Section ResolveProps.
Variable columns : list Column.

Lemma elem_kept dropped i c :
  (i, c) ∈ kept columns dropped ↔ columns !! i = Some c ∧ i ∉ dropped.
Proof.
  unfold kept. rewrite list_elem_of_In, filter_In, <- list_elem_of_In, negb_true_iff, bool_decide_eq_false.
  assert ((i, c) ∈ imap pair columns ↔ columns !! i = Some c) as ->; [|done].
  rewrite elem_of_lookup_imap. split; [by intros (? & ? & [= <- <-] & ?)|]. by exists i, c.
Qed.

Lemma filter_sorted (f : nat * Column → bool) l :
  StronglySorted lt (fst <$> l) → StronglySorted lt (fst <$> List.filter f l).
Proof.
  induction l as [|x l IH]; csimpl; intros H; [constructor|]. inversion_clear H as [|?? Hl Hx].
  destruct (f x); csimpl; [|by apply IH]. constructor; [by apply IH|].
  rewrite Forall_forall in *. intros i (y & -> & Hy)%list_elem_of_fmap. apply Hx.
  apply list_elem_of_In, filter_In in Hy as [Hy _]. apply list_elem_of_fmap_2. by apply list_elem_of_In.
Qed.

Lemma indexed_sorted (l : list Column) o :
  StronglySorted lt (fst <$> imap (λ i c, (o + i, c)%nat) l).
Proof.
  revert o. induction l as [|c l IH]; intros o; csimpl; [constructor|]. constructor.
  - specialize (IH (S o)). erewrite imap_ext; [exact IH|]. intros i x _. simpl. f_equal. lia.
  - apply Forall_fmap, Forall_forall. intros [i x] (j & y & [= -> ->] & _)%elem_of_lookup_imap. simpl. lia.
Qed.

Lemma kept_sorted dropped : StronglySorted lt (fst <$> kept columns dropped).
Proof. apply filter_sorted. apply (indexed_sorted columns 0). Qed.

(** The loop drops a prefix of the order, and stops as soon as the rest fits. *)
Lemma drop_until_spec w dropped it :
  ∃ a b, it = a ++ b ∧ drop_until columns w dropped it = rev a ++ dropped ∧
    (sum_min (kept columns (rev a ++ dropped)) ≤ w ∨ b = []) ∧
    (∀ a' i, a = a' ++ [i] → w < sum_min (kept columns (rev a' ++ dropped))).
Proof.
  revert dropped. induction it as [|i it IH]; intros dropped; simpl;
    destruct (Z.leb_spec (sum_min (kept columns dropped)) w) as [Hle|Hgt].
  1, 2: exists [], []; split; [done|]; split; [done|]; split; [by auto|]; by intros [] ?.
  { exists [], (i :: it). split; [done|]. split; [done|]. split; [by left|]. by intros [] ?. }
  destruct (IH (i :: dropped)) as (a & b & -> & Hd & Hf & Hl). exists (i :: a), b.
  simpl. rewrite <- app_assoc. split; [done|]. split; [done|]. split; [done|].
  intros a' j E. destruct a' as [|i' a']; simpl in E.
  - by injection E as -> ->.
  - injection E as <- ->. simpl. rewrite <- app_assoc. by eapply Hl.
Qed.

(** Dropped no later: less useful, or as useful and further right. *)
Definition goes_first (a b : nat * Column) : Prop :=
  priority (snd b) < priority (snd a) ∨ (priority (snd b) = priority (snd a) ∧ (fst b ≤ fst a)%nat).

Lemma drop_cmp_spec a b : drop_cmp a b ≠ Gt ↔ goes_first a b.
Proof.
  unfold drop_cmp, goes_first.
  destruct (Z.compare_spec (priority (snd b)) (priority (snd a))); [|naive_solver lia..].
  destruct (Nat.compare_spec (fst b) (fst a)); naive_solver lia.
Qed.

Lemma drop_cmp_total : total_preorder (λ _, True) drop_cmp.
Proof.
  split.
  - intros a b _ _. unfold drop_cmp.
    rewrite (Z.compare_antisym (priority (snd b))), (Nat.compare_antisym (fst b)).
    by destruct (priority (snd b) ?= priority (snd a)).
  - intros a b c _ _ _. rewrite !drop_cmp_spec. unfold goes_first. lia.
Qed.

(** What can be dropped, in the order it is. *)
Definition drops : list (nat * Column) :=
  sort_by drop_cmp (List.filter (λ p, negb (priority (snd p) =? PRIO_ESSENTIAL)) (imap pair columns)).

Lemma elem_drops i c : (i, c) ∈ drops ↔ columns !! i = Some c ∧ priority c ≠ PRIO_ESSENTIAL.
Proof.
  unfold drops. rewrite sort_by_perm, list_elem_of_In, filter_In, <- list_elem_of_In, negb_true_iff, Z.eqb_neq.
  assert ((i, c) ∈ imap pair columns ↔ columns !! i = Some c) as ->; [|done].
  rewrite elem_of_lookup_imap. split; [by intros (? & ? & [= <- <-] & ?)|]. by exists i, c.
Qed.

Lemma drops_sorted : StronglySorted goes_first drops.
Proof.
  pose proof (sort_by_in_order (λ _, True) drop_cmp
    (List.filter (λ p, negb (priority (snd p) =? PRIO_ESSENTIAL)) (imap pair columns)) drop_cmp_total) as H.
  specialize (H ltac:(by apply Forall_true)). fold drops in H.
  induction H as [|x l H IH Hx]; constructor; [done|].
  eapply Forall_impl; [exact Hx|]. intros y. apply drop_cmp_spec.
Qed.

Lemma drops_NoDup : NoDup (fst <$> drops).
Proof.
  unfold drops. rewrite sort_by_perm.
  assert (StronglySorted lt (fst <$> List.filter (λ p, negb (priority (snd p) =? PRIO_ESSENTIAL))
                                       (imap pair columns))) as H
    by apply filter_sorted, (indexed_sorted columns 0).
  induction H as [|x l _ IH Hx]; constructor; [|done]. intros Hin.
  rewrite Forall_forall in Hx. specialize (Hx x Hin). lia.
Qed.

(** What the loop dropped, [a], and what it could have: a prefix of that order, the
    shortest that makes room. *)
Record dropping (w : Z) (a b : list (nat * Column)) : Prop := {
  dropped_first : drops = a ++ b;
  dropped_all : drop_until columns w [] (droppable columns) = rev (fst <$> a);
  dropped_enough : sum_min (kept columns (rev (fst <$> a))) ≤ w ∨ b = [];
  dropped_fewest : ∀ a' i, a = a' ++ [i] → w < sum_min (kept columns (rev (fst <$> a')));
}.

Lemma dropped_spec w : ∃ a b, dropping w a b.
Proof.
  destruct (drop_until_spec w [] (droppable columns)) as (a & b & Hd & Hu & Hf & Hl).
  unfold droppable in Hd. fold drops in Hd.
  apply fmap_app_inv in Hd as (a1 & b1 & -> & -> & Hd). rewrite app_nil_r in *.
  exists a1, b1. split; [done|done| |].
  - destruct Hf as [|Hb]; [by left|right]. by destruct b1.
  - intros a' i ->. rewrite fmap_app in Hl. specialize (Hl (fst <$> a') (fst i) eq_refl).
    by rewrite app_nil_r in Hl.
Qed.
End ResolveProps.

(** *** The layout *)

Definition well_formed (columns : list Column) : Prop :=
  Forall (λ c, 0 ≤ min_width c ≤ u16_max ∧ 0 ≤ priority c) columns.

(** The minimal widths of what is shown. *)
Definition needed (columns : list Column) (vis : list (nat * Z)) : Z :=
  foldr (λ v, Z.add (default 0 (min_width <$> columns !! fst v))) 0 vis.

Definition claimed (vis : list (nat * Z)) : Z := foldr (λ v, Z.add (snd v)) 0 vis.

(** The width one column of the survivors gets. *)
Definition granted (flex_idx : option nat) (slack : Z) (p : nat * Column) : nat * Z :=
  let w := match width (snd p) with
           | Fixed w => w
           | Flex min => if bool_decide (Some (fst p) = flex_idx) then min + slack else min
           end in (fst p, Z.min w u16_max).

Lemma resolve_granted columns w :
  let k := kept columns (drop_until columns w [] (droppable columns)) in
  visible (resolve columns w)
  = granted (fst <$> find (λ p, is_flex (snd p)) k) (saturating_sub w (sum_min k)) <$> k.
Proof. intros k. unfold resolve. simpl. apply list_fmap_ext. by intros i [j c] _. Qed.

Lemma needed_granted columns f s (l : list (nat * Column)) :
  Forall (λ p, columns !! fst p = Some (snd p)) l → needed columns (granted f s <$> l) = sum_min l.
Proof. induction 1 as [|p l Hp _ IH]; csimpl; [done|]. by rewrite Hp, IH. Qed.

(** Without a flex column the widths are the minima. *)
Lemma claimed_fixed f s (l : list (nat * Column)) :
  Forall (λ p, min_width (snd p) ≤ u16_max) l → Forall (λ p, Some (fst p) ≠ f) l →
  claimed (granted f s <$> l) = sum_min l.
Proof.
  intros Hl. induction Hl as [|p l Hp _ IH]; intros Hf; csimpl; [done|].
  apply Forall_cons in Hf as [Hf1 Hf]. rewrite IH by done. f_equal.
  unfold granted, min_width in *. destruct (width (snd p)); simpl; [lia|].
  rewrite bool_decide_eq_false_2 by done. lia.
Qed.

(** Nor does it matter without slack. *)
Lemma claimed_slackless f (l : list (nat * Column)) :
  Forall (λ p, min_width (snd p) ≤ u16_max) l → claimed (granted f 0 <$> l) = sum_min l.
Proof.
  induction 1 as [|p l Hp _ IH]; csimpl; [done|]. rewrite IH. f_equal. clear IH.
  unfold min_width in *. destruct (width (snd p)); [lia|]. case_bool_decide; lia.
Qed.

(** The flex column takes the slack. *)
Lemma claimed_flex f s (l : list (nat * Column)) :
  0 ≤ s → Forall (λ p, 0 ≤ min_width (snd p) ≤ u16_max) l → sum_min l + s ≤ u16_max →
  NoDup (fst <$> l) → fst <$> find (λ p, is_flex (snd p)) l = Some f →
  claimed (granted (Some f) s <$> l) = sum_min l + s.
Proof.
  intros Hs Hl. induction Hl as [|p l Hp Hl IH]; intros Hb Hn Hf; csimpl; [done|].
  csimpl in *. apply NoDup_cons in Hn as [Hp' Hn].
  assert (0 ≤ sum_min l) as H0 by (clear -Hl; induction Hl; csimpl; lia).
  destruct (is_flex (snd p)) eqn:Ef; simpl in Hf.
  - injection Hf as <-. rewrite claimed_fixed.
    + unfold granted, is_flex, min_width in *. destruct (width (snd p)); [done|]. simpl.
      rewrite bool_decide_eq_true_2 by done. lia.
    + eapply Forall_impl; [exact Hl|]. intros q Hq. apply Hq.
    + apply Forall_forall. intros q Hq [= E]. apply Hp'. rewrite <- E. by apply list_elem_of_fmap_2.
  - rewrite IH by (done || lia). unfold is_flex, min_width in *.
    destruct (width (snd p)); [simpl; lia|done].
Qed.

Lemma sum_min_drop i c dropped (l : list (nat * Column)) :
  NoDup (fst <$> l) → (i, c) ∈ l → i ∉ dropped →
  let keep d := List.filter (λ p, negb (bool_decide (fst p ∈ d))) l in
  sum_min (keep dropped) = min_width c + sum_min (keep (i :: dropped)).
Proof.
  intros Hn Hin Hi. simpl.
  assert (∀ l, i ∉ fst <$> l →
    List.filter (λ p : nat * Column, negb (bool_decide (fst p ∈ i :: dropped))) l
    = List.filter (λ p, negb (bool_decide (fst p ∈ dropped))) l) as Hsame.
  { intros l0 H0. apply filter_ext_in. intros p Hp%list_elem_of_In. f_equal.
    apply bool_decide_ext. rewrite elem_of_cons. split; [|by right].
    intros [E|?]; [|done]. exfalso. apply H0. rewrite <- E. by apply list_elem_of_fmap_2. }
  induction l as [|p l IH]; [by apply elem_of_nil in Hin|].
  csimpl in Hn. apply NoDup_cons in Hn as [Hp Hn]. apply elem_of_cons in Hin as [<-|Hin].
  - cbn [List.filter fst]. rewrite bool_decide_eq_false_2 by done.
    rewrite bool_decide_eq_true_2 by apply list_elem_of_here. simpl. by rewrite Hsame.
  - specialize (IH Hn Hin). assert (fst p ≠ i) as Hne.
    { intros <-. apply Hp. by apply (list_elem_of_fmap_2 fst l (fst p, c)). }
    cbn [List.filter]. rewrite (bool_decide_ext (fst p ∈ i :: dropped) (fst p ∈ dropped))
      by (rewrite elem_of_cons; naive_solver).
    case_bool_decide; simpl; [done|]. rewrite IH. lia.
Qed.

Lemma StronglySorted_lt_NoDup (l : list nat) : StronglySorted lt l → NoDup l.
Proof.
  induction 1 as [|x l _ IH Hx]; constructor; [|done]. intros Hin.
  rewrite Forall_forall in Hx. specialize (Hx x Hin). lia.
Qed.

Lemma kept_shown columns w i :
  i ∈ fst <$> visible (resolve columns w) ↔
  i ∈ fst <$> kept columns (drop_until columns w [] (droppable columns)).
Proof. by rewrite resolve_granted, <- list_fmap_compose. Qed.

Lemma elem_kept_fst columns dropped i :
  i ∈ fst <$> kept columns dropped ↔ (i < length columns)%nat ∧ i ∉ dropped.
Proof.
  rewrite list_elem_of_fmap. split.
  - intros ([j c] & -> & [Hc Hd]%elem_kept). split; [by eapply lookup_lt_Some|done].
  - intros [[c Hc]%lookup_lt_is_Some Hd]. exists (i, c). by rewrite elem_kept.
Qed.

Section Shown.
Context (columns : list Column) (w : Z) (a b : list (nat * Column)) (Hs : dropping columns w a b).
Context (Hwf : well_formed columns).

Let vis := visible (resolve columns w).
Let k := kept columns (rev (fst <$> a)).

Lemma vis_granted :
  vis = granted (fst <$> find (λ p, is_flex (snd p)) k) (saturating_sub w (sum_min k)) <$> k.
Proof. unfold vis. by rewrite resolve_granted, (dropped_all _ _ _ _ Hs). Qed.

Lemma shown_iff i : i ∈ fst <$> vis ↔ (i < length columns)%nat ∧ i ∉ fst <$> a.
Proof.
  unfold vis. rewrite kept_shown, (dropped_all _ _ _ _ Hs), elem_kept_fst.
  by rewrite (list_elem_of_In (rev _)), (list_elem_of_In (fst <$> a)), <- in_rev.
Qed.

Lemma dropped_column i c : columns !! i = Some c → (i, c) ∈ a ↔ i ∈ fst <$> a.
Proof.
  intros Hc. split; [by apply (list_elem_of_fmap_2 fst a (i, c))|].
  intros ([j d] & -> & Hj)%list_elem_of_fmap.
  assert ((j, d) ∈ drops columns) as [Hd _]%elem_drops
    by (rewrite (dropped_first _ _ _ _ Hs), elem_of_app; by left).
  simpl in *. congruence.
Qed.

Lemma kept_columns : Forall (λ p, columns !! fst p = Some (snd p)) k.
Proof. apply Forall_forall. by intros [i c] [Hc _]%elem_kept. Qed.

Lemma kept_widths : Forall (λ p, 0 ≤ min_width (snd p) ≤ u16_max) k.
Proof.
  eapply Forall_impl; [exact kept_columns|]. intros p Hp. by apply (Forall_lookup_1 _ _ _ _ Hwf Hp).
Qed.

Lemma needed_vis : needed columns vis = sum_min k.
Proof. rewrite vis_granted. apply needed_granted, kept_columns. Qed.

Lemma dropped_goes_first i j c d :
  columns !! i = Some c → columns !! j = Some d → i ∈ fst <$> a → j ∉ fst <$> a →
  priority d ≠ PRIO_ESSENTIAL → goes_first (i, c) (j, d).
Proof.
  intros Hc Hd Hi%(dropped_column _ _ Hc) Hj Hp.
  assert ((j, d) ∈ drops columns) as Hjb by by apply elem_drops.
  pose proof (drops_sorted columns) as Hord. pose proof (dropped_first _ _ _ _ Hs) as Hab.
  rewrite Hab, elem_of_app in Hjb. destruct Hjb as [Hja|Hjb]; [by apply (dropped_column _ _ Hd) in Hja|].
  rewrite Hab in Hord. clear -Hord Hi Hjb.
  induction a as [|x a' IH]; [by apply elem_of_nil in Hi|].
  simpl in Hord. inversion_clear Hord as [|?? Ho Hx]. apply elem_of_cons in Hi as [<-|Hi]; [|by apply IH].
  rewrite Forall_forall in Hx. apply Hx, elem_of_app. by right.
Qed.

Lemma last_dropped_needed a' i c :
  a = a' ++ [(i, c)] → columns !! i = Some c ∧ w < min_width c + sum_min k.
Proof.
  intros E. pose proof (dropped_first _ _ _ _ Hs) as Hab. rewrite E in Hab.
  assert ((i, c) ∈ drops columns) as [Hc _]%elem_drops.
  { rewrite Hab, !elem_of_app. left. right. apply list_elem_of_here. }
  split; [done|]. pose proof (dropped_fewest _ _ _ _ Hs a' (i, c) E) as Hl.
  unfold k. rewrite E, fmap_app, rev_app_distr. simpl.
  pose proof (sum_min_drop i c (rev (fst <$> a')) (imap pair columns)) as Hd. simpl in Hd.
  unfold kept in Hl |- *. rewrite Hd in Hl; [done|..].
  - apply StronglySorted_lt_NoDup, (indexed_sorted columns 0).
  - apply elem_of_lookup_imap. by exists i, c.
  - pose proof (drops_NoDup columns) as Hn. rewrite Hab, !fmap_app in Hn.
    apply NoDup_app in Hn as [Hn _]. apply NoDup_app in Hn as (_ & Hn & _).
    intros Hin%list_elem_of_In%in_rev%list_elem_of_In. apply (Hn i Hin), list_elem_of_here.
Qed.

Lemma claimed_when_it_fits :
  w ≤ u16_max → sum_min k ≤ w →
  claimed vis = w ∨ claimed vis = sum_min k ∧ Forall (λ p, is_flex (snd p) = false) k.
Proof.
  intros Hw Hle. rewrite vis_granted.
  destruct (find (λ p, is_flex (snd p)) k) as [p|] eqn:Efind.
  - left. simpl. rewrite claimed_flex; unfold saturating_sub; try done; try lia.
    + apply kept_widths.
    + apply StronglySorted_lt_NoDup, kept_sorted.
    + by rewrite Efind.
  - right. split.
    + apply claimed_fixed; [|by apply Forall_true].
      eapply Forall_impl; [exact kept_widths|]. intros p Hp. apply Hp.
    + apply Forall_forall. intros p Hp. by apply (find_none _ _ Efind p), list_elem_of_In.
Qed.

Lemma claimed_when_it_overflows :
  w < sum_min k →
  claimed vis = sum_min k ∧
  ∀ i c, columns !! i = Some c → i ∉ fst <$> a → priority c = PRIO_ESSENTIAL.
Proof.
  intros Hgt. split.
  - rewrite vis_granted. replace (saturating_sub w (sum_min k)) with 0 by (unfold saturating_sub; lia).
    apply claimed_slackless. eapply Forall_impl; [exact kept_widths|]. intros p Hp. apply Hp.
  - intros i c Hc Hi. destruct (dropped_enough _ _ _ _ Hs) as [Hf|Hb]; [unfold k in Hgt; lia|].
    destruct (decide (priority c = PRIO_ESSENTIAL)); [done|]. exfalso. apply Hi.
    apply (dropped_column _ _ Hc). pose proof (dropped_first _ _ _ _ Hs) as Hab.
    rewrite Hb, app_nil_r in Hab. rewrite <- Hab. by apply elem_drops.
Qed.
End Shown.

Lemma resolve_sorted columns w : StronglySorted lt (fst <$> visible (resolve columns w)).
Proof. rewrite resolve_granted, <- list_fmap_compose. apply kept_sorted. Qed.

Lemma resolve_in_range columns w i :
  i ∈ fst <$> visible (resolve columns w) → (i < length columns)%nat.
Proof. by intros [? _]%kept_shown%elem_kept_fst. Qed.

Lemma resolve_essential columns w i c :
  columns !! i = Some c → priority c = PRIO_ESSENTIAL → i ∈ fst <$> visible (resolve columns w).
Proof.
  intros Hc Hp. destruct (dropped_spec columns w) as (a & b & Hs).
  apply (shown_iff _ _ _ _ Hs). split; [by eapply lookup_lt_Some|].
  rewrite <- (dropped_column _ _ _ _ Hs _ _ Hc). intros Hin.
  assert ((i, c) ∈ drops columns) as [_ H]%elem_drops; [|done].
  rewrite (dropped_first _ _ _ _ Hs), elem_of_app. by left.
Qed.

(** A table too wide sheds the right columns. Those shown keep their order;
    an essential one is always shown; what is dropped is less useful than what
    stays, or as useful and further right; nothing is dropped that there was room
    for. What is shown fits, filling the width exactly when a flexible column is
    among it; only essential columns may overflow, at their minimal widths. *)
Theorem columns_resolved columns w :
  well_formed columns → 0 ≤ w ≤ u16_max →
  let vis := visible (resolve columns w) in
  let shown i := i ∈ fst <$> vis in
  StronglySorted lt (fst <$> vis) ∧
  (∀ i, shown i → (i < length columns)%nat) ∧
  (∀ i c, columns !! i = Some c → priority c = PRIO_ESSENTIAL → shown i) ∧
  (∀ i j c d, columns !! i = Some c → columns !! j = Some d → ¬ shown i → shown j →
     priority d ≠ PRIO_ESSENTIAL → goes_first (i, c) (j, d)) ∧
  ((∀ i, (i < length columns)%nat → shown i) ∨
   ∃ i c, columns !! i = Some c ∧ ¬ shown i ∧ w < min_width c + needed columns vis) ∧
  (if needed columns vis <=? w
   then claimed vis = w ∨
        claimed vis = needed columns vis ∧
        ∀ i c, columns !! i = Some c → shown i → is_flex c = false
   else claimed vis = needed columns vis ∧
        ∀ i c, columns !! i = Some c → shown i → priority c = PRIO_ESSENTIAL).
Proof.
  intros Hwf Hw vis shown. destruct (dropped_spec columns w) as (a & b & Hs).
  pose proof (shown_iff _ _ _ _ Hs) as Hshown. fold vis in Hshown.
  pose proof (needed_vis _ _ _ _ Hs) as Hn. fold vis in Hn. rewrite Hn. clear Hn.
  split; [apply resolve_sorted|]. split; [apply resolve_in_range|].
  split; [apply resolve_essential|]. split; [|split].
  - intros i j c d Hc Hd Hi [_ Hj]%Hshown. apply (dropped_goes_first _ _ _ _ Hs); try done.
    destruct (decide (i ∈ fst <$> a)); [done|]. exfalso. apply Hi, Hshown.
    split; [by eapply lookup_lt_Some|done].
  - destruct (decide (a = [])) as [->|Hne].
    { left. intros i Hi. apply Hshown. split; [done|apply not_elem_of_nil]. }
    right. destruct (exists_last Hne) as (a' & [i c] & E). exists i, c.
    destruct (last_dropped_needed _ _ _ _ Hs a' i c E) as [Hc Hl]. split; [done|]. split; [|done].
    unfold shown. rewrite Hshown, E, fmap_app, elem_of_app. intros [_ H]. apply H. right.
    apply list_elem_of_here.
  - destruct (Z.leb_spec (sum_min (kept columns (rev (fst <$> a)))) w) as [Hle|Hgt].
    + destruct (claimed_when_it_fits _ _ _ _ Hs Hwf) as [|[Hcl Hf]]; [lia|done|by left|].
      right. split; [done|]. intros i c Hc [Hi Hn]%Hshown. rewrite Forall_forall in Hf.
      apply (Hf (i, c)), elem_kept. split; [done|]. by rewrite list_elem_of_In, <- in_rev, <- list_elem_of_In.
    + destruct (claimed_when_it_overflows _ _ _ _ Hs Hwf Hgt) as [Hcl He]. split; [done|].
      intros i c Hc [_ Hi]%Hshown. by eapply He.
Qed.

(** *** Scrolling sideways *)

Lemma skip_columns_sublist r l : skip_columns r l `sublist_of` l.
Proof.
  revert r. induction l as [|[i c] l IH]; intros r; simpl; [constructor|].
  destruct (_ || _); constructor; apply IH.
Qed.

Lemma skip_columns_essential r l i c :
  (i, c) ∈ l → priority c = PRIO_ESSENTIAL → (i, c) ∈ skip_columns r l.
Proof.
  intros Hin Hp. revert r. induction l as [|[j d] l IH]; intros r; [by apply elem_of_nil in Hin|].
  apply elem_of_cons in Hin as [[= <- <-]|Hin]; simpl.
  - rewrite Hp. apply list_elem_of_here.
  - destruct (_ || _); [apply list_elem_of_further|]; by apply IH.
Qed.

Lemma sublist_sorted (k l : list nat) : k `sublist_of` l → StronglySorted lt l → StronglySorted lt k.
Proof.
  induction 1 as [|x k l Hkl IH|x k l Hkl IH]; intros Hs; [constructor| |];
    inversion_clear Hs as [|?? Hl Hx]; [|by apply IH].
  constructor; [by apply IH|]. rewrite Forall_forall in *. intros y Hy. apply Hx.
  by eapply elem_of_sublist.
Qed.

Lemma sorted_lookup (l : list nat) i j x y :
  StronglySorted lt l → l !! i = Some x → l !! j = Some y → (i < j)%nat → (x < y)%nat.
Proof.
  intros Hs. revert i j. induction Hs as [|z l _ IH Hz]; intros [|i] [|j] Hi Hj Hij; simpl in *; try lia; try done.
  - injection Hi as ->. rewrite Forall_forall in Hz. by apply Hz, list_elem_of_lookup_2 with j.
  - eapply IH; [exact Hi|exact Hj|lia].
Qed.

(** Looking sorted indices up in a sorted list. *)
Lemma lookups_sorted (l ks : list nat) :
  StronglySorted lt l → StronglySorted lt ks → StronglySorted lt (omap (λ k, l !! k) ks).
Proof.
  intros Hl Hk. induction Hk as [|k ks _ IH Hk]; csimpl; [constructor|].
  destruct (l !! k) as [x|] eqn:E; [|done]. constructor; [done|].
  apply Forall_forall. intros y (j & Hj & Hy)%list_elem_of_omap. rewrite Forall_forall in Hk.
  by eapply (sorted_lookup l k j); eauto.
Qed.

(** Scrolling hides columns from the left and shows what the width had dropped;
    it never hides an essential column, never changes the order, and never looks
    a column up where there is none. *)
Lemma scrolled_layout columns w skip :
  let vis := visible (resolve_scrolled columns w skip) in
  StronglySorted lt (fst <$> vis) ∧
  (∀ i, i ∈ fst <$> vis → (i < length columns)%nat) ∧
  ∀ i c, columns !! i = Some c → priority c = PRIO_ESSENTIAL → i ∈ fst <$> vis.
Proof.
  unfold resolve_scrolled. destruct (skip =? 0)%nat.
  { split; [apply resolve_sorted|]. split; [apply resolve_in_range|apply resolve_essential]. }
  set (rest := skip_columns skip (imap pair columns)). cbn [visible].
  assert (StronglySorted lt (fst <$> rest)) as Hl.
  { eapply sublist_sorted, (indexed_sorted columns 0). apply fmap_sublist, skip_columns_sublist. }
  assert (∀ i c, (i, c) ∈ rest → columns !! i = Some c) as Hcol.
  { intros i c Hin. eapply elem_of_sublist in Hin; [|apply skip_columns_sublist].
    by apply elem_of_lookup_imap in Hin as (j & d & [= <- <-] & ?). }
  set (inner := visible (resolve (snd <$> rest) w)).
  assert (fst <$> omap (λ '(i, w), original ← (fst <$> rest) !! i; Some (original, w)) inner
          = omap (λ i, (fst <$> rest) !! i) (fst <$> inner)) as ->.
  { clear. induction inner as [|[i v] inner IH]; csimpl; [done|].
    destruct ((fst <$> rest) !! i); csimpl; by rewrite IH. }
  split; [apply lookups_sorted; [done|apply resolve_sorted]|]. split.
  - intros i (j & _ & Hj)%list_elem_of_omap. rewrite list_lookup_fmap in Hj.
    destruct (rest !! j) as [[i' c]|] eqn:E; [|done]. injection Hj as <-.
    by eapply lookup_lt_Some, Hcol, list_elem_of_lookup_2.
  - intros i c Hc Hp. assert ((i, c) ∈ rest) as Hin.
    { apply skip_columns_essential; [|done]. apply elem_of_lookup_imap. by exists i, c. }
    apply list_elem_of_lookup in Hin as [j Hj]. apply list_elem_of_omap. exists j. split.
    + eapply (resolve_essential _ w j c); [|done]. by rewrite list_lookup_fmap, Hj.
    + by rewrite list_lookup_fmap, Hj.
Qed.

Lemma resolve_nonneg columns w :
  well_formed columns → Forall (λ v, 0 ≤ snd v) (visible (resolve columns w)).
Proof.
  intros Hwf. rewrite resolve_granted.
  set (k := kept columns _). set (s := saturating_sub w _). assert (0 ≤ s) by (subst s; unfold saturating_sub; lia).
  apply Forall_fmap, Forall_forall. intros [i c] [Hc _]%elem_kept.
  pose proof (Forall_lookup_1 _ _ _ _ Hwf Hc) as [Hm _]. unfold granted, min_width in *. simpl.
  destruct (width c); [unfold u16_max in *; lia|]. case_bool_decide; unfold u16_max in *; lia.
Qed.

Lemma scrolled_nonneg columns w skip :
  well_formed columns → Forall (λ v, 0 ≤ snd v) (visible (resolve_scrolled columns w skip)).
Proof.
  intros Hwf. unfold resolve_scrolled. destruct (skip =? 0)%nat; [by apply resolve_nonneg|].
  set (rest := skip_columns skip (imap pair columns)). cbn [visible].
  assert (well_formed (snd <$> rest)) as Hr.
  { apply Forall_fmap, Forall_forall. intros [i c] Hin.
    eapply elem_of_sublist in Hin; [|apply skip_columns_sublist].
    apply elem_of_lookup_imap in Hin as (j & d & [= <- <-] & Hc). by apply (Forall_lookup_1 _ _ _ _ Hwf Hc). }
  pose proof (resolve_nonneg _ w Hr) as Hn. rewrite Forall_forall in *.
  intros [i v] ([j v'] & Hj & E)%list_elem_of_omap. specialize (Hn _ Hj).
  destruct ((fst <$> rest) !! j); [|done]. by injection E as -> ->.
Qed.
