(* ===== verification/Table.v ===== *)
(** * The table every view is drawn with

    crates/muxtop-tui/src/ui/widgets/table.rs and scrollbar.rs. *)

From S2P Require Import Prelude Str RsFloat Num Process Ui Terminal Theme.
From S2P Require Import FloatFacts Canvas Columns.
From Stdlib Require Import Sorting.Sorted.
Local Open Scope Z_scope.
Local Open Scope record_scope.

(** ** Scrollbar *)

Definition scaled (part whole height : Z) : Z :=
  float_as_uint u64_max (f64_round (f64_mul (f64_div (f64_of_Z part) (f64_of_Z whole)) (f64_of_Z height))).

(** The length of the thumb, and the cell it starts at. *)
Definition thumb_of (total visible height : Z) : Z :=
  Z.min (float_as_uint u64_max
           (float_max (f64_round (f64_mul (f64_div (f64_of_Z visible) (f64_of_Z total)) (f64_of_Z height)))
              (f64_of_Z 1))) height.

Definition start_of (total visible offset travel : Z) : Z :=
  let max_offset := saturating_sub total visible in
  let start := if max_offset =? 0 then 0 else scaled (Z.min offset max_offset) max_offset travel in
  Z.min start travel.

Definition scrollbar_vertical (area : Rect) (total visible offset : Z) (theme : Theme) (glyphs : Glyphs)
    (frame : Frame) : Frame :=
  if (r_width area =? 0) || (r_height area =? 0) || (total <=? visible) || (visible =? 0) then frame
  else
    let height := r_height area in
    let thumb := thumb_of total visible height in
    let start := start_of total visible offset (height - thumb) in
    let lines := (λ i,
        if (start <=? i) && (i <? start + thumb)
        then [mkSpan (scroll_thumb glyphs) (with_fg (scrollbar_thumb theme) Style_default)]
        else [mkSpan (scroll_track glyphs) (with_fg (scrollbar_track theme) Style_default)])
      <$> seqZ 0 height in
    render_widget (Paragraph AlignLeft Style_default lines) area frame.

(** ** Rows *)

Record Cell := mkCell { cell_text : str; cell_color : option Color }.

Definition Cell_new (text : str) : Cell := mkCell text None.
Definition colored (text : str) (color : Color) : Cell := mkCell text (Some color).

Abbreviation Row := (list Cell).

Record Spec := mkSpec {
  columns : list Column;
  sort_col : option nat;
  descending : bool;
  total : nat;
  selected : nat;
  scroll : nat;
  col_scroll : nat;
  empty : EmptyState;
}.

Section Draw.
Context `{!Layouts}.
Variable theme : Theme.
Variable glyphs : Glyphs.

(** One row of the body. *)
Definition row_line (spec : Spec) (layout : ColumnLayout) (row_at : nat → Row) (idx : nat) : Line :=
  let is_selected := bool_decide (idx = selected spec) in
  let base := if is_selected then selected_row theme else row theme (Nat.odd idx) in
  let cells := row_at idx in
  mkSpan (if is_selected then sel_edge glyphs else lit " ")
         (if is_selected then with_fg (selection_edge theme) base else base)
  :: omap (λ '(col_idx, width),
       column ← columns spec !! col_idx;
       let c := cells !! col_idx in
       let text := default [] (cell_text <$> c) in
       let style := match c ≫= cell_color with Some color => with_fg color base | None => base end in
       Some (mkSpan (cell text width (align column) glyphs) style)) (visible layout).

(** The rows on screen from [scroll]. *)
Definition body_lines (spec : Spec) (layout : ColumnLayout) (row_at : nat → Row) (scroll height : nat)
    : list Line :=
  let end_ := Nat.min (scroll + height) (total spec) in
  row_line spec layout row_at <$> seq scroll (end_ - scroll).

(** Where things go: the table, its scrollbar, the columns shown, the header and
    the body. *)
Definition needs_scrollbar (area : Rect) (spec : Spec) : bool :=
  (4 <? r_width area) && (saturating_sub (r_height area) 1 <? Z.of_nat (total spec)).

Definition table_areas (area : Rect) (spec : Spec) : Rect * option Rect :=
  if needs_scrollbar area spec then
    match horizontal [Fill 1; Length 1] area with [t; b] => (t, Some b) | _ => (area, None) end
  else (area, None).

Definition table_layout (table_area : Rect) (spec : Spec) : ColumnLayout :=
  resolve_scrolled (columns spec) (saturating_sub (r_width table_area) 1) (col_scroll spec).

Definition header_spans (spec : Spec) (layout : ColumnLayout) : Line :=
  mkSpan (lit " ") (table_header theme)
  :: header_line (columns spec) layout (sort_col spec) (descending spec) theme glyphs.

Definition draw (area : Rect) (spec : Spec) (row_at : nat → Row) (frame : Frame) : nat * Frame :=
  if (r_height area =? 0) || (r_width area =? 0) then (scroll spec, frame)
  else
    let '(table_area, bar_area) := table_areas area spec in
    let layout := table_layout table_area spec in
    match vertical [Length 1; Fill 1] table_area with
    | [header_area; body_area] =>
        let frame := render_widget (Paragraph AlignLeft (table_header theme) [header_spans spec layout])
                       header_area frame in
        if r_height body_area =? 0 then (scroll spec, frame)
        else if (total spec =? 0)%nat then (0%nat, render_empty body_area (empty spec) theme frame)
        else
          let height := Z.to_nat (r_height body_area) in
          let scroll := viewport_offset (selected spec) (scroll spec) height in
          let frame := render_widget
            (Paragraph AlignLeft Style_default (body_lines spec layout row_at scroll height))
            body_area frame in
          let frame := match bar_area with
                       | Some bar =>
                           let bar := bar <| y := y body_area |> <| r_height := r_height body_area |> in
                           scrollbar_vertical bar (Z.of_nat (total spec)) (Z.of_nat height)
                             (Z.of_nat scroll) theme glyphs frame
                       | None => frame
                       end in
          (scroll, frame)
    | _ => (scroll spec, frame)
    end.
End Draw.

(** ** Properties *)

(** *** Scrollbar *)

(** The thumb is inside the track. *)
Lemma thumb_inside total visible offset height :
  0 ≤ height →
  0 ≤ thumb_of total visible height ≤ height ∧
  0 ≤ start_of total visible offset (height - thumb_of total visible height) ∧
  start_of total visible offset (height - thumb_of total visible height) + thumb_of total visible height
  ≤ height.
Proof.
  intros Hh. unfold thumb_of, start_of, scaled.
  set (t := float_as_uint _ _). assert (0 ≤ t) by by apply float_as_uint_nonneg.
  destruct (_ =? 0); [lia|].
  set (s := float_as_uint _ _). assert (0 ≤ s) by by apply float_as_uint_nonneg. lia.
Qed.

Lemma scrollbar_in area total visible offset theme glyphs frame :
  rect_ok area → draws_in area frame (scrollbar_vertical area total visible offset theme glyphs frame).
Proof.
  intros Hok. unfold scrollbar_vertical. destruct (_ || _); [apply draws_in_refl|].
  by apply draws_in_widget, within_refl.
Qed.

(** *** Lines *)

Lemma concat_cells_length (f : nat * Z → option Span) vis :
  (∀ v, v ∈ vis → ∃ sp, f v = Some sp ∧ length (span_text sp) = Z.to_nat (snd v)) →
  Forall (λ v, 0 ≤ snd v) vis →
  Z.of_nat (length (line_text (omap f vis))) = claimed vis.
Proof.
  intros Hf. unfold line_text. induction vis as [|v vis IH]; intros Hv; [done|].
  apply Forall_cons in Hv as [H0 Hv].
  destruct (Hf v) as (sp & E & Hl); [apply list_elem_of_here|].
  csimpl. rewrite E. csimpl. rewrite length_app, Hl, Nat2Z.inj_add, IH; [lia| |done].
  intros v' Hv'. apply Hf. by apply list_elem_of_further.
Qed.

(** Every line of a table is as wide as its columns and the selection marker. *)
Definition line_width (layout : ColumnLayout) : Z := 1 + claimed (visible layout).

Section Lines.
Context (theme : Theme) (u : bool) (spec : Spec) (w : Z).
Context (Hwf : well_formed (columns spec)).

Let layout := resolve_scrolled (columns spec) w (col_scroll spec).

Lemma shown_column v : v ∈ visible layout → ∃ c, columns spec !! fst v = Some c.
Proof.
  intros Hv. destruct (scrolled_layout (columns spec) w (col_scroll spec)) as (_ & Hr & _).
  apply lookup_lt_is_Some, Hr. by apply list_elem_of_fmap_2.
Qed.

Lemma row_line_width row_at idx :
  Z.of_nat (length (line_text (row_line theme (Glyphs_new u) spec layout row_at idx))) = line_width layout.
Proof.
  unfold row_line, line_width, line_text. rewrite fmap_cons, concat_cons. cbn [span_text].
  rewrite length_app, Nat2Z.inj_add. f_equal.
  { case_bool_decide; [|done]. by destruct u. }
  apply concat_cells_length; [|by apply scrolled_nonneg].
  intros [i cw] Hv. destruct (shown_column _ Hv) as [c Hc]. simpl in Hc. rewrite Hc.
  eexists. split; [reflexivity|]. apply cell_length, Glyphs_ellipsis.
Qed.

Lemma header_spans_width :
  Z.of_nat (length (line_text (header_spans theme (Glyphs_new u) spec layout))) = line_width layout.
Proof.
  unfold header_spans, line_width, line_text. rewrite fmap_cons, concat_cons. cbn [span_text].
  rewrite length_app, Nat2Z.inj_add. f_equal.
  apply concat_cells_length; [|by apply scrolled_nonneg].
  intros [i cw] Hv. destruct (shown_column _ Hv) as [c Hc]. simpl in Hc. rewrite Hc.
  eexists. split; [reflexivity|]. apply cell_length, Glyphs_ellipsis.
Qed.
End Lines.

Lemma body_lines_lookup theme g spec layout row_at scroll height k l :
  body_lines theme g spec layout row_at scroll height !! k = Some l →
  l = row_line theme g spec layout row_at (scroll + k) ∧ (scroll + k < total spec)%nat ∧ (k < height)%nat.
Proof.
  unfold body_lines. rewrite list_lookup_fmap. intros H.
  destruct (seq scroll _ !! k) as [i|] eqn:E; [|done]. injection H as <-.
  apply lookup_seq in E as [-> Hk]. split; [done|]. lia.
Qed.

(** *** Places *)

Section Places.
Context `{!Layouts}.

Lemma table_areas_in area spec :
  rect_ok area → within area (fst (table_areas area spec)) ∧
  ∀ bar, snd (table_areas area spec) = Some bar → within area bar.
Proof.
  intros Hok. unfold table_areas, needs_scrollbar.
  destruct (Z.ltb_spec 4 (r_width area)); simpl; [|split; [by apply within_refl|done]].
  destruct (_ <? _); [|split; [by apply within_refl|done]].
  rewrite horizontal_fill_length by (done || lia). simpl.
  unfold rect_ok, within, right_of, bottom_of in *. simpl. split; [lia|]. intros bar [= <-]. simpl. lia.
Qed.

Lemma table_areas_height area spec :
  rect_ok area → r_height (fst (table_areas area spec)) = r_height area ∧
                 y (fst (table_areas area spec)) = y area.
Proof.
  intros Hok. unfold table_areas, needs_scrollbar.
  destruct (Z.ltb_spec 4 (r_width area)); simpl; [|done]. destruct (_ <? _); [|done].
  rewrite horizontal_fill_length by (done || lia). done.
Qed.

Lemma draw_in theme glyphs area spec row_at frame :
  rect_ok area → draws_in area frame (draw theme glyphs area spec row_at frame).2.
Proof.
  intros Hok. unfold draw. destruct (_ || _) eqn:E0; [apply draws_in_refl|].
  apply orb_false_iff in E0 as [Eh%Z.eqb_neq _].
  pose proof (table_areas_in area spec Hok) as [Hta Hbar].
  pose proof (table_areas_height area spec Hok) as [Hth Hty].
  destruct (table_areas area spec) as [ta bar]. simpl in *.
  assert (rect_ok ta) as Htok by by apply (within_ok area).
  assert (0 ≤ r_height area) by (unfold rect_ok in Hok; lia).
  rewrite vertical_length_fill by (done || lia).
  set (header := ta <| r_height := 1 |>). set (body := _ <| r_height := r_height ta - 1 |>).
  assert (within ta header ∧ within ta body) as [Hh Hb].
  { subst header body. unfold rect_ok, within, right_of, bottom_of in *. simpl. lia. }
  set (f1 := render_widget _ header frame).
  apply (draws_in_trans _ _ f1); [apply draws_in_widget; by apply (within_trans _ ta)|].
  destruct (r_height body =? 0); [apply draws_in_refl|].
  destruct (total spec =? 0)%nat.
  { eapply draws_in_mono; [by apply (within_trans _ ta)|]. apply render_empty_in. by apply (within_ok ta). }
  set (f2 := render_widget _ body f1).
  apply (draws_in_trans _ _ f2); [apply draws_in_widget; by apply (within_trans _ ta)|].
  destruct bar as [b|]; [|apply draws_in_refl]. specialize (Hbar b eq_refl).
  assert (within area (b <| y := y body |> <| r_height := r_height body |>)) as Hbb.
  { subst body. unfold rect_ok, within, right_of, bottom_of in *. simpl in *. lia. }
  eapply draws_in_mono; [exact Hbb|]. apply scrollbar_in. by apply (within_ok area).
Qed.
End Places.

(** *** The table *)

Lemma scrollbar_appends area total visible offset theme glyphs frame :
  ∃ ops, scrollbar_vertical area total visible offset theme glyphs frame = frame ++ ops.
Proof. unfold scrollbar_vertical. destruct (_ || _); [exists []; by rewrite app_nil_r|by eexists]. Qed.

Section Drawn.
Context `{!Layouts}.
Variable theme : Theme.
Variable u : bool.

(** What is drawn when there are rows and room for them. *)
Lemma draw_parts g area spec row_at frame :
  rect_ok area → (0 < total spec)%nat → 2 ≤ r_height area → 0 < r_width area →
  let '(sc, frame') := draw theme g area spec row_at frame in
  ∃ header body w ops, let layout := resolve_scrolled (columns spec) w (col_scroll spec) in
    let height := Z.to_nat (r_height body) in
    1 ≤ r_height body ∧ sc = viewport_offset (selected spec) (scroll spec) height ∧
    frame' = frame
      ++ [(header, Paragraph AlignLeft (table_header theme) [header_spans theme g spec layout]);
          (body, Paragraph AlignLeft Style_default (body_lines theme g spec layout row_at sc height))]
      ++ ops.
Proof.
  intros Hok Ht Hh Hw. unfold draw. rewrite (proj2 (Z.eqb_neq _ 0)), (proj2 (Z.eqb_neq _ 0)) by lia. simpl.
  pose proof (table_areas_in area spec Hok) as [Hta _].
  pose proof (table_areas_height area spec Hok) as [Hth _].
  destruct (table_areas area spec) as [ta bar]. simpl in *.
  rewrite vertical_length_fill by (by apply (within_ok area) || lia).
  set (header := ta <| r_height := 1 |>). set (body := _ <| r_height := r_height ta - 1 |>).
  assert (r_height body = r_height area - 1) as Hbh by (subst body; simpl; lia).
  rewrite (proj2 (Z.eqb_neq _ 0)), (proj2 (Nat.eqb_neq _ 0)) by lia.
  exists header, body, (saturating_sub (r_width ta) 1).
  destruct bar as [b|].
  - edestruct scrollbar_appends as [ops ->]. exists ops. split; [lia|]. split; [done|].
    unfold render_widget. by rewrite <- !app_assoc.
  - exists []. split; [lia|]. split; [done|]. unfold render_widget. by rewrite <- !app_assoc.
Qed.

(** A table is drawn whole and in its place: nothing is drawn outside the
    area given. When there is room for a body, the rows shown are consecutive, the
    selected one among them and marked; each is exactly as wide as the header
    above it, whatever its cells contain. *)
Theorem table_drawn area spec row_at frame :
  rect_ok area → well_formed (columns spec) →
  (selected spec < total spec)%nat → 2 ≤ r_height area → 0 < r_width area →
  let g := Glyphs_new u in
  let '(scroll, frame') := draw theme g area spec row_at frame in
  draws_in area frame frame' ∧
  ∃ header body lines layout, let header_line := header_spans theme g spec layout in
    (header, Paragraph AlignLeft (table_header theme) [header_line]) ∈ frame' ∧
    (body, Paragraph AlignLeft Style_default lines) ∈ frame' ∧
    Z.of_nat (length lines) ≤ r_height body ∧
    lines !! (selected spec - scroll)%nat
      = Some (row_line theme g spec layout row_at (selected spec)) ∧
    ∀ k l, lines !! k = Some l →
      l = row_line theme g spec layout row_at (scroll + k) ∧
      length (line_text l) = length (line_text header_line).
Proof.
  intros Hok Hwf Hsel Hh Hw g.
  pose proof (draw_in theme g area spec row_at frame Hok) as Hin.
  pose proof (draw_parts g area spec row_at frame Hok ltac:(lia) Hh Hw) as Hp.
  destruct (draw theme g area spec row_at frame) as [sc frame']. simpl in Hin. split; [done|].
  destruct Hp as (header & body & w & ops & Hb & Hsc & ->). cbv zeta in Hsc.
  set (layout := resolve_scrolled (columns spec) w (col_scroll spec)) in *.
  set (height := Z.to_nat (r_height body)) in *.
  pose proof (viewport_shows_selection (selected spec) (scroll spec) height ltac:(lia)) as Hv.
  cbv zeta in Hv. rewrite <- Hsc in Hv. destruct Hv as [[Hv1 Hv2] _].
  exists header, body, (body_lines theme g spec layout row_at sc height), layout.
  split; [set_solver|]. split; [set_solver|]. split; [|split].
  - unfold body_lines. rewrite length_fmap, length_seq. lia.
  - unfold body_lines. rewrite list_lookup_fmap, lookup_seq_lt by lia. simpl. do 2 f_equal. lia.
  - intros k l (-> & _ & _)%body_lines_lookup. split; [done|]. apply Nat2Z.inj. unfold layout, g.
    by rewrite row_line_width, header_spans_width.
Qed.
End Drawn.

Definition demo_columns : list Column :=
  [fixed (lit "PID") 8 Right PRIO_ESSENTIAL; fixed (lit "USER") 12 Left PRIO_LOW;
   flex (lit "COMMAND") 10 PRIO_HIGH].

Lemma demo_columns_ok : well_formed demo_columns.
Proof. by repeat (constructor; [done|]). Qed.

(** A hundred rows in a window of six, the fortieth selected. *)
Definition demo_spec : Spec :=
  mkSpec demo_columns (Some 0%nat) true 100 40 0 0 (no_match (lit "No processes")).

Lemma columns_resolved_witness :
  let vis := visible (resolve demo_columns 20) in
  vis = [(0%nat, 8); (2%nat, 12)] ∧ StronglySorted lt (fst <$> vis) ∧ claimed vis = 20.
Proof.
  pose proof (columns_resolved demo_columns 20 demo_columns_ok ltac:(done)) as H.
  intros vis. assert (vis = [(0%nat, 8); (2%nat, 12)]) as E by (vm_compute; reflexivity).
  split; [exact E|]. destruct H as (H & _). split; [exact H|]. rewrite E. reflexivity.
Defined.

Lemma table_drawn_witness :
  let '(scroll, frame') := draw (H := greedy_layouts) (with_kind TokyoNight Basic) (Glyphs_new false)
      (mkRect 0 2 30 6) demo_spec (λ i, [Cell_new (show (Z.of_nat i))]) [] in
  scroll = 36%nat ∧ length frame' = 3%nat ∧ draws_in (mkRect 0 2 30 6) [] frame'.
Proof.
  pose proof (table_drawn (H := greedy_layouts) (with_kind TokyoNight Basic) false (mkRect 0 2 30 6) demo_spec
    (λ i, [Cell_new (show (Z.of_nat i))]) []) as H.
  destruct (draw (H := greedy_layouts) (with_kind TokyoNight Basic) (Glyphs_new false)
      (mkRect 0 2 30 6) demo_spec (λ i, [Cell_new (show (Z.of_nat i))]) []) as [sc fr] eqn:E.
  assert (sc = 36%nat ∧ length fr = 3%nat) as [Hs Hl].
  { change sc with (fst (sc, fr)). change fr with (snd (sc, fr)) at 2. rewrite <- E.
    vm_compute. split; reflexivity. }
  cbv zeta in H. rewrite E in H. split; [exact Hs|]. split; [exact Hl|]. apply H.
  - unfold rect_ok, right_of, bottom_of, u16_max. simpl. lia.
  - exact demo_columns_ok.
  - simpl. lia.
  - discriminate.
  - reflexivity.
Defined.
