(* ===== verification/Meters.v ===== *)
(** * Meters, sparklines and human-readable sizes

    crates/muxtop-tui/src/ui/widgets/{meter,spark}.rs.  A lookup out of range
    panics and is [None]. *)

From S2P Require Import Prelude Str RsFloat Num FloatFacts Ui Terminal Theme.
From S2P Require Import Canvas Columns.
Local Open Scope Z_scope.

(** ** The standard library *)

(** [f64::clamp]. *)
Definition f64_clamp (lo hi x : spec_float) : spec_float :=
  let x := if float_lt x lo then lo else x in
  if float_gt x hi then hi else x.

(** [f32::round]: halves away from zero. *)
Definition f32_round (x : f32) : f32 :=
  match x with
  | S754_finite s m e =>
      if 0 <=? e then x
      else let d := 2 ^ (- e) in
           binary_normalize 24 128 (cond_Zopp s ((2 * Zpos m + d) / (2 * d))) 0 s
  | _ => x
  end.

(** The nearest integer to [a / b], an even one of two. *)
Definition div_half_even (a b : Z) : Z :=
  let q := a / b in
  match 2 * (a mod b) ?= b with Lt => q | Gt => q + 1 | Eq => if Z.even q then q else q + 1 end.

(** [format!("{:.p$}", x)]: the exact value, to [p] decimals. *)
Definition fmt_fixed (p : nat) (x : spec_float) : str :=
  let digits (z : Z) :=
    show (z / 10 ^ Z.of_nat p)
    ++ match p with
       | O => []
       | _ => let f := show (z mod 10 ^ Z.of_nat p) in
              lit "." ++ replicate (p - length f) 48 ++ f
       end in
  let signed (s : bool) (t : str) := if s then lit "-" ++ t else t in
  match x with
  | S754_nan => lit "NaN"
  | S754_infinity s => signed s (lit "inf")
  | S754_zero s => signed s (digits 0)
  | S754_finite s m e =>
      signed s (digits (if 0 <=? e then Zpos m * 2 ^ e * 10 ^ Z.of_nat p
                        else div_half_even (Zpos m * 10 ^ Z.of_nat p) (2 ^ (- e))))
  end.

(** [format!("{s:<w$}")] and [format!("{s:>w$}")]. *)
Definition pad_right (w : nat) (s : str) : str := s ++ spaces (w - length s).
Definition pad_left (w : nat) (s : str) : str := spaces (w - length s) ++ s.

(** [str::repeat]. *)
Definition repeat_str (s : str) (n : nat) : str := concat (replicate n s).

Example fmt_fixed_quarter : fmt_fixed 1 (f64_div (f64_of_Z 1) (f64_of_Z 4)) = lit "0.2".
Proof. reflexivity. Qed.
Example fmt_fixed_neg : fmt_fixed 2 (f64_div (f64_of_Z (-1)) (f64_of_Z 3)) = lit "-0.33".
Proof. reflexivity. Qed.

(** ** Meters *)

Definition ZONE_WARN : f64 := f64_div (f64_of_Z 1) (f64_of_Z 2).
Definition ZONE_DANGER : f64 := f64_div (f64_of_Z 8) (f64_of_Z 10).

Section Meter.
Variables (theme : Theme) (glyphs : Glyphs).

Definition zone_color (cell_index warn_at danger_at : nat) : Color :=
  if (danger_at <=? cell_index)%nat then danger theme
  else if (warn_at <=? cell_index)%nat then warning theme
  else success theme.

Definition usize_of (x : f64) : nat := Z.to_nat (float_as_uint u64_max x).

(** The whole cells that are full. *)
Definition full_cells (exact : f64) (track : nat) : nat := Nat.min (usize_of (f64_floor exact)) track.

(** The cell after them, in eighths; the inner [None] is a panic. *)
Definition partial_cell (exact : f64) (full track : nat) : option (option str) :=
  if bool_decide (meter_partials glyphs = []) || (track <=? full)%nat then Some None
  else
    let frac := f64_sub exact (f64_of_Z (Z.of_nat full)) in
    let step := usize_of (f64_round (f64_mul frac (f64_of_Z 8))) in
    if (1 <=? step)%nat && (step <=? 7)%nat
    then Some <$> meter_partials glyphs !! (step - 1)%nat
    else Some None.

(** Where the yellow and the red zones begin. *)
Definition warn_at (track : nat) : nat := usize_of (f64_round (f64_mul (f64_of_Z (Z.of_nat track)) ZONE_WARN)).
Definition danger_at (track : nat) : nat :=
  usize_of (f64_round (f64_mul (f64_of_Z (Z.of_nat track)) ZONE_DANGER)).

(** The fill in cells. *)
Definition exact_of (track : nat) (percent : f64) : f64 :=
  let percent := f64_clamp (S754_zero false) (f64_of_Z 100) percent in
  f64_div (f64_mul (f64_of_Z (Z.of_nat track)) percent) (f64_of_Z 100).

Definition push_fill (n : nat) (color : Color) (spans : list Span) : list Span :=
  if (0 <? n)%nat
  then spans ++ [mkSpan (repeat_str (meter_full glyphs) n) (with_fg color Style_default)]
  else spans.

Definition fill_spans (percent : f64) (track : nat) : option (list Span) :=
  if (track =? 0)%nat then Some []
  else
    let exact := exact_of track percent in
    let full := full_cells exact track in
    partial ← partial_cell exact full track;
    let green := Nat.min full (warn_at track) in
    let yellow := Nat.min (full - warn_at track) (danger_at track - warn_at track) in
    let red := (full - danger_at track)%nat in
    let spans := push_fill green (success theme) [] in
    let spans := push_fill yellow (warning theme) spans in
    let spans := push_fill red (danger theme) spans in
    let spans := match partial with
                 | Some p => spans ++ [mkSpan p (with_fg (zone_color full (warn_at track) (danger_at track))
                                                   Style_default)]
                 | None => spans
                 end in
    let used := (full + (if partial then 1 else 0))%nat in
    let empty := (track - used)%nat in
    Some (if (0 <? empty)%nat
          then spans ++ [mkSpan (repeat_str (meter_empty glyphs) empty)
                           (with_fg (bar_empty theme) Style_default)]
          else spans).

Definition bar_line (label : str) (label_width : nat) (info : str) (percent : f64) (width : Z) : option Line :=
  let w := Z.to_nat width in
  if (w <=? label_width + 2)%nat
  then Some [mkSpan (cell label width Left glyphs) (strong theme)]
  else
    let bar_w := (w - label_width - 2)%nat in
    let info := truncate info bar_w glyphs in
    let track := (bar_w - length info)%nat in
    fill ← fill_spans percent track;
    Some ([mkSpan (pad_right label_width label) (strong theme); mkSpan (lit "[") (dim theme)]
          ++ fill ++ [mkSpan info (dim theme); mkSpan (lit "]") (dim theme)]).

Definition inline (percent : f64) (width : Z) : option (list Span) := fill_spans percent (Z.to_nat width).

(** ** Sparklines *)

Inductive Tint : Type := Flat | Load.

Definition spark_style (tint : Tint) (color : Color) (scale v : Z) : Style :=
  match tint with
  | Flat => with_fg color Style_default
  | Load =>
      let pct := f64_mul (f64_div (f64_of_Z (Z.min v scale)) (f64_of_Z scale)) (f64_of_Z 100) in
      with_fg (gauge_color theme pct) Style_default
  end.

(** The newest [width] samples. *)
Definition spark_window (data : list Z) (width : nat) : list Z :=
  if (width <? length data)%nat then drop (length data - width) data else data.

Definition spark_scale (window : list Z) (max : option Z) : Z :=
  Z.max 1 (default 0 (match max with
                      | Some m => Some m
                      | None => match window with [] => None | x :: l => Some (foldl Z.max x l) end
                      end)).

Definition line (data : list Z) (width : Z) (max : option Z) (tint : Tint) (color : Color) : option Line :=
  let width := Z.to_nat width in
  if (width =? 0)%nat then Some []
  else
    let window := spark_window data width in
    let scale := spark_scale window max in
    let pad := (width - length window)%nat in
    cells ← mapM (λ v, (λ s, mkSpan s (spark_style tint color scale v)) <$> spark_level v scale glyphs) window;
    Some ((if (0 <? pad)%nat then [mkSpan (spaces pad) (with_fg (bar_empty theme) Style_default)] else [])
          ++ cells).

Definition line_percent (data : list f32) (width : Z) : option Line :=
  let scaled := (λ v, float_as_uint u64_max (f32_round (f64_clamp f32_zero (f32_of_Z 100) v))) <$> data in
  line scaled width (Some 100) Load (accent_primary theme).
End Meter.

(** ** Sizes *)

Definition UNITS : list (Z * str) :=
  [(2 ^ 50, lit "P"); (2 ^ 40, lit "T"); (2 ^ 30, lit "G"); (2 ^ 20, lit "M"); (2 ^ 10, lit "K");
   (1, lit "B")].

Fixpoint human_bytes_in (units : list (Z * str)) (bytes : Z) : str :=
  match units with
  | [] => lit "0B"
  | (scale, suffix) :: units =>
      if scale <=? bytes then
        let value := f64_div (f64_of_Z bytes) (f64_of_Z scale) in
        if float_ge value (f64_of_Z 100) || (scale =? 1)
        then fmt_fixed 0 value ++ suffix
        else fmt_fixed 1 value ++ suffix
      else human_bytes_in units bytes
  end.

Definition human_bytes (bytes : Z) : str := human_bytes_in UNITS bytes.

Definition human_rate (bytes_per_sec : Z) : str := human_bytes bytes_per_sec ++ lit "/s".

Example human_bytes_1536 : human_bytes 1536 = lit "1.5K".
Proof. reflexivity. Qed.
Example human_bytes_150m : human_bytes (150 * 2 ^ 20) = lit "150M".
Proof. reflexivity. Qed.
Example human_bytes_wide : human_bytes 102360 = lit "100.0K".
Proof. reflexivity. Qed.
Example bar_line_half :
  line_text <$> bar_line Theme_default ASCII (lit "cpu0") 6 (lit "42.0%") (f64_of_Z 42) 25
  = Some (lit "cpu0  [|||||       42.0%]").
Proof. vm_compute. reflexivity. Qed.

(** ** Properties *)

(** *** The fill *)

(** The characters of a line, each with its style. *)
Definition styled (l : list Span) : list (Z * Style) :=
  l ≫= λ s, (λ c, (c, span_style s)) <$> span_text s.

Lemma styled_app l k : styled (l ++ k) = styled l ++ styled k.
Proof. apply bind_app. Qed.

Lemma styled_length l : length (styled l) = length (line_text l).
Proof.
  unfold line_text. induction l as [|s l IH]; [done|].
  csimpl. rewrite !length_app, length_fmap. simpl in IH. by rewrite <- IH.
Qed.

Lemma fmap_seq_const {A} (f : nat → A) a i n :
  (∀ k, (i ≤ k < i + n)%nat → f k = a) → f <$> seq i n = replicate n a.
Proof.
  revert i. induction n as [|n IH]; intros i Hf; [done|]. csimpl. rewrite Hf by lia. f_equal.
  apply IH. intros k Hk. apply Hf. lia.
Qed.

Lemma repeat_str_one c n : repeat_str [c] n = replicate n c.
Proof. induction n as [|n IH]; [done|]. by unfold repeat_str in *; simpl; rewrite IH. Qed.

Lemma styled_repeat g c n s : g = [c] → styled [mkSpan (repeat_str g n) s] = replicate n (c, s).
Proof. intros ->. rewrite repeat_str_one. csimpl. by rewrite fmap_replicate, app_nil_r. Qed.

(** The yellow zone does not begin after the red one. *)
Lemma zones_ordered track : Z.of_nat track < 2 ^ 32 → (warn_at track ≤ danger_at track)%nat.
Proof.
  intros Ht. destruct track as [|t]; [vm_compute; lia|].
  unfold warn_at, danger_at, usize_of. apply Z2Nat.inj_le; [apply float_as_uint_nonneg; done..|].
  set (n := Z.of_nat (S t)) in *. assert (0 < n) by lia.
  change ZONE_WARN with (S754_finite false 4503599627370496 (-53)).
  change ZONE_DANGER with (S754_finite false 7205759403792794 (-53)).
  etransitivity; [apply half_round; lia|apply fraction_round; lia].
Qed.

Section FillProps.
Variables (theme : Theme) (u : bool) (track : nat).
Hypothesis Htrack : Z.of_nat track < 2 ^ 32.

Let g := Glyphs_new u.
Let zone (k : nat) : Style := with_fg (zone_color theme k (warn_at track) (danger_at track)) Style_default.

Lemma Glyphs_blocks : ∃ block blank, meter_full g = [block] ∧ meter_empty g = [blank] ∧ block ≠ blank.
Proof. subst g. by destruct u; eexists _, _. Qed.

Lemma styled_push n c color spans :
  meter_full g = [c] →
  styled (push_fill g n color spans) = styled spans ++ replicate n (c, with_fg color Style_default).
Proof.
  intros Hc. unfold push_fill. destruct n; simpl; [by rewrite app_nil_r|].
  by rewrite styled_app, (styled_repeat _ _ _ _ Hc).
Qed.

(** The three pushes colour each full cell by the zone it lies in. *)
Lemma zones_drawn full c :
  meter_full g = [c] →
  styled (push_fill g (full - danger_at track) (danger theme)
    (push_fill g (Nat.min (full - warn_at track) (danger_at track - warn_at track)) (warning theme)
      (push_fill g (Nat.min full (warn_at track)) (success theme) [])))
  = (λ k, (c, zone k)) <$> seq 0 full.
Proof.
  intros Hc. rewrite !(styled_push _ _ _ _ Hc). simpl.
  pose proof (zones_ordered track Htrack) as Hz. set (w := warn_at track) in *. set (d := danger_at track) in *.
  set (n1 := Nat.min full w). set (n2 := Nat.min (full - w) (d - w)). set (n3 := (full - d)%nat).
  replace full with (n1 + n2 + n3)%nat at 1 by lia. rewrite !seq_app, !fmap_app. simpl.
  f_equal; [f_equal|]; symmetry; apply fmap_seq_const; intros k Hk; unfold zone, zone_color;
    fold w d; destruct (Nat.leb_spec d k), (Nat.leb_spec w k); first [done|lia].
Qed.

Lemma partial_cell_ok exact full :
  ∃ tip, partial_cell g exact full track = Some tip ∧
    (∀ t, tip = Some t → u = true ∧ (full < track)%nat ∧ length t = 1%nat).
Proof.
  unfold partial_cell. destruct (bool_decide _) eqn:E; [by exists None|].
  destruct (Nat.leb_spec track full); [by exists None|]. cbn [orb].
  set (step := usize_of _). destruct (_ && _) eqn:Es; [|by exists None].
  assert (1 ≤ step ≤ 7)%nat as Hs
    by (apply andb_true_iff in Es as [?%Nat.leb_le ?%Nat.leb_le]; lia). clearbody step.
  subst g. destruct u; [|done].
  destruct (glyphs_one_cell true) as (Hm & _ & _ & _ & Hl & _).
  destruct (lookup_lt_is_Some_2 (meter_partials (Glyphs_new true)) (step - 1)) as [t Ht]; [rewrite Hl; lia|].
  exists (Some t). rewrite Ht. split; [done|]. intros ? [= <-]. split; [done|]. split; [done|].
  rewrite Forall_forall in Hm. apply Hm. unfold marks. apply elem_of_app. right. apply elem_of_app. left.
  by apply list_elem_of_lookup_2 in Ht.
Qed.

(** A meter is the full cells, each in the colour of its zone, at most one partial
    cell, and blanks. *)
Lemma fill_drawn percent :
  ∃ spans full tip block blank, fill_spans theme g percent track = Some spans ∧
    block ≠ blank ∧ (length tip ≤ 1)%nat ∧ (full + length tip ≤ track)%nat ∧ (u = false → tip = []) ∧
    (track ≠ 0%nat → full = full_cells (exact_of track percent) track) ∧
    (tip ≠ [] → partial_cell g (exact_of track percent) full track = Some (Some tip)) ∧
    styled spans = ((λ k, (block, zone k)) <$> seq 0 full) ++ ((λ c, (c, zone full)) <$> tip)
      ++ replicate (track - (full + length tip)) (blank, with_fg (bar_empty theme) Style_default).
Proof.
  destruct Glyphs_blocks as (block & blank & Hb & Hs & Hne). unfold fill_spans.
  destruct (Nat.eqb_spec track 0) as [->|Ht].
  { exists [], 0%nat, [], block, blank. repeat split; simpl; try done; lia. }
  set (exact := exact_of track percent). set (full := full_cells exact track).
  assert (full ≤ track)%nat by (subst full; unfold full_cells; lia).
  destruct (partial_cell_ok exact full) as (tip & Hcell & Htip). rewrite Hcell. cbn [mbind option_bind].
  set (spans := push_fill _ _ _ _). assert (styled spans = _) as Hspans by exact (zones_drawn full block Hb).
  clearbody spans full exact. destruct tip as [t|].
  - destruct (Htip t eq_refl) as (-> & Hlt & Hl).
    eexists _, full, t, block, blank. split; [done|]. split; [done|]. split; [lia|]. split; [lia|].
    split; [done|]. split; [done|]. split; [done|]. rewrite Hl.
    assert (styled [mkSpan t (zone full)] = (λ c, (c, zone full)) <$> t) as Et
      by (csimpl; by rewrite app_nil_r).
    change (with_fg (zone_color _ full _ _) _) with (zone full).
    destruct (Nat.ltb_spec 0 (track - (full + 1))) as [|Hz].
    + rewrite !styled_app, Hspans. rewrite Et, (styled_repeat _ _ _ _ Hs), app_assoc. done.
    + rewrite styled_app, Hspans, Et. replace (track - (full + 1))%nat with 0%nat by lia.
      by rewrite app_nil_r.
  - eexists _, full, [], block, blank. split; [done|]. split; [done|]. split; [simpl; lia|].
    split; [simpl; lia|]. split; [done|]. split; [done|]. split; [done|]. simpl. rewrite !Nat.add_0_r.
    destruct (Nat.ltb_spec 0 (track - full)) as [|Hz].
    + rewrite styled_app, Hspans, (styled_repeat _ _ _ _ Hs). done.
    + rewrite Hspans. replace (track - full)%nat with 0%nat by lia. by rewrite app_nil_r.
Qed.

End FillProps.

Lemma exact_of_low track percent :
  Z.of_nat track < 2 ^ 32 →
  is_nan percent = true ∨ float_le percent (S754_zero false) = true →
  is_nan (exact_of track percent) = true ∨ ∃ s, exact_of track percent = S754_zero s.
Proof.
  intros Ht Hp. assert (∃ s, f64_clamp (S754_zero false) (f64_of_Z 100) percent = S754_zero s ∨
    f64_clamp (S754_zero false) (f64_of_Z 100) percent = S754_nan) as (s & [E|E]).
  { destruct percent as [s|[]| |[] m e].
    - exists s. left. by destruct s.
    - exists false. by left.
    - by destruct Hp.
    - exists false. by right.
    - exists false. by left.
    - by destruct Hp. }
  - right. unfold exact_of. rewrite E. exists s. destruct track as [|t]; [by destruct s|].
    destruct (f64_of_Z_exact (Z.of_nat (S t)) ltac:(lia)) as (m & -> & _). by destruct s.
  - left. unfold exact_of. rewrite E. by destruct (f64_of_Z (Z.of_nat track)).
Qed.

Lemma exact_of_high track percent :
  Z.of_nat track < 2 ^ 32 → track ≠ 0%nat → float_ge percent (f64_of_Z 100) = true → exact_of track percent = f64_of_Z (Z.of_nat track).
Proof.
  intros Hb Ht Hp. unfold exact_of.
  assert (f64_clamp (S754_zero false) (f64_of_Z 100) percent = f64_of_Z 100) as ->.
  { change (f64_of_Z 100) with (S754_finite false 7036874417766400 (-46)) in *.
    unfold f64_clamp, float_lt, float_gt, float_ge, SFltb, SFleb in *.
    destruct percent as [[]|[]| |[] m e]; try discriminate Hp; try reflexivity.
    cbn [SFcompare] in *. rewrite (Z.compare_antisym e) in Hp |- *.
    destruct (Z.compare_spec e (-46)) as [->| |]; cbn [CompOpp] in *; [|discriminate Hp|done].
    destruct (Pos.compare_cont Eq 7036874417766400 m) eqn:E; [|done|discriminate Hp].
    apply Pos.compare_eq in E. by subst. }
  rewrite f64_mul_exact by lia. apply f64_div_exact; lia.
Qed.

(** A meter never panics and is exactly as wide as its track: full cells, each in
    the colour of the zone it lies in, then at most one partial cell (never
    without Unicode), in the colour of the zone it lands in, then blanks.  It is
    empty for a percentage that is not above zero or is not a number, and full
    from a hundred on. *)
Theorem meter_drawn theme u track percent :
  Z.of_nat track < 2 ^ 32 →
  let zone k := with_fg (zone_color theme k (warn_at track) (danger_at track)) Style_default in
  ∃ spans full tip block blank, fill_spans theme (Glyphs_new u) percent track = Some spans ∧
    block ≠ blank ∧ (length tip ≤ 1)%nat ∧ (u = false → tip = []) ∧ length (line_text spans) = track ∧
    styled spans = ((λ k, (block, zone k)) <$> seq 0 full) ++ ((λ c, (c, zone full)) <$> tip)
      ++ replicate (track - (full + length tip)) (blank, with_fg (bar_empty theme) Style_default) ∧
    (is_nan percent = true ∨ float_le percent (S754_zero false) = true → full = 0%nat ∧ tip = []) ∧
    (float_ge percent (f64_of_Z 100) = true → full = track).
Proof.
  intros Ht zone. destruct (fill_drawn theme u track Ht percent)
    as (spans & full & tip & block & blank & -> & Hne & Hl & Hw & Hu & Hf & Hp & Hs).
  exists spans, full, tip, block, blank. split; [done|]. do 3 (split; [done|]).
  split; [|split; [done|split]].
  - rewrite <- styled_length, Hs, !length_app, !length_fmap, length_seq, length_replicate. lia.
  - intros Hlow%(exact_of_low track _ Ht). destruct (decide (track = 0%nat)) as [->|Hz].
    { split; [lia|]. destruct tip; simpl in *; [done|lia]. }
    assert (full = 0%nat) as ->.
    { rewrite (Hf Hz). unfold full_cells. destruct Hlow as [Hn|[s ->]]; [|by destruct s].
      by destruct (exact_of track percent). }
    split; [done|]. destruct tip; [done|]. specialize (Hp ltac:(done)). exfalso.
    unfold partial_cell in Hp. destruct (_ || _); [done|].
    destruct Hlow as [Hn|[s E]]; [by destruct (exact_of track percent)|]. rewrite E in Hp. by destruct s.
  - intros Hhigh. destruct (decide (track = 0%nat)) as [->|Hz]; [lia|].
    rewrite (Hf Hz), (exact_of_high _ _ Ht Hz Hhigh). unfold full_cells, usize_of.
    rewrite f64_floor_exact, as_uint_of_Z by (unfold u64_max; lia). lia.
Qed.

Lemma meter_drawn_witness :
  ∃ spans, fill_spans Theme_default UNICODE (f64_of_Z 42) 10 = Some spans ∧ length (line_text spans) = 10%nat.
Proof.
  destruct (meter_drawn Theme_default true 10 (f64_of_Z 42) ltac:(reflexivity))
    as (spans & _ & _ & _ & _ & E & _ & _ & _ & Hl & _).
  exists spans. split; [exact E|exact Hl].
Defined.

Lemma line_text_app l k : line_text (l ++ k) = line_text l ++ line_text k.
Proof. unfold line_text. by rewrite fmap_app, concat_app. Qed.

(** A labelled bar is exactly as wide as asked, unless its label overflows the
    room it has, and shows all of the readout that fits next to the brackets. *)
Theorem bar_drawn theme u label label_width info percent width :
  is_u16 width → (length label ≤ label_width)%nat →
  ∃ l, bar_line theme (Glyphs_new u) label label_width info percent width = Some l ∧
    Z.of_nat (length (line_text l)) = width ∧
    (Z.of_nat (label_width + 2 + length info) ≤ width → 0 < width - Z.of_nat (label_width + 2) →
     ∃ fill, line_text l = pad_right label_width label ++ lit "[" ++ fill ++ info ++ lit "]").
Proof.
  unfold is_u16, u16_max. intros Hw Hlab. unfold bar_line.
  pose proof (Glyphs_ellipsis u) as He. destruct (Nat.leb_spec (Z.to_nat width) (label_width + 2)).
  { eexists. split; [done|]. split; [|lia]. unfold line_text. simpl. rewrite app_nil_r, cell_length by done. lia. }
  set (bar_w := (Z.to_nat width - label_width - 2)%nat).
  assert (length (truncate info bar_w (Glyphs_new u)) = Nat.min (length info) bar_w) as Hi
    by (by apply truncate_length).
  set (track := (bar_w - length (truncate info bar_w (Glyphs_new u)))%nat).
  destruct (fill_drawn theme u track ltac:(lia) percent)
    as (fill & full & tip & block & blank & -> & _ & _ & Hfit & _ & _ & _ & Hs).
  apply (f_equal length) in Hs. rewrite styled_length, !length_app, !length_fmap, length_seq, length_replicate in Hs.
  eexists. split; [done|]. rewrite !line_text_app. split.
  - rewrite !length_app, Hs. unfold line_text, pad_right, spaces. simpl.
    rewrite !length_app, length_replicate. simpl. lia.
  - intros Hfits Hpos. exists (line_text fill). rewrite truncate_fits by lia.
    unfold line_text at 1 3. simpl. by rewrite <- !app_assoc.
Qed.

Lemma bar_drawn_witness :
  ∃ l, bar_line Theme_default UNICODE (lit "cpu0") 6 (lit "42.0%") (f64_of_Z 42) 25 = Some l ∧
    Z.of_nat (length (line_text l)) = 25.
Proof.
  destruct (bar_drawn Theme_default true (lit "cpu0") 6 (lit "42.0%") (f64_of_Z 42) 25)
    as (l & E & Hl & _); [unfold is_u16, u16_max; lia|apply Nat.leb_le; reflexivity|].
  exists l. split; [exact E|exact Hl].
Defined.

(** *** Sparklines *)

Lemma line_text_cells (cells : list Span) i :
  Forall (λ s, length (span_text s) = 1%nat) cells →
  length (line_text cells) = length cells ∧
  line_text cells !! i = (cells !! i) ≫= (λ s, head (span_text s)).
Proof.
  unfold line_text. intros H. revert i. induction H as [|s cells Hs _ IH]; intros i; [done|].
  csimpl. destruct (span_text s) as [|c [|]] eqn:E; simpl in Hs; [done| |done].
  split; [simpl; f_equal; apply (IH 0%nat)|]. destruct i; simpl; [by rewrite E|apply IH].
Qed.

Lemma spark_window_spec data w :
  length (spark_window data w) = Nat.min (length data) w ∧
  ∀ k, (k < w)%nat → (k < length data)%nat →
    spark_window data w !! (length (spark_window data w) - 1 - k)%nat = data !! (length data - 1 - k)%nat.
Proof.
  unfold spark_window. destruct (Nat.ltb_spec w (length data)) as [Hl|Hl].
  - rewrite length_drop. split; [lia|]. intros k Hk _. rewrite lookup_drop. f_equal. lia.
  - split; [lia|done].
Qed.

Lemma spark_level_char u v scale :
  ∃ c, spark_level v scale (Glyphs_new u) = Some [c].
Proof.
  destruct (glyphs_one_cell u) as (Hm & _ & _ & _ & _ & _ & Hs).
  destruct (Hs v scale) as [t Ht]. rewrite Ht.
  assert (t ∈ spark (Glyphs_new u)) as Hin.
  { unfold spark_level in Ht. case_match; by apply list_elem_of_lookup_2 in Ht. }
  rewrite Forall_forall in Hm. assert (t ∈ marks (Glyphs_new u)) as Hmk
    by (unfold marks; rewrite !elem_of_app; auto).
  specialize (Hm _ Hmk). destruct t as [|c [|]]; [done|by exists c|done].
Qed.

(** A sparkline is exactly as wide as asked and never panics: the newest sample in
    the last cell, each older one in the cell before, blanks where there is no
    sample; the samples that do not fit are the oldest.  All are on one scale,
    the one given or the largest sample shown. *)
Theorem sparkline_drawn theme u data width max tint color :
  let w := Z.to_nat width in
  let scale := spark_scale (spark_window data w) max in
  ∃ l, line theme (Glyphs_new u) data width max tint color = Some l ∧
    length (line_text l) = w ∧
    (∀ k v, (k < w)%nat → (k < length data)%nat → data !! (length data - 1 - k)%nat = Some v →
      ∃ c, spark_level v scale (Glyphs_new u) = Some [c] ∧ line_text l !! (w - 1 - k)%nat = Some c) ∧
    (∀ k, (length data ≤ k < w)%nat → line_text l !! (w - 1 - k)%nat = Some 32).
Proof.
  intros w scale. unfold line. fold w. destruct (Nat.eqb_spec w 0) as [Hw|Hw].
  { exists []. repeat split; simpl; try done; intros; lia. }
  fold scale. destruct (spark_window_spec data w) as [Hlen Hwin]. set (window := spark_window data w) in *.
  set (f := λ v, (λ s, mkSpan s (spark_style theme tint color scale v)) <$> spark_level v scale (Glyphs_new u)).
  assert (∃ cells, mapM f window = Some cells) as [cells Hc].
  { apply mapM_is_Some_2. apply Forall_true. intros v. change (is_Some (f v)). unfold f.
    destruct (spark_level_char u v scale) as [c ->]. by eexists. }
  rewrite Hc. cbn [mbind option_bind]. apply mapM_Some in Hc.
  assert (Forall (λ s, length (span_text s) = 1%nat) cells) as Hone.
  { apply Forall_lookup. intros i s Hs. destruct (Forall2_lookup_r _ _ _ _ _ Hc Hs) as (v & Hv & E).
    destruct (spark_level_char u v scale) as [c Ec].
    unfold f in E. rewrite Ec in E. by injection E as <-. }
  assert (length cells = length window) as Hcl by (symmetry; by eapply Forall2_length).
  assert (∀ i, length (line_text cells) = length cells ∧
     line_text cells !! i = (cells !! i) ≫= (λ s, head (span_text s))) as Hcells
    by (intros i; by apply line_text_cells).
  set (pad := (w - length window)%nat).
  assert (line_text (if (0 <? pad)%nat then [mkSpan (spaces pad) (with_fg (bar_empty theme) Style_default)] else [])
          = replicate pad 32) as Hpad.
  { destruct (Nat.ltb_spec 0 pad); [by unfold line_text; simpl; rewrite app_nil_r|].
    by replace pad with 0%nat by lia. }
  eexists. split; [done|]. rewrite line_text_app, Hpad, length_app, length_replicate.
  split; [rewrite (proj1 (Hcells 0%nat)); lia|]. split.
  - intros k v Hk Hkd Hv. specialize (Hwin k Hk Hkd). rewrite Hv in Hwin.
    destruct (Forall2_lookup_l _ _ _ _ _ Hc Hwin) as (s & Hs & E).
    destruct (spark_level_char u v scale) as [c Ec].
    exists c. split; [done|]. rewrite lookup_app_r; rewrite length_replicate; [|lia].
    rewrite (proj2 (Hcells _)). replace (w - 1 - k - pad)%nat with (length window - 1 - k)%nat by lia.
    rewrite Hs. unfold f in E. rewrite Ec in E. by injection E as <-.
  - intros k Hk. rewrite lookup_app_l by (rewrite length_replicate; lia).
    apply lookup_replicate. split; [done|lia].
Qed.

Lemma sparkline_drawn_witness :
  ∃ l, line Theme_default UNICODE [0; 50; 100] 5 (Some 100) Flat Color.Reset = Some l ∧
    line_text l !! 4%nat = head (lit "█").
Proof.
  destruct (sparkline_drawn Theme_default true [0; 50; 100] 5 (Some 100) Flat Color.Reset) as (l & E & _ & Hn & _).
  exists l. split; [exact E|].
  destruct (Hn 0%nat 100) as (c & Hc & Hl);
    [apply Nat.ltb_lt; reflexivity|apply Nat.ltb_lt; reflexivity|reflexivity|].
  change (line_text l !! 4%nat = Some c) in Hl. rewrite Hl.
  vm_compute in Hc. injection Hc as <-. vm_compute. reflexivity.
Defined.

(** *** Sizes *)

Lemma pretty_N_length n x s :
  (x < 10 ^ N.of_nat n)%N → ∃ ds, lit (pretty.pretty_N_go x s) = ds ++ lit s ∧ (length ds ≤ n)%nat.
Proof.
  revert x s. induction n as [|n IH]; intros x s Hx.
  { exists []. assert (x = 0%N) as -> by (simpl in Hx; lia). by rewrite pretty.pretty_N_go_0. }
  assert (x = 0 ∨ 0 < x)%N as [->|Hp] by lia.
  { exists []. rewrite pretty.pretty_N_go_0. split; [done|simpl; lia]. }
  rewrite pretty.pretty_N_go_step by done.
  assert (x / 10 < 10 ^ N.of_nat n)%N as Hd.
  { apply N.Div0.div_lt_upper_bound. rewrite Nat2N.inj_succ, N.pow_succ_r' in Hx. lia. }
  destruct (IH (x / 10)%N (String (pretty.pretty_N_char (x mod 10)) s) Hd) as (ds & -> & Hl).
  exists (ds ++ [48 + Z.of_N (x mod 10)]). rewrite lit_digit by (by apply N.mod_lt).
  split; [by rewrite <- app_assoc|]. rewrite length_app. simpl. lia.
Qed.

(** A number below 10^n takes at most [n] digits. *)
Lemma show_length n z : (1 ≤ n)%nat → 0 ≤ z < 10 ^ Z.of_nat n → (length (show z) ≤ n)%nat.
Proof.
  intros Hn Hz. destruct z as [|p|]; [simpl; lia| |lia].
  destruct (pretty_N_length n (Npos p) "") as (ds & E & Hl).
  { apply N2Z.inj_lt. rewrite N2Z.inj_pow, nat_N_Z. simpl. lia. }
  change (lit "") with (@nil Z) in E. rewrite app_nil_r in E.
  change (show (Zpos p)) with (lit (pretty.pretty_N_go (Npos p) "")). by rewrite E.
Qed.

Lemma div_half_even_bound a b c : 0 ≤ a → 0 < b → a < c * b → 0 ≤ div_half_even a b ≤ c.
Proof.
  intros Ha Hb Hc. assert (0 ≤ a / b < c) as Hq
    by (split; [by apply Z.div_pos|apply Z.div_lt_upper_bound; lia]).
  unfold div_half_even. destruct (_ ?= _); [destruct (Z.even _)| |]; lia.
Qed.

(** The length of a number printed without and with a decimal. *)
Lemma fmt_fixed_0_length m e n :
  e < 0 → (1 ≤ n)%nat → Zpos m < (10 ^ Z.of_nat n - 1) * 2 ^ (- e) →
  (length (fmt_fixed 0 (S754_finite false m e)) ≤ n)%nat.
Proof.
  intros He Hn Hm. unfold fmt_fixed. rewrite (proj2 (Z.leb_gt 0 e)) by lia. change (10 ^ Z.of_nat 0) with 1.
  rewrite Z.mul_1_r, Z.div_1_r, app_nil_r. apply show_length; [done|].
  pose proof (div_half_even_bound (Zpos m) (2 ^ (- e)) _ ltac:(lia) ltac:(apply Z.pow_pos_nonneg; lia) Hm). lia.
Qed.

Lemma fmt_fixed_1_length m e n :
  e < 0 → (1 ≤ n)%nat → Zpos m < 10 ^ Z.of_nat n * 2 ^ (- e) →
  (length (fmt_fixed 1 (S754_finite false m e)) ≤ n + 3)%nat.
Proof.
  intros He Hn Hm. unfold fmt_fixed. rewrite (proj2 (Z.leb_gt 0 e)) by lia. change (10 ^ Z.of_nat 1) with 10.
  pose proof (div_half_even_bound (Zpos m * 10) (2 ^ (- e)) (10 * 10 ^ Z.of_nat n) ltac:(lia)
                ltac:(apply Z.pow_pos_nonneg; lia) ltac:(lia)) as Hz.
  set (z := div_half_even _ _) in *. cbn [app lit].
  pose proof (Z.mod_pos_bound z 10 ltac:(lia)).
  pose proof (show_length 1 (z mod 10) ltac:(lia) ltac:(simpl; lia)) as H1.
  assert (length (show (z / 10)) ≤ S n)%nat as H2.
  { apply show_length; [lia|]. split; [apply Z.div_pos; lia|]. apply Z.div_lt_upper_bound; [lia|].
    rewrite Nat2Z.inj_succ, Z.pow_succ_r by lia. lia. }
  rewrite !length_app, length_replicate. change (length (lit ".")) with 1%nat. lia.
Qed.

Lemma below_100 m (e : Z) :
  2 ^ 52 ≤ Zpos m < 2 ^ 53 → float_ge (S754_finite false m e) (f64_of_Z 100) = false →
  e < 0 ∧ Zpos m < 100 * 2 ^ (- e).
Proof.
  intros Hm. change (f64_of_Z 100) with (S754_finite false 7036874417766400 (-46)).
  unfold float_ge, SFleb. cbn [SFcompare]. destruct (Z.compare_spec (-46) e) as [<-|He|He]; [|done|].
  - destruct (Pos.compare_cont Eq 7036874417766400 m) eqn:E; [done|done|]. intros _. split; [done|].
    change (Pos.compare_cont Eq 7036874417766400 m) with (7036874417766400 ?= m)%positive in E.
    apply Pos.compare_gt_iff in E. exact E.
  - intros _. split; [lia|]. assert (2 ^ 47 ≤ 2 ^ (- e)) by (apply Z.pow_le_mono_r; lia). lia.
Qed.

(** A size in a unit of [2 ^ k] bytes. *)
Lemma size_in_unit (k : Z) (suffix : str) units bytes :
  0 ≤ k ≤ 52 → length suffix = 1%nat → 2 ^ k ≤ bytes < 2 ^ 64 → Z.log2 bytes - k ≤ 13 →
  (length (human_bytes_in (((2 ^ k)%Z, suffix) :: units) bytes) ≤ 6)%nat.
Proof.
  intros Hk Hs Hb Hl. assert (0 < 2 ^ k) by (apply Z.pow_pos_nonneg; lia).
  assert (k ≤ Z.log2 bytes) by (apply Z.log2_le_pow2; lia).
  cbn [human_bytes_in]. rewrite (proj2 (Z.leb_le _ _)) by lia.
  destruct (f64_of_Z_size bytes ltac:(lia)) as (m & e & -> & Hm & He).
  assert (Z.log2 bytes < 64) by (apply Z.log2_lt_pow2; lia).
  rewrite f64_div_pow2 by lia. destruct (float_ge _ _) eqn:E100; cbn [orb].
  2: destruct (2 ^ k =? 1).
  1,2: rewrite length_app, Hs; assert (length (fmt_fixed 0 (S754_finite false m (e - k))) ≤ 5)%nat; [|lia];
    apply fmt_fixed_0_length; [lia|lia|]; assert (2 ^ 38 ≤ 2 ^ (- (e - k))) by (apply Z.pow_le_mono_r; lia);
    change (10 ^ Z.of_nat 5 - 1) with 99999; lia.
  rewrite length_app, Hs. destruct (below_100 m (e - k) Hm E100) as [He0 Hlt].
  pose proof (fmt_fixed_1_length m (e - k) 2 He0 ltac:(lia) Hlt). lia.
Qed.

(** A size takes at most six characters, and a rate eight, whatever the count. *)
Theorem sizes_stay_short bytes :
  is_u64 bytes → (length (human_bytes bytes) ≤ 6)%nat ∧ (length (human_rate bytes) ≤ 8)%nat.
Proof.
  unfold is_u64, u64_max. intros Hb.
  assert (length (human_bytes bytes) ≤ 6)%nat as H;
    [|split; [done|]; unfold human_rate; rewrite length_app; change (length (lit "/s")) with 2%nat; lia].
  destruct (decide (bytes = 0)) as [->|H0]; [vm_compute; lia|].
  assert (∀ k, 2 ^ k ≤ bytes → 0 ≤ k → k ≤ Z.log2 bytes) as Hge by (intros k Hk ?; apply Z.log2_le_pow2; lia).
  assert (∀ k, bytes < 2 ^ k → 0 ≤ k → Z.log2 bytes < k) as Hlt by (intros k Hk ?; apply Z.log2_lt_pow2; lia).
  pose proof (Hlt 64 ltac:(lia) ltac:(lia)).
  assert (∀ k s units, 2 ^ k ≤ bytes ∨ (length (human_bytes_in units bytes) ≤ 6)%nat → 0 ≤ k ≤ 52 →
     length s = 1%nat → Z.log2 bytes - k ≤ 13 → (length (human_bytes_in (((2 ^ k)%Z, s) :: units) bytes) ≤ 6)%nat) as Hu.
  { intros k s units Ho Hk Hs Hl. destruct (Z.leb_spec (2 ^ k) bytes) as [Hle|Hgt].
    - apply size_in_unit; lia.
    - cbn [human_bytes_in]. rewrite (proj2 (Z.leb_gt _ _)) by lia. destruct Ho; [lia|done]. }
  unfold human_bytes, UNITS. change 1 with (2 ^ 0).
  apply Hu; [|lia|done|lia]. destruct (Z.leb_spec (2 ^ 50) bytes); [by left|right; pose proof (Hlt 50 ltac:(lia) ltac:(lia))].
  apply Hu; [|lia|done|lia]. destruct (Z.leb_spec (2 ^ 40) bytes); [by left|right; pose proof (Hlt 40 ltac:(lia) ltac:(lia))].
  apply Hu; [|lia|done|lia]. destruct (Z.leb_spec (2 ^ 30) bytes); [by left|right; pose proof (Hlt 30 ltac:(lia) ltac:(lia))].
  apply Hu; [|lia|done|lia]. destruct (Z.leb_spec (2 ^ 20) bytes); [by left|right; pose proof (Hlt 20 ltac:(lia) ltac:(lia))].
  apply Hu; [|lia|done|lia]. destruct (Z.leb_spec (2 ^ 10) bytes); [by left|right; pose proof (Hlt 10 ltac:(lia) ltac:(lia))].
  apply Hu; [|lia|done|lia]. left. lia.
Qed.

Lemma sizes_stay_short_witness : human_bytes u64_max = lit "16384P" ∧ (length (human_bytes u64_max) ≤ 6)%nat.
Proof.
  split; [vm_compute; reflexivity|].
  apply (sizes_stay_short u64_max). unfold is_u64, u64_max. lia.
Defined.
