(* ===== verification/View.v ===== *)
(** * What the views share

    [Render] (crates/muxtop-tui/src/ui/mod.rs), the filter bar
    (ui/filter_bar.rs), ages, and what is proved of every view: that it draws in
    its place and writes no control character but those tolerated in what it takes
    as it comes.  A view that indexes or splits
    returns [None] where the code would panic. *)

From S2P Require Import Prelude Str RsFloat Num FloatFacts Actions Process Network Gpu.
From S2P Require Import Snapshots Keymap Ui KubeView Palette App Terminal Theme Canvas.
From S2P Require Import Columns Table Meters.
Local Open Scope Z_scope.
Local Open Scope record_scope.

Record Render := mkRender { r_app : AppState; r_theme : Theme; r_glyphs : Glyphs; r_breakpoint : Breakpoint }.

(** [Render::ellipsis] and [Render::titled]. *)
Definition with_ellipsis (r : Render) (text : str) : str := text ++ ellipsis (r_glyphs r).
Definition titled (r : Render) (kind name : str) : str := kind ++ lit " " ++ dash (r_glyphs r) ++ lit " " ++ name.

(** inspector.rs, [format_age]. *)
Definition format_age (secs : Z) : str :=
  if 86400 <=? secs then show (secs / 86400) ++ lit "d"
  else if 3600 <=? secs then show (secs / 3600) ++ lit "h"
  else if 60 <=? secs then show (secs / 60) ++ lit "m"
  else show secs ++ lit "s".

Definition nat_show (n : nat) : str := show (Z.of_nat n).

(** [f64::from] on an [f32]: exact. *)
Definition f64_from (x : f32) : f64 :=
  match x with
  | S754_finite s m e => binary_normalize 53 1024 (cond_Zopp s (Zpos m)) e s
  | _ => x
  end.

(** A plain paragraph of one or several lines. *)
Definition paragraph (lines : list Line) : Widget := Paragraph AlignLeft Style_default lines.

(** The lines shown of a list scrolled by [offset], as far as its end allows. *)
Definition scrolled (offset height : nat) (lines : list Line) : list Line :=
  take height (drop (min offset (length lines - height)) lines).

Section FilterBar.
Context {Uc : Unicode}.

(** filter_bar.rs, [draw]. *)
Definition filter_bar_draw (area : Rect) (r : Render) (label : str) (frame : Frame) : Frame :=
  if (r_height area =? 0) || (r_width area =? 0) then frame
  else
    let text := filter_text (r_app r) in
    let t := r_theme r in
    let spans :=
      [mkSpan (lit " " ++ label ++ lit " ") (accent_fill t); mkSpan (lit " ") (body t);
       mkSpan text (body t); mkSpan (cursor (r_glyphs r)) (accent t)]
      ++ (if bool_decide (text = []) then []
          else [mkSpan (lit "   " ++ nat_show (item_count (r_app r)) ++ lit " match") (dim t)]
               ++ (if (item_count (r_app r) =? 1)%nat then [] else [mkSpan (lit "es") (dim t)]))
      ++ [mkSpan (lit "   Enter apply " ++ sep (r_glyphs r) ++ lit " Esc leave") (subtle t)] in
    render_widget (paragraph [spans]) area frame.
End FilterBar.

(** ** Text that cannot drive the terminal

    Clean text holds no control character but those tolerated: what the views do
    with their texts is proved for any tolerance, so that what they take as it
    comes shows in what they draw (Session.v). *)

Class Tolerance := tolerated : Z → Prop.

Section Text.
Context {To : Tolerance}.

Definition harmless (c : Z) : Prop := control_char c = true → tolerated c.

Definition clean (s : str) : Prop := Forall harmless s.

Definition clean_line (l : Line) : Prop := Forall (λ sp, clean (span_text sp)) l.

Lemma harmless_plain c : control_char c = false → harmless c.
Proof. unfold harmless. by intros ->. Qed.

Definition cleanb (s : str) : bool := forallb (λ c, negb (control_char c)) s.

Lemma clean_check s : cleanb s = true → clean s.
Proof.
  unfold cleanb, clean. induction s as [|c s IH]; simpl; [by constructor|].
  intros [Hc Hs]%andb_true_iff. constructor; [by apply harmless_plain, negb_true_iff|auto].
Qed.

Lemma clean_app a b : clean a → clean b → clean (a ++ b).
Proof. intros. by apply Forall_app. Qed.

Lemma clean_cons c s : control_char c = false → clean s → clean (c :: s).
Proof. constructor; [by apply harmless_plain|done]. Qed.

Lemma clean_nil : clean [].
Proof. constructor. Qed.

Lemma clean_replicate n c : control_char c = false → clean (replicate n c).
Proof. intros. by apply Forall_replicate, harmless_plain. Qed.

Lemma clean_take n s : clean s → clean (take n s).
Proof. apply Forall_take. Qed.

Lemma clean_drop n s : clean s → clean (drop n s).
Proof. apply Forall_drop. Qed.

Lemma clean_spaces n : clean (spaces n).
Proof. by apply clean_replicate. Qed.

Lemma clean_concat l : Forall clean l → clean (concat l).
Proof. induction 1; simpl; [apply clean_nil|by apply clean_app]. Qed.

Lemma clean_join sep l : clean sep → Forall clean l → clean (join sep l).
Proof.
  intros Hs. induction 1 as [|a l Ha Hl IH]; [apply clean_nil|].
  destruct l; [done|]. by apply clean_app, clean_app.
Qed.

Lemma clean_digits s : forallb is_digit s = true → clean s.
Proof.
  intros H. apply clean_check. unfold cleanb. induction s as [|c s IH]; simpl in *; [done|].
  apply andb_true_iff in H as [Hc Hs]. rewrite (IH Hs), andb_true_r.
  unfold is_digit, control_char, is_offending in *. lia.
Qed.

Lemma show_neg p : show (Zneg p) = lit "-" ++ show (Zpos p).
Proof. reflexivity. Qed.

Lemma clean_show z : clean (show z).
Proof.
  destruct (Z.leb_spec 0 z) as [Hz|Hz]; [by apply clean_digits, show_spec|].
  destruct z as [| |p]; [lia..|]. rewrite show_neg. apply clean_app; [by apply clean_check|].
  by apply clean_digits, show_spec.
Qed.

Lemma clean_nat_show n : clean (nat_show n).
Proof. apply clean_show. Qed.

(** Foreign text, scrubbed: whatever it held. *)
Lemma clean_scrub s : clean (scrub_ctrl s).
Proof.
  unfold scrub_ctrl. destruct (existsb is_offending (as_bytes s)) eqn:E; simpl.
  - apply Forall_fmap, Forall_true. intros c. simpl.
    destruct (_ && _) eqn:Ec; by apply harmless_plain.
  - induction s as [|c s IH]; [apply clean_nil|]. unfold as_bytes in E. rewrite fmap_cons in E. cbn [concat] in E.
    rewrite existsb_app in E. apply orb_false_iff in E as [E1 E2]. constructor; [|by apply IH].
    apply harmless_plain. unfold control_char. destruct (Z.ltb_spec c 128) as [Hc|]; [|done]. unfold utf8_char in E1.
    rewrite (proj2 (Z.ltb_lt c 128)) in E1 by done. simpl in E1. by rewrite orb_false_r in E1.
Qed.

(** Scrubbing what holds no control character changes nothing. *)
Lemma clean_scrub_id s : Forall (λ c, control_char c = false) s → scrub_ctrl s = s.
Proof.
  intros Hs. unfold scrub_ctrl. destruct (existsb is_offending (as_bytes s)); simpl; [|done].
  induction Hs as [|c s Hc Hs IH]; [done|]. rewrite fmap_cons, IH. f_equal.
  unfold control_char in Hc. by rewrite Hc.
Qed.

Lemma clean_glyph {u} (f : Glyphs → str) :
  cleanb (f UNICODE) = true → cleanb (f ASCII) = true → clean (f (Glyphs_new u)).
Proof. intros. by destruct u; apply clean_check. Qed.

Lemma clean_truncate u s w : clean s → clean (truncate s w (Glyphs_new u)).
Proof.
  intros Hs. assert (clean (ellipsis (Glyphs_new u))) by by apply clean_glyph.
  unfold truncate. repeat case_match; [apply clean_nil|done|done|].
  apply clean_app; [by apply clean_take|done].
Qed.

Lemma clean_cell u s w a : clean s → clean (cell s w a (Glyphs_new u)).
Proof.
  intros Hs. unfold cell. destruct (_ =? 0)%nat; [apply clean_nil|].
  destruct a; repeat first [apply clean_app|apply clean_spaces|apply clean_truncate|done].
  destruct (_ <? _)%nat; [by apply clean_check|apply clean_nil].
Qed.

Lemma clean_pad_right w s : clean s → clean (pad_right w s).
Proof. intros. by apply clean_app, clean_spaces. Qed.

Lemma clean_pad_left w s : clean s → clean (pad_left w s).
Proof. intros. apply clean_app; [apply clean_spaces|done]. Qed.

Lemma clean_fmt_fixed p x : clean (fmt_fixed p x).
Proof.
  assert (∀ z, clean (show (z / 10 ^ Z.of_nat p) ++
    match p with O => [] | _ => let f := show (z mod 10 ^ Z.of_nat p) in
                                lit "." ++ replicate (p - length f) 48 ++ f end)) as H.
  { intros z. apply clean_app; [apply clean_show|]. destruct p; [apply clean_nil|].
    repeat first [apply clean_app|apply clean_show|by apply clean_replicate|by apply clean_check]. }
  assert (∀ (s : bool) t, clean t → clean (if s then lit "-" ++ t else t)) as Hs.
  { intros [] t Ht; [|done]. by apply clean_app; [apply clean_check|]. }
  destruct x as [s|s| |s m e]; unfold fmt_fixed; [apply Hs, H|by apply Hs, clean_check|by apply clean_check|
    apply Hs, H].
Qed.

Lemma clean_human_bytes b : clean (human_bytes b).
Proof.
  unfold human_bytes. assert (Forall (λ u, clean (snd u)) UNITS) as H
    by (repeat (constructor; [by apply clean_check|]); constructor).
  induction H as [|[scale suffix] units Hs _ IH]; cbn [human_bytes_in]; [by apply clean_check|].
  destruct (_ <=? _); [|done]. destruct (_ || _); apply clean_app; auto using clean_fmt_fixed.
Qed.

Lemma clean_human_rate b : clean (human_rate b).
Proof. by apply clean_app; [apply clean_human_bytes|apply clean_check]. Qed.

Lemma clean_format_age s : clean (format_age s).
Proof. unfold format_age. repeat case_match; (apply clean_app; [apply clean_show|by apply clean_check]). Qed.

End Text.

Create HintDb clean.
#[export] Hint Resolve clean_nil clean_app clean_spaces clean_show clean_nat_show clean_scrub clean_truncate
  clean_cell clean_pad_right clean_pad_left clean_fmt_fixed clean_human_bytes clean_human_rate
  clean_format_age clean_take clean_drop : clean.
#[export] Hint Extern 2 (clean (lit _)) => apply clean_check; vm_compute; reflexivity : clean.
#[export] Hint Extern 2 (clean (?f (Glyphs_new _))) =>
  apply (clean_glyph f); vm_compute; reflexivity : clean.

(** Decomposes a text down to its parts. *)
Ltac solve_clean :=
  repeat first
    [ done
    | progress cbn beta iota
    | progress cbn [r_glyphs r_theme r_app]
    | match goal with
      | |- clean (_ ++ _) => apply clean_app
      | |- clean (_ :: _) => apply clean_cons; [vm_compute; reflexivity|]
      | |- clean (match ?x with _ => _ end) => destruct x eqn:?
      end
    | solve [auto 3 with clean] ].

(** ** Painting

    A view paints in an area: it does not panic, everything it draws lies there,
    and all text of it is clean. *)

Section Painting.
Context {To : Tolerance}.

Definition paints (area : Rect) (f f' : Frame) : Prop :=
  ∃ ops, f' = f ++ ops ∧ Forall (λ op, within area (fst op) ∧ Forall clean (widget_texts (snd op))) ops.

Definition painted (area : Rect) (f : Frame) (o : option Frame) : Prop :=
  ∃ f', o = Some f' ∧ paints area f f'.

Lemma paints_refl area f : paints area f f.
Proof. exists []. rewrite app_nil_r. by split. Qed.

Lemma paints_trans area f1 f2 f3 : paints area f1 f2 → paints area f2 f3 → paints area f1 f3.
Proof.
  intros (o1 & -> & H1) (o2 & -> & H2). exists (o1 ++ o2). rewrite app_assoc. split; [done|].
  by apply Forall_app.
Qed.

Lemma paints_mono area area' f f' : within area area' → paints area' f f' → paints area f f'.
Proof.
  intros Hw (ops & -> & Ho). exists ops. split; [done|]. eapply Forall_impl; [exact Ho|].
  intros op [Hi Hc]. split; [by eapply within_trans|done].
Qed.

Lemma paints_widget area a w f :
  within area a → Forall clean (widget_texts w) → paints area f (render_widget w a f).
Proof. intros Ha Hc. exists [(a, w)]. split; [done|]. by apply Forall_singleton. Qed.

Lemma clean_lines lines : Forall clean_line lines → Forall clean (lines ≫= fmap span_text).
Proof.
  induction 1 as [|l lines Hl _ IH]; [constructor|]. csimpl. apply Forall_app. split; [|done].
  by apply Forall_fmap.
Qed.

Lemma paints_lines area a al st lines f :
  within area a → Forall clean_line lines → paints area f (render_widget (Paragraph al st lines) a f).
Proof. intros. apply paints_widget; [done|]. by apply clean_lines. Qed.

Lemma paints_line area a al st l f :
  within area a → clean_line l → paints area f (render_widget (Paragraph al st [l]) a f).
Proof. intros. apply paints_lines; [done|]. by apply Forall_singleton. Qed.

Lemma painted_Some area f f' : paints area f f' → painted area f (Some f').
Proof. intros. by exists f'. Qed.

Lemma painted_bind area f o k :
  painted area f o → (∀ f', painted area f' (k f')) → painted area f (o ≫= k).
Proof.
  intros (f1 & -> & H1) Hk. destruct (Hk f1) as (f2 & E & H2). exists f2. split; [exact E|].
  by eapply paints_trans.
Qed.

(** The first drawing of two. *)
Lemma painted_after area f f1 o : paints area f f1 → painted area f1 o → painted area f o.
Proof. intros H1 (f2 & -> & H2). exists f2. split; [done|]. by eapply paints_trans. Qed.

Lemma painted_mono area area' f o : within area area' → painted area' f o → painted area f o.
Proof. intros Hw (f' & -> & Hp). exists f'. split; [done|]. by eapply paints_mono. Qed.

Lemma paints_if area f (b : bool) f1 f2 : paints area f f1 → paints area f f2 → paints area f (if b then f1 else f2).
Proof. by destruct b. Qed.

Lemma paints_draws area f f' : paints area f f' → draws_in area f f'.
Proof. intros (ops & -> & Ho). exists ops. split; [done|]. eapply Forall_impl; [exact Ho|]. by intros op []. Qed.

(** Containment proved on its own, with the texts. *)
Lemma paints_of area f ops :
  draws_in area f (f ++ ops) → Forall (λ op, Forall clean (widget_texts (snd op))) ops →
  paints area f (f ++ ops).
Proof.
  intros (ops' & E & Hw) Hc. apply app_inv_head in E as <-. exists ops. split; [done|].
  by apply Forall_and.
Qed.

End Painting.

#[export] Hint Resolve paints_refl : clean.

Lemma Forall_omap_of {A B} (P : B → Prop) (f : A → option B) l :
  (∀ x y, f x = Some y → P y) → Forall P (omap f l).
Proof.
  intros Hf. induction l as [|x l IH]; [constructor|]. csimpl.
  destruct (f x) eqn:E; [constructor; [by eapply Hf|done]|done].
Qed.

Lemma rect_u16 a : rect_ok a → is_u16 (r_width a).
Proof. unfold rect_ok, right_of, is_u16, u16_max. lia. Qed.

Section WidgetPaint.
Context {To : Tolerance} `{!Layouts}.
Variable u : bool.

Lemma vertical_parts cs area :
  rect_ok area → length (vertical cs area) = length cs ∧
  Forall (λ r, within area r ∧ rect_ok r) (vertical cs area).
Proof.
  intros Hok. split; [apply vertical_length|]. eapply Forall_impl; [by apply vertical_within|].
  intros r Hr. split; [done|]. by eapply within_ok.
Qed.

Lemma horizontal_parts cs area :
  rect_ok area → length (horizontal cs area) = length cs ∧
  Forall (λ r, within area r ∧ rect_ok r) (horizontal cs area).
Proof.
  intros Hok. split; [apply horizontal_length|]. eapply Forall_impl; [by apply horizontal_within|].
  intros r Hr. split; [done|]. by eapply within_ok.
Qed.

Lemma vertical_2 c1 c2 area :
  rect_ok area → ∃ a b, vertical [c1; c2] area = [a; b] ∧
    (within area a ∧ rect_ok a) ∧ (within area b ∧ rect_ok b).
Proof.
  intros Hok. destruct (vertical_parts [c1; c2] area Hok) as [Hl Hp].
  destruct (vertical _ area) as [|a [|b [|]]]; try done. exists a, b. split; [done|].
  by apply Forall_cons in Hp as [? [? _]%Forall_cons].
Qed.

Lemma vertical_3 c1 c2 c3 area :
  rect_ok area → ∃ a b c, vertical [c1; c2; c3] area = [a; b; c] ∧
    (within area a ∧ rect_ok a) ∧ (within area b ∧ rect_ok b) ∧ (within area c ∧ rect_ok c).
Proof.
  intros Hok. destruct (vertical_parts [c1; c2; c3] area Hok) as [Hl Hp].
  destruct (vertical _ area) as [|a [|b [|c [|]]]]; try done. exists a, b, c. split; [done|].
  by apply Forall_cons in Hp as [? [? [? _]%Forall_cons]%Forall_cons].
Qed.

Lemma vertical_4 c1 c2 c3 c4 area :
  rect_ok area → ∃ a b c d, vertical [c1; c2; c3; c4] area = [a; b; c; d] ∧
    (within area a ∧ rect_ok a) ∧ (within area b ∧ rect_ok b) ∧
    (within area c ∧ rect_ok c) ∧ (within area d ∧ rect_ok d).
Proof.
  intros Hok. destruct (vertical_parts [c1; c2; c3; c4] area Hok) as [Hl Hp].
  destruct (vertical _ area) as [|a [|b [|c [|d [|]]]]]; try done. exists a, b, c, d. split; [done|].
  by apply Forall_cons in Hp as [? [? [? [? _]%Forall_cons]%Forall_cons]%Forall_cons].
Qed.

Lemma horizontal_2 c1 c2 area :
  rect_ok area → ∃ a b, horizontal [c1; c2] area = [a; b] ∧
    (within area a ∧ rect_ok a) ∧ (within area b ∧ rect_ok b).
Proof.
  intros Hok. destruct (horizontal_parts [c1; c2] area Hok) as [Hl Hp].
  destruct (horizontal _ area) as [|a [|b [|]]]; try done. exists a, b. split; [done|].
  by apply Forall_cons in Hp as [? [? _]%Forall_cons].
Qed.

Lemma horizontal_3 c1 c2 c3 area :
  rect_ok area → ∃ a b c, horizontal [c1; c2; c3] area = [a; b; c] ∧
    (within area a ∧ rect_ok a) ∧ (within area b ∧ rect_ok b) ∧ (within area c ∧ rect_ok c).
Proof.
  intros Hok. destruct (horizontal_parts [c1; c2; c3] area Hok) as [Hl Hp].
  destruct (horizontal _ area) as [|a [|b [|c [|]]]]; try done. exists a, b, c. split; [done|].
  by apply Forall_cons in Hp as [? [? [? _]%Forall_cons]%Forall_cons].
Qed.

Lemma inner_parts area : rect_ok area → within area (block_inner area) ∧ rect_ok (block_inner area).
Proof. intros Hok. assert (within area (block_inner area)) by by apply block_inner_within.
  split; [done|]. by eapply within_ok. Qed.

Lemma clean_borders : Forall clean (border_set ROUNDED (Glyphs_new u)).
Proof.
  destruct u; simpl.
  - eapply Forall_impl; [apply ROUNDED_printable|]. intros s Hs. eapply Forall_impl; [exact Hs|].
    intros c [H1 H2]. apply harmless_plain. unfold control_char, is_offending. lia.
  - repeat (apply Forall_cons; split; [by apply clean_check|]). constructor.
Qed.

Lemma clean_block title focused theme :
  (∀ t, title = Some t → clean t) →
  Forall clean (widget_texts (block title focused theme (Glyphs_new u))).
Proof.
  intros Ht. cbn [widget_texts block]. apply Forall_app. split; [|apply clean_borders].
  destruct title as [t|]; [|constructor]. apply Forall_singleton. specialize (Ht t eq_refl). simpl.
  solve_clean.
Qed.

Lemma paints_block area title focused theme f :
  rect_ok area → (∀ t, title = Some t → clean t) →
  paints area f (render_widget (block title focused theme (Glyphs_new u)) area f).
Proof. intros. apply paints_widget; [by apply within_refl|by apply clean_block]. Qed.

Lemma paints_popup area title theme f :
  rect_ok area → clean title →
  let '(inner, f') := popup area title theme (Glyphs_new u) f in
  within area inner ∧ rect_ok inner ∧ paints area f f'.
Proof.
  intros Hok Ht. pose proof (popup_in area title theme (Glyphs_new u) f Hok) as Hin.
  unfold popup in *. destruct (_ || _).
  - destruct Hin as [Hi _]. split; [done|]. split; [by eapply within_ok|apply paints_refl].
  - destruct Hin as [Hi _]. split; [done|]. split; [by eapply within_ok|].
    apply (paints_trans _ _ (render_widget Clear area f)).
    { apply paints_widget; [by apply within_refl|constructor]. }
    apply paints_block; [done|]. by intros ? [= <-].
Qed.

(** Placeholders. *)
Definition clean_empty (e : EmptyState) : Prop :=
  clean (es_title e) ∧ (∀ s, es_reason e = Some s → clean s) ∧ (∀ s, es_remedy e = Some s → clean s).

Lemma clean_some t : clean t → ∀ s, Some t = Some s → clean s.
Proof. by intros Ht s [= <-]. Qed.

Lemma clean_none : ∀ s, None = Some s → clean s.
Proof. done. Qed.

Lemma clean_no_match n : clean n → clean_empty (no_match n).
Proof.
  intros Hn. split; [done|]. split; apply clean_some, clean_check; vm_compute; reflexivity.
Qed.

Lemma clean_empty_state t reason :
  clean t → (∀ s, reason = Some s → clean s) → clean_empty (empty_state t reason).
Proof. intros Ht Hr. split; [done|]. split; [done|apply clean_none]. Qed.

Lemma clean_error_state t reason remedy :
  clean t → clean reason → clean remedy → clean_empty (error_state t reason remedy).
Proof. intros Ht Hr Hm. split; [done|]. by split; apply clean_some. Qed.

Lemma clean_waiting t : clean t → clean_empty (waiting t).
Proof. intros Ht. split; [done|]. split; apply clean_none. Qed.

(** Tables whose rows, labels and placeholder are clean. *)
Record clean_spec (spec : Spec) (row_at : nat → Row) : Prop := {
  cs_labels : Forall (λ c, clean (label c)) (columns spec);
  cs_empty : clean_empty (empty spec);
  cs_rows : ∀ i, Forall (λ c, clean (cell_text c)) (row_at i);
}.

Lemma clean_row_line theme spec layout row_at idx :
  clean_spec spec row_at → clean_line (row_line theme (Glyphs_new u) spec layout row_at idx).
Proof.
  intros Hs. unfold row_line. constructor.
  { cbn [span_text]. destruct (bool_decide _); auto with clean. }
  apply Forall_omap_of. intros [i w] sp. destruct (columns spec !! i) as [c|]; [|done]. intros [= <-].
  apply clean_cell. destruct (row_at idx !! i) as [k|] eqn:E; [|apply clean_nil].
  pose proof (cs_rows _ _ Hs idx) as Hr. rewrite Forall_lookup in Hr. by apply (Hr i).
Qed.

Lemma clean_header_spans theme spec layout row_at :
  clean_spec spec row_at → clean_line (header_spans theme (Glyphs_new u) spec layout).
Proof.
  intros Hs. constructor; [by apply clean_check|]. apply Forall_omap_of.
  intros [i w] sp. destruct (columns spec !! i) as [c|] eqn:E; [|done]. intros [= <-]. apply clean_cell.
  pose proof (cs_labels _ _ Hs) as Hl. rewrite Forall_lookup in Hl. specialize (Hl i c E).
  destruct (bool_decide _); [|done]. apply clean_app; [done|]. destruct (descending spec); auto with clean.
Qed.

(** Drawing on, whatever the place. *)
Definition writes (f f' : Frame) : Prop :=
  ∃ ops, f' = f ++ ops ∧ Forall (λ op, Forall clean (widget_texts (snd op))) ops.

Lemma writes_refl f : writes f f.
Proof. exists []. by rewrite app_nil_r. Qed.

Lemma writes_trans f1 f2 f3 : writes f1 f2 → writes f2 f3 → writes f1 f3.
Proof.
  intros (o1 & -> & H1) (o2 & -> & H2). exists (o1 ++ o2). rewrite app_assoc. split; [done|].
  by apply Forall_app.
Qed.

Lemma writes_lines a al st lines f : Forall clean_line lines → writes f (render_widget (Paragraph al st lines) a f).
Proof. intros Hl. eexists [_]. split; [done|]. apply Forall_singleton. by apply clean_lines. Qed.

Lemma paints_writes area f f' : paints area f f' → writes f f'.
Proof. intros (ops & -> & Ho). exists ops. split; [done|]. eapply Forall_impl; [exact Ho|]. by intros op []. Qed.

Lemma writes_paints area f f' : draws_in area f f' → writes f f' → paints area f f'.
Proof.
  intros (ops & -> & Hw) (ops' & E & Hc). apply app_inv_head in E as <-. exists ops. split; [done|].
  by apply Forall_and.
Qed.

Lemma scrollbar_writes area total visible offset theme f :
  writes f (scrollbar_vertical area total visible offset theme (Glyphs_new u) f).
Proof.
  unfold scrollbar_vertical. destruct (_ || _); [apply writes_refl|]. apply writes_lines.
  apply Forall_fmap, Forall_true. intros i. unfold compose.
  destruct (_ && _); apply Forall_singleton; cbn [span_text]; auto with clean.
Qed.

Lemma empty_writes area e theme f : clean_empty e → writes f (render_empty area e theme f).
Proof.
  intros (Ht & Hr & Hm). unfold render_empty. destruct (_ || _); [apply writes_refl|]. apply writes_lines.
  apply Forall_app; split; [by do 2 apply Forall_singleton|]. apply Forall_app; split.
  - destruct (es_reason e) as [s|]; [|constructor]. specialize (Hr s eq_refl).
    apply Forall_cons. split; [by apply Forall_singleton, clean_nil|]. by do 2 apply Forall_singleton.
  - destruct (es_remedy e) as [s|]; [|constructor]. specialize (Hm s eq_refl). by do 2 apply Forall_singleton.
Qed.

Lemma paints_empty area e theme f :
  rect_ok area → clean_empty e → paints area f (render_empty area e theme f).
Proof. intros Hok He. apply writes_paints; [by apply render_empty_in|by apply empty_writes]. Qed.

Lemma paints_table area spec row_at theme f :
  rect_ok area → clean_spec spec row_at → paints area f (draw theme (Glyphs_new u) area spec row_at f).2.
Proof.
  intros Hok Hs. apply writes_paints; [by apply draw_in|]. unfold draw.
  destruct (_ || _); [apply writes_refl|]. destruct (table_areas area spec) as [ta bar].
  destruct (vertical _ ta) as [|ha [|ba [|]]]; try apply writes_refl.
  set (f1 := render_widget _ ha f).
  assert (writes f f1) as H1.
  { apply writes_lines, Forall_singleton. by eapply clean_header_spans. }
  destruct (r_height ba =? 0); [done|]. eapply writes_trans; [exact H1|].
  destruct (total spec =? 0)%nat; [apply empty_writes, Hs|].
  eapply writes_trans; [apply writes_lines|destruct bar; [apply scrollbar_writes|apply writes_refl]].
  apply Forall_fmap, Forall_true. intros i. by apply clean_row_line.
Qed.
End WidgetPaint.

(** *** Meters and sparklines *)

Section MeterPaint.
Context {To : Tolerance}.

Lemma clean_line_app l k : clean_line l → clean_line k → clean_line (l ++ k).
Proof. intros. by apply Forall_app. Qed.

Lemma clean_repeat_str s n : clean s → clean (repeat_str s n).
Proof. intros. apply clean_concat. by apply Forall_replicate. Qed.

Lemma clean_push_fill u n color spans :
  clean_line spans → clean_line (push_fill (Glyphs_new u) n color spans).
Proof.
  intros Hs. unfold push_fill. destruct (_ <? _)%nat; [|done]. apply clean_line_app; [done|].
  apply Forall_singleton, clean_repeat_str. auto with clean.
Qed.

Lemma clean_partial u exact full track t : partial_cell (Glyphs_new u) exact full track = Some (Some t) → clean t.
Proof.
  unfold partial_cell. destruct (_ || _); [done|]. destruct (_ && _); [|done].
  destruct (_ !! _) as [s|] eqn:E; [|done]. intros [= <-].
  apply list_elem_of_lookup_2 in E. destruct u; [|by apply elem_of_nil in E].
  assert (Forall clean (meter_partials UNICODE)) as H by (repeat (constructor; [by apply clean_check|]); constructor).
  rewrite Forall_forall in H. by apply H.
Qed.

Lemma fill_clean theme u percent track :
  Z.of_nat track < 2 ^ 32 → ∃ spans, fill_spans theme (Glyphs_new u) percent track = Some spans ∧ clean_line spans.
Proof.
  intros Ht. destruct (fill_drawn theme u track Ht percent) as (spans & _ & _ & _ & _ & E & _).
  exists spans. split; [exact E|]. unfold fill_spans in E.
  destruct (track =? 0)%nat; [injection E as <-; constructor|].
  destruct (partial_cell _ _ _ _) as [tip|] eqn:Ep; [|done]. cbn [mbind option_bind] in E.
  set (base := push_fill _ _ _ _) in E. assert (clean_line base) as Hb by (subst base; do 3 apply clean_push_fill; constructor).
  clearbody base. apply (inj Some) in E. subst spans.
  assert (clean_line (match tip with
    | Some p => base ++ [mkSpan p (with_fg (zone_color theme (full_cells (exact_of track percent) track)
                                     (warn_at track) (danger_at track)) Style_default)]
    | None => base end)) as Hb2.
  { destruct tip as [t|]; [|done]. apply clean_line_app; [done|]. apply Forall_singleton.
    by eapply clean_partial. }
  destruct (_ <? _)%nat; [|done]. apply clean_line_app; [done|].
  apply Forall_singleton, clean_repeat_str. auto with clean.
Qed.

Lemma inline_clean theme u percent width :
  is_u16 width → ∃ spans, inline theme (Glyphs_new u) percent width = Some spans ∧ clean_line spans.
Proof. unfold is_u16, u16_max. intros Hw. apply fill_clean. lia. Qed.

Lemma bar_clean theme u label lw info percent width :
  is_u16 width → clean label → clean info →
  ∃ l, bar_line theme (Glyphs_new u) label lw info percent width = Some l ∧ clean_line l.
Proof.
  unfold is_u16, u16_max, bar_line. intros Hw Hl Hi. destruct (_ <=? _)%nat.
  { eexists. split; [done|]. by apply Forall_singleton, clean_cell. }
  set (t := truncate _ _ _). set (track := (_ - length t)%nat).
  destruct (fill_clean theme u percent track) as (fill & -> & Hf); [lia|].
  eexists. split; [done|]. apply clean_line_app.
  - apply Forall_cons; split; [by apply clean_pad_right|]. apply Forall_singleton. by apply clean_check.
  - apply clean_line_app; [done|]. apply Forall_cons; split; [by apply clean_truncate|].
    apply Forall_singleton. by apply clean_check.
Qed.

Lemma spark_clean theme u data width max tint color :
  ∃ l, line theme (Glyphs_new u) data width max tint color = Some l ∧ clean_line l.
Proof.
  unfold line. destruct (_ =? 0)%nat; [exists []; by split; [|constructor]|].
  set (w := Z.to_nat width). set (window := spark_window data w). set (scale := spark_scale window max).
  assert (Forall clean (spark (Glyphs_new u))) as Hsp
    by (destruct u; repeat (constructor; [by apply clean_check|]); constructor).
  assert (∀ v s, spark_level v scale (Glyphs_new u) = Some s → clean s) as Hlev.
  { intros v s Hs. rewrite Forall_forall in Hsp. apply Hsp. unfold spark_level in Hs.
    by case_match; apply list_elem_of_lookup_2 in Hs. }
  set (f := λ v, (λ s, mkSpan s (spark_style theme tint color scale v)) <$> spark_level v scale (Glyphs_new u)).
  assert (∃ cells, mapM f window = Some cells) as [cells Hc].
  { apply mapM_is_Some_2. apply Forall_true. intros v. change (is_Some (f v)). unfold f.
    destruct (spark_level_char u v scale) as [c ->]. by eexists. }
  rewrite Hc. cbn [mbind option_bind]. eexists. split; [done|]. apply clean_line_app.
  - destruct (_ <? _)%nat; [|constructor]. apply Forall_singleton, clean_spaces.
  - apply mapM_Some in Hc. apply Forall_lookup. intros i s Hs.
    destruct (Forall2_lookup_r _ _ _ _ _ Hc Hs) as (v & _ & E). unfold f in E.
    destruct (spark_level v scale _) as [t|] eqn:Et; [|done]. injection E as <-. by eapply Hlev.
Qed.

Lemma spark_percent_clean theme u data width :
  ∃ l, line_percent theme (Glyphs_new u) data width = Some l ∧ clean_line l.
Proof. apply spark_clean. Qed.

Lemma clean_line_cons sp l : clean (span_text sp) → clean_line l → clean_line (sp :: l).
Proof. by constructor. Qed.
End MeterPaint.

Ltac solve_empty :=
  lazymatch goal with
  | |- clean_empty (no_match _) => apply clean_no_match
  | |- clean_empty (empty_state _ None) => apply clean_empty_state; [|apply clean_none]
  | |- clean_empty (empty_state _ (Some _)) => apply clean_empty_state; [|apply clean_some]
  | |- clean_empty (error_state _ _ _) => apply clean_error_state
  | |- clean_empty (waiting _) => apply clean_waiting
  end; solve_clean.

(** Decomposes a line into its spans, and these into their parts. *)
Ltac solve_line :=
  repeat match goal with
    | |- clean_line [] => apply Forall_nil; exact I
    | |- clean_line (_ :: _) => apply clean_line_cons; [cbn [span_text]|]
    | |- clean_line (_ ++ _) => apply clean_line_app
    | |- clean_line (match ?x with _ => _ end) => destruct x eqn:?
    end; try assumption; solve_clean.

Ltac solve_lines :=
  repeat match goal with
    | |- Forall clean_line [] => apply Forall_nil; exact I
    | |- Forall clean_line (_ :: _) => apply Forall_cons; split
    | |- Forall clean_line (_ ++ _) => apply Forall_app; split
    end; solve_line.

(** *** Rows and labels *)

Section Labels.
Context {To : Tolerance}.

Lemma clean_labels_of cols : Forall (λ c, cleanb (label c) = true) cols → Forall (λ c, clean (label c)) cols.
Proof. intros H. eapply Forall_impl; [exact H|]. intros c. apply clean_check. Qed.

Lemma clean_marker u level : clean (marker level (Glyphs_new u)).
Proof. destruct level; simpl; auto with clean. Qed.

End Labels.

#[export] Hint Resolve clean_marker : clean.

(** A row of clean texts. *)
Ltac solve_row :=
  repeat (apply Forall_cons; split; [cbn [cell_text Cell_new colored]; solve_clean|]);
  apply Forall_nil; exact I.

(** *** The filter bar *)

Lemma paints_filter_bar {Uc : Unicode} {To : Tolerance} u s theme bp area label f :
  rect_ok area → clean (filter_text s) → clean label →
  paints area f (filter_bar_draw area (mkRender s theme (Glyphs_new u) bp) label f).
Proof.
  intros Hok Ht Hl. unfold filter_bar_draw. destruct (_ || _); [apply paints_refl|].
  apply paints_line; [by apply within_refl|]. cbn [r_app r_theme r_glyphs]. solve_line.
Qed.
