(* ===== verification/ProcessesView.v ===== *)
(** * The processes tab: crates/muxtop-tui/src/ui/processes.rs

    The columns, a row, the connectors of the tree, and the tab. *)

From S2P Require Import Prelude Str RsFloat Num FloatFacts Actions Process Network Gpu.
From S2P Require Import Snapshots Keymap Ui KubeView Palette App Terminal Theme Canvas.
From S2P Require Import Columns Table Meters View.
Local Open Scope Z_scope.
Local Open Scope record_scope.

Definition COL_PID : nat := 0.
Definition COL_USER : nat := 1.
Definition COL_CPU : nat := 3.
Definition COL_MEM : nat := 4.
Definition COL_COMMAND : nat := 6.

Definition COLUMNS : list Column :=
  [fixed (lit "PID") 7 Right PRIO_ESSENTIAL; fixed (lit "USER") 10 Left PRIO_MEDIUM;
   fixed (lit "S") 2 Left PRIO_HIGH; fixed (lit "CPU%") 7 Right PRIO_HIGH;
   fixed (lit "MEM%") 7 Right PRIO_HIGH; fixed (lit "RSS") 8 Right PRIO_LOW;
   flex (lit "COMMAND") 12 PRIO_ESSENTIAL].

Definition sort_column (field : SortField) : option nat :=
  Some match field with
       | Pid => COL_PID
       | User => COL_USER
       | Cpu => COL_CPU
       | Mem => COL_MEM
       | Name => COL_COMMAND
       end.

Definition state_level (status : str) : Level :=
  if bool_decide (status = lit "Running") then Level.Success
  else if bool_decide (status = lit "Sleeping" ∨ status = lit "Idle") then Level.Neutral
  else if bool_decide (status = lit "Zombie") then Level.Error
  else if bool_decide (status = lit "Stopped") then Level.Warning
  else Level.Info.

Definition process_row (proc : ProcessInfo) (tree_prefix : option str) (r : Render) : Row :=
  let command := scrub_ctrl (command proc) in
  let command := match tree_prefix with Some prefix => prefix ++ command | None => command end in
  let level := state_level (status proc) in
  let theme := r_theme r in
  [Cell_new (show (pid proc));
   Cell_new (scrub_ctrl (user proc));
   colored (marker level (r_glyphs r)) (level_color theme level);
   colored (fmt_fixed 1 (cpu_percent proc)) (gauge_color theme (f64_from (cpu_percent proc)));
   Cell_new (fmt_fixed 1 (memory_percent proc));
   Cell_new (human_bytes (memory_bytes proc));
   Cell_new command].

(** ** Tree connectors *)

(** The loops over the entries after one: the first no deeper than [depth]
    decides. *)
Fixpoint is_last_after (later : list (ProcessInfo * nat)) (depth : nat) : bool :=
  match later with
  | [] => true
  | (_, d) :: later =>
      if (d <? depth)%nat then true else if (d =? depth)%nat then false else is_last_after later depth
  end.

Definition is_last_at_depth (entries : list (ProcessInfo * nat)) (idx : nat) : bool :=
  is_last_after (drop (idx + 1) entries) (default 0%nat (snd <$> entries !! idx)).

Fixpoint more_siblings_after (later : list (ProcessInfo * nat)) (level : nat) : bool :=
  match later with
  | [] => false
  | (_, d) :: later =>
      if (d <? level)%nat then false else if (d =? level)%nat then true else more_siblings_after later level
  end.

Definition ancestor_has_more_siblings (entries : list (ProcessInfo * nat)) (idx level : nat) : bool :=
  more_siblings_after (drop (idx + 1) entries) level.

(** The caller has just found the entry, so that the indexing cannot panic. *)
Definition tree_prefix (entries : list (ProcessInfo * nat)) (idx : nat) (g : Glyphs) : str :=
  let depth := default 0%nat (snd <$> entries !! idx) in
  if (depth =? 0)%nat then []
  else
    concat ((λ level, if ancestor_has_more_siblings entries idx level then tree_pipe g else tree_gap g)
              <$> seq 1 (depth - 1))
    ++ (if is_last_at_depth entries idx then tree_last g else tree_branch g).

(** ** The tab *)

Section Tab.
Context {Uc : Unicode} `{!Layouts}.

Definition processes_spec (s : AppState) : Spec :=
  mkSpec COLUMNS (sort_column (sort_field s)) (bool_decide (sort_order s = Desc)) (process_count s)
    (App.selected s) (scroll_offset s) (App.col_scroll s)
    (if bool_decide (filter_text s = []) then empty_state (lit "No processes") None
     else no_match (lit "No matching processes")).

(** The row the table shows at an index. *)
Definition process_at (r : Render) (idx : nat) : Row :=
  let s := r_app r in
  if tree_mode s then
    let entries := visible_tree s in
    match entries !! idx with
    | Some (proc, _) => process_row proc (Some (tree_prefix entries idx (r_glyphs r))) r
    | None => []
    end
  else match visible_processes s !! idx with Some proc => process_row proc None r | None => [] end.

Definition draw_processes_tab (area : Rect) (r : Render) (frame : Frame) : option Frame :=
  let s := r_app r in
  match last_snapshot s with
  | None => Some (render_empty area (waiting (with_ellipsis r (lit "Waiting for data"))) (r_theme r) frame)
  | Some _ =>
      let filter_h := if filter_editing s then 1 else 0 in
      match vertical [Fill 1; Length filter_h] area with
      | [table_area; filter_area] =>
          let frame := (draw (r_theme r) (r_glyphs r) table_area (processes_spec s) (process_at r) frame).2 in
          Some (if 0 <? filter_h then filter_bar_draw filter_area r (lit "Filter processes") frame else frame)
      | _ => None
      end
  end.
End Tab.

(** ** Properties *)

(** *** The connectors draw the tree *)

(** The drawing of a node and of its descendants, top down: what its own line
    begins with, and what the lines below it begin with. *)
Fixpoint drawn_node (g : Glyphs) (own below : str) (t : TreeNode) : list str :=
  match t with
  | mkTreeNode _ children _ =>
      own :: (fix drawn_children (ts : list TreeNode) : list str :=
                match ts with
                | [] => []
                | [t] => drawn_node g (below ++ tree_last g) (below ++ tree_gap g) t
                | t :: ts => drawn_node g (below ++ tree_branch g) (below ++ tree_pipe g) t ++ drawn_children ts
                end) children
  end.

Fixpoint drawn_children (g : Glyphs) (below : str) (ts : list TreeNode) : list str :=
  match ts with
  | [] => []
  | [t] => drawn_node g (below ++ tree_last g) (below ++ tree_gap g) t
  | t :: ts => drawn_node g (below ++ tree_branch g) (below ++ tree_pipe g) t ++ drawn_children g below ts
  end.

Definition drawn_forest (g : Glyphs) (ts : list TreeNode) : list str := ts ≫= drawn_node g [] [].

Lemma drawn_node_eq g own below p ts d :
  drawn_node g own below (mkTreeNode p ts d) = own :: drawn_children g below ts.
Proof. simpl. f_equal. induction ts as [|t [|t2 ts] IH]; [done|done|]. simpl in *. by rewrite IH. Qed.

Lemma is_last_more later d : is_last_after later d = negb (more_siblings_after later d).
Proof. induction later as [|[p k] later IH]; simpl; [done|]. destruct (k <? d)%nat; [done|]. by destruct (k =? d)%nat. Qed.

Lemma more_siblings_skip l later d :
  Forall (λ e : ProcessInfo * nat, d < e.2)%nat l →
  more_siblings_after (l ++ later) d = more_siblings_after later d.
Proof.
  induction 1 as [|[p k] l Hk _ IH]; simpl in *; [done|].
  rewrite (proj2 (Nat.ltb_ge k d)), (proj2 (Nat.eqb_neq k d)) by lia. done.
Qed.

Section TreeInd.
Variable P : TreeNode → Prop.
Hypothesis Hnode : ∀ p ts d, Forall P ts → P (mkTreeNode p ts d).

Fixpoint TreeNode_nested_ind (t : TreeNode) : P t :=
  match t with
  | mkTreeNode p ts d =>
      Hnode p ts d ((fix all (ts : list TreeNode) : Forall P ts :=
                       match ts with
                       | [] => Forall_nil_2 P
                       | t :: ts => Forall_cons_2 P t ts (TreeNode_nested_ind t) (all ts)
                       end) ts)
  end.
End TreeInd.

Lemma walk_deeper t d : shaped d t → Forall (λ e : ProcessInfo * nat, d ≤ e.2)%nat (walk t).
Proof.
  revert d. induction t as [p ts k IH] using TreeNode_nested_ind. intros d Hs. inversion Hs as [p' ts' d' _ Hts _]; subst.
  simpl. constructor; [simpl; lia|]. apply Forall_concat, Forall_fmap, Forall_forall. intros t Ht.
  rewrite Forall_forall in IH. rewrite Forall_forall in Hts.
  eapply Forall_impl; [by eapply (IH t Ht), Hts|]. intros e He. simpl in *. lia.
Qed.

(** The prefix of an entry, from its depth and the entries after it. *)
Definition connector_base (g : Glyphs) (d : nat) (later : list (ProcessInfo * nat)) : str :=
  concat ((λ level, if more_siblings_after later level then tree_pipe g else tree_gap g) <$> seq 1 (d - 1)).

Definition prefix_of (g : Glyphs) (d : nat) (later : list (ProcessInfo * nat)) : str :=
  if (d =? 0)%nat then []
  else connector_base g d later ++ (if is_last_after later d then tree_last g else tree_branch g).

(** What the descendants of an entry begin with. *)
Definition below_of (g : Glyphs) (d : nat) (later : list (ProcessInfo * nat)) : str :=
  if (d =? 0)%nat then []
  else connector_base g d later ++ (if more_siblings_after later d then tree_pipe g else tree_gap g).

Fixpoint prefixes (g : Glyphs) (entries : list (ProcessInfo * nat)) : list str :=
  match entries with
  | [] => []
  | e :: later => prefix_of g e.2 later :: prefixes g later
  end.

Lemma prefixes_lookup g entries idx :
  (idx < length entries)%nat → prefixes g entries !! idx = Some (tree_prefix entries idx g).
Proof.
  intros Hi. transitivity (Some (prefix_of g (default 0%nat (snd <$> entries !! idx)) (drop (idx + 1) entries)));
    [|unfold tree_prefix, prefix_of, connector_base, is_last_at_depth, ancestor_has_more_siblings;
      by destruct (_ =? 0)%nat].
  revert idx Hi. induction entries as [|e entries IH]; intros idx Hi; simpl in *; [lia|].
  destruct idx as [|idx]; simpl; [done|]. apply IH. lia.
Qed.

Lemma prefixes_length g entries : length (prefixes g entries) = length entries.
Proof. induction entries; simpl; auto. Qed.

(** What follows a whole subtree is no deeper than its root. *)
Definition follows (d : nat) (later : list (ProcessInfo * nat)) : Prop :=
  match later with [] => True | e :: _ => (e.2 ≤ d)%nat end.

Lemma connector_base_skip g l later d :
  Forall (λ e : ProcessInfo * nat, d ≤ e.2)%nat l →
  connector_base g d (l ++ later) = connector_base g d later.
Proof.
  intros Hl. unfold connector_base. f_equal. apply list_fmap_ext. intros i level E.
  apply lookup_seq in E as [-> Hi]. rewrite more_siblings_skip; [done|].
  eapply Forall_impl; [exact Hl|]. intros e He. simpl in *. lia.
Qed.

Lemma below_of_skip g l later d :
  Forall (λ e : ProcessInfo * nat, d < e.2)%nat l → below_of g d (l ++ later) = below_of g d later.
Proof.
  intros Hl. unfold below_of. destruct (d =? 0)%nat; [done|].
  rewrite more_siblings_skip by done. rewrite connector_base_skip; [done|].
  eapply Forall_impl; [exact Hl|]. intros e He. simpl in *. lia.
Qed.

Lemma prefix_of_skip g l later d :
  Forall (λ e : ProcessInfo * nat, d < e.2)%nat l → prefix_of g d (l ++ later) = prefix_of g d later.
Proof.
  intros Hl. unfold prefix_of. destruct (d =? 0)%nat; [done|].
  rewrite !is_last_more, more_siblings_skip by done. rewrite connector_base_skip; [done|].
  eapply Forall_impl; [exact Hl|]. intros e He. simpl in *. lia.
Qed.

Lemma connector_base_succ g d later : connector_base g (S d) later = below_of g d later.
Proof.
  unfold connector_base, below_of. replace (S d - 1)%nat with d by lia.
  destruct (Nat.eqb_spec d 0) as [->|Hd]; [done|]. destruct d as [|d]; [done|].
  rewrite seq_S, fmap_app, concat_app. unfold connector_base. replace (S d - 1)%nat with d by lia. simpl.
  by rewrite app_nil_r.
Qed.

Lemma drawn_children_cons g below t ts :
  drawn_children g below (t :: ts)
  = drawn_node g (below ++ (if bool_decide (ts = []) then tree_last g else tree_branch g))
                 (below ++ (if bool_decide (ts = []) then tree_gap g else tree_pipe g)) t
    ++ drawn_children g below ts.
Proof. destruct ts; simpl; [by rewrite app_nil_r|done]. Qed.

Lemma shaped_walk_head d t : shaped d t → ∃ e l, walk t = e :: l ∧ e.2 = d.
Proof. intros Hs. inversion Hs; subst. by eexists _, _. Qed.

Lemma prefixes_children g d ts later :
  Forall (shaped (S d)) ts →
  Forall (λ t, ∀ d later, shaped d t → follows d later →
    prefixes g (walk t ++ later) = drawn_node g (prefix_of g d later) (below_of g d later) t ++ prefixes g later) ts →
  follows d later →
  prefixes g (concat (map walk ts) ++ later) = drawn_children g (below_of g d later) ts ++ prefixes g later.
Proof.
  intros Hs Hi Hf. revert later Hf. induction ts as [|t ts IH]; intros later Hf; [done|].
  apply Forall_cons in Hs as [Hst Hs]. apply Forall_cons in Hi as [Hit Hi]. cbn [map concat].
  rewrite <- app_assoc.
  assert (Forall (λ e : ProcessInfo * nat, d < e.2)%nat (concat (map walk ts))) as Hdeep.
  { apply Forall_concat, Forall_fmap. eapply Forall_impl; [exact Hs|]. intros t' Ht'. by apply walk_deeper. }
  set (rest := concat (map walk ts) ++ later).
  assert (follows (S d) rest ∧
    more_siblings_after rest (S d) = negb (bool_decide (ts = []))) as [Hfr Hm].
  { subst rest. destruct ts as [|t2 ts]; simpl.
    - destruct later as [|[p k] later]; simpl in *; [done|]. split; [lia|].
      by rewrite (proj2 (Nat.ltb_lt k (S d))) by lia.
    - apply Forall_cons in Hs as [Hs2 _]. destruct (shaped_walk_head _ _ Hs2) as ([p k] & l & -> & E).
      simpl in *. subst k. split; [lia|]. by rewrite Nat.ltb_irrefl, Nat.eqb_refl. }
  rewrite (Hit (S d) rest Hst Hfr). rewrite drawn_children_cons, <- app_assoc. f_equal.
  - unfold prefix_of, below_of at 1. cbn [Nat.eqb]. rewrite is_last_more, Hm, connector_base_succ, negb_involutive.
    subst rest. rewrite !below_of_skip by done. by destruct (bool_decide (ts = [])).
  - subst rest. by apply IH.
Qed.

Lemma prefixes_node g t d later :
  shaped d t → follows d later →
  prefixes g (walk t ++ later) = drawn_node g (prefix_of g d later) (below_of g d later) t ++ prefixes g later.
Proof.
  revert d later. induction t as [p ts k IH] using TreeNode_nested_ind. intros d later Hs Hf.
  assert (k = d ∧ Forall (shaped (S d)) ts) as [-> Hts] by (inversion Hs; subst; done).
  rewrite drawn_node_eq.
  change (prefix_of g d (concat (map walk ts) ++ later) :: prefixes g (concat (map walk ts) ++ later)
          = prefix_of g d later :: (drawn_children g (below_of g d later) ts ++ prefixes g later)).
  f_equal.
  - apply prefix_of_skip. apply Forall_concat, Forall_fmap. eapply Forall_impl; [exact Hts|].
    intros t' Ht'. by apply walk_deeper.
  - by apply prefixes_children.
Qed.

Lemma prefixes_forest g ts :
  Forall (shaped 0) ts → prefixes g (flatten_tree ts) = drawn_forest g ts.
Proof.
  unfold flatten_tree, drawn_forest. induction 1 as [|t ts Ht Hts IH]; [done|]. cbn [map concat].
  rewrite (prefixes_node g t 0); [|done|].
  - csimpl. by rewrite IH.
  - destruct Hts as [|t2 ts Ht2 Hts]; simpl; [done|].
    destruct (shaped_walk_head _ _ Ht2) as (e & l & -> & E). simpl. lia.
Qed.

(** C9: the connectors in front of the processes draw their tree: line by line they
    are those of the recursive drawing, in which a node hangs from its parent by a
    branch, or by a corner when it is the last of its siblings, and a bar runs
    down past its descendants exactly as long as siblings of it follow. *)
Theorem connectors_draw_the_tree procs u :
  let g := Glyphs_new u in
  let tree := build_process_tree procs in
  let entries := flatten_tree tree in
  length (drawn_forest g tree) = length entries ∧
  ∀ idx, (idx < length entries)%nat → drawn_forest g tree !! idx = Some (tree_prefix entries idx g).
Proof.
  intros g tree entries. rewrite <- (prefixes_forest g tree) by apply tree_shaped.
  split; [apply prefixes_length|]. intros idx Hi. by apply prefixes_lookup.
Qed.

(** *** Painting *)

Lemma clean_tree_prefix {To : Tolerance} u entries idx : clean (tree_prefix entries idx (Glyphs_new u)).
Proof.
  unfold tree_prefix. destruct (_ =? 0)%nat; [apply clean_nil|]. apply clean_app.
  - apply clean_concat, Forall_fmap, Forall_true. intros l. unfold compose.
    destruct (ancestor_has_more_siblings _ _ _); auto with clean.
  - destruct (is_last_at_depth _ _); auto with clean.
Qed.

#[export] Hint Resolve clean_tree_prefix : clean.

Lemma clean_process_row {To : Tolerance} u s theme bp proc prefix :
  (∀ p, prefix = Some p → clean p) →
  Forall (λ c, clean (cell_text c)) (process_row proc prefix (mkRender s theme (Glyphs_new u) bp)).
Proof.
  intros Hp. unfold process_row. cbn [r_glyphs r_theme]. destruct prefix as [p|]; [specialize (Hp p eq_refl)|];
    solve_row.
Qed.

Section Paint.
Context {Uc : Unicode} {To : Tolerance} `{!Layouts}.
Variables (u : bool) (s : AppState) (theme : Theme) (bp : Breakpoint).
Let r := mkRender s theme (Glyphs_new u) bp.

Lemma processes_spec_clean : clean_spec (processes_spec s) (process_at r).
Proof.
  split.
  - by apply clean_labels_of; repeat constructor.
  - cbn [empty processes_spec]. destruct (bool_decide _); solve_empty.
  - intros i. unfold process_at, r. cbn [r_app r_glyphs]. destruct (tree_mode s).
    + destruct (visible_tree s !! i) as [[p d]|]; [|constructor]. apply clean_process_row.
      intros ? [= <-]. auto with clean.
    + destruct (visible_processes s !! i) as [p|]; [|constructor]. by apply clean_process_row.
Qed.

Lemma processes_painted area f :
  rect_ok area → clean (filter_text s) → painted area f (draw_processes_tab area r f).
Proof.
  intros Hok Hf. unfold draw_processes_tab, r. cbn [r_app r_theme r_glyphs].
  destruct (last_snapshot s) as [snap|].
  2: { apply painted_Some, paints_empty; [done|]. unfold with_ellipsis. solve_empty. }
  edestruct vertical_2 as (ta & fa & -> & [Hta Hto] & [Hfa Hfo]); [exact Hok|].
  apply painted_Some. eapply paints_trans.
  - eapply paints_mono; [exact Hta|]. apply paints_table; [done|]. apply processes_spec_clean.
  - destruct (0 <? _); [|apply paints_refl]. eapply paints_mono; [exact Hfa|].
    apply paints_filter_bar; [done|done|by apply clean_check].
Qed.
End Paint.
