(* ===== verification/NetworkView.v ===== *)
(** * The network tab: crates/muxtop-tui/src/ui/network.rs *)

From S2P Require Import Prelude Str RsFloat Num FloatFacts Actions Process Network Gpu.
From S2P Require Import Snapshots Keymap Ui KubeView Palette App Terminal Theme Canvas.
From S2P Require Import Columns Table Meters View.
Local Open Scope Z_scope.
Local Open Scope record_scope.

Definition COL_NAME : nat := 0.
Definition COL_RX : nat := 2.
Definition COL_TX : nat := 3.
Definition COL_TOTAL_RX : nat := 4.
Definition COL_TOTAL_TX : nat := 5.
Definition COL_ERRORS : nat := 6.

Definition COLUMNS : list Column :=
  [flex (lit "INTERFACE") 12 PRIO_ESSENTIAL; fixed (lit "S") 2 Left PRIO_LOW;
   fixed (lit "RX/s") 12 Right PRIO_ESSENTIAL; fixed (lit "TX/s") 12 Right PRIO_ESSENTIAL;
   fixed (lit "TOTAL RX") 10 Right PRIO_MEDIUM; fixed (lit "TOTAL TX") 10 Right PRIO_MEDIUM;
   fixed (lit "ERR") 7 Right PRIO_HIGH].

#[global] Instance NetworkSortField_eq_dec : EqDecision NetworkSortField.
Proof. solve_decision. Defined.

Definition GRAPH_HEIGHT : Z := 4.

Definition sort_column (field : NetworkSortField) : option nat :=
  Some match field with
       | NetSort.Name => COL_NAME
       | NetSort.RxRate => COL_RX
       | NetSort.TxRate => COL_TX
       | NetSort.TotalRx => COL_TOTAL_RX
       | NetSort.TotalTx => COL_TOTAL_TX
       | NetSort.Errors => COL_ERRORS
       end.

(** The sum of two [u64], which wraps. *)
Definition errors_of (i : NetworkInterfaceSnapshot) : Z := (errors_rx i + errors_tx i) mod 2 ^ 64.

Section Tab.
Context {Uc : Unicode} `{!Layouts}.

Definition interface_cmp (history : NetworkHistory) (field : NetworkSortField)
    : NetworkInterfaceSnapshot → NetworkInterfaceSnapshot → comparison :=
  match field with
  | NetSort.Name => by_key str_cmp if_name
  | NetSort.RxRate => λ a b,
      default Eq (float_partial_cmp (bandwidth_rx history (if_name b)) (bandwidth_rx history (if_name a)))
  | NetSort.TxRate => λ a b,
      default Eq (float_partial_cmp (bandwidth_tx history (if_name b)) (bandwidth_tx history (if_name a)))
  | NetSort.TotalRx => desc bytes_rx
  | NetSort.TotalTx => desc bytes_tx
  | NetSort.Errors => desc errors_of
  end.

(** The rows as the table shows them. *)
Definition sorted_interfaces (s : AppState) : list NetworkInterfaceSnapshot :=
  let rows := sort_by (interface_cmp (network_history s) (net_sort_field s)) (visible_interfaces s) in
  let ascending := bool_decide (net_sort_order s = Asc) in
  let natural_ascending := bool_decide (net_sort_field s = NetSort.Name) in
  if negb (Bool.eqb ascending natural_ascending) then reverse rows else rows.

Definition interface_row (iface : NetworkInterfaceSnapshot) (r : Render) : Row :=
  let history := network_history (r_app r) in
  let g := r_glyphs r in
  let rx := float_as_uint u64_max (bandwidth_rx history (if_name iface)) in
  let tx := float_as_uint u64_max (bandwidth_tx history (if_name iface)) in
  let errors := errors_of iface in
  let level := if is_up iface then Level.Success else Level.Neutral in
  [Cell_new (scrub_ctrl (if_name iface));
   colored (marker level g) (level_color (r_theme r) level);
   Cell_new (arrow_down g ++ lit " " ++ human_rate rx);
   Cell_new (arrow_up g ++ lit " " ++ human_rate tx);
   Cell_new (human_bytes (bytes_rx iface));
   Cell_new (human_bytes (bytes_tx iface));
   if 0 <? errors then colored (show errors) (danger (r_theme r)) else Cell_new (lit "0")].

(** [iter().sum()] of floats starts from a negative zero. *)
Definition f64_sum (l : list f64) : f64 := foldl f64_add (S754_zero true) l.

Definition draw_summary (area : Rect) (r : Render) (interfaces : list NetworkInterfaceSnapshot)
    (frame : Frame) : Frame :=
  let history := network_history (r_app r) in
  let g := r_glyphs r in
  let t := r_theme r in
  let rx := f64_sum ((λ i, bandwidth_rx history (if_name i)) <$> interfaces) in
  let tx := f64_sum ((λ i, bandwidth_tx history (if_name i)) <$> interfaces) in
  let up := length (List.filter is_up interfaces) in
  render_widget (paragraph
    [[mkSpan (lit " Network ") (accent_fill t);
      mkSpan (lit "  Interfaces " ++ nat_show up ++ lit "/" ++ nat_show (length interfaces)) (dim t);
      mkSpan (lit "   Total " ++ arrow_down g ++ lit " " ++ human_rate (float_as_uint u64_max rx)
              ++ lit "   " ++ arrow_up g ++ lit " " ++ human_rate (float_as_uint u64_max tx)) (body t)]])
    area frame.

(** [rx.iter().chain(tx.iter()).copied().max().unwrap_or(1).max(1)]. *)
Definition graph_scale (rx tx : list Z) : Z :=
  Z.max 1 (match rx ++ tx with [] => 1 | x :: l => foldl Z.max x l end).

Definition graph_line (r : Render) (arrow : str) (data : list Z) (width scale : Z) (color : Color) : option Line :=
  spans ← line (r_theme r) (r_glyphs r) data width (Some scale) Flat color;
  Some (mkSpan (lit " " ++ arrow ++ lit " ") (dim (r_theme r)) :: spans).

Definition draw_graph (area : Rect) (r : Render) (interfaces : list NetworkInterfaceSnapshot)
    (frame : Frame) : option Frame :=
  match interfaces !! net_selected (r_app r) with
  | None => Some frame
  | Some iface =>
      let width := saturating_sub (r_width area) 14 in
      if width =? 0 then Some frame
      else
        let history := network_history (r_app r) in
        let g := r_glyphs r in
        let t := r_theme r in
        let rx := sparkline_rx history (if_name iface) (Z.to_nat width) in
        let tx := sparkline_tx history (if_name iface) (Z.to_nat width) in
        let scale := graph_scale rx tx in
        rx_line ← graph_line r (arrow_down g) rx width scale (success t);
        tx_line ← graph_line r (arrow_up g) tx width scale (info t);
        Some (render_widget (paragraph
          [[mkSpan (lit " " ++ scrub_ctrl (if_name iface) ++ lit " ") (accent t)];
           rx_line; tx_line;
           [mkSpan (lit " peak " ++ human_rate scale) (subtle t)]]) area frame)
  end.

Definition interfaces_spec (s : AppState) (interfaces : list NetworkInterfaceSnapshot) : Spec :=
  mkSpec COLUMNS (sort_column (net_sort_field s)) (bool_decide (net_sort_order s = Desc)) (length interfaces)
    (net_selected s) (net_scroll_offset s) (App.col_scroll s)
    (if bool_decide (net_filter_input s = [])
     then empty_state (lit "No network interfaces") (Some (lit "Nothing is reporting traffic."))
     else no_match (lit "No matching interfaces")).

Definition interface_at (r : Render) (interfaces : list NetworkInterfaceSnapshot) (idx : nat) : Row :=
  match interfaces !! idx with Some iface => interface_row iface r | None => [] end.

Definition draw_network_tab (area : Rect) (r : Render) (frame : Frame) : option Frame :=
  let s := r_app r in
  match last_snapshot s with
  | None => Some (render_empty area (waiting (with_ellipsis r (lit "Waiting for data"))) (r_theme r) frame)
  | Some _ =>
      let interfaces := sorted_interfaces s in
      let filter_h := if filter_editing s then 1 else 0 in
      let graph_h := if negb (bool_decide (interfaces = [])) && (12 <=? r_height area) then GRAPH_HEIGHT else 0 in
      match vertical [Length 1; Fill 1; Length graph_h; Length filter_h] area with
      | [summary_area; table_area; graph_area; filter_area] =>
          let frame := draw_summary summary_area r interfaces frame in
          let frame := (draw (r_theme r) (r_glyphs r) table_area (interfaces_spec s interfaces)
                          (interface_at r interfaces) frame).2 in
          frame ← (if 0 <? graph_h then draw_graph graph_area r interfaces frame else Some frame);
          Some (if 0 <? filter_h then filter_bar_draw filter_area r (lit "Filter interfaces") frame else frame)
      | _ => None
      end
  end.
End Tab.

(** ** Properties *)

(** Sorting the rows shows each interface once. *)
Lemma sorted_interfaces_permutation {Uc : Unicode} s : sorted_interfaces s ≡ₚ visible_interfaces s.
Proof.
  unfold sorted_interfaces. destruct (negb _); [rewrite reverse_Permutation|]; apply sort_by_perm.
Qed.

Section Paint.
Context {Uc : Unicode} {To : Tolerance} `{!Layouts}.
Variables (u : bool) (s : AppState) (theme : Theme) (bp : Breakpoint).
Let r := mkRender s theme (Glyphs_new u) bp.

Lemma clean_interface_row i : Forall (λ c, clean (cell_text c)) (interface_row i r).
Proof. unfold interface_row, r. cbn [r_glyphs r_theme r_app]. destruct (0 <? errors_of i); solve_row. Qed.

Lemma interfaces_spec_clean interfaces : clean_spec (interfaces_spec s interfaces) (interface_at r interfaces).
Proof.
  split.
  - by apply clean_labels_of; repeat constructor.
  - cbn [empty interfaces_spec]. destruct (bool_decide _); solve_empty.
  - intros i. unfold interface_at. destruct (interfaces !! i); [apply clean_interface_row|constructor].
Qed.

Lemma net_summary_painted area interfaces f : rect_ok area → paints area f (draw_summary area r interfaces f).
Proof.
  intros Hok. unfold draw_summary, r. cbn [r_glyphs r_theme r_app].
  apply paints_line; [by apply within_refl|]. solve_line.
Qed.

Lemma graph_line_clean arrow data width scale color :
  clean arrow → ∃ l, graph_line r arrow data width scale color = Some l ∧ clean_line l.
Proof.
  intros Ha. unfold graph_line, r. cbn [r_glyphs r_theme].
  destruct (spark_clean theme u data width (Some scale) Flat color) as (l & -> & Hl).
  eexists. split; [done|]. solve_line.
Qed.

Lemma net_graph_painted area interfaces f : rect_ok area → painted area f (draw_graph area r interfaces f).
Proof.
  intros Hok. unfold draw_graph. destruct (interfaces !! _) as [i|]; [|apply painted_Some, paints_refl].
  destruct (_ =? 0); [apply painted_Some, paints_refl|].
  edestruct (graph_line_clean (arrow_down (r_glyphs r))) as (l1 & -> & H1);
    [unfold r; cbn [r_glyphs]; auto with clean|].
  cbn [mbind option_bind].
  edestruct (graph_line_clean (arrow_up (r_glyphs r))) as (l2 & -> & H2);
    [unfold r; cbn [r_glyphs]; auto with clean|].
  apply painted_Some, paints_lines; [by apply within_refl|].
  solve_lines.
Qed.

Lemma network_painted area f :
  rect_ok area → clean (filter_text s) → painted area f (draw_network_tab area r f).
Proof.
  intros Hok Hf. unfold draw_network_tab. change (r_app r) with s. change (r_theme r) with theme.
  change (r_glyphs r) with (Glyphs_new u).
  destruct (last_snapshot s) as [snap|].
  2: { apply painted_Some, paints_empty; [done|]. unfold with_ellipsis, r. solve_empty. }
  set (graph_h := if _ && _ then GRAPH_HEIGHT else 0).
  edestruct vertical_4 as (sa & ta & ga & fa & -> & [Hsa Hso] & [Hta Hto] & [Hga Hgo] & [Hfa Hfo]); [exact Hok|].
  eapply painted_after; [eapply paints_mono; [exact Hsa|by apply net_summary_painted]|].
  eapply painted_after; [eapply paints_mono; [exact Hta|apply paints_table; [done|apply interfaces_spec_clean]]|].
  apply painted_bind.
  - destruct (0 <? graph_h); [|apply painted_Some, paints_refl].
    eapply painted_mono; [exact Hga|by apply net_graph_painted].
  - intros f'. apply painted_Some. destruct (0 <? _); [|apply paints_refl].
    eapply paints_mono; [exact Hfa|]. by apply paints_filter_bar; [..|apply clean_check].
Qed.
End Paint.
