(* ===== verification/ContainersView.v ===== *)
(** * The containers tab: crates/muxtop-tui/src/ui/containers.rs *)

From S2P Require Import Prelude Str RsFloat Num FloatFacts Actions Process Network Gpu.
From S2P Require Import Snapshots Keymap Ui KubeView Palette App Terminal Theme Canvas.
From S2P Require Import Columns Table Meters View.
Local Open Scope Z_scope.
Local Open Scope record_scope.

Definition COL_NAME : nat := 0.
Definition COL_CPU : nat := 3.
Definition COL_MEM : nat := 4.
Definition COL_RX : nat := 5.
Definition COL_TX : nat := 6.
Definition COL_UPTIME : nat := 7.

Definition COLUMNS : list Column :=
  [fixed (lit "NAME") 22 Left PRIO_ESSENTIAL; flex (lit "IMAGE") 16 PRIO_MEDIUM;
   fixed (lit "STATE") 13 Left PRIO_ESSENTIAL; fixed (lit "CPU%") 7 Right PRIO_HIGH;
   fixed (lit "MEMORY") 18 Right PRIO_HIGH; fixed (lit "RX/s") 10 Right PRIO_LOW;
   fixed (lit "TX/s") 10 Right PRIO_LOW; fixed (lit "UPTIME") 9 Right PRIO_LOW].

Definition GRAPH_HEIGHT : Z := 4.

Definition sort_column (field : ContainerSortField) : option nat :=
  Some match field with
       | CtrSort.Name => COL_NAME
       | CtrSort.Cpu => COL_CPU
       | CtrSort.Mem => COL_MEM
       | CtrSort.NetRx => COL_RX
       | CtrSort.NetTx => COL_TX
       | CtrSort.Uptime => COL_UPTIME
       end.

Definition state_level (state : ContainerState) : Level :=
  match state with
  | CtrRunning => Level.Success
  | CtrPaused | CtrCreated => Level.Info
  | CtrRestarting | CtrRemoving => Level.Warning
  | CtrExited | CtrDead => Level.Error
  end.

Definition state_label (state : ContainerState) : str :=
  match state with
  | CtrCreated => lit "created"
  | CtrRunning => lit "running"
  | CtrPaused => lit "paused"
  | CtrRestarting => lit "restarting"
  | CtrExited => lit "exited"
  | CtrDead => lit "dead"
  | CtrRemoving => lit "removing"
  end.

Definition uptime (started_at_ms now_ms : Z) : str :=
  if (started_at_ms =? 0) || (now_ms <=? started_at_ms) then lit "0s"
  else format_age ((now_ms - started_at_ms) / 1000).

Definition container_row (c : ContainerSnapshot) (now_ms : Z) (r : Render) : Row :=
  let g := r_glyphs r in
  let theme := r_theme r in
  let level := state_level (ctr_state c) in
  let running := bool_decide (ctr_state c = CtrRunning) in
  let memory :=
    if 0 <? mem_limit_bytes c
    then human_bytes (ctr_mem_used_bytes c) ++ lit "/" ++ human_bytes (mem_limit_bytes c)
    else human_bytes (ctr_mem_used_bytes c) in
  let dash := Theme.none g in
  [Cell_new (scrub_ctrl (ctr_name c));
   Cell_new (scrub_ctrl (image c));
   colored (marker level g ++ lit " " ++ state_label (ctr_state c)) (level_color theme level);
   if running then colored (fmt_fixed 1 (cpu_pct c)) (gauge_color theme (f64_from (cpu_pct c)))
   else Cell_new dash;
   if running then Cell_new memory else Cell_new dash;
   if running then Cell_new (human_bytes (net_rx_bytes c)) else Cell_new dash;
   if running then Cell_new (human_bytes (net_tx_bytes c)) else Cell_new dash;
   if running then Cell_new (uptime (started_at_ms c) now_ms) else Cell_new dash].

Definition draw_summary (area : Rect) (r : Render) (cs : ContainersSnapshot) (frame : Frame) : Frame :=
  let t := r_theme r in
  let total := length (containers cs) in
  let running := length (List.filter (λ c, bool_decide (ctr_state c = CtrRunning)) (containers cs)) in
  let engine := match engine cs with
                | Docker => lit "Docker" | Podman => lit "Podman" | UnknownEngine => lit "Engine" end in
  render_widget (paragraph
    [[mkSpan (lit " " ++ engine ++ lit " ") (accent_fill t);
      mkSpan (lit "  " ++ nat_show running ++ lit " running") (body t);
      mkSpan (lit " " ++ sep (r_glyphs r) ++ lit " " ++ nat_show total ++ lit " total") (dim t)]]) area frame.

Definition draw_graph (area : Rect) (r : Render) (rows : list ContainerSnapshot) (frame : Frame)
    : option Frame :=
  let s := r_app r in
  match rows !! containers_selected s with
  | None => Some frame
  | Some c =>
      let width := saturating_sub (r_width area) 10 in
      if width =? 0 then Some frame
      else
        let g := r_glyphs r in
        let t := r_theme r in
        let cpu := container_cpu_history (ctr_id c) s in
        let rx := container_rx_deltas (ctr_id c) s in
        cpu_spans ← line_percent t g cpu width;
        rx_spans ← line t g rx width None Flat (success t);
        Some (render_widget (paragraph
          [[mkSpan (lit " " ++ scrub_ctrl (ctr_name c) ++ lit " ") (accent t)];
           mkSpan (lit " CPU ") (dim t) :: cpu_spans;
           mkSpan (lit " " ++ arrow_down g ++ lit "   ") (dim t) :: rx_spans]) area frame)
  end.

Section Tab.
Context {Uc : Unicode} `{!Layouts}.

Definition containers_spec (s : AppState) (rows : list ContainerSnapshot) : Spec :=
  mkSpec COLUMNS (sort_column (containers_sort_field s)) (bool_decide (containers_sort_order s = Desc))
    (length rows) (containers_selected s) (containers_scroll_offset s) (App.col_scroll s)
    (if bool_decide (containers_filter_input s = [])
     then empty_state (lit "No containers") (Some (lit "The daemon is up but has nothing running."))
     else no_match (lit "No matching containers")).

Definition container_at (r : Render) (now_ms : Z) (rows : list ContainerSnapshot) (idx : nat) : Row :=
  match rows !! idx with Some c => container_row c now_ms r | None => [] end.

Definition no_engine : EmptyState :=
  empty_state (lit "No container engine configured")
    (Some (lit "Start Docker or Podman and relaunch, or pass --docker-socket.")).

Definition no_daemon : EmptyState :=
  error_state (lit "No container daemon detected") (lit "The socket is not answering.")
    (lit "Run `docker` or `podman system service`, and check your user is in the `docker` group.").

Definition draw_containers_tab (area : Rect) (r : Render) (frame : Frame) : option Frame :=
  let s := r_app r in
  let t := r_theme r in
  match last_snapshot s with
  | None => Some (render_empty area (waiting (with_ellipsis r (lit "Waiting for data"))) t frame)
  | Some snapshot =>
    match sys_containers snapshot with
    | None => Some (render_empty area no_engine t frame)
    | Some cs =>
      if negb (daemon_up cs) then Some (render_empty area no_daemon t frame)
      else
        let rows := sorted_filtered_containers_cache s in
        let filter_h := if filter_editing s then 1 else 0 in
        let graph_h := if negb (bool_decide (rows = [])) && (14 <=? r_height area) then GRAPH_HEIGHT else 0 in
        match vertical [Length 1; Fill 1; Length graph_h; Length filter_h] area with
        | [summary_area; table_area; graph_area; filter_area] =>
            let frame := draw_summary summary_area r cs frame in
            let frame := (draw t (r_glyphs r) table_area (containers_spec s rows)
                            (container_at r (timestamp_ms snapshot) rows) frame).2 in
            frame ← (if 0 <? graph_h then draw_graph graph_area r rows frame else Some frame);
            Some (if 0 <? filter_h then filter_bar_draw filter_area r (lit "Filter containers") frame else frame)
        | _ => None
        end
    end
  end.
End Tab.

(** ** Properties *)

(** The columns headed RX/s and TX/s show the bytes received and sent since the
    container was started, not a rate. *)
Example rate_columns_show_totals c now r :
  ctr_state c = CtrRunning →
  cell_text <$> container_row c now r !! COL_RX = Some (human_bytes (net_rx_bytes c)) ∧
  label <$> COLUMNS !! COL_RX = Some (lit "RX/s").
Proof. intros E. unfold container_row. rewrite E. split; reflexivity. Qed.

Section Paint.
Context {Uc : Unicode} {To : Tolerance} `{!Layouts}.
Variables (u : bool) (s : AppState) (theme : Theme) (bp : Breakpoint).
Let r := mkRender s theme (Glyphs_new u) bp.

Lemma clean_state_label st : clean (state_label st).
Proof. destruct st; by apply clean_check. Qed.

Lemma clean_uptime a b : clean (uptime a b).
Proof. unfold uptime. destruct (_ || _); [by apply clean_check|auto with clean]. Qed.

Hint Resolve clean_state_label clean_uptime : clean.

Lemma clean_container_row c now : Forall (λ k, clean (cell_text k)) (container_row c now r).
Proof.
  unfold container_row, r. cbn [r_glyphs r_theme r_app].
  destruct (bool_decide _), (0 <? mem_limit_bytes c); solve_row.
Qed.

Lemma containers_spec_clean now rows : clean_spec (containers_spec s rows) (container_at r now rows).
Proof.
  split.
  - by apply clean_labels_of; repeat constructor.
  - cbn [empty containers_spec]. destruct (bool_decide _); solve_empty.
  - intros i. unfold container_at. destruct (rows !! i); [apply clean_container_row|constructor].
Qed.

Lemma ctr_summary_painted area cs f : rect_ok area → paints area f (draw_summary area r cs f).
Proof.
  intros Hok. unfold draw_summary, r. cbn [r_glyphs r_theme r_app].
  apply paints_line; [by apply within_refl|]. destruct (engine cs); solve_line.
Qed.

Lemma ctr_graph_painted area rows f : rect_ok area → painted area f (draw_graph area r rows f).
Proof.
  intros Hok. unfold draw_graph, r. cbn [r_glyphs r_theme r_app].
  destruct (rows !! _) as [c|]; [|apply painted_Some, paints_refl].
  destruct (_ =? 0); [apply painted_Some, paints_refl|].
  destruct (spark_percent_clean theme u (container_cpu_history (ctr_id c) s) (saturating_sub (r_width area) 10))
    as (l1 & -> & H1).
  destruct (spark_clean theme u (container_rx_deltas (ctr_id c) s) (saturating_sub (r_width area) 10) None Flat
              (success theme)) as (l2 & E2 & H2).
  cbn [mbind option_bind]. rewrite E2. apply painted_Some, paints_lines; [by apply within_refl|]. solve_lines.
Qed.

Lemma containers_painted area f :
  rect_ok area → clean (filter_text s) → painted area f (draw_containers_tab area r f).
Proof.
  intros Hok Hf. unfold draw_containers_tab. change (r_app r) with s. change (r_theme r) with theme.
  change (r_glyphs r) with (Glyphs_new u).
  destruct (last_snapshot s) as [snap|].
  2: { apply painted_Some, paints_empty; [done|]. unfold with_ellipsis, r. solve_empty. }
  destruct (sys_containers snap) as [cs|].
  2: { apply painted_Some, paints_empty; [done|]. unfold no_engine. solve_empty. }
  destruct (daemon_up cs); cbn [negb].
  2: { apply painted_Some, paints_empty; [done|]. unfold no_daemon. solve_empty. }
  set (rows := sorted_filtered_containers_cache s). set (graph_h := if _ && _ then GRAPH_HEIGHT else 0).
  edestruct vertical_4 as (sa & ta & ga & fa & -> & [Hsa Hso] & [Hta Hto] & [Hga Hgo] & [Hfa Hfo]); [exact Hok|].
  eapply painted_after; [eapply paints_mono; [exact Hsa|by apply ctr_summary_painted]|].
  eapply painted_after; [eapply paints_mono; [exact Hta|apply paints_table; [done|apply containers_spec_clean]]|].
  apply painted_bind.
  - destruct (0 <? graph_h); [|apply painted_Some, paints_refl].
    eapply painted_mono; [exact Hga|by apply ctr_graph_painted].
  - intros f'. apply painted_Some. destruct (0 <? _); [|apply paints_refl].
    eapply paints_mono; [exact Hfa|]. by apply paints_filter_bar; [..|apply clean_check].
Qed.
End Paint.
