(* ===== verification/GpuView.v ===== *)
(** * The GPU tab: crates/muxtop-tui/src/ui/gpu.rs

    A metric a driver does not report is a dash, and its device goes last. *)

From S2P Require Import Prelude Str RsFloat Num FloatFacts Actions Process Network Gpu.
From S2P Require Import Snapshots Keymap Ui KubeView Palette App Terminal Theme Canvas.
From S2P Require Import Columns Table Meters View.
Local Open Scope Z_scope.
Local Open Scope record_scope.

#[global] Instance GpuVendor_eq_dec : EqDecision GpuVendor.
Proof. solve_decision. Defined.

#[global] Instance GpuSortField_eq_dec : EqDecision GpuSortField.
Proof. solve_decision. Defined.

Definition DEVICE_COLUMNS : list Column :=
  [fixed (lit "#") 4 Right PRIO_ESSENTIAL; flex (lit "DEVICE") 18 PRIO_ESSENTIAL;
   fixed (lit "VENDOR") 9 Left PRIO_LOW; fixed (lit "UTIL") 7 Right PRIO_ESSENTIAL;
   fixed (lit "VRAM") 18 Right PRIO_HIGH; fixed (lit "TEMP") 7 Right PRIO_HIGH;
   fixed (lit "POWER") 12 Right PRIO_MEDIUM; fixed (lit "CLOCK") 9 Right PRIO_LOW;
   fixed (lit "FAN") 6 Right PRIO_LOW; fixed (lit "ENC/DEC") 10 Right PRIO_LOW].

Definition DEVICE_MEM_COLUMN : nat := 4.

Definition PROC_COLUMNS : list Column :=
  [fixed (lit "PID") 8 Right PRIO_ESSENTIAL; fixed (lit "GPU") 5 Right PRIO_MEDIUM;
   flex (lit "PROCESS") 18 PRIO_ESSENTIAL; fixed (lit "TYPE") 10 Left PRIO_LOW;
   fixed (lit "VRAM") 10 Right PRIO_ESSENTIAL].

Definition backend_label (b : GpuBackend) : str :=
  match b with Nvml => lit "NVML" | AmdSysfs => lit "amdgpu" | AppleIoReport => lit "IOReport" end.

Definition memory_label (snap : GpusSnapshot) : str :=
  let all_unified := negb (bool_decide (devices snap = []))
                     && forallb (λ d, bool_decide (vendor d = Apple)) (devices snap) in
  if all_unified then lit "MEM" else lit "VRAM".

Definition device_columns (snap : GpusSnapshot) : list Column :=
  alter (λ c, mkColumn (memory_label snap) (width c) (align c) (priority c)) DEVICE_MEM_COLUMN DEVICE_COLUMNS.

Definition vendor_label (v : GpuVendor) : str :=
  match v with
  | Nvidia => lit "NVIDIA" | Amd => lit "AMD" | Intel => lit "Intel" | Apple => lit "Apple"
  | UnknownVendor => lit "Unknown"
  end.

Definition GpuSubview_label (sv : GpuSubview) : str :=
  match sv with GpuSubview.Devices => lit "Devices" | GpuSubview.Procs => lit "Procs" end.

(** ** Sorting *)

(** A cast to a signed integer: towards zero, saturating, a NaN being 0. *)
Definition float_as_i64 (x : spec_float) : Z :=
  let i64_max := 9223372036854775807 in
  match x with
  | S754_finite s m e => Z.max (- i64_max - 1) (Z.min i64_max (cond_Zopp s (Z.shiftl (Zpos m) e)))
  | S754_infinity s => if s then - i64_max - 1 else i64_max
  | _ => 0
  end.

Definition f32_key (v : f32) : Z := float_as_i64 (f32_mul v (f32_of_Z 100)).

Definition metric_missing (field : GpuSortField) (d : GpuDeviceSnapshot) : bool :=
  match field with
  | DeviceUtil => bool_decide (utilization_pct d = None)
  | DeviceMem => bool_decide (mem_used_bytes d = None)
  | DeviceTemp => bool_decide (temperature_c d = None)
  | DevicePower => bool_decide (power_watts d = None)
  | _ => false
  end.

Definition bool_key {A} (key : A → bool) : A → A → comparison := asc (λ a, if key a then 1 else 0).

(** Parks at the end what is missing, and sorts the rest. *)
Definition sort_reported {A} (missing : A → bool) (cmp : A → A → comparison) (flip : bool) (l : list A) : list A :=
  let l := sort_by (bool_key missing) l in
  let split := default (length l) (position missing l) in
  let reported := sort_by cmp (take split l) in
  (if flip then reverse reported else reported) ++ drop split l.

Definition device_cmp (field : GpuSortField) : GpuDeviceSnapshot → GpuDeviceSnapshot → comparison :=
  match field with
  | DeviceName => by_key str_cmp gpu_name
  | DeviceUtil => desc (λ d, f32_key (default f32_zero (utilization_pct d)))
  | DeviceMem => desc (λ d, default 0 (mem_used_bytes d))
  | DeviceTemp => desc (λ d, f32_key (default f32_zero (temperature_c d)))
  | DevicePower => desc (λ d, f32_key (default f32_zero (power_watts d)))
  | _ => asc index
  end.

Definition sort_devices (l : list GpuDeviceSnapshot) (field : GpuSortField) (order : SortOrder)
    : list GpuDeviceSnapshot :=
  let ascending := bool_decide (order = Asc) in
  let natural_ascending := bool_decide (field = DeviceIndex ∨ field = DeviceName) in
  sort_reported (metric_missing field) (device_cmp field) (negb (Bool.eqb ascending natural_ascending)) l.

Definition proc_missing (field : GpuSortField) (p : GpuProcessSnapshot) : bool :=
  bool_decide (field = ProcMem) && bool_decide (gpu_mem_bytes p = None).

Definition proc_cmp (field : GpuSortField) : GpuProcessSnapshot → GpuProcessSnapshot → comparison :=
  match field with
  | ProcPid => asc gpu_pid
  | ProcName => by_key str_cmp gpu_proc_name
  | ProcDevice => λ a b, match device_index a ?= device_index b with Eq => gpu_pid a ?= gpu_pid b | c => c end
  | _ => desc (λ p, default 0 (gpu_mem_bytes p))
  end.

Definition sort_procs (l : list GpuProcessSnapshot) (field : GpuSortField) (order : SortOrder)
    : list GpuProcessSnapshot :=
  let ascending := bool_decide (order = Asc) in
  let natural_ascending := negb (bool_decide (field = ProcMem)) in
  sort_reported (proc_missing field) (proc_cmp field) (negb (Bool.eqb ascending natural_ascending)) l.

Definition device_sort_column (field : GpuSortField) : option nat :=
  match field with
  | DeviceIndex => Some 0%nat | DeviceName => Some 1%nat | DeviceUtil => Some 3%nat
  | DeviceMem => Some 4%nat | DeviceTemp => Some 5%nat | DevicePower => Some 6%nat | _ => None
  end.

Definition proc_sort_column (field : GpuSortField) : option nat :=
  match field with
  | ProcPid => Some 0%nat | ProcDevice => Some 1%nat | ProcName => Some 2%nat | ProcMem => Some 4%nat
  | _ => None
  end.

(** ** Rows *)

Definition f32_abs (x : f32) : f32 := SFabs x.

Definition watts (w : f32) : str :=
  if float_lt (f32_abs w) (f32_of_Z 10) then fmt_fixed 1 w else fmt_fixed 0 w.

(** [used as f64 / total as f64 * 100.0]. *)
Definition share_of (used total : Z) : f64 := f64_mul (f64_div (f64_of_Z used) (f64_of_Z total)) (f64_of_Z 100).

Definition device_row (d : GpuDeviceSnapshot) (r : Render) : Row :=
  let t := r_theme r in
  let dash := Cell_new (Theme.none (r_glyphs r)) in
  let util := match utilization_pct d with
              | Some p => colored (fmt_fixed 0 p ++ lit "%") (gauge_color t (f64_from p))
              | None => dash end in
  let vram := match mem_used_bytes d, mem_total_bytes d with
              | Some used, Some total =>
                  if 0 <? total
                  then colored (human_bytes used ++ lit "/" ++ human_bytes total) (gauge_color t (share_of used total))
                  else Cell_new (human_bytes used)
              | Some used, None => Cell_new (human_bytes used)
              | None, _ => dash end in
  let temp := match temperature_c d with
              | Some c =>
                  colored (fmt_fixed 0 c ++ lit "C")
                    (if float_ge c (f32_of_Z 83) then danger t
                     else if float_ge c (f32_of_Z 70) then warning t else success t)
              | None => dash end in
  let power := match power_watts d, power_limit_watts d with
               | Some w, Some limit => Cell_new (watts w ++ lit "/" ++ watts limit ++ lit "W")
               | Some w, None => Cell_new (watts w ++ lit "W")
               | None, _ => dash end in
  let clock := match graphics_clock_mhz d with Some c => Cell_new (show c ++ lit "MHz") | None => dash end in
  let fan := match fan_pct d with Some f => Cell_new (fmt_fixed 0 f ++ lit "%") | None => dash end in
  let encdec := match encoder_pct d, decoder_pct d with
                | Some e, Some dec => Cell_new (fmt_fixed 0 e ++ lit "/" ++ fmt_fixed 0 dec ++ lit "%")
                | _, _ => dash end in
  [Cell_new (show (index d)); Cell_new (scrub_ctrl (gpu_name d)); Cell_new (vendor_label (vendor d));
   util; vram; temp; power; clock; fan; encdec].

Definition proc_kind_label (k : GpuProcessKind) : str :=
  match k with
  | Compute => lit "compute" | Graphics => lit "graphics" | Both => lit "both" | UnknownKind => lit "unknown"
  end.

Definition proc_row (p : GpuProcessSnapshot) (r : Render) : Row :=
  let g := r_glyphs r in
  [Cell_new (show (gpu_pid p)); Cell_new (show (device_index p));
   Cell_new (if bool_decide (gpu_proc_name p = []) then Theme.none g else scrub_ctrl (gpu_proc_name p));
   Cell_new (proc_kind_label (gpu_kind p));
   Cell_new (match gpu_mem_bytes p with Some b => human_bytes b | None => Theme.none g end)].

(** For the dashboard. *)
Definition device_level (d : GpuDeviceSnapshot) : Level :=
  match utilization_pct d with
  | Some p => if float_ge p (f32_of_Z 80) then Level.Error
              else if float_ge p (f32_of_Z 50) then Level.Warning else Level.Success
  | None => Level.Neutral
  end.

Definition device_summary (d : GpuDeviceSnapshot) (g : Glyphs) : str :=
  let util := match utilization_pct d with Some p => fmt_fixed 0 p ++ lit "%" | None => Theme.none g end in
  match mem_used_bytes d, mem_total_bytes d with
  | Some used, Some total =>
      util ++ lit " " ++ sep g ++ lit " " ++ human_bytes used ++ lit "/" ++ human_bytes total
  | _, _ => util
  end.

(** ** The tab *)

Definition draw_summary (area : Rect) (r : Render) (snap : GpusSnapshot) (frame : Frame) : Frame :=
  let t := r_theme r in
  let labels := backend_label <$> backends snap in
  render_widget (paragraph
    [[mkSpan (lit " GPU ") (accent_fill t);
      mkSpan (lit "  " ++ nat_show (length (devices snap)) ++ lit " device") (body t);
      mkSpan (if (length (devices snap) =? 1)%nat then [] else lit "s") (body t);
      mkSpan (lit " " ++ sep (r_glyphs r) ++ lit " " ++ join (lit " + ") labels) (dim t)]]) area frame.

Definition draw_subtabs (area : Rect) (r : Render) (snap : GpusSnapshot) (frame : Frame) : Frame :=
  let t := r_theme r in
  let spans := λ '(sv, key, count),
    let active := bool_decide (sv = gpu_subview (r_app r)) in
    [mkSpan (lit " " ++ key ++ lit " ") (if active then key_style t else subtle t);
     mkSpan (GpuSubview_label sv ++ lit " " ++ nat_show count ++ lit "  ") (if active then accent t else dim t)] in
  render_widget (paragraph
    [[(GpuSubview.Devices, lit "D", length (devices snap)); (GpuSubview.Procs, lit "P", length (gpu_processes snap))]
       ≫= spans]) area frame.

Section Tab.
Context {Uc : Unicode} `{!Layouts}.

Definition shown_devices (s : AppState) (snap : GpusSnapshot) : list GpuDeviceSnapshot :=
  let f := to_lowercase (gpu_filter_input s) in
  sort_devices
    (List.filter (λ d, bool_decide (f = []) || lower_contains (gpu_name d) f
                       || lower_contains (vendor_label (vendor d)) f) (devices snap))
    (gpu_sort_field s) (gpu_sort_order s).

Definition shown_procs (s : AppState) (snap : GpusSnapshot) : list GpuProcessSnapshot :=
  let f := to_lowercase (gpu_filter_input s) in
  sort_procs (List.filter (λ p, bool_decide (f = []) || lower_contains (gpu_proc_name p) f) (gpu_processes snap))
    (gpu_sort_field s) (gpu_sort_order s).

Definition devices_spec (s : AppState) (snap : GpusSnapshot) : Spec :=
  mkSpec (device_columns snap) (device_sort_column (gpu_sort_field s)) (bool_decide (gpu_sort_order s = Desc))
    (length (shown_devices s snap)) (gpu_selected s) (gpu_scroll_offset s) (App.col_scroll s)
    (if bool_decide (to_lowercase (gpu_filter_input s) = []) then empty_state (lit "No GPU devices") None
     else no_match (lit "No matching GPUs")).

Definition device_at (r : Render) (snap : GpusSnapshot) (idx : nat) : Row :=
  match shown_devices (r_app r) snap !! idx with Some d => device_row d r | None => [] end.

Definition draw_devices (area : Rect) (r : Render) (snap : GpusSnapshot) (frame : Frame) : Frame :=
  (draw (r_theme r) (r_glyphs r) area (devices_spec (r_app r) snap) (device_at r snap) frame).2.

Definition no_accounting : EmptyState :=
  empty_state (lit "Per-process GPU usage is unavailable")
    (Some (lit "This backend exposes no per-process accounting: a driver limitation, not an idle GPU.")).

Definition procs_spec (s : AppState) (snap : GpusSnapshot) : Spec :=
  mkSpec PROC_COLUMNS (proc_sort_column (gpu_sort_field s)) (bool_decide (gpu_sort_order s = Desc))
    (length (shown_procs s snap)) (gpu_selected s) (gpu_scroll_offset s) (App.col_scroll s)
    (if bool_decide (to_lowercase (gpu_filter_input s) = []) then empty_state (lit "No processes are using the GPU") None
     else no_match (lit "No matching processes")).

Definition proc_at (r : Render) (snap : GpusSnapshot) (idx : nat) : Row :=
  match shown_procs (r_app r) snap !! idx with Some p => proc_row p r | None => [] end.

Definition draw_procs (area : Rect) (r : Render) (snap : GpusSnapshot) (frame : Frame) : Frame :=
  if bool_decide (gpu_processes snap = []) && negb (existsb supports_process_stats (devices snap))
  then render_empty area no_accounting (r_theme r) frame
  else (draw (r_theme r) (r_glyphs r) area (procs_spec (r_app r) snap) (proc_at r snap) frame).2.

Definition no_gpu (snap : GpusSnapshot) : EmptyState :=
  let detail := scrub_ctrl (detail snap) in
  if bool_decide (detail = []) then empty_state (lit "No GPU detected") None
  else empty_state (lit "No GPU detected") (Some detail).

Definition draw_gpu_tab (area : Rect) (r : Render) (frame : Frame) : option Frame :=
  let s := r_app r in
  match (snapshot ← last_snapshot s; sys_gpu snapshot) with
  | None => Some (render_empty area (waiting (with_ellipsis r (lit "Probing for GPUs"))) (r_theme r) frame)
  | Some snap =>
    if negb (available snap) then Some (render_empty area (no_gpu snap) (r_theme r) frame)
    else
      let filter_h := if filter_editing s then 1 else 0 in
      match vertical [Length 1; Length 1; Fill 1; Length filter_h] area with
      | [summary_area; subtab_area; table_area; filter_area] =>
          let frame := draw_summary summary_area r snap frame in
          let frame := draw_subtabs subtab_area r snap frame in
          let frame := match gpu_subview s with
                       | GpuSubview.Devices => draw_devices table_area r snap frame
                       | GpuSubview.Procs => draw_procs table_area r snap frame
                       end in
          Some (if 0 <? filter_h then filter_bar_draw filter_area r (lit "Filter GPUs") frame else frame)
      | _ => None
      end
  end.
End Tab.

(** ** Properties *)

(** *** Sorting *)

Lemma position_spec {A} (p : A → bool) l i :
  position p l = Some i → Forall (λ a, p a = false) (take i l) ∧ ∃ a k, drop i l = a :: k ∧ p a = true.
Proof.
  unfold position. destruct (list_find _ l) as [[j a]|] eqn:E; [|done]. intros [= <-].
  apply list_find_Some in E as (Hj & Hp & Hb). split.
  - apply Forall_lookup. intros k b Hk. apply lookup_take_Some in Hk as [Hk Hlt].
    specialize (Hb k b Hk Hlt). by destruct (p b).
  - exists a, (drop (S j) l). split; [by apply drop_S|done].
Qed.

Lemma position_None {A} (p : A → bool) l : position p l = None → Forall (λ a, p a = false) l.
Proof.
  unfold position. destruct (list_find _ l) eqn:E; [done|]. intros _. apply list_find_None in E.
  eapply Forall_impl; [exact E|]. intros a Ha. cbn in Ha. apply not_true_is_false. intros Hp. by rewrite Hp in Ha.
Qed.

Lemma in_order_drop {A} (cmp : A → A → comparison) n l : in_order cmp l → in_order cmp (drop n l).
Proof.
  unfold in_order. revert l. induction n as [|n IH]; intros [|a l] Hl; simpl; try done.
  apply IH. by apply StronglySorted_inv in Hl as [].
Qed.

Section Reported.
Context {A : Type} (missing : A → bool) (cmp : A → A → comparison).
Hypothesis Hcmp : total_preorder (λ _, True) cmp.

Lemma sort_reported_spec flip l :
  ∃ shown parked, sort_reported missing cmp flip l = shown ++ parked ∧ shown ++ parked ≡ₚ l ∧
    Forall (λ a, missing a = false) shown ∧ Forall (λ a, missing a = true) parked ∧
    in_order cmp (if flip then reverse shown else shown).
Proof.
  unfold sort_reported. set (l' := sort_by (bool_key missing) l).
  assert (l' ≡ₚ l) as Hp by apply sort_by_perm.
  assert (in_order (bool_key missing) l') as Hs
    by (apply (sort_by_in_order (λ _, True)); [apply asc_preorder|by apply Forall_true]).
  set (split := default (length l') (position missing l')).
  assert (Forall (λ a, missing a = false) (take split l') ∧ Forall (λ a, missing a = true) (drop split l')) as [Ht Hd].
  { subst split. destruct (position missing l') as [i|] eqn:E; simpl.
    - apply position_spec in E as [Hb (a & k & Ek & Ha)]. split; [done|]. rewrite Ek.
      unfold in_order in Hs. apply (in_order_drop _ i) in Hs. rewrite Ek in Hs.
      apply StronglySorted_inv in Hs as [_ Hs]. constructor; [done|]. eapply Forall_impl; [exact Hs|].
      intros b Hb'. unfold bool_key, asc, by_key in Hb'. rewrite Ha in Hb'. by destruct (missing b).
    - apply position_None in E. rewrite take_ge, drop_ge by done. by split. }
  exists (if flip then reverse (sort_by cmp (take split l')) else sort_by cmp (take split l')), (drop split l').
  split; [done|]. split; [|split; [|split; [done|]]].
  - transitivity (take split l' ++ drop split l'); [|by rewrite take_drop].
    apply Permutation_app_tail. destruct flip; [rewrite reverse_Permutation|]; apply sort_by_perm.
  - destruct flip; [apply Forall_reverse|]; by rewrite sort_by_perm.
  - assert (in_order cmp (sort_by cmp (take split l'))) by
      (apply (sort_by_in_order (λ _, True)); [done|by apply Forall_true]).
    destruct flip; [by rewrite reverse_involutive|done].
Qed.
End Reported.

Lemma device_cmp_preorder field : total_preorder (λ _, True) (device_cmp field).
Proof.
  destruct field; simpl; try apply asc_preorder; try apply desc_preorder; apply by_name_preorder.
Qed.

Lemma proc_cmp_preorder field : total_preorder (λ _, True) (proc_cmp field).
Proof.
  destruct field; simpl; try apply asc_preorder; try apply desc_preorder; try apply by_name_preorder.
  apply (lex_preorder _ (asc device_index) (asc gpu_pid)); apply asc_preorder.
Qed.

(** C10: Whichever column the GPU tables are sorted by and whichever way, each
    list shows every entry once, those that report the metric before those that
    do not; the former are in the column's order, or in its reverse, and a
    column reads upwards exactly when the order says so. *)
Theorem gpu_tables_sorted field order ds ps :
  (∃ shown parked, sort_devices ds field order = shown ++ parked ∧ shown ++ parked ≡ₚ ds ∧
    Forall (λ d, metric_missing field d = false) shown ∧ Forall (λ d, metric_missing field d = true) parked ∧
    in_order (device_cmp field)
      (if bool_decide (order = Asc) then
         if bool_decide (field = DeviceIndex ∨ field = DeviceName) then shown else reverse shown
       else if bool_decide (field = DeviceIndex ∨ field = DeviceName) then reverse shown else shown)) ∧
  (∃ shown parked, sort_procs ps field order = shown ++ parked ∧ shown ++ parked ≡ₚ ps ∧
    Forall (λ p, proc_missing field p = false) shown ∧ Forall (λ p, proc_missing field p = true) parked ∧
    in_order (proc_cmp field)
      (if bool_decide (order = Asc) then if bool_decide (field = ProcMem) then reverse shown else shown
       else if bool_decide (field = ProcMem) then shown else reverse shown)).
Proof.
  split.
  - destruct (sort_reported_spec (metric_missing field) (device_cmp field) (device_cmp_preorder field)
      (negb (Bool.eqb (bool_decide (order = Asc)) (bool_decide (field = DeviceIndex ∨ field = DeviceName)))) ds)
      as (shown & parked & E & Hp & Hs & Hk & Ho).
    exists shown, parked. repeat split; try done. revert Ho. by repeat case_bool_decide.
  - destruct (sort_reported_spec (proc_missing field) (proc_cmp field) (proc_cmp_preorder field)
      (negb (Bool.eqb (bool_decide (order = Asc)) (negb (bool_decide (field = ProcMem))))) ps)
      as (shown & parked & E & Hp & Hs & Hk & Ho).
    exists shown, parked. repeat split; try done. revert Ho. by repeat case_bool_decide.
Qed.

(** *** Drawing *)

Section Paint.
Context {Uc : Unicode} {To : Tolerance} `{!Layouts}.
Variables (u : bool) (s : AppState) (theme : Theme) (bp : Breakpoint).
Let r := mkRender s theme (Glyphs_new u) bp.

Lemma clean_vendor v : clean (vendor_label v).
Proof. destruct v; by apply clean_check. Qed.

Lemma clean_backend b : clean (backend_label b).
Proof. destruct b; by apply clean_check. Qed.

Lemma clean_kind k : clean (proc_kind_label k).
Proof. destruct k; by apply clean_check. Qed.

Lemma clean_subview sv : clean (GpuSubview_label sv).
Proof. destruct sv; by apply clean_check. Qed.

Lemma clean_watts w : clean (watts w).
Proof. unfold watts. destruct (float_lt _ _); auto with clean. Qed.

#[local] Hint Resolve clean_vendor clean_backend clean_kind clean_subview clean_watts : clean.

Lemma clean_device_row d : Forall (λ c, clean (cell_text c)) (device_row d r).
Proof.
  unfold device_row, r. cbn [r_glyphs r_theme r_app].
  repeat (apply Forall_cons; split;
    [repeat match goal with |- clean (cell_text (match ?x with _ => _ end)) => destruct x end;
     cbn [cell_text Cell_new colored]; solve_clean|]).
  constructor.
Qed.

Lemma clean_proc_row p : Forall (λ c, clean (cell_text c)) (proc_row p r).
Proof. unfold proc_row, r. cbn [r_glyphs r_theme r_app]. solve_row. Qed.

Lemma devices_clean snap : clean_spec (devices_spec s snap) (device_at r snap).
Proof.
  split.
  - cbn [columns devices_spec]. unfold device_columns, memory_label. apply clean_labels_of.
    destruct (_ && _); repeat constructor.
  - cbn [empty devices_spec]. destruct (bool_decide _); solve_empty.
  - intros i. unfold device_at. destruct (_ !! i); [apply clean_device_row|constructor].
Qed.

Lemma procs_clean snap : clean_spec (procs_spec s snap) (proc_at r snap).
Proof.
  split.
  - by apply clean_labels_of; repeat constructor.
  - cbn [empty procs_spec]. destruct (bool_decide _); solve_empty.
  - intros i. unfold proc_at. destruct (_ !! i); [apply clean_proc_row|constructor].
Qed.

Lemma gpu_summary_painted area snap f : rect_ok area → paints area f (draw_summary area r snap f).
Proof.
  intros Hok. unfold draw_summary, r. cbn [r_glyphs r_theme r_app].
  apply paints_line; [by apply within_refl|]. solve_line.
  apply clean_join; [by apply clean_check|]. apply Forall_fmap, Forall_true. intros b. apply clean_backend.
Qed.

Lemma gpu_subtabs_painted area snap f : rect_ok area → paints area f (draw_subtabs area r snap f).
Proof.
  intros Hok. unfold draw_subtabs, r. apply paints_line; [by apply within_refl|]. csimpl. solve_line.
Qed.

Lemma devices_painted area snap f : rect_ok area → paints area f (draw_devices area r snap f).
Proof. intros Hok. apply (paints_table u); [done|apply devices_clean]. Qed.

Lemma procs_painted area snap f : rect_ok area → paints area f (draw_procs area r snap f).
Proof.
  intros Hok. unfold draw_procs. destruct (_ && _).
  - apply paints_empty; [done|]. unfold no_accounting. solve_empty.
  - apply (paints_table u); [done|apply procs_clean].
Qed.

Lemma gpu_painted area f : rect_ok area → clean (filter_text s) → painted area f (draw_gpu_tab area r f).
Proof.
  intros Hok Hf. unfold draw_gpu_tab. change (r_app r) with s. change (r_theme r) with theme.
  destruct (_ ≫= _) as [snap|].
  2: { apply painted_Some, paints_empty; [done|]. unfold with_ellipsis, r. solve_empty. }
  destruct (available snap); cbn [negb].
  2: { apply painted_Some, paints_empty; [done|]. unfold no_gpu. destruct (bool_decide _); solve_empty. }
  edestruct vertical_4 as (sa & ta & ga & fa & -> & [Hsa Hso] & [Hta Hto] & [Hga Hgo] & [Hfa Hfo]); [exact Hok|].
  eapply painted_after; [eapply paints_mono; [exact Hsa|by apply (gpu_summary_painted sa snap)]|].
  eapply painted_after; [eapply paints_mono; [exact Hta|by apply (gpu_subtabs_painted ta snap)]|].
  set (f2 := draw_subtabs _ _ _ _).
  apply (painted_after _ _ (match gpu_subview s with
    | GpuSubview.Devices => draw_devices ga r snap f2 | GpuSubview.Procs => draw_procs ga r snap f2 end)).
  { eapply paints_mono; [exact Hga|].
    destruct (gpu_subview s); [by apply devices_painted|by apply procs_painted]. }
  apply painted_Some. destruct (0 <? _); [|apply paints_refl].
  eapply paints_mono; [exact Hfa|]. by apply paints_filter_bar; [..|apply clean_check].
Qed.
End Paint.
