(* ===== verification/KubeTable.v ===== *)
(** * The Kubernetes tab: crates/muxtop-tui/src/ui/kube.rs

    The three tables over the cached view ([KubeView]), the cluster's line and
    the sub-view selector. *)

From S2P Require Import Prelude Str RsFloat Num FloatFacts Actions Process Network Gpu.
From S2P Require Import Snapshots Keymap Ui KubeView Palette App Terminal Theme Canvas.
From S2P Require Import Columns Table Meters View.
Local Open Scope Z_scope.
Local Open Scope record_scope.

Definition POD_COLUMNS : list Column :=
  [fixed (lit "NAMESPACE") 18 Left PRIO_MEDIUM; flex (lit "POD") 20 PRIO_ESSENTIAL;
   fixed (lit "PHASE") 15 Left PRIO_ESSENTIAL; fixed (lit "READY") 8 Right PRIO_HIGH;
   fixed (lit "RESTARTS") 10 Right PRIO_HIGH; fixed (lit "CPU") 8 Right PRIO_LOW;
   fixed (lit "MEM") 9 Right PRIO_LOW; fixed (lit "AGE") 7 Right PRIO_MEDIUM].

Definition NODE_COLUMNS : list Column :=
  [flex (lit "NODE") 20 PRIO_ESSENTIAL; fixed (lit "STATUS") 20 Left PRIO_ESSENTIAL;
   fixed (lit "ROLES") 16 Left PRIO_LOW; fixed (lit "CPU") 9 Right PRIO_HIGH;
   fixed (lit "MEM") 9 Right PRIO_HIGH; fixed (lit "PODS") 9 Right PRIO_MEDIUM;
   fixed (lit "VERSION") 14 Left PRIO_LOW; fixed (lit "AGE") 7 Right PRIO_MEDIUM].

Definition DEPLOY_COLUMNS : list Column :=
  [fixed (lit "NAMESPACE") 18 Left PRIO_MEDIUM; flex (lit "DEPLOYMENT") 20 PRIO_ESSENTIAL;
   fixed (lit "READY") 9 Right PRIO_ESSENTIAL; fixed (lit "UP-TO-DATE") 12 Right PRIO_HIGH;
   fixed (lit "AVAILABLE") 11 Right PRIO_HIGH; fixed (lit "STRATEGY") 15 Left PRIO_LOW;
   fixed (lit "AGE") 7 Right PRIO_MEDIUM].

(** ** Names *)

Definition KubeSubview_label (sv : KubeSubview) : str :=
  match sv with
  | KubeSubview.Pods => lit "Pods" | KubeSubview.Nodes => lit "Nodes"
  | KubeSubview.Deployments => lit "Deployments"
  end.

(** [{:?}]. *)
Definition ClusterKind_debug (k : ClusterKind) : str :=
  match k with
  | Generic => lit "Generic" | Kind => lit "Kind" | K3d => lit "K3d" | K3s => lit "K3s"
  | Eks => lit "Eks" | Gke => lit "Gke" | Aks => lit "Aks" | Openshift => lit "Openshift"
  end.

Definition NodeStatus_debug (n : NodeStatus) : str :=
  match n with
  | NodeReady => lit "Ready" | NotReady => lit "NotReady"
  | SchedulingDisabled => lit "SchedulingDisabled" | NodeUnknown => lit "Unknown"
  end.

Definition DeploymentStrategy_debug (d : DeploymentStrategy) : str :=
  match d with RollingUpdate => lit "RollingUpdate" | Recreate => lit "Recreate" end.

(** ** Rows *)

Definition show_pair (p : Z * Z) : str := show (fst p) ++ lit "/" ++ show (snd p).

Definition pod_row (p : PodSnapshot) (r : Render) : Row :=
  let t := r_theme r in
  let level := phase_level (phase p) in
  let dash := Theme.none (r_glyphs r) in
  let ready_ok := (fst (ready p) =? snd (ready p)) && (0 <? snd (ready p)) in
  [Cell_new (scrub_ctrl (pod_namespace p)); Cell_new (scrub_ctrl (pod_name p));
   colored (marker level (r_glyphs r) ++ lit " " ++ phase_label (phase p)) (level_color t level);
   (if ready_ok then Cell_new (show_pair (ready p)) else colored (show_pair (ready p)) (warning t));
   (if 0 <? restarts p then colored (show (restarts p)) (warning t) else Cell_new (lit "0"));
   Cell_new (match cpu_millis p with Some m => show m ++ lit "m" | None => dash end);
   Cell_new (match pod_mem_bytes p with Some b => human_bytes b | None => dash end);
   Cell_new (format_age (pod_age_seconds p))].

Definition pod_sort_column (field : KubeSortField) : option nat :=
  match field with
  | PodName => Some 1%nat | PodPhaseField => Some 2%nat | PodRestarts => Some 4%nat
  | PodCpu => Some 5%nat | PodMem => Some 6%nat | PodAge => Some 7%nat | _ => None
  end.

Definition node_level (status : NodeStatus) : Level :=
  match status with
  | NodeReady => Level.Success | SchedulingDisabled => Level.Warning
  | NotReady => Level.Error | NodeUnknown => Level.Warning
  end.

(** What is used of what can be allocated. *)
Definition allocated_pct (used allocatable : Z) : f64 :=
  if 0 <? allocatable
  then f64_mul (f64_div (f64_of_Z used) (f64_of_Z allocatable)) (f64_of_Z 100)
  else f64_of_Z 0.

Definition pct_cell (t : Theme) (pct : f64) : Cell := colored (fmt_fixed 0 pct ++ lit "%") (gauge_color t pct).

Definition node_row (n : NodeSnapshot) (r : Render) : Row :=
  let t := r_theme r in
  let level := node_level (node_status n) in
  let dash := Theme.none (r_glyphs r) in
  [Cell_new (scrub_ctrl (node_name n));
   colored (marker level (r_glyphs r) ++ lit " " ++ NodeStatus_debug (node_status n)) (level_color t level);
   Cell_new (if bool_decide (node_roles n = []) then dash else join (lit ",") (node_roles n));
   (match cpu_used_millis n with
    | Some used => pct_cell t (allocated_pct used (cpu_allocatable_millis n))
    | None => Cell_new dash end);
   (match node_mem_used_bytes n with
    | Some used => pct_cell t (allocated_pct used (mem_allocatable_bytes n))
    | None => Cell_new dash end);
   Cell_new (show_pair (pod_count n, pod_capacity n));
   Cell_new (scrub_ctrl (kubelet_version n));
   Cell_new (format_age (node_age_seconds n))].

Definition node_sort_column (field : KubeSortField) : option nat :=
  match field with
  | NodeName => Some 0%nat | NodeCpuPct => Some 3%nat | NodeMemPct => Some 4%nat
  | NodePodCount => Some 5%nat | NodeAge => Some 7%nat | _ => None
  end.

Definition deploy_row (d : DeploymentSnapshot) (r : Render) : Row :=
  let t := r_theme r in
  let healthy := replicas_ready d =? replicas_desired d in
  let ready := show_pair (replicas_ready d, replicas_desired d) in
  [Cell_new (scrub_ctrl (dep_namespace d)); Cell_new (scrub_ctrl (dep_name d));
   (if healthy then colored ready (success t) else colored ready (warning t));
   Cell_new (show (replicas_uptodate d)); Cell_new (show (replicas_available d));
   Cell_new (DeploymentStrategy_debug (strategy d)); Cell_new (format_age (dep_age_seconds d))].

Definition deploy_sort_column (field : KubeSortField) : option nat :=
  match field with
  | DeployNamespace => Some 0%nat | DeployName => Some 1%nat | DeployReadyRatio => Some 2%nat
  | DeployAge => Some 6%nat | _ => None
  end.

(** ** Tables *)

(** The cached order over the snapshot's rows; an index past them is skipped. *)
Definition cached {A} (s : AppState) (rows : list A) : list A := omap (λ i, rows !! i) (kube_view_cache s).

Definition kube_spec (s : AppState) (columns : list Column) (sort_col : option nat) (total : nat)
    (empty : EmptyState) : Spec :=
  mkSpec columns sort_col (bool_decide (kube_sort_order s = Desc)) total (kube_selected s) (kube_scroll_offset s)
    (App.col_scroll s) empty.

Definition rows_at {A} (rows : list A) (row : A → Row) (idx : nat) : Row :=
  match rows !! idx with Some a => row a | None => [] end.

Definition pods_spec (s : AppState) (snap : KubeSnapshot) : Spec :=
  kube_spec s POD_COLUMNS (pod_sort_column (kube_sort_field s)) (length (cached s (pods snap)))
    (if bool_decide (kube_filter_input s = [])
     then empty_state (lit "No pods") (Some (lit "Nothing is scheduled in this scope."))
     else no_match (lit "No matching pods")).

(** Nodes are cluster-scoped: none under a namespace is missing permissions. *)
Definition no_nodes (s : AppState) (snap : KubeSnapshot) : EmptyState :=
  if negb (bool_decide (kube_filter_input s = [])) then no_match (lit "No matching nodes")
  else if bool_decide (current_namespace snap = []) || bool_decide (current_namespace snap = lit "all")
  then empty_state (lit "No nodes") None
  else error_state (lit "No nodes visible") (lit "Nodes are cluster-scoped: there is no namespaced variant.")
         (lit "Listing them needs cluster-wide access; Pods and Deployments are unaffected.").

Definition nodes_spec (s : AppState) (snap : KubeSnapshot) : Spec :=
  kube_spec s NODE_COLUMNS (node_sort_column (kube_sort_field s)) (length (cached s (nodes snap)))
    (no_nodes s snap).

Definition deployments_spec (s : AppState) (snap : KubeSnapshot) : Spec :=
  kube_spec s DEPLOY_COLUMNS (deploy_sort_column (kube_sort_field s)) (length (cached s (deployments snap)))
    (if bool_decide (kube_filter_input s = []) then empty_state (lit "No deployments") None
     else no_match (lit "No matching deployments")).

(** ** The tab *)

Definition draw_context (area : Rect) (r : Render) (snap : KubeSnapshot) (frame : Frame) : Frame :=
  let t := r_theme r in
  render_widget (paragraph
    [[mkSpan (lit " " ++ ClusterKind_debug (cluster_kind snap) ++ lit " ") (accent_fill t); mkSpan (lit "  ") (body t)]
     ++ chip (lit "ns") (scrub_ctrl (current_namespace snap)) t
     ++ match server_version snap with
        | Some version => [mkSpan (lit "   " ++ scrub_ctrl version) (subtle t)]
        | None => [] end
     ++ (if metrics_available snap then []
         else [mkSpan (lit "   no metrics-server ") (level_style t Level.Warning)])]) area frame.

Definition draw_subtabs (area : Rect) (r : Render) (snap : KubeSnapshot) (frame : Frame) : Frame :=
  let t := r_theme r in
  let spans := λ '(sv, key, count),
    let active := bool_decide (sv = kube_subview (r_app r)) in
    [mkSpan (lit " " ++ key ++ lit " ") (if active then key_style t else subtle t);
     mkSpan (KubeSubview_label sv ++ lit " " ++ nat_show count ++ lit "  ") (if active then accent t else dim t)] in
  render_widget (paragraph
    [[(KubeSubview.Pods, lit "P", length (pods snap)); (KubeSubview.Nodes, lit "N", length (nodes snap));
      (KubeSubview.Deployments, lit "D", length (deployments snap))] ≫= spans]) area frame.

Section Tab.
Context {Uc : Unicode} `{!Layouts}.

Definition draw_pods (area : Rect) (r : Render) (snap : KubeSnapshot) (frame : Frame) : Frame :=
  (draw (r_theme r) (r_glyphs r) area (pods_spec (r_app r) snap)
     (rows_at (cached (r_app r) (pods snap)) (λ p, pod_row p r)) frame).2.

Definition draw_nodes (area : Rect) (r : Render) (snap : KubeSnapshot) (frame : Frame) : Frame :=
  (draw (r_theme r) (r_glyphs r) area (nodes_spec (r_app r) snap)
     (rows_at (cached (r_app r) (nodes snap)) (λ n, node_row n r)) frame).2.

Definition draw_deployments (area : Rect) (r : Render) (snap : KubeSnapshot) (frame : Frame) : Frame :=
  (draw (r_theme r) (r_glyphs r) area (deployments_spec (r_app r) snap)
     (rows_at (cached (r_app r) (deployments snap)) (λ d, deploy_row d r)) frame).2.

Definition no_cluster : EmptyState :=
  error_state (lit "No cluster reachable")
    (lit "muxtop found no usable kubeconfig or in-cluster credentials.")
    (lit "Check $KUBECONFIG, or run `kubectl config use-context <name>`.").

Definition draw_subview (area : Rect) (r : Render) (snap : KubeSnapshot) (frame : Frame) : Frame :=
  match kube_subview (r_app r) with
  | KubeSubview.Pods => draw_pods area r snap frame
  | KubeSubview.Nodes => draw_nodes area r snap frame
  | KubeSubview.Deployments => draw_deployments area r snap frame
  end.

Definition draw_kube_tab (area : Rect) (r : Render) (frame : Frame) : option Frame :=
  let s := r_app r in
  match (snapshot ← last_snapshot s; sys_kube snapshot) with
  | None => Some (render_empty area (waiting (with_ellipsis r (lit "Connecting to the cluster"))) (r_theme r) frame)
  | Some snap =>
    if negb (reachable snap) then Some (render_empty area no_cluster (r_theme r) frame)
    else
      let filter_h := if filter_editing s then 1 else 0 in
      match vertical [Length 1; Length 1; Fill 1; Length filter_h] area with
      | [context_area; subtab_area; table_area; filter_area] =>
          let frame := draw_context context_area r snap frame in
          let frame := draw_subtabs subtab_area r snap frame in
          let frame := draw_subview table_area r snap frame in
          Some (if 0 <? filter_h then filter_bar_draw filter_area r (lit "Filter cluster") frame else frame)
      | _ => None
      end
  end.
End Tab.

(** ** Properties *)

(** Indices of the table leave nothing out. *)
Lemma cached_complete {A} (s : AppState) (rows : list A) :
  Forall (λ i, (i < length rows)%nat) (kube_view_cache s) →
  length (cached s rows) = length (kube_view_cache s).
Proof.
  unfold cached. induction 1 as [|i js Hi _ IH]; [done|]. csimpl.
  destruct (lookup_lt_is_Some_2 _ _ Hi) as [a ->]. simpl. by rewrite IH.
Qed.

(** *** Drawing *)

Definition roles_clean {To : Tolerance} (snap : KubeSnapshot) : Prop := Forall (λ n, Forall clean (node_roles n)) (nodes snap).

Section Paint.
Context {Uc : Unicode} {To : Tolerance} `{!Layouts}.
Variables (u : bool) (s : AppState) (theme : Theme) (bp : Breakpoint).
Let r := mkRender s theme (Glyphs_new u) bp.

Lemma clean_phase p : clean (phase_label p).
Proof. destruct p; by apply clean_check. Qed.

Lemma clean_cluster k : clean (ClusterKind_debug k).
Proof. destruct k; by apply clean_check. Qed.

Lemma clean_status n : clean (NodeStatus_debug n).
Proof. destruct n; by apply clean_check. Qed.

Lemma clean_strategy d : clean (DeploymentStrategy_debug d).
Proof. destruct d; by apply clean_check. Qed.

Lemma clean_kube_subview sv : clean (KubeSubview_label sv).
Proof. destruct sv; by apply clean_check. Qed.

Lemma clean_show_pair p : clean (show_pair p).
Proof. unfold show_pair. solve_clean. Qed.

#[local] Hint Resolve clean_phase clean_cluster clean_status clean_strategy clean_kube_subview clean_show_pair : clean.

Lemma clean_pod_row p : Forall (λ c, clean (cell_text c)) (pod_row p r).
Proof.
  unfold pod_row, r. cbn [r_glyphs r_theme r_app]. destruct (_ && _), (0 <? restarts p); solve_row.
Qed.

Lemma clean_node_row n : Forall clean (node_roles n) → Forall (λ c, clean (cell_text c)) (node_row n r).
Proof.
  intros Hr. assert (clean (join (lit ",") (node_roles n))) by by apply clean_join; [apply clean_check|].
  unfold node_row, r. cbn [r_glyphs r_theme r_app].
  destruct (cpu_used_millis n), (node_mem_used_bytes n); unfold pct_cell; solve_row.
Qed.

Lemma clean_deploy_row d : Forall (λ c, clean (cell_text c)) (deploy_row d r).
Proof.
  unfold deploy_row, r. cbn [r_glyphs r_theme r_app]. destruct (_ =? _); solve_row.
Qed.

Lemma clean_rows_at {A} (rows : list A) (row : A → Row) i :
  Forall (λ a, Forall (λ c, clean (cell_text c)) (row a)) rows → Forall (λ c, clean (cell_text c)) (rows_at rows row i).
Proof.
  intros Hr. unfold rows_at. destruct (rows !! i) as [a|] eqn:E; [|constructor].
  rewrite Forall_lookup in Hr. by eapply Hr.
Qed.

Lemma Forall_cached {A} (P : A → Prop) rows : Forall P rows → Forall P (cached s rows).
Proof.
  intros Hr. unfold cached. apply Forall_omap_of. intros i a E. rewrite Forall_lookup in Hr. by eapply Hr.
Qed.

Lemma kube_table_painted {A} area (rows : list A) row columns sort_col e f :
  rect_ok area → Forall (λ c, cleanb (label c) = true) columns → clean_empty e →
  Forall (λ a, Forall (λ c, clean (cell_text c)) (row a)) rows →
  paints area f (draw theme (Glyphs_new u) area (kube_spec s columns sort_col (length (cached s rows)) e)
                   (rows_at (cached s rows) row) f).2.
Proof.
  intros Hok Hc He Hr. apply (paints_table u); [done|]. split; [by apply clean_labels_of|done|].
  intros i. by apply clean_rows_at, Forall_cached.
Qed.

Lemma subview_painted area snap f : rect_ok area → roles_clean snap → paints area f (draw_subview area r snap f).
Proof.
  intros Hok Hn. unfold draw_subview. change (r_app r) with s. destruct (kube_subview s).
  - apply kube_table_painted; [done|by repeat constructor|destruct (bool_decide _); solve_empty|].
    apply Forall_true. intros p. apply clean_pod_row.
  - apply kube_table_painted; [done|by repeat constructor| |].
    + unfold no_nodes. destruct (negb _); [solve_empty|]. destruct (_ || _); solve_empty.
    + eapply Forall_impl; [exact Hn|]. intros n. apply clean_node_row.
  - apply kube_table_painted; [done|by repeat constructor|destruct (bool_decide _); solve_empty|].
    apply Forall_true. intros p. apply clean_deploy_row.
Qed.

Lemma context_painted area snap f : rect_ok area → paints area f (draw_context area r snap f).
Proof.
  intros Hok. unfold draw_context, r, chip. cbn [r_glyphs r_theme r_app].
  apply paints_line; [by apply within_refl|]. solve_line.
Qed.

Lemma kube_subtabs_painted area snap f : rect_ok area → paints area f (draw_subtabs area r snap f).
Proof.
  intros Hok. unfold draw_subtabs, r. apply paints_line; [by apply within_refl|]. csimpl. solve_line.
Qed.

Lemma kube_painted area f :
  rect_ok area → clean (filter_text s) →
  (∀ snapshot snap, last_snapshot s = Some snapshot → sys_kube snapshot = Some snap → roles_clean snap) →
  painted area f (draw_kube_tab area r f).
Proof.
  intros Hok Hf Hr. unfold draw_kube_tab. change (r_app r) with s. change (r_theme r) with theme.
  destruct (last_snapshot s ≫= _) as [snap|] eqn:E.
  2: { apply painted_Some, paints_empty; [done|]. unfold with_ellipsis, r. solve_empty. }
  destruct (last_snapshot s) as [snapshot|]; [|done]. specialize (Hr snapshot snap eq_refl E).
  destruct (reachable snap); cbn [negb].
  2: { apply painted_Some, paints_empty; [done|]. unfold no_cluster. solve_empty. }
  edestruct vertical_4 as (ca & sa & ta & fa & -> & [Hca Hco] & [Hsa Hso] & [Hta Hto] & [Hfa Hfo]); [exact Hok|].
  eapply painted_after; [eapply paints_mono; [exact Hca|by apply (context_painted ca snap)]|].
  eapply painted_after; [eapply paints_mono; [exact Hsa|by apply (kube_subtabs_painted sa snap)]|].
  eapply painted_after; [eapply paints_mono; [exact Hta|by apply (subview_painted ta snap)]|].
  apply painted_Some. destruct (0 <? _); [|apply paints_refl].
  eapply paints_mono; [exact Hfa|]. by apply paints_filter_bar; [..|apply clean_check].
Qed.
End Paint.
