(* ===== verification/GeneralView.v ===== *)
(** * The dashboard: crates/muxtop-tui/src/ui/general.rs

    Panels of meters, the busiest processes, and a line for each other tab. *)

From S2P Require Import Prelude Str RsFloat Num FloatFacts Actions Process Network Gpu.
From S2P Require Import Snapshots Keymap Ui KubeView Palette App Terminal Theme Canvas.
From S2P Require Import Columns Table Meters View NetworkView GpuView.
Local Open Scope Z_scope.
Local Open Scope record_scope.

(** [cores.div_ceil(2)], on an unsigned integer. *)
Definition half_up (n : Z) : Z := (n + 1) / 2.

Definition cpu_height (snapshot : SystemSnapshot) (available : Z) (two_column : bool) : Z :=
  let cores := Z.of_nat (length (cores (cpu snapshot))) mod 2 ^ 16 in
  if cores =? 0 then 3
  else
    let rows := if (8 <? cores) || two_column then half_up cores else cores in
    Z.max 3 (Z.min ((rows + 2) mod 2 ^ 16) (Z.max (available / 2) 3)).

(** ** Comparisons *)

Definition zero_rank (x : spec_float) : Z := match x with S754_zero false => 1 | _ => 0 end.

(** [f32::total_cmp]: a zero's sign counts, and a NaN comes last (its sign is
    not represented, and taken as positive). *)
Definition total_cmp (a b : spec_float) : comparison :=
  match is_nan a, is_nan b with
  | true, true => Eq | true, false => Gt | false, true => Lt
  | false, false =>
      match float_cmp_or_eq a b with Eq => zero_rank a ?= zero_rank b | c => c end
  end.

(** [Iterator::max_by]: of equal elements, the last. *)
Definition max_from {A} (cmp : A → A → comparison) (x : A) (l : list A) : A :=
  foldl (λ best y, match cmp best y with Gt => best | _ => y end) x l.

Definition max_by {A} (cmp : A → A → comparison) (l : list A) : option A :=
  match l with [] => None | x :: l => Some (max_from cmp x l) end.

(** By utilisation, a device that reports none being the idlest. *)
Definition util_cmp (a b : GpuDeviceSnapshot) : comparison :=
  total_cmp (default (f32_of_Z (-1)) (utilization_pct a)) (default (f32_of_Z (-1)) (utilization_pct b)).

(** ** Panels *)

Section Tab.
Context {Uc : Unicode} `{!Layouts}.

(** The frame of a panel; its body is drawn inside unless there is no room. *)
Definition in_panel (title : str) (min_width : Z) (area : Rect) (r : Render) (frame : Frame)
    (body : Rect → Frame → option Frame) : option Frame :=
  let inner := block_inner area in
  let frame := render_widget (block (Some title) false (r_theme r) (r_glyphs r)) area frame in
  if (r_height inner =? 0) || (r_width inner <? min_width) then Some frame else body inner frame.

Definition core_bar (name : str) (usage : f64) (width : Z) (r : Render) : option Line :=
  bar_line (r_theme r) (r_glyphs r) name 6 (fmt_fixed 1 usage ++ lit "%") usage width.

Definition core_bars (cores : list CoreSnapshot) (width height : Z) (r : Render) : option (list Line) :=
  mapM (λ c, core_bar (core_name_of c) (f64_from (Snapshots.usage c)) width r) (take (Z.to_nat height) cores).

Definition mem_pct (used total : Z) : f64 :=
  if 0 <? total then f64_clamp (f64_of_Z 0) (f64_of_Z 100) (share_of used total) else f64_of_Z 0.

Definition mem_bar (label : str) (used total width : Z) (r : Render) : option Line :=
  let pct := mem_pct used total in
  let info := fmt_fixed 0 pct ++ lit "%  " ++ human_bytes used ++ lit "/" ++ human_bytes total in
  bar_line (r_theme r) (r_glyphs r) label 6 info pct width.

Definition draw_memory (area : Rect) (r : Render) (snapshot : SystemSnapshot) (frame : Frame) : option Frame :=
  in_panel (lit "Memory") 1 area r frame (λ inner frame,
    let mem := memory snapshot in
    bar ← mem_bar (lit "Mem") (mem_used mem) (mem_total mem) (r_width inner) r;
    swap ← (if 0 <? swap_total mem
            then line ← mem_bar (lit "Swap") (swap_used mem) (swap_total mem) (r_width inner) r; Some [line]
            else Some []);
    Some (render_widget (paragraph (bar :: swap)) inner frame)).

Definition load_bar (cores width : Z) (r : Render) (load : str * f64) : option Line :=
  let '(label, value) := load in
  let pct := f64_clamp (f64_of_Z 0) (f64_of_Z 100) (f64_mul (f64_div value (f64_of_Z cores)) (f64_of_Z 100)) in
  bar_line (r_theme r) (r_glyphs r) label 4 (fmt_fixed 2 value) pct width.

Definition draw_load (area : Rect) (r : Render) (snapshot : SystemSnapshot) (frame : Frame) : option Frame :=
  in_panel (lit "Load") 1 area r frame (λ inner frame,
    let cores := Z.max 1 (Z.of_nat (length (cores (cpu snapshot)))) in
    let l := load snapshot in
    lines ← mapM (load_bar cores (r_width inner) r)
      (take (Z.to_nat (r_height inner)) [(lit "1m", one l); (lit "5m", five l); (lit "15m", fifteen l)]);
    Some (render_widget (paragraph lines) inner frame)).

(** The interface's traffic, both ways. *)
Definition throughput (history : NetworkHistory) (i : NetworkInterfaceSnapshot) : f64 :=
  f64_add (bandwidth_rx history (if_name i)) (bandwidth_tx history (if_name i)).

Definition rate_line (r : Render) (arrow : str) (data : list Z) (rate : f64) (width scale : Z) (color : Color)
    : option Line :=
  spans ← line (r_theme r) (r_glyphs r) data width (Some scale) Flat color;
  Some (mkSpan (arrow ++ lit " " ++ pad_left 9 (human_rate (float_as_uint u64_max rate)) ++ lit " ") (dim (r_theme r))
        :: spans).

Definition proc_line (r : Render) (cmd_w : nat) (p : ProcessInfo) : Line :=
  let t := r_theme r in
  [mkSpan (pad_left 6 (fmt_fixed 1 (cpu_percent p)) ++ lit " ")
     (with_fg (gauge_color t (f64_from (cpu_percent p))) Style_default);
   mkSpan (pad_left 6 (fmt_fixed 1 (memory_percent p)) ++ lit "  ") (body t);
   mkSpan (truncate (scrub_ctrl (command p)) cmd_w (r_glyphs r)) (body t)].

(** The busiest first. *)
Definition busier (a b : ProcessInfo) : comparison :=
  default Eq (float_partial_cmp (cpu_percent b) (cpu_percent a)).

Definition top_processes (snapshot : SystemSnapshot) (n : nat) : list ProcessInfo :=
  take n (sort_by busier (processes snapshot)).

Definition draw_top_processes (area : Rect) (r : Render) (snapshot : SystemSnapshot) (frame : Frame)
    : option Frame :=
  in_panel (lit "Top processes") 1 area r frame (λ inner frame,
    let header := [mkSpan (pad_left 6 (lit "CPU%") ++ lit " " ++ pad_left 6 (lit "MEM%") ++ lit "  COMMAND")
                     (dim (r_theme r))] in
    let cmd_w := Z.to_nat (saturating_sub (r_width inner) 15) in
    let shown := top_processes snapshot (Z.to_nat (saturating_sub (r_height inner) 1)) in
    Some (render_widget (paragraph (header :: (proc_line r cmd_w <$> shown))) inner frame)).

(** ** The other tabs, a line each *)

Definition row (label value : str) (level : Level) (r : Render) : Line :=
  [mkSpan (pad_right 12 label) (dim (r_theme r)); mkSpan value (level_style (r_theme r) level)].

Definition count_of {A} (p : A → bool) (l : list A) : nat := length (List.filter p l).

Definition process_row (snapshot : SystemSnapshot) (r : Render) : Line :=
  let running := count_of (λ p, bool_decide (status p = lit "Running")) (processes snapshot) in
  row (lit "Processes")
    (nat_show (length (processes snapshot)) ++ lit " " ++ sep (r_glyphs r) ++ lit " " ++ nat_show running
     ++ lit " running") Level.Neutral r.

Definition container_row (snapshot : SystemSnapshot) (r : Render) : Line :=
  match sys_containers snapshot with
  | None => row (lit "Containers") (lit "no engine") Level.Neutral r
  | Some cs =>
      if negb (daemon_up cs) then row (lit "Containers") (lit "daemon down") Level.Error r
      else
        let up := count_of (λ c, bool_decide (ctr_state c = CtrRunning)) (containers cs) in
        row (lit "Containers")
          (nat_show up ++ lit " running " ++ sep (r_glyphs r) ++ lit " " ++ nat_show (length (containers cs))
           ++ lit " total") Level.Success r
  end.

Definition kube_row (snapshot : SystemSnapshot) (r : Render) : Line :=
  match sys_kube snapshot with
  | None => row (lit "Kubernetes") (lit "not configured") Level.Neutral r
  | Some k =>
      if negb (reachable k) then row (lit "Kubernetes") (lit "unreachable") Level.Error r
      else
        let broken := count_of (λ p, bool_decide (phase p = CrashLoop ∨ phase p = PodFailed)) (pods k) in
        let level := if (0 <? broken)%nat then Level.Error else Level.Success in
        let text := nat_show (length (pods k)) ++ lit " pods " ++ sep (r_glyphs r) ++ lit " "
                    ++ if (0 <? broken)%nat then nat_show broken ++ lit " failing"
                       else nat_show (length (nodes k)) ++ lit " nodes" in
        row (lit "Kubernetes") text level r
  end.

Definition gpu_row (snapshot : SystemSnapshot) (r : Render) : Line :=
  let g := r_glyphs r in
  match sys_gpu snapshot with
  | None => row (lit "GPU") (lit "not probed") Level.Neutral r
  | Some gpu =>
      if negb (available gpu) then row (lit "GPU") (lit "none detected") Level.Neutral r
      else
        match devices gpu with
        | [] => row (lit "GPU") (lit "none detected") Level.Neutral r
        | [only] =>
            row (lit "GPU") (scrub_ctrl (gpu_name only) ++ lit " " ++ sep g ++ lit " " ++ device_summary only g)
              (device_level only) r
        | (first :: rest) as many =>
            let busiest := max_from util_cmp first rest in
            row (lit "GPU")
              (nat_show (length many) ++ lit " devices " ++ sep g ++ lit " busiest " ++ device_summary busiest g)
              (device_level busiest) r
        end
  end.

Definition draw_workloads (area : Rect) (r : Render) (snapshot : SystemSnapshot) (frame : Frame) : option Frame :=
  in_panel (lit "Workloads") 1 area r frame (λ inner frame,
    let lines := [process_row snapshot r; container_row snapshot r; kube_row snapshot r; gpu_row snapshot r] in
    Some (render_widget (paragraph (take (Z.to_nat (r_height inner)) lines)) inner frame)).

(** ** The tab *)

Definition draw_cpu (area : Rect) (r : Render) (snapshot : SystemSnapshot) (frame : Frame) : option Frame :=
  in_panel (lit "CPU") 1 area r frame (λ inner frame,
    let cores := cores (cpu snapshot) in
    if bool_decide (cores = []) then Some frame
    else if (r_height inner <? Z.of_nat (length cores)) || (64 <=? r_width inner) then
      match horizontal [Percentage 50; Fill 1] inner with
      | [left_area; right_area] =>
          let mid := Z.to_nat (half_up (Z.of_nat (length cores))) in
          l ← core_bars (take mid cores) (r_width left_area) (r_height left_area) r;
          let frame := render_widget (paragraph l) left_area frame in
          k ← core_bars (drop mid cores) (r_width right_area) (r_height right_area) r;
          Some (render_widget (paragraph k) right_area frame)
      | _ => None
      end
    else
      lines ← core_bars cores (r_width inner) (r_height inner) r;
      Some (render_widget (paragraph lines) inner frame)).

Definition draw_network (area : Rect) (r : Render) (frame : Frame) : option Frame :=
  in_panel (lit "Network") 12 area r frame (λ inner frame,
    let history := network_history (r_app r) in
    let cmp := λ a b, default Eq (float_partial_cmp (throughput history a) (throughput history b)) in
    match max_by cmp (visible_interfaces (r_app r)) with
    | None => Some frame
    | Some busiest =>
        let name := if_name busiest in
        let width := saturating_sub (r_width inner) 12 in
        let rx := sparkline_rx history name (Z.to_nat width) in
        let tx := sparkline_tx history name (Z.to_nat width) in
        let scale := graph_scale rx tx in
        let g := r_glyphs r in
        let t := r_theme r in
        rx_line ← rate_line r (arrow_down g) rx (bandwidth_rx history name) width scale (success t);
        tx_line ← rate_line r (arrow_up g) tx (bandwidth_tx history name) width scale (info t);
        Some (render_widget (paragraph [rx_line; tx_line]) inner frame)
    end).

(** Two panels side by side. *)
Definition side_by_side (area : Rect) (frame : Frame) (draw_left draw_right : Rect → Frame → option Frame)
    : option Frame :=
  match horizontal [Percentage 60; Fill 1] area with
  | [left_area; right_area] => frame ← draw_left left_area frame; draw_right right_area frame
  | _ => None
  end.

Definition draw_general_tab (area : Rect) (r : Render) (frame : Frame) : option Frame :=
  match last_snapshot (r_app r) with
  | None => Some (render_empty area (waiting (with_ellipsis r (lit "Waiting for data"))) (r_theme r) frame)
  | Some snapshot =>
      let two_column := (Breakpoint_rank Md <=? Breakpoint_rank (r_breakpoint r)) && (96 <=? r_width area) in
      let cpu_h := cpu_height snapshot (r_height area) two_column in
      let mem_h := if 0 <? swap_total (memory snapshot) then 4 else 3 in
      match vertical [Length cpu_h; Length mem_h; Fill 1] area with
      | [top; middle; bottom] =>
          frame ← (if two_column then
                     frame ← side_by_side top frame (λ a f, draw_cpu a r snapshot f) (λ a f, draw_load a r snapshot f);
                     side_by_side middle frame (λ a f, draw_memory a r snapshot f) (λ a f, draw_network a r f)
                   else
                     frame ← draw_cpu top r snapshot frame;
                     draw_memory middle r snapshot frame);
          if 3 <=? r_height bottom then
            if two_column then
              side_by_side bottom frame (λ a f, draw_top_processes a r snapshot f)
                (λ a f, draw_workloads a r snapshot f)
            else draw_top_processes bottom r snapshot frame
          else Some frame
      | _ => None
      end
  end.
End Tab.

(** ** Properties *)

Lemma cpu_height_bounds snapshot available two_column :
  3 ≤ cpu_height snapshot available two_column ≤ Z.max 3 (available / 2).
Proof. unfold cpu_height. destruct (_ =? 0); lia. Qed.

(** *** The busiest *)

Lemma total_cmp_preorder : total_preorder (λ _, True) total_cmp.
Proof.
  pose proof (lex_preorder _ float_cmp_or_eq (asc zero_rank) float_cmp_total_preorder
    (preorder_weaken _ (λ _, True) _ (λ _ _, I) (asc_preorder zero_rank))) as [Ha Ht].
  unfold asc, by_key in *. split.
  - intros x y _ _. unfold total_cmp. destruct (is_nan x) eqn:Ex, (is_nan y) eqn:Ey; [done..|by apply Ha].
  - intros x y z _ _ _. unfold total_cmp.
    destruct (is_nan x) eqn:Ex, (is_nan y) eqn:Ey, (is_nan z) eqn:Ez; try done. by apply Ht.
Qed.

Lemma util_cmp_preorder : total_preorder (λ _, True) util_cmp.
Proof.
  apply (by_key_total_preorder _ (λ _, True) total_cmp
    (λ d, default (f32_of_Z (-1)) (utilization_pct d))); [done|apply total_cmp_preorder].
Qed.

Lemma max_from_spec {A} (cmp : A → A → comparison) x l :
  total_preorder (λ _, True) cmp →
  max_from cmp x l ∈ x :: l ∧ ∀ y, y ∈ x :: l → cmp y (max_from cmp x l) ≠ Gt.
Proof.
  intros [Ha Ht]. unfold max_from. revert x. induction l as [|z l IH]; intros x; simpl.
  { split; [by left|]. intros y ->%list_elem_of_singleton. pose proof (Ha x x I I) as E. by destruct (cmp x x). }
  destruct (IH (match cmp x z with Gt => x | _ => z end)) as [Hin Hmax].
  set (best := foldl _ _ _) in *. split.
  - apply elem_of_cons in Hin as [E|Hin]; [|by do 2 right]. rewrite E. destruct (cmp x z); set_solver.
  - assert (∀ w, w = x ∨ w = z → cmp w best ≠ Gt) as Hw.
    { intros w Hw. assert (cmp w (match cmp x z with Gt => x | _ => z end) ≠ Gt) as H1.
      { pose proof (Ha x x I I) as Ex. pose proof (Ha z z I I) as Ez. pose proof (Ha x z I I) as Exz.
        destruct Hw as [-> | ->], (cmp x z) eqn:E; try congruence; rewrite ?Exz; try done;
          by destruct (cmp x x), (cmp z z). }
      eapply Ht; [done..|exact H1|]. apply Hmax. left. }
    intros y Hy. apply elem_of_cons in Hy as [->|Hy]; [by apply Hw; left|].
    apply elem_of_cons in Hy as [->|Hy]; [by apply Hw; right|]. apply Hmax. by right.
Qed.

Lemma busier_preorder : total_preorder (λ p, is_nan (cpu_percent p) = false) busier.
Proof.
  pose proof (by_key_total_preorder (λ p, is_nan (cpu_percent p) = false) _ float_cmp_or_eq cpu_percent
    (λ _ H, H) float_cmp_total_preorder) as [Ha Ht].
  split.
  - intros x y Hx Hy. by apply (Ha y x).
  - intros x y z Hx Hy Hz H1 H2. by apply (Ht z y x).
Qed.

Lemma in_order_app {A} (cmp : A → A → comparison) l k :
  in_order cmp (l ++ k) → Forall (λ x, Forall (λ y, cmp x y ≠ Gt) k) l.
Proof.
  unfold in_order. induction l as [|x l IH]; simpl; [constructor|]. intros [Hs Hf]%StronglySorted_inv.
  constructor; [|by apply IH]. by apply Forall_app in Hf as [_ Hf].
Qed.

(** The dashboard names what is busiest: of the processes it lists as many
    as fit, none left out being busier than one listed, the busiest first; of
    several GPUs, one of which no other reports a higher utilisation. *)
Theorem dashboard_shows_the_busiest snapshot n first rest :
  Forall (λ p, is_nan (cpu_percent p) = false) (processes snapshot) →
  (∃ left_out, top_processes snapshot n ++ left_out ≡ₚ processes snapshot ∧
     length (top_processes snapshot n) = min n (length (processes snapshot)) ∧
     in_order busier (top_processes snapshot n) ∧
     Forall (λ p, Forall (λ q, float_gt (cpu_percent q) (cpu_percent p) = false) left_out)
       (top_processes snapshot n)) ∧
  (max_from util_cmp first rest ∈ first :: rest ∧
   ∀ d, d ∈ first :: rest → util_cmp d (max_from util_cmp first rest) ≠ Gt).
Proof.
  intros Hn. split; [|apply max_from_spec, util_cmp_preorder].
  pose proof (sort_by_in_order _ busier _ busier_preorder Hn) as Hs.
  pose proof (sort_by_perm busier (processes snapshot)) as Hp.
  unfold top_processes. set (l := sort_by busier (processes snapshot)) in *.
  exists (drop n l). rewrite take_drop. split; [done|]. split; [by rewrite length_take, Hp|].
  rewrite <- (take_drop n l) in Hs. split.
  - revert Hs. generalize (take n l), (drop n l). clear. unfold in_order.
    intros k m. induction k as [|x k IH]; simpl; [constructor|]. intros [Hs Hf]%StronglySorted_inv.
    constructor; [by apply IH|]. by apply Forall_app in Hf as [Hf _].
  - apply in_order_app in Hs. eapply Forall_impl; [exact Hs|]. intros p Hq.
    eapply Forall_impl; [exact Hq|]. intros q. unfold busier, float_gt, SFltb, float_partial_cmp.
    rewrite (SFcompare_antisym (cpu_percent p) (cpu_percent q)).
    by destruct (SFcompare (cpu_percent p) (cpu_percent q)) as [[]|].
Qed.

Definition idle_process (n : Z) (cpu : Z) : ProcessInfo :=
  mkProcessInfo n None (lit "p") (lit "p") [] (f32_of_Z cpu) 0 f32_zero (lit "Run").

Definition busy_gpu (n util : Z) : GpuDeviceSnapshot :=
  mkGpuDevice n Nvidia Nvml (lit "g") [] None (Some (f32_of_Z util)) None None None None None None None None
    None None None false.

Definition busy_host : SystemSnapshot :=
  mkSystem (mkCpu f32_zero []) (mkMemory 0 0 0 0 0) (mkLoad (f64_of_Z 0) (f64_of_Z 0) (f64_of_Z 0) 0)
    [idle_process 1 5; idle_process 2 70; idle_process 3 20] (mkNetworkSnapshot [] 0 0) None None None 0.

Lemma dashboard_shows_the_busiest_witness :
  pid <$> top_processes busy_host 2 = [2; 3] ∧ in_order busier (top_processes busy_host 2) ∧
  max_from util_cmp (busy_gpu 0 10) [busy_gpu 1 90; busy_gpu 2 40] = busy_gpu 1 90 ∧
  util_cmp (busy_gpu 2 40) (busy_gpu 1 90) ≠ Gt.
Proof.
  assert (Forall (λ p, is_nan (cpu_percent p) = false) (processes busy_host)) as Hn by (repeat constructor).
  destruct (dashboard_shows_the_busiest busy_host 2 (busy_gpu 0 10) [busy_gpu 1 90; busy_gpu 2 40] Hn)
    as [(left_out & _ & _ & Ho & _) [_ Hm]].
  split; [vm_compute; reflexivity|]. split; [exact Ho|]. split; [vm_compute; reflexivity|].
  apply (Hm (busy_gpu 2 40)). do 2 right. left.
Defined.

(** *** Drawing *)

Definition cores_clean {To : Tolerance} (snapshot : SystemSnapshot) : Prop :=
  Forall (λ c, clean (core_name_of c)) (cores (cpu snapshot)).

Section Paint.
Context {Uc : Unicode} {To : Tolerance} `{!Layouts}.
Variables (u : bool) (s : AppState) (theme : Theme) (bp : Breakpoint).
Let r := mkRender s theme (Glyphs_new u) bp.

Lemma in_panel_painted title min_width area f body :
  rect_ok area → clean title →
  (∀ inner f, within area inner → rect_ok inner → painted inner f (body inner f)) →
  painted area f (in_panel title min_width area r f body).
Proof.
  intros Hok Ht Hb. unfold in_panel. change (r_theme r) with theme. change (r_glyphs r) with (Glyphs_new u).
  destruct (inner_parts area Hok) as [Hi Hio].
  eapply painted_after; [apply (paints_block u area (Some title) false); [done|by apply clean_some]|].
  destruct (_ || _); [apply painted_Some, paints_refl|]. eapply painted_mono; [exact Hi|by apply Hb].
Qed.

Lemma mapM_clean_lines {A} (f : A → option Line) l :
  Forall (λ a, ∃ line, f a = Some line ∧ clean_line line) l →
  ∃ lines, mapM f l = Some lines ∧ Forall clean_line lines.
Proof.
  induction 1 as [|a l (line & Ha & Hc) _ (lines & IH & Hl)]; [by exists []|].
  exists (line :: lines). cbn [mapM]. rewrite Ha. cbn [mbind option_bind]. rewrite IH. split; [done|by constructor].
Qed.

Lemma core_bars_clean cores width height :
  is_u16 width → Forall (λ c, clean (core_name_of c)) cores →
  ∃ lines, core_bars cores width height r = Some lines ∧ Forall clean_line lines.
Proof.
  intros Hw Hc. apply mapM_clean_lines, Forall_take. eapply Forall_impl; [exact Hc|]. intros c Hn.
  apply bar_clean; [done..|]. solve_clean.
Qed.

Lemma paragraph_painted area a lines f :
  within area a → Forall clean_line lines → painted area f (Some (render_widget (paragraph lines) a f)).
Proof. intros. by apply painted_Some, paints_lines. Qed.

Lemma cpu_painted area snapshot f :
  rect_ok area → cores_clean snapshot → painted area f (draw_cpu area r snapshot f).
Proof.
  intros Hok Hc. apply in_panel_painted; [done|by apply clean_check|]. intros inner f1 Hi Hio. cbn beta zeta.
  destruct (bool_decide _); [apply painted_Some, paints_refl|]. destruct (_ || _).
  - edestruct horizontal_2 as (la & ra & -> & [Hla Hlo] & [Hra Hro]); [exact Hio|].
    set (mid := Z.to_nat _).
    destruct (core_bars_clean (take mid (cores (cpu snapshot))) (r_width la) (r_height la)) as (l & -> & Hl);
      [by apply rect_u16|by apply Forall_take|].
    destruct (core_bars_clean (drop mid (cores (cpu snapshot))) (r_width ra) (r_height ra)) as (k & -> & Hk);
      [by apply rect_u16|by apply Forall_drop|].
    cbn [mbind option_bind]. eapply painted_after; [by apply (paints_lines _ la AlignLeft Style_default l)|by apply paragraph_painted].
  - destruct (core_bars_clean (cores (cpu snapshot)) (r_width inner) (r_height inner)) as (l & -> & Hl);
      [by apply rect_u16|done|].
    cbn [mbind option_bind]. apply paragraph_painted; [by apply within_refl|done].
Qed.

Lemma mem_bar_clean label used total width :
  is_u16 width → clean label → ∃ l, mem_bar label used total width r = Some l ∧ clean_line l.
Proof. intros Hw Hl. apply bar_clean; [done..|]. solve_clean. Qed.

Lemma memory_painted area snapshot f : rect_ok area → painted area f (draw_memory area r snapshot f).
Proof.
  intros Hok. apply in_panel_painted; [done|by apply clean_check|]. intros inner f1 Hi Hio. cbn beta zeta.
  assert (is_u16 (r_width inner)) as Hw by by apply rect_u16. set (mem := memory snapshot).
  destruct (mem_bar_clean (lit "Mem") (mem_used mem) (mem_total mem) _ Hw) as (l & -> & Hl); [by apply clean_check|].
  destruct (mem_bar_clean (lit "Swap") (swap_used mem) (swap_total mem) _ Hw) as (k & -> & Hk); [by apply clean_check|].
  cbn [mbind option_bind]. destruct (0 <? _); cbn [mbind option_bind];
    (apply paragraph_painted; [by apply within_refl|by repeat constructor]).
Qed.

Lemma load_painted area snapshot f : rect_ok area → painted area f (draw_load area r snapshot f).
Proof.
  intros Hok. apply in_panel_painted; [done|by apply clean_check|]. intros inner f1 Hi Hio. cbn beta zeta.
  set (n := Z.max 1 _). set (loads := [_; _; _]).
  destruct (mapM_clean_lines (load_bar n (r_width inner) r) (take (Z.to_nat (r_height inner)) loads))
    as (lines & E & Hl).
  { apply Forall_take. repeat constructor; (apply bar_clean; [by apply rect_u16|by apply clean_check|solve_clean]). }
  rewrite E. cbn [mbind option_bind]. apply paragraph_painted; [by apply within_refl|done].
Qed.

Lemma rate_line_clean arrow data rate width scale color :
  clean arrow → ∃ l, rate_line r arrow data rate width scale color = Some l ∧ clean_line l.
Proof.
  intros Ha. unfold rate_line, r. cbn [r_glyphs r_theme].
  destruct (spark_clean theme u data width (Some scale) Flat color) as (l & -> & Hl).
  eexists. split; [done|]. solve_line.
Qed.

Lemma net_panel_painted area f : rect_ok area → painted area f (draw_network area r f).
Proof.
  intros Hok. apply in_panel_painted; [done|by apply clean_check|]. intros inner f1 Hi Hio. cbn beta zeta.
  destruct (max_by _ _) as [i|]; [|apply painted_Some, paints_refl].
  edestruct (rate_line_clean (arrow_down (r_glyphs r))) as (l & -> & Hl); [unfold r; cbn [r_glyphs]; auto with clean|].
  cbn [mbind option_bind].
  edestruct (rate_line_clean (arrow_up (r_glyphs r))) as (k & -> & Hk); [unfold r; cbn [r_glyphs]; auto with clean|].
  cbn [mbind option_bind]. apply paragraph_painted; [by apply within_refl|by repeat constructor].
Qed.

Lemma top_processes_painted area snapshot f : rect_ok area → painted area f (draw_top_processes area r snapshot f).
Proof.
  intros Hok. apply in_panel_painted; [done|by apply clean_check|]. intros inner f1 Hi Hio. cbn beta zeta.
  apply paragraph_painted; [by apply within_refl|]. apply Forall_cons. split; [solve_line|].
  apply Forall_fmap, Forall_true. intros p. cbn. unfold proc_line, r. cbn [r_glyphs r_theme]. solve_line.
Qed.

Lemma clean_row label value level : clean label → clean value → clean_line (row label value level r).
Proof. intros. unfold row. solve_line. Qed.

Lemma clean_device_summary d : clean (device_summary d (Glyphs_new u)).
Proof. unfold device_summary. solve_clean. Qed.

#[local] Hint Resolve clean_device_summary : clean.

Lemma workloads_painted area snapshot f : rect_ok area → painted area f (draw_workloads area r snapshot f).
Proof.
  intros Hok. apply in_panel_painted; [done|by apply clean_check|]. intros inner f1 Hi Hio. cbn beta zeta.
  apply paragraph_painted; [by apply within_refl|]. apply Forall_take.
  unfold process_row, container_row, kube_row, gpu_row.
    repeat match goal with |- Forall clean_line (_ :: _) => apply Forall_cons; split end; [..|constructor];
    repeat match goal with |- clean_line (match ?x with _ => _ end) => destruct x eqn:? end;
    cbn zeta; apply clean_row; unfold r; solve_clean.
Qed.

Lemma side_by_side_painted area f d1 d2 :
  rect_ok area → (∀ a f, rect_ok a → painted a f (d1 a f)) → (∀ a f, rect_ok a → painted a f (d2 a f)) →
  painted area f (side_by_side area f d1 d2).
Proof.
  intros Hok H1 H2. unfold side_by_side.
  edestruct horizontal_2 as (la & ra & -> & [Hla Hlo] & [Hra Hro]); [exact Hok|].
  apply painted_bind; [eapply painted_mono; [exact Hla|by apply H1]|].
  intros f'. eapply painted_mono; [exact Hra|by apply H2].
Qed.

Lemma general_painted area f :
  rect_ok area → (∀ snapshot, last_snapshot s = Some snapshot → cores_clean snapshot) →
  painted area f (draw_general_tab area r f).
Proof.
  intros Hok Hc. unfold draw_general_tab. change (r_app r) with s.
  destruct (last_snapshot s) as [snapshot|].
  2: { apply painted_Some, paints_empty; [done|]. unfold with_ellipsis, r. solve_empty. }
  specialize (Hc snapshot eq_refl). set (two := _ && _). set (cpu_h := cpu_height _ _ _).
  edestruct vertical_3 as (ta & ma & ba & -> & [Hta Hto] & [Hma Hmo] & [Hba Hbo]); [exact Hok|].
  apply painted_bind.
  - destruct two; (apply painted_bind; [eapply painted_mono; [exact Hta|]|intros f'; eapply painted_mono; [exact Hma|]]).
    + apply side_by_side_painted; [done|..]; intros a f1 Ha; [by apply cpu_painted|by apply load_painted].
    + apply side_by_side_painted; [done|..]; intros a f1 Ha; [by apply memory_painted|by apply net_panel_painted].
    + by apply cpu_painted.
    + by apply memory_painted.
  - intros f'. destruct (3 <=? _); [|apply painted_Some, paints_refl].
    eapply painted_mono; [exact Hba|]. destruct two; [|by apply top_processes_painted].
    apply side_by_side_painted; [done|..]; intros a f1 Ha; [by apply top_processes_painted|by apply workloads_painted].
Qed.
End Paint.
