(* ===== verification/InspectorView.v ===== *)
(** * The inspector: crates/muxtop-tui/src/ui/inspector.rs

    The detail rows of what is selected on the active tab, wrapped, scrolled
    and drawn beside the table or over it. *)

From S2P Require Import Prelude Str RsFloat Num FloatFacts Actions Process Network Gpu.
From S2P Require Import Snapshots Keymap Ui KubeView Palette App Terminal Theme Canvas.
From S2P Require Import Columns Table Meters View ProcessesView NetworkView ContainersView GpuView KubeTable.
Local Open Scope Z_scope.
Local Open Scope record_scope.

Definition KEY_WIDTH : nat := 14.

(** [Row]. *)
Inductive DetailRow : Type :=
| Kv (key value : str)
| SectionRow (title : str)
| WrappedRow (key value : str)
| MeterRow (key : str) (pct : f64) (label : str).

(** ** One row, as lines *)

(** [slice::chunks]; the size is positive. *)
Fixpoint chunks_fuel (fuel n : nat) (s : str) : list str :=
  match fuel with
  | O => []
  | S fuel => if bool_decide (s = []) then [] else take n s :: chunks_fuel fuel n (drop n s)
  end.

Definition chunks (n : nat) (s : str) : list str := chunks_fuel (length s) n s.

(** The width the value of a wrapped row has. *)
Definition wrap_width (width : Z) : nat := max (Z.to_nat width - KEY_WIDTH) 8.

Definition key_span (r : Render) (key : str) : Span := mkSpan (pad_right KEY_WIDTH key) (dim (r_theme r)).

(** The sum of the reserved widths wraps at 16 bits, as in a release build. *)
Definition render_row (row : DetailRow) (width : Z) (r : Render) : option (list Line) :=
  let t := r_theme r in
  match row with
  | SectionRow title => Some [[raw []]; [mkSpan title (accent t)]]
  | Kv k v => Some [[key_span r k; mkSpan v (body t)]]
  | MeterRow k pct label =>
      let bar_w := saturating_sub width ((Z.of_nat KEY_WIDTH + Z.of_nat (str_len label) + 2) mod 2 ^ 16) in
      bar ← inline t (r_glyphs r) pct bar_w;
      Some [key_span r k :: bar ++ [mkSpan (lit " " ++ label) (body t)]]
  | WrappedRow k v =>
      Some (imap (λ i chunk, [key_span r (if (i =? 0)%nat then k else []); mkSpan chunk (body t)])
              (chunks (wrap_width width) v))
  end.

(** ** The rows of what is selected *)

Definition PodPhase_debug : PodPhase → str := phase_label.

Definition QosClass_debug (q : QosClass) : str :=
  match q with Guaranteed => lit "Guaranteed" | Burstable => lit "Burstable" | BestEffort => lit "BestEffort" end.

Definition GpuProcessKind_debug (k : GpuProcessKind) : str :=
  match k with
  | Compute => lit "Compute" | Graphics => lit "Graphics" | Both => lit "Both" | UnknownKind => lit "Unknown"
  end.

Definition or_dash {A} (r : Render) (f : A → str) (v : option A) : str :=
  match v with Some a => f a | None => Theme.none (r_glyphs r) end.

Definition gpu_device_rows (d : GpuDeviceSnapshot) (r : Render) : list DetailRow :=
  let dash := Theme.none (r_glyphs r) in
  [Kv (lit "Index") (show (index d));
   Kv (lit "Bus") (if bool_decide (bus_id d = []) then dash else scrub_ctrl (bus_id d));
   Kv (lit "Driver") (or_dash r scrub_ctrl (driver_version d));
   SectionRow (lit "LOAD");
   match utilization_pct d with
   | Some p => MeterRow (lit "GPU") (f64_from p) (fmt_fixed 0 p ++ lit "%")
   | None => Kv (lit "GPU") dash
   end;
   let memory_label := if bool_decide (vendor d = Apple) then lit "Unified memory" else lit "VRAM" in
   match mem_used_bytes d, mem_total_bytes d with
   | Some used, Some total =>
       if 0 <? total
       then MeterRow memory_label (share_of used total) (human_bytes used ++ lit " / " ++ human_bytes total)
       else Kv memory_label dash
   | _, _ => Kv memory_label dash
   end;
   SectionRow (lit "PHYSICAL");
   Kv (lit "Temperature") (or_dash r (λ t, fmt_fixed 0 t ++ lit " C") (temperature_c d));
   Kv (lit "Power") (match power_watts d, power_limit_watts d with
                     | Some w, Some l => watts w ++ lit " W / " ++ watts l ++ lit " W"
                     | Some w, None => watts w ++ lit " W"
                     | None, _ => dash
                     end);
   Kv (lit "Fan") (or_dash r (λ f, fmt_fixed 0 f ++ lit "%") (fan_pct d));
   Kv (lit "Graphics clock") (or_dash r (λ c, show c ++ lit " MHz") (graphics_clock_mhz d));
   Kv (lit "Memory clock") (or_dash r (λ c, show c ++ lit " MHz") (memory_clock_mhz d))]
  ++ (if supports_process_stats d then []
      else [SectionRow (lit "NOTE"); WrappedRow [] (lit "This backend reports no per-process usage.")]).

Definition gpu_process_rows (p : GpuProcessSnapshot) (r : Render) : list DetailRow :=
  [Kv (lit "PID") (show (gpu_pid p)); Kv (lit "Device") (show (device_index p));
   Kv (lit "Type") (GpuProcessKind_debug (gpu_kind p));
   Kv (lit "VRAM") (or_dash r human_bytes (gpu_mem_bytes p))].

Definition process_rows (p : ProcessInfo) (r : Render) : list DetailRow :=
  [Kv (lit "PID") (show (pid p)); Kv (lit "Parent") (or_dash r show (parent_pid p));
   Kv (lit "User") (scrub_ctrl (user p)); Kv (lit "Status") (status p);
   SectionRow (lit "RESOURCES");
   MeterRow (lit "CPU") (f64_from (cpu_percent p)) (fmt_fixed 1 (cpu_percent p) ++ lit "%");
   MeterRow (lit "Memory") (f64_from (memory_percent p))
     (human_bytes (memory_bytes p) ++ lit " (" ++ fmt_fixed 1 (memory_percent p) ++ lit "%)");
   SectionRow (lit "COMMAND"); WrappedRow [] (scrub_ctrl (command p))].

Definition interface_rows (i : NetworkInterfaceSnapshot) : list DetailRow :=
  [Kv (lit "State") (if is_up i then lit "up" else lit "down"); Kv (lit "MAC") (scrub_ctrl (mac_address i));
   SectionRow (lit "TOTALS");
   Kv (lit "Received") (human_bytes (bytes_rx i)); Kv (lit "Sent") (human_bytes (bytes_tx i));
   Kv (lit "Packets rx") (show (packets_rx i)); Kv (lit "Packets tx") (show (packets_tx i));
   SectionRow (lit "ERRORS");
   Kv (lit "Receive") (show (errors_rx i)); Kv (lit "Transmit") (show (errors_tx i))].

Definition container_rows (c : ContainerSnapshot) : list DetailRow :=
  let limited := 0 <? mem_limit_bytes c in
  let mem_pct := if limited then share_of (ctr_mem_used_bytes c) (mem_limit_bytes c) else f64_of_Z 0 in
  let mem_label := if limited
                   then human_bytes (ctr_mem_used_bytes c) ++ lit " / " ++ human_bytes (mem_limit_bytes c)
                   else human_bytes (ctr_mem_used_bytes c) ++ lit " (no limit)" in
  [Kv (lit "ID") (ctr_id c); Kv (lit "State") (scrub_ctrl (status_text c));
   WrappedRow (lit "Image") (scrub_ctrl (image c));
   SectionRow (lit "RESOURCES");
   MeterRow (lit "CPU") (f64_from (cpu_pct c)) (fmt_fixed 1 (cpu_pct c) ++ lit "%");
   MeterRow (lit "Memory") mem_pct mem_label;
   SectionRow (lit "IO");
   Kv (lit "Net rx") (human_bytes (net_rx_bytes c)); Kv (lit "Net tx") (human_bytes (net_tx_bytes c));
   Kv (lit "Block read") (human_bytes (block_read_bytes c));
   Kv (lit "Block write") (human_bytes (block_write_bytes c))].

Definition no_metric (r : Render) : str := Theme.none (r_glyphs r) ++ lit " (no metrics-server)".

Definition pod_rows (p : PodSnapshot) (r : Render) : list DetailRow :=
  [Kv (lit "Namespace") (scrub_ctrl (pod_namespace p)); Kv (lit "Phase") (PodPhase_debug (phase p));
   Kv (lit "Ready") (show_pair (ready p)); Kv (lit "Restarts") (show (restarts p));
   Kv (lit "Node") (scrub_ctrl (pod_node p)); Kv (lit "QoS") (QosClass_debug (qos p));
   Kv (lit "Age") (format_age (pod_age_seconds p));
   SectionRow (lit "METRICS");
   Kv (lit "CPU") (match cpu_millis p with Some m => show m ++ lit "m" | None => no_metric r end);
   Kv (lit "Memory") (match pod_mem_bytes p with Some b => human_bytes b | None => no_metric r end)].

Definition node_rows (n : NodeSnapshot) : list DetailRow :=
  [Kv (lit "Status") (NodeStatus_debug (node_status n)); Kv (lit "Roles") (join (lit ", ") (node_roles n));
   Kv (lit "Kubelet") (scrub_ctrl (kubelet_version n)); Kv (lit "Age") (format_age (node_age_seconds n));
   SectionRow (lit "CAPACITY");
   Kv (lit "Pods") (show (pod_count n) ++ lit " / " ++ show (pod_capacity n));
   Kv (lit "CPU") (show (cpu_allocatable_millis n) ++ lit "m allocatable of " ++ show (cpu_capacity_millis n)
                   ++ lit "m");
   Kv (lit "Memory") (human_bytes (mem_allocatable_bytes n) ++ lit " allocatable of "
                      ++ human_bytes (mem_capacity_bytes n))].

Definition deployment_rows (d : DeploymentSnapshot) : list DetailRow :=
  [Kv (lit "Namespace") (scrub_ctrl (dep_namespace d));
   Kv (lit "Ready") (show_pair (replicas_ready d, replicas_desired d));
   Kv (lit "Up to date") (show (replicas_uptodate d)); Kv (lit "Available") (show (replicas_available d));
   Kv (lit "Strategy") (DeploymentStrategy_debug (strategy d)); Kv (lit "Age") (format_age (dep_age_seconds d))].

Section Details.
Context {Uc : Unicode}.

Definition gpu_details (app : AppState) (r : Render) : option (str * list DetailRow) :=
  snapshot ← last_snapshot app;
  snap ← sys_gpu snapshot;
  let f := to_lowercase (gpu_filter_input app) in
  match gpu_subview app with
  | GpuSubview.Devices =>
      d ← List.filter (λ d, bool_decide (f = []) || lower_contains (gpu_name d) f) (devices snap) !! gpu_selected app;
      Some (titled r (lit "GPU") (scrub_ctrl (gpu_name d)), gpu_device_rows d r)
  | GpuSubview.Procs =>
      p ← List.filter (λ p, bool_decide (f = []) || lower_contains (gpu_proc_name p) f) (gpu_processes snap)
            !! gpu_selected app;
      let name := if bool_decide (gpu_proc_name p = []) then Theme.none (r_glyphs r)
                  else scrub_ctrl (gpu_proc_name p) in
      Some (titled r (lit "GPU process") name, gpu_process_rows p r)
  end.

Definition process_details (app : AppState) (r : Render) : option (str * list DetailRow) :=
  p ← selected_process app;
  Some (titled r (lit "Process") (scrub_ctrl (name p)), process_rows p r).

Definition network_details (app : AppState) (r : Render) : option (str * list DetailRow) :=
  i ← visible_interfaces app !! net_selected app;
  Some (titled r (lit "Interface") (scrub_ctrl (if_name i)), interface_rows i).

Definition container_details (app : AppState) (r : Render) : option (str * list DetailRow) :=
  c ← sorted_filtered_containers_cache app !! containers_selected app;
  Some (titled r (lit "Container") (scrub_ctrl (ctr_name c)), container_rows c).

Definition kube_keep (app : AppState) (name ns : str) : bool :=
  let f := to_lowercase (kube_filter_input app) in
  bool_decide (f = []) || lower_contains name f || lower_contains ns f.

Definition kube_details (app : AppState) (r : Render) : option (str * list DetailRow) :=
  snapshot ← last_snapshot app;
  snap ← sys_kube snapshot;
  match kube_subview app with
  | KubeSubview.Pods =>
      p ← List.filter (λ p, kube_keep app (pod_name p) (pod_namespace p)) (pods snap) !! kube_selected app;
      Some (titled r (lit "Pod") (scrub_ctrl (pod_name p)), pod_rows p r)
  | KubeSubview.Nodes =>
      n ← List.filter (λ n, kube_keep app (node_name n) []) (nodes snap) !! kube_selected app;
      Some (titled r (lit "Node") (scrub_ctrl (node_name n)), node_rows n)
  | KubeSubview.Deployments =>
      d ← List.filter (λ d, kube_keep app (dep_name d) (dep_namespace d)) (deployments snap) !! kube_selected app;
      Some (titled r (lit "Deployment") (scrub_ctrl (dep_name d)), deployment_rows d)
  end.

Definition details (r : Render) : option (str * list DetailRow) :=
  let app := r_app r in
  match tab app with
  | Tab.General | Tab.Processes => process_details app r
  | Tab.Network => network_details app r
  | Tab.Containers => container_details app r
  | Tab.Kube => kube_details app r
  | Tab.Gpu => gpu_details app r
  end.

(** ** Drawing *)

Context `{!Layouts}.

Definition side_panel (content_area : Rect) (r : Render) : bool :=
  allows_side_panel (r_breakpoint r) && (80 <=? r_width content_area) && (6 <=? r_height content_area).

Definition hint_line (r : Render) : Line :=
  let t := r_theme r in
  [mkSpan (lit " y ") (key_style t); mkSpan (lit " copy id   ") (key_desc t);
   mkSpan (lit " Esc ") (key_style t); mkSpan (lit " close ") (key_desc t)].

(** [screen] is the whole frame's area. *)
Definition draw_inspector (screen content_area : Rect) (r : Render) (frame : Frame) : option Frame :=
  match details r with
  | None => Some frame
  | Some (title, rows) =>
      area ← (if side_panel content_area r then
                match horizontal [Percentage 58; Fill 1] content_area with
                | [_; right_area] => Some right_area
                | _ => None
                end
              else Some (centered_percent 86 80 screen));
      let '(inner, frame) := popup area title (r_theme r) (r_glyphs r) frame in
      if (r_height inner =? 0) || (r_width inner =? 0) then Some frame
      else
        match vertical [Fill 1; Length 1] inner with
        | [body_area; footer] =>
            lines ← mapM (λ row, render_row row (r_width body_area) r) rows;
            let visible := scrolled (overlay_scroll (r_app r)) (Z.to_nat (r_height body_area)) (concat lines) in
            let frame := render_widget (paragraph visible) body_area frame in
            Some (render_widget (paragraph [hint_line r]) footer frame)
        | _ => None
        end
  end.
End Details.

(** ** Properties *)

(** *** Wrapping *)

Lemma chunks_fuel_concat n fuel s : (0 < n)%nat → (length s ≤ fuel)%nat → concat (chunks_fuel fuel n s) = s.
Proof.
  intros Hn. revert s. induction fuel as [|fuel IH]; intros s Hs; simpl.
  { by destruct s; [|simpl in Hs; lia]. }
  case_bool_decide as E; [by subst|]. simpl. rewrite IH, take_drop; [done|].
  rewrite length_drop. destruct s; [done|]. simpl in *. lia.
Qed.

Lemma chunks_fuel_length n fuel s : Forall (λ chunk, (length chunk ≤ n)%nat) (chunks_fuel fuel n s).
Proof.
  revert s. induction fuel as [|fuel IH]; intros s; simpl; [constructor|].
  case_bool_decide; [constructor|]. constructor; [|done]. rewrite length_take. lia.
Qed.

Lemma chunks_fuel_full n fuel s i chunk :
  chunks_fuel fuel n s !! i = Some chunk → (S i < length (chunks_fuel fuel n s))%nat → length chunk = n.
Proof.
  revert s i. induction fuel as [|fuel IH]; intros s i; simpl; [done|].
  case_bool_decide as E; [done|]. destruct i as [|i]; simpl.
  - intros [= <-] Hl. rewrite length_take. destruct fuel as [|fuel]; simpl in Hl; [lia|].
    case_bool_decide as E2; [simpl in Hl; lia|].
    destruct (Nat.le_gt_cases n (length s)); [lia|]. rewrite drop_ge in E2 by lia. done.
  - intros Hi Hl. apply (IH _ _ Hi). lia.
Qed.

(** A wrapped text is shown whole: its lines, joined, are the text, each
    takes the width there is after the key and all but the last fill it, and
    the key stands before the first line only. *)
Theorem wrapped_text_is_whole k v width r lines :
  render_row (WrappedRow k v) width r = Some lines →
  let cut := wrap_width width in
  concat ((λ l, concat (span_text <$> drop 1 l)) <$> lines) = v ∧
  (∀ i l, lines !! i = Some l → ∃ chunk,
     l = [key_span r (if (i =? 0)%nat then k else []); mkSpan chunk (body (r_theme r))] ∧
     (length chunk ≤ cut)%nat ∧ ((S i < length lines)%nat → length chunk = cut)) ∧
  (KEY_WIDTH + 8 ≤ Z.to_nat width → KEY_WIDTH + cut = Z.to_nat width)%nat.
Proof.
  intros [= <-] cut. assert (0 < cut)%nat as Hcut by (subst cut; unfold wrap_width; lia).
  change (wrap_width width) with cut. split; [|split].
  - rewrite <- (chunks_fuel_concat cut (length v) v) at 2 by done. fold (chunks cut v). f_equal.
    rewrite fmap_imap. apply list_eq. intros i. rewrite list_lookup_imap.
    destruct (chunks cut v !! i); [|done]. simpl. by rewrite app_nil_r.
  - intros i l Hl. rewrite length_imap. rewrite list_lookup_imap in Hl.
    destruct (chunks cut v !! i) as [chunk|] eqn:E; [|done]. injection Hl as <-. exists chunk.
    split; [done|]. split; [|intros Hi; by eapply chunks_fuel_full].
    pose proof (chunks_fuel_length cut (length v) v) as Hf. rewrite Forall_lookup in Hf. by eapply Hf.
  - subst cut. unfold wrap_width. lia.
Qed.

Lemma wrapped_text_is_whole_witness :
  let r := mkRender AppState_new (Theme_default) (Glyphs_new false) Sm in
  ∃ lines, render_row (WrappedRow (lit "Image") (lit "registry.example/app:1")) 24 r = Some lines ∧
    length lines = 3%nat ∧
    concat ((λ l, concat (span_text <$> drop 1 l)) <$> lines) = lit "registry.example/app:1".
Proof.
  intros r. destruct (render_row (WrappedRow (lit "Image") (lit "registry.example/app:1")) 24 r) as [lines|] eqn:E.
  - exists lines. split; [done|]. split; [by injection E as <-|].
    apply (wrapped_text_is_whole _ _ _ _ _ E).
  - discriminate E.
Defined.

(** *** What is inspected *)

(** C11: On the process and container tables the inspector shows the row under
    the cursor, the one the table highlights, and opens on nothing exactly when
    the cursor is on no row. *)
Theorem inspector_shows_the_cursor_row {Uc : Unicode} r now_ms :
  let s := r_app r in
  (tab s = Tab.Processes →
    match details r with
    | Some (title, rows) => ∃ p prefix,
        process_at r (Table.selected (processes_spec s)) = process_row p prefix r ∧
        title = titled r (lit "Process") (scrub_ctrl (name p)) ∧ rows = process_rows p r
    | None => process_at r (Table.selected (processes_spec s)) = []
    end) ∧
  (tab s = Tab.Containers →
    let table := sorted_filtered_containers_cache s in
    match details r with
    | Some (title, rows) => ∃ c,
        container_at r now_ms table (Table.selected (containers_spec s table)) = container_row c now_ms r ∧
        title = titled r (lit "Container") (scrub_ctrl (ctr_name c)) ∧ rows = container_rows c
    | None => container_at r now_ms table (Table.selected (containers_spec s table)) = []
    end).
Proof.
  intros s. split; intros Ht.
  - unfold details. fold s. rewrite Ht. unfold process_details, selected_process, process_at. fold s.
    change (Table.selected (processes_spec s)) with (App.selected s).
    destruct (tree_mode s).
    + destruct (visible_tree s !! App.selected s) as [[p d]|]; [|done]. by eexists p, _.
    + destruct (visible_processes s !! App.selected s) as [p|]; [|done]. by eexists p, _.
  - unfold details. fold s. rewrite Ht. unfold container_details, container_at.
    change (Table.selected (containers_spec s (sorted_filtered_containers_cache s))) with (containers_selected s).
    destruct (sorted_filtered_containers_cache s !! containers_selected s) as [c|]; [|done]. by exists c.
Qed.

Definition demo_interface (name : str) (rx : Z) : NetworkInterfaceSnapshot :=
  mkInterface name rx 0 0 0 0 0 [] true.

Definition demo_pod (name : str) (cpu : Z) : PodSnapshot :=
  mkPod (lit "ns") name PodRunning (1, 1) 0 0 [] (Some cpu) None BestEffort.

Definition demo_process (n cpu : Z) : ProcessInfo :=
  mkProcessInfo n None (lit "p" ++ show n) (lit "p") [] (f32_of_Z cpu) 0 f32_zero (lit "Run").

Definition demo_container (name : str) (cpu : Z) : ContainerSnapshot :=
  mkContainer name name name [] CtrRunning [] (f32_of_Z cpu) 0 0 0 0 0 0 0.

Definition demo_gpu (n util : Z) : GpuDeviceSnapshot :=
  mkGpuDevice n Nvidia Nvml (lit "card" ++ show n) [] None (Some (f32_of_Z util)) None None None None None None None
    None None None None false.

(** Of each kind two, the second the busier. *)
Definition demo_host : SystemSnapshot :=
  mkSystem (mkCpu f32_zero []) (mkMemory 0 0 0 0 0) (mkLoad (f64_of_Z 0) (f64_of_Z 0) (f64_of_Z 0) 0)
    [demo_process 1 10; demo_process 2 90]
    (mkNetworkSnapshot [demo_interface (lit "eth0") 10; demo_interface (lit "eth1") 90] 0 0)
    (Some (mkContainers UnknownEngine true [demo_container (lit "c1") 10; demo_container (lit "c2") 90]))
    (Some (mkKube Generic None [] true true [demo_pod (lit "pod1") 10; demo_pod (lit "pod2") 90] [] []))
    (Some (mkGpus [] true [demo_gpu 0 10; demo_gpu 1 90] [] [])) 0.

#[local] Existing Instances ascii_tables insertion_unstable.

Definition demo_render (t : Tab) : Render :=
  mkRender (apply_snapshot demo_host (AppState_new <| tab := t |>) <| net_sort_field := NetSort.TotalRx |>)
    Theme_default (Glyphs_new false) Sm.

Lemma inspector_shows_the_cursor_row_witness :
  let r := demo_render Tab.Processes in
  tab (r_app r) = Tab.Processes ∧
  fst <$> details r = Some (titled r (lit "Process") (lit "p2")) ∧
  match details r with
  | Some (title, rows) => ∃ p prefix,
      process_at r (Table.selected (processes_spec (r_app r))) = process_row p prefix r ∧
      title = titled r (lit "Process") (scrub_ctrl (name p)) ∧ rows = process_rows p r
  | None => False
  end.
Proof.
  intros r. assert (tab (r_app r) = Tab.Processes) as Ht by reflexivity.
  pose proof (proj1 (inspector_shows_the_cursor_row r 0) Ht) as H.
  split; [exact Ht|]. split; [vm_compute; reflexivity|].
  destruct (details r) as [[title rows]|] eqn:E; [exact H|]. vm_compute in E. discriminate E.
Defined.

(** The other tables are drawn sorted and inspected unsorted: with the cursor
    on the first row, the highlighted interface, pod and device are not those
    whose details open. *)
Lemma inspector_shows_another_row :
  let net := demo_render Tab.Network in
  let kube := demo_render Tab.Kube in
  let gpu := demo_render Tab.Gpu in
  (if_name <$> sorted_interfaces (r_app net) !! net_selected (r_app net) = Some (lit "eth1") ∧
   selected_identifier (r_app net) = Some (lit "eth0") ∧
   fst <$> details net = Some (titled net (lit "Interface") (lit "eth0"))) ∧
  (selected_kube_name (r_app kube) = Some (lit "pod2") ∧
   fst <$> details kube = Some (titled kube (lit "Pod") (lit "pod1"))) ∧
  (match sys_gpu demo_host with
   | Some snap => gpu_name <$> shown_devices (r_app gpu) snap !! gpu_selected (r_app gpu)
   | None => None end = Some (lit "card1") ∧
   selected_identifier (r_app gpu) = Some (lit "card0") ∧
   fst <$> details gpu = Some (titled gpu (lit "GPU") (lit "card0"))).
Proof. intros net kube gpu. split_and!; vm_compute; reflexivity. Qed.

(** *** Drawing *)

(** What the inspector writes as it comes: the status of a process, the
    identifier of a container, the roles of nodes. *)
Definition inspected_clean {Uc : Unicode} {To : Tolerance} (s : AppState) : Prop :=
  (∀ p, selected_process s = Some p → clean (status p)) ∧
  (∀ c, sorted_filtered_containers_cache s !! containers_selected s = Some c → clean (ctr_id c)) ∧
  (∀ snapshot snap, last_snapshot s = Some snapshot → sys_kube snapshot = Some snap → roles_clean snap).

Definition clean_detail {To : Tolerance} (row : DetailRow) : Prop :=
  match row with
  | Kv k v | WrappedRow k v => clean k ∧ clean v
  | SectionRow title => clean title
  | MeterRow k _ label => clean k ∧ clean label
  end.

Section Paint.
Context {Uc : Unicode} {To : Tolerance} `{!Layouts}.
Variables (u : bool) (s : AppState) (theme : Theme) (bp : Breakpoint).
Let r := mkRender s theme (Glyphs_new u) bp.

Lemma clean_or_dash {A} (f : A → str) v : (∀ a, clean (f a)) → clean (or_dash r f v).
Proof. intros Hf. unfold or_dash, r. cbn [r_glyphs]. destruct v; [done|]. auto with clean. Qed.

Lemma clean_no_metric : clean (no_metric r).
Proof. unfold no_metric, r. cbn [r_glyphs]. solve_clean. Qed.

Lemma clean_kind_debug k : clean (GpuProcessKind_debug k).
Proof. destruct k; by apply clean_check. Qed.

Lemma clean_qos q : clean (QosClass_debug q).
Proof. destruct q; by apply clean_check. Qed.

#[local] Hint Resolve clean_no_metric clean_kind_debug clean_qos clean_watts clean_phase clean_status
  clean_strategy clean_show_pair : clean.
#[local] Hint Extern 2 (clean (or_dash _ _ _)) => apply clean_or_dash; intros; solve_clean : clean.
#[local] Hint Extern 2 (clean (PodPhase_debug _)) => apply clean_phase : clean.

Ltac solve_detail :=
  repeat match goal with
    | |- Forall clean_detail [] => apply Forall_nil; exact I
    | |- Forall clean_detail (_ :: _) => apply Forall_cons; split
    | |- Forall clean_detail (_ ++ _) => apply Forall_app; split
    | |- Forall clean_detail (if ?b then _ else _) => destruct b eqn:?
    | |- clean_detail (match ?x with _ => _ end) => destruct x eqn:?
    end;
  cbn [clean_detail]; repeat split; solve_clean.

Lemma clean_gpu_device_rows d : Forall clean_detail (gpu_device_rows d r).
Proof. unfold gpu_device_rows, r. cbn zeta. cbn [r_glyphs]. fold r. solve_detail. Qed.

Lemma clean_gpu_process_rows p : Forall clean_detail (gpu_process_rows p r).
Proof. unfold gpu_process_rows. solve_detail. Qed.

Lemma clean_process_rows p : clean (status p) → Forall clean_detail (process_rows p r).
Proof. intros Hs. unfold process_rows. solve_detail. Qed.

Lemma clean_interface_rows i : Forall clean_detail (interface_rows i).
Proof. unfold interface_rows. solve_detail. Qed.

Lemma clean_container_rows c : clean (ctr_id c) → Forall clean_detail (container_rows c).
Proof. intros Hs. unfold container_rows. cbn zeta. solve_detail. Qed.

Lemma clean_pod_rows p : Forall clean_detail (pod_rows p r).
Proof. unfold pod_rows. solve_detail. Qed.

Lemma clean_node_rows n : Forall clean (node_roles n) → Forall clean_detail (node_rows n).
Proof.
  intros Hs. assert (clean (join (lit ", ") (node_roles n))) by by apply clean_join; [apply clean_check|].
  unfold node_rows. solve_detail.
Qed.

Lemma clean_deployment_rows d : Forall clean_detail (deployment_rows d).
Proof. unfold deployment_rows. solve_detail. Qed.

Lemma clean_titled kind name : clean kind → clean name → clean (titled r kind name).
Proof. intros. unfold titled, r. cbn [r_glyphs]. solve_clean. Qed.

Lemma clean_details title rows :
  inspected_clean s → details r = Some (title, rows) → clean title ∧ Forall clean_detail rows.
Proof.
  intros (Hp & Hc & Hr). unfold details. change (r_app r) with s.
  assert (process_details s r = Some (title, rows) → clean title ∧ Forall clean_detail rows) as Hproc.
  { unfold process_details. destruct (selected_process s) as [p|] eqn:Ep; [|intros E; discriminate E]. intros [= <- <-].
    split; [apply clean_titled; solve_clean|by apply clean_process_rows, Hp]. }
  destruct (tab s); try exact Hproc.
  - unfold network_details. clear Hc. destruct (_ !! _) as [i|]; [|done]. intros [= <- <-].
    split; [apply clean_titled; solve_clean|apply clean_interface_rows].
  - unfold container_details. destruct (_ !! _) as [c|] eqn:E; [|done]. intros [= <- <-].
    split; [apply clean_titled; solve_clean|by apply clean_container_rows, Hc].
  - clear Hc. unfold kube_details. destruct (last_snapshot s) as [snapshot|]; [|done]. cbn [mbind option_bind].
    destruct (sys_kube snapshot) as [snap|] eqn:Es; [|done]. cbn [mbind option_bind].
    specialize (Hr snapshot snap eq_refl Es). destruct (kube_subview s).
    + destruct (_ !! _) as [p|]; [|done]. intros [= <- <-].
      split; [apply clean_titled; solve_clean|apply clean_pod_rows].
    + destruct (_ !! _) as [n|] eqn:E; [|done]. intros [= <- <-].
      split; [apply clean_titled; solve_clean|apply clean_node_rows].
      apply list_elem_of_lookup_2, list_elem_of_In, List.filter_In in E as [E _].
      apply list_elem_of_In in E. unfold roles_clean in Hr. rewrite Forall_forall in Hr. by apply Hr.
    + destruct (_ !! _) as [d|]; [|done]. intros [= <- <-].
      split; [apply clean_titled; solve_clean|apply clean_deployment_rows].
  - clear Hc. unfold gpu_details. destruct (last_snapshot s) as [snapshot|]; [|done]. cbn [mbind option_bind].
    destruct (sys_gpu snapshot) as [snap|]; [|done]. cbn [mbind option_bind]. destruct (gpu_subview s).
    + destruct (_ !! _) as [d|]; [|done]. intros [= <- <-].
      split; [apply clean_titled; solve_clean|apply clean_gpu_device_rows].
    + destruct (_ !! _) as [p|]; [|done]. intros [= <- <-].
      split; [apply clean_titled; unfold r; solve_clean|apply clean_gpu_process_rows].
Qed.

Lemma clean_chunks n v : clean v → Forall clean (chunks n v).
Proof.
  unfold chunks. generalize (length v) at 1. intros fuel. revert v.
  induction fuel as [|fuel IH]; intros v Hv; simpl; [constructor|].
  case_bool_decide; [constructor|]. constructor; [by apply clean_take|by apply IH, clean_drop].
Qed.

Lemma clean_pair a b : clean (span_text a) → clean (span_text b) → clean_line [a; b].
Proof. intros. apply clean_line_cons; [done|]. by apply clean_line_cons; [|constructor]. Qed.

Lemma render_row_clean row width :
  is_u16 width → clean_detail row → ∃ lines, render_row row width r = Some lines ∧ Forall clean_line lines.
Proof.
  intros Hw Hd. assert (∀ k, clean k → clean (span_text (key_span r k))) as Hk by (intros; cbn; solve_clean).
  destruct row as [k v|title|k v|k pct label]; cbn [clean_detail] in Hd.
  - destruct Hd as [Hd1 Hd2]. eexists. split; [done|]. apply Forall_singleton. auto using clean_pair.
  - eexists. split; [done|]. apply Forall_cons. split; [apply clean_line_cons; [apply clean_nil|constructor]|].
    apply Forall_singleton, clean_line_cons; [done|constructor].
  - destruct Hd as [Hd1 Hd2]. eexists. split; [done|]. apply Forall_lookup. intros i l Hl.
    rewrite list_lookup_imap in Hl. destruct (chunks _ _ !! i) as [c|] eqn:E; [|done]. injection Hl as <-.
    pose proof (clean_chunks (wrap_width width) v Hd2) as Hc. rewrite Forall_lookup in Hc.
    apply clean_pair; [apply Hk; destruct (i =? 0)%nat; auto with clean|by eapply Hc].
  - destruct Hd as [Hd1 Hd2]. cbn [render_row]. change (r_glyphs r) with (Glyphs_new u). change (r_theme r) with theme.
    set (reserved := _ mod _).
    destruct (inline_clean theme u pct (saturating_sub width reserved)) as (bar & -> & Hb).
    { unfold is_u16, saturating_sub in *. assert (0 ≤ reserved) by (subst reserved; apply Z.mod_pos_bound; lia). lia. }
    cbn [mbind option_bind]. eexists. split; [done|]. apply Forall_singleton.
    apply clean_line_cons; [by apply Hk|]. apply clean_line_app; [done|].
    apply clean_line_cons; [cbn [span_text]; solve_clean|constructor].
Qed.

Lemma mapM_clean_rows width rows :
  is_u16 width → Forall clean_detail rows →
  ∃ lines, mapM (λ row, render_row row width r) rows = Some lines ∧ Forall clean_line (concat lines).
Proof.
  intros Hw. induction 1 as [|row rows Hrow _ (lines & IH & Hl)]; [by exists []|].
  destruct (render_row_clean row width Hw Hrow) as (l & E & Hc).
  exists (l :: lines). cbn [mapM]. rewrite E. cbn [mbind option_bind]. rewrite IH. split; [done|].
  by apply Forall_app.
Qed.

Lemma inspector_painted screen area f :
  rect_ok screen → within screen area → inspected_clean s → painted screen f (draw_inspector screen area r f).
Proof.
  intros Hok Ha Hc. unfold draw_inspector. change (r_app r) with s.
  destruct (details r) as [[title rows]|] eqn:E; [|apply painted_Some, paints_refl].
  destruct (clean_details title rows Hc E) as [Ht Hr].
  assert (∃ place, (if side_panel area r then
      match horizontal [Percentage 58; Fill 1] area with [_; right_area] => Some right_area | _ => None end
      else Some (centered_percent 86 80 screen)) = Some place ∧ within screen place) as (place & -> & Hp).
  { destruct (side_panel area r).
    - edestruct horizontal_2 as (la & ra & -> & _ & [Hra _]); [by eapply within_ok, Ha|].
      eexists. split; [done|]. by eapply within_trans.
    - eexists. split; [done|]. apply within_centered; [lia..|done]. }
  cbn [mbind option_bind]. assert (rect_ok place) as Hpo by by eapply within_ok.
  pose proof (paints_popup u place title theme f Hpo Ht) as Hpop.
  change (r_theme r) with theme. change (r_glyphs r) with (Glyphs_new u).
  destruct (popup place title theme (Glyphs_new u) f) as [inner f1]. destruct Hpop as (Hi & Hio & Hf1).
  eapply painted_mono; [exact Hp|]. eapply painted_after; [exact Hf1|].
  destruct (_ || _); [apply painted_Some, paints_refl|]. eapply painted_mono; [exact Hi|].
  edestruct vertical_2 as (ba & fa & -> & [Hb Hbo] & [Hfa Hfo]); [exact Hio|].
  destruct (mapM_clean_rows (r_width ba) rows) as (lines & -> & Hl); [by apply rect_u16|done|].
  cbn [mbind option_bind]. eapply painted_after.
  - apply (paints_lines _ ba AlignLeft Style_default
      (scrolled (overlay_scroll s) (Z.to_nat (r_height ba)) (concat lines))); [done|].
    by apply Forall_take, Forall_drop.
  - apply painted_Some, paints_line; [done|]. unfold hint_line. solve_line.
Qed.
End Paint.
