(* ===== verification/Overlays.v ===== *)
(** * The overlays: confirm.rs, log_view.rs, actions_menu.rs, help.rs and
    palette.rs of crates/muxtop-tui/src/ui

    Each is a popup over the whole frame ([screen]).  16-bit sums wrap, as in a
    release build. *)

From S2P Require Import Prelude Str RsFloat Num FloatFacts Actions Process Network Gpu.
From S2P Require Import Snapshots Keymap Ui KubeView Palette App Terminal Theme Canvas.
From S2P Require Import Columns Table Meters View.
Local Open Scope Z_scope.
Local Open Scope record_scope.

(** The workspace version (Cargo.toml). *)
Definition CARGO_PKG_VERSION : str := lit "0.7.0".

Definition u16 (z : Z) : Z := z mod 2 ^ 16.

(** [str::replace] of a character. *)
Definition replace_char (c : Z) (by_ : str) (s : str) : str := s ≫= λ x, if x =? c then by_ else [x].

#[global] Instance Group_eq_dec : EqDecision Group.
Proof. solve_decision. Defined.

(** ** The confirmation dialog *)

Section Overlays.
Context {Uc : Unicode} `{!Layouts}.

Definition confirm_place (prompt : str) (area : Rect) : Rect :=
  let wanted := u16 (u16 (Z.of_nat (length prompt)) + 6) in
  let width := Z.min (Z.max 24 (Z.min wanted 72)) (r_width area) in
  centered width (Z.min 7 (r_height area)) area.

(** The panel's frame in the colour of danger. *)
Definition danger_block (r : Render) : Widget :=
  let style := level_style (r_theme r) Level.Error in
  Block (Some (lit " Confirm ", style)) None (border_set ROUNDED (r_glyphs r)) style Style_default.

Definition draw_confirm (screen : Rect) (r : Render) (frame : Frame) : option Frame :=
  match confirm (r_app r) with
  | None => Some frame
  | Some action =>
      let t := r_theme r in
      let place := confirm_place (prompt action) screen in
      if (r_width place <? 6) || (r_height place <? 3) then Some frame
      else
        let frame := render_widget Clear place frame in
        let inner := block_inner place in
        let frame := render_widget (danger_block r) place frame in
        if r_height inner =? 0 then Some frame
        else
          match vertical [Fill 1; Length 1; Length 1] inner with
          | [text_area; _; keys_area] =>
              let frame := render_widget
                (Wrapping AlignCenter [[mkSpan (prompt action) (strong t)]]) text_area frame in
              Some (render_widget (Paragraph AlignCenter Style_default
                [[mkSpan (lit " Esc ") (key_style t); mkSpan (lit " cancel   ") (key_desc t);
                  mkSpan (lit " y ") (level_fill t Level.Error); mkSpan (lit " confirm ") (key_desc t)]])
                keys_area frame)
          | _ => None
          end
  end.

(** ** The message log *)

(** Newest first. *)
Definition log_lines (r : Render) (height : nat) : list Line :=
  (λ toast, [mkSpan (marker (level toast) (r_glyphs r) ++ lit " ") (level_style (r_theme r) (level toast));
             mkSpan (text toast) (body (r_theme r))])
    <$> take height (drop (overlay_scroll (r_app r)) (reverse (log (notifier (r_app r))))).

Definition draw_log (screen : Rect) (r : Render) (frame : Frame) : option Frame :=
  let t := r_theme r in
  let '(inner, frame) := popup (centered_percent 80 70 screen) (lit "Messages") t (r_glyphs r) frame in
  if (r_height inner =? 0) || (r_width inner =? 0) then Some frame
  else
    match vertical [Fill 1; Length 1] inner with
    | [body_area; footer] =>
        let history := log (notifier (r_app r)) in
        let frame :=
          if bool_decide (history = [])
          then render_empty body_area
                 (empty_state (lit "No messages yet") (Some (lit "Actions and errors land here."))) t frame
          else render_widget (paragraph (log_lines r (Z.to_nat (r_height body_area)))) body_area frame in
        Some (render_widget (paragraph
          [[mkSpan (lit " Ctrl+L ") (key_style t); mkSpan (lit " or ") (key_desc t);
            mkSpan (lit " Esc ") (key_style t);
            mkSpan (lit " close   " ++ nat_show (length history) ++ lit " messages ") (key_desc t)]]) footer frame)
    | _ => None
    end.

(** ** The actions menu *)

Definition action_line (r : Render) (width : Z) (selected : bool) (key label : str) : Line :=
  let t := r_theme r in
  let style := if selected then selected_row t else body t in
  let text := pad_right (Z.to_nat (saturating_sub width 12)) label in
  [mkSpan (if selected then sel_edge (r_glyphs r) else lit " ") (level_style t Level.Info);
   mkSpan (lit " " ++ text) style;
   mkSpan (pad_left 9 key ++ lit " ") (if selected then style else dim t)].

(** The place of the [i]th row. *)
Definition row_rect (area : Rect) (i : nat) : Rect := mkRect (x area) (u16 (y area + Z.of_nat i)) (r_width area) 1.

Definition draw_action_rows (area : Rect) (r : Render) (actions : list (str * str * Action)) (frame : Frame) : Frame :=
  foldl (λ frame '(i, a),
    render_widget (paragraph
      [action_line r (r_width area) (bool_decide (i = actions_selected (r_app r))) (fst (fst a)) (snd (fst a))])
      (row_rect area i) frame)
    frame (imap pair (take (Z.to_nat (r_height area)) actions)).

Definition draw_actions (screen : Rect) (r : Render) (frame : Frame) : option Frame :=
  let t := r_theme r in
  let actions := tab_actions (r_app r) in
  let width := Z.max (Z.min 48 (saturating_sub (r_width screen) 2)) 20 in
  let height := Z.min (u16 (u16 (Z.of_nat (length actions)) + 4)) (r_height screen) in
  let title := titled r (lit "Actions") (Tab_label (tab (r_app r))) in
  let '(inner, frame) := popup (centered width height screen) title t (r_glyphs r) frame in
  if (r_height inner =? 0) || (r_width inner =? 0) then Some frame
  else
    match vertical [Fill 1; Length 1] inner with
    | [body_area; footer] =>
        let frame :=
          if bool_decide (actions = [])
          then render_widget (paragraph [[mkSpan (lit "  No actions on this tab") (dim t)]]) body_area frame
          else draw_action_rows body_area r actions frame in
        Some (render_widget (paragraph
          [[mkSpan (lit " Enter ") (key_style t); mkSpan (lit " run   ") (key_desc t);
            mkSpan (lit " Esc ") (key_style t); mkSpan (lit " cancel ") (key_desc t)]]) footer frame)
    | _ => None
    end.

(** ** Help *)

Definition TWO_COLUMN_WIDTH : Z := 76.
Definition HELP_KEY_WIDTH : nat := 16.

Definition ascii_safe (line : Line) (r : Render) : Line :=
  if unicode (r_glyphs r) then line
  else (λ s, mkSpan (replace_char 8595 (arrow_down (r_glyphs r)) (replace_char 8593 (arrow_up (r_glyphs r)) (span_text s)))
               (span_style s)) <$> line.

Definition heading (text : str) (r : Render) : Line := [mkSpan text (accent (r_theme r))].

(** The arrows of the keymap, spelled where the terminal has none. *)
Definition spelled_keys (r : Render) (keys : str) : str :=
  if unicode (r_glyphs r) then keys
  else replace_char 8594 (lit "Right") (replace_char 8592 (lit "Left")
         (replace_char 8595 (lit "Down") (replace_char 8593 (lit "Up") keys))).

Definition binding_line (keys label : str) (r : Render) : Line :=
  [mkSpan (pad_right HELP_KEY_WIDTH (spelled_keys r keys)) (strong (r_theme r)); mkSpan label (dim (r_theme r))].

Definition binding_lines (r : Render) (rows : list (str * str * Group)) : list Line :=
  (λ '(keys, label, _), binding_line keys label r) <$> rows.

(** What [push_group] appends. *)
Definition group_lines (rows : list (str * str * Group)) (group : Group) (r : Render) : list Line :=
  let in_group := List.filter (λ row, bool_decide (snd row = group)) rows in
  if bool_decide (in_group = []) then []
  else heading (Group_title group) r :: binding_lines r in_group ++ [[raw []]].

Definition sections (r : Render) : list Line * list Line :=
  let app := r_app r in
  let tab_rows := help_rows (tab app) (Scope.Tab (tab app)) in
  let global := help_rows (tab app) Scope.Global in
  let own := if bool_decide (tab_rows = []) then []
             else heading (lit "THIS TAB " ++ dash (r_glyphs r) ++ lit " " ++ Tab_label (tab app)) r
                  :: binding_lines r tab_rows ++ [[raw []]] in
  let remote := if is_remote app then
                  [[raw []];
                   [mkSpan (lit "Remote mode: kill, renice and container") (level_style (r_theme r) Level.Warning)];
                   [mkSpan (lit "actions are disabled: the server owns them.")
                      (level_style (r_theme r) Level.Warning)]]
                else [] in
  (own ++ ([Group.Actions; Group.Table] ≫= λ g, group_lines global g r),
   ([Group.Navigation; Group.SortFilter; Group.App] ≫= λ g, group_lines global g r) ++ remote).

Definition render_column (area : Rect) (lines : list Line) (scroll : nat) (frame : Frame) : Frame :=
  if r_height area =? 0 then frame
  else render_widget (paragraph (scrolled scroll (Z.to_nat (r_height area)) lines)) area frame.

Definition help_hint (r : Render) : Line :=
  let t := r_theme r in
  [mkSpan (lit " ↑↓ ") (key_style t); mkSpan (lit " scroll   ") (key_desc t);
   mkSpan (lit " ? ") (key_style t); mkSpan (lit " or ") (key_desc t);
   mkSpan (lit " Esc ") (key_style t); mkSpan (lit " close ") (key_desc t)].

Definition draw_help (screen : Rect) (r : Render) (frame : Frame) : option Frame :=
  let title := titled r (lit "Help") (lit "muxtop v" ++ CARGO_PKG_VERSION) in
  let '(inner, frame) := popup (centered_percent 88 88 screen) title (r_theme r) (r_glyphs r) frame in
  if (r_height inner =? 0) || (r_width inner =? 0) then Some frame
  else
    match vertical [Fill 1; Length 1] inner with
    | [body_area; footer] =>
        let '(left_lines, right_lines) := sections r in
        let scroll := overlay_scroll (r_app r) in
        frame ← (if TWO_COLUMN_WIDTH <=? r_width body_area then
                   match horizontal [Percentage 50; Length 2; Fill 1] body_area with
                   | [l; _; rr] => Some (render_column rr right_lines scroll (render_column l left_lines scroll frame))
                   | _ => None
                   end
                 else Some (render_column body_area (left_lines ++ [raw []] :: right_lines) scroll frame));
        Some (render_widget (paragraph [ascii_safe (help_hint r) r]) footer frame)
    | _ => None
    end.

(** ** The command palette *)

Definition PALETTE_WIDTH : Z := 64.
Definition MAX_RESULTS : nat := 12.

Definition draw_input (area : Rect) (r : Render) (frame : Frame) : Frame :=
  let t := r_theme r in
  let p := palette (r_app r) in
  let prompt := if command_mode (r_app r) then lit ":" else lit ">" in
  let argument := match arg p with
                  | Some arg => if bool_decide (arg = []) then []
                                else [mkSpan (lit "   " ++ chevron (r_glyphs r) ++ lit " " ++ arg) (subtle t)]
                  | None => []
                  end in
  render_widget (paragraph
    [[mkSpan (prompt ++ lit " ") (accent t); mkSpan (input p) (body t); mkSpan (cursor (r_glyphs r)) (accent t)]
     ++ argument]) area frame.

(** The pieces of a label: runs of characters the query does or does not match,
    the query being consumed from its front. *)
Fixpoint runs (hl base : Style) (query run : str) (run_hit : bool) (chars : str) : list Span :=
  let flush := if bool_decide (run = []) then [] else [mkSpan run (if run_hit then hl else base)] in
  match chars with
  | [] => flush
  | ch :: chars =>
      let hit := match query with c :: _ => eq_ignore_ascii_case c (to_ascii_lowercase ch) | [] => false end in
      let query := if hit then tail query else query in
      if negb (Bool.eqb hit run_hit) && negb (bool_decide (run = []))
      then flush ++ runs hl base query [ch] hit chars
      else runs hl base query (run ++ [ch]) hit chars
  end.

Definition palette_query (r : Render) : str :=
  match arg (palette (r_app r)) with Some _ => [] | None => to_lowercase (input (palette (r_app r))) end.

Definition result_line (cmd : Command) (selected : bool) (width : Z) (r : Render) : Line :=
  let t := r_theme r in
  let base := if selected then selected_row t else body t in
  let shortcut_w := (length (shortcut cmd) + 2)%nat in
  let label_w := (Z.to_nat width - (2 + shortcut_w))%nat in
  let truncated := truncate (Command_label cmd) label_w (r_glyphs r) in
  [mkSpan (if selected then sel_edge (r_glyphs r) ++ lit " " else lit "  ")
     (if selected then level_style t Level.Info else base)]
  ++ runs (with_fg (accent_primary t) base) base (palette_query r) [] false truncated
  ++ [mkSpan (spaces (label_w - length truncated)) base;
      mkSpan (pad_left (shortcut_w - 2) (shortcut cmd) ++ lit "  ") (if selected then base else subtle t)].

(** The first result shown, so that the cursor is. *)
Definition result_scroll (p : PaletteState) (visible : nat) : nat := (palette_selected p - (visible - 1))%nat.

Definition draw_results (area : Rect) (r : Render) (frame : Frame) : Frame :=
  let p := palette (r_app r) in
  let visible := min (Z.to_nat (r_height area)) (length (filtered p)) in
  if (visible =? 0)%nat then frame
  else
    let scroll := result_scroll p visible in
    foldl (λ frame '(i, result),
      render_widget (paragraph
        [result_line (fst result) (bool_decide ((scroll + i)%nat = palette_selected p)) (r_width area) r])
        (row_rect area i) frame)
      frame (imap pair (take visible (drop scroll (filtered p)))).

Definition draw_hint (area : Rect) (r : Render) (frame : Frame) : Frame :=
  let t := r_theme r in
  render_widget (paragraph
    [if command_mode (r_app r) then
       [mkSpan (lit " try ") (subtle t); mkSpan (lit "kill firefox") (dim t); mkSpan (lit "  ") (subtle t);
        mkSpan (lit "sort mem") (dim t); mkSpan (lit "  ") (subtle t); mkSpan (lit "theme mono") (dim t)]
     else
       [mkSpan (lit " Enter ") (key_style t); mkSpan (lit " run  ") (key_desc t); mkSpan (lit " : ") (key_style t);
        mkSpan (lit " command with arguments  ") (key_desc t); mkSpan (lit " Esc ") (key_style t);
        mkSpan (lit " close ") (key_desc t)]]) area frame.

Definition palette_place (p : PaletteState) (area : Rect) : Rect :=
  let result_rows := Z.of_nat (max 1 (min (length (filtered p)) MAX_RESULTS)) in
  centered (Z.max (Z.min PALETTE_WIDTH (saturating_sub (r_width area) 2)) 20)
    (Z.min (result_rows + 5) (r_height area)) area.

Definition draw_palette (screen : Rect) (r : Render) (frame : Frame) : option Frame :=
  let p := palette (r_app r) in
  let title := if command_mode (r_app r) then lit "Command" else lit "Command Palette" in
  let '(inner, frame) := popup (palette_place p screen) title (r_theme r) (r_glyphs r) frame in
  if (r_height inner =? 0) || (r_width inner =? 0) then Some frame
  else
    match vertical [Length 1; Fill 1; Length 1] inner with
    | [input_area; results_area; hint_area] =>
        let frame := draw_input input_area r frame in
        let frame :=
          if bool_decide (filtered p = [])
          then render_widget (paragraph [[mkSpan (lit "  No matches") (dim (r_theme r))]]) results_area frame
          else draw_results results_area r frame in
        Some (draw_hint hint_area r frame)
    | _ => None
    end.
End Overlays.

(** ** Properties *)

(** *** The palette *)

(** Which characters of a label the query matches, from its front. *)
Fixpoint matched (query chars : str) : list bool :=
  match chars with
  | [] => []
  | ch :: chars =>
      match query with
      | c :: query' =>
          if eq_ignore_ascii_case c (to_ascii_lowercase ch) then true :: matched query' chars
          else false :: matched query chars
      | [] => false :: matched [] chars
      end
  end.

Definition marked_by (hl base : Style) (chars : str) (marks : list bool) : list (Z * Style) :=
  zip_with (λ c (m : bool), (c, if m then hl else base)) chars marks.

Lemma matched_length query chars : length (matched query chars) = length chars.
Proof.
  revert query. induction chars as [|ch chars IH]; intros [|c query]; simpl; try done; [by rewrite IH|].
  by destruct (eq_ignore_ascii_case _ _); simpl; rewrite IH.
Qed.

Lemma styled_one s st : styled [mkSpan s st] = (λ c, (c, st)) <$> s.
Proof. csimpl. by rewrite app_nil_r. Qed.

Lemma styled_flush hl base run (run_hit : bool) :
  styled (if bool_decide (run = []) then [] else [mkSpan run (if run_hit then hl else base)])
  = (λ c, (c, if run_hit then hl else base)) <$> run.
Proof. case_bool_decide; [by subst|]. apply styled_one. Qed.

(** Cutting a label into runs is marking each of its characters. *)
Lemma runs_spec hl base query run run_hit chars :
  styled (runs hl base query run run_hit chars)
  = ((λ c, (c, if run_hit then hl else base)) <$> run) ++ marked_by hl base chars (matched query chars).
Proof.
  revert query run run_hit. induction chars as [|ch chars IH]; intros query run run_hit.
  { simpl. rewrite app_nil_r. apply styled_flush. }
  cbn [runs matched]. set (hit := match query with c :: _ => _ | [] => false end).
  set (query' := if hit then tail query else query).
  assert (marked_by hl base (ch :: chars) (matched query (ch :: chars))
          = (ch, if hit then hl else base) :: marked_by hl base chars (matched query' chars)) as E.
  { subst query' hit. cbn [matched]. destruct query as [|c query]; [done|].
    by destruct (eq_ignore_ascii_case _ _). }
  cbn [matched] in E. rewrite E. clear E. clearbody hit query'.
  destruct (negb (Bool.eqb hit run_hit) && negb (bool_decide (run = []))) eqn:Eb.
  - rewrite styled_app, IH, styled_flush. done.
  - rewrite IH, fmap_app, <- app_assoc. apply andb_false_iff in Eb as [Eb|Eb].
    + apply negb_false_iff, Bool.eqb_prop in Eb. by subst.
    + apply negb_false_iff, bool_decide_eq_true in Eb. by subst.
Qed.

Lemma matched_query query chars :
  to_ascii_lowercase <$> (snd <$> List.filter fst (zip (matched query chars) chars))
  `prefix_of` to_ascii_lowercase <$> query.
Proof.
  revert query. induction chars as [|ch chars IH]; intros query; simpl; [apply prefix_nil|].
  destruct query as [|c query]; [apply (IH [])|].
  destruct (eq_ignore_ascii_case c (to_ascii_lowercase ch)) eqn:E; simpl; [|apply (IH (c :: query))].
  apply eq_ignore_ascii_case_spec in E. rewrite to_ascii_lowercase_idemp in E. rewrite E.
  by apply prefix_cons, IH.
Qed.

(** A palette row is as wide as its place and shows the command's label
    with the characters the query matches highlighted: the marks single out,
    whatever the case, a beginning of the query, and nothing is highlighted
    once an argument is parsed; and the row under the cursor is always among
    the rows shown. *)
Theorem palette_explains_itself {Uc : Unicode} cmd chosen width u s theme bp (visible : nat) :
  let r := mkRender s theme (Glyphs_new u) bp in
  let p := palette s in
  (length (shortcut cmd) + 4 ≤ Z.to_nat width)%nat →
  (0 < visible)%nat → (palette_selected p < length (filtered p))%nat →
  length (line_text (result_line cmd chosen width r)) = Z.to_nat width ∧
  (∃ edge pad label marks hl base,
     result_line cmd chosen width r = edge :: runs hl base (palette_query r) [] false label ++ pad ∧
     styled (runs hl base (palette_query r) [] false label) = marked_by hl base label marks ∧
     label = truncate (Command_label cmd) (Z.to_nat width - (length (shortcut cmd) + 4)) (r_glyphs r) ∧
     to_ascii_lowercase <$> (snd <$> List.filter fst (zip marks label))
       `prefix_of` to_ascii_lowercase <$> palette_query r ∧
     (is_Some (arg p) → existsb id marks = false)) ∧
  (result_scroll p visible ≤ palette_selected p < result_scroll p visible + visible)%nat.
Proof.
  intros r p Hw Hv Hsel. split; [|split].
  - unfold result_line. cbn zeta. set (label := truncate _ _ _).
    rewrite <- styled_length, !styled_app, !length_app, runs_spec. cbn [fmap list_fmap app].
    unfold marked_by. rewrite length_zip_with, matched_length, !styled_length. unfold line_text. csimpl.
    rewrite !app_nil_r, !length_app. unfold pad_left. rewrite !length_app. unfold spaces. rewrite !length_replicate.
    assert (length label = Nat.min (length (Command_label cmd)) (Z.to_nat width - (2 + (length (shortcut cmd) + 2)))) as El
      by apply truncate_length, Glyphs_ellipsis.
    assert (length (if chosen then sel_edge (Glyphs_new u) ++ lit " " else lit "  ") = 2%nat) as -> by (by destruct chosen, u).
    change (length (lit "  ")) with 2%nat. lia.
  - unfold result_line. cbn zeta. set (label := truncate _ _ _).
    eexists _, _, label, (matched (palette_query r) label), _, _.
    split; [done|]. split; [by rewrite runs_spec|].
    split; [subst label; f_equal; lia|]. split; [apply matched_query|].
    intros [a Ha]. unfold palette_query, r. cbn [r_app]. fold p. rewrite Ha.
    clear. induction label; simpl; auto.
  - unfold result_scroll. lia.
Qed.

Lemma palette_explains_itself_witness :
  let s := AppState_new <| palette ::= λ p, p <| input := lit "STP" |> |> in
  let r := mkRender s Theme_default (Glyphs_new false) Sm in
  (length (shortcut Command.SortByPid) + 4 ≤ Z.to_nat 40)%nat ∧
  (palette_selected (palette s) < length (filtered (palette s)))%nat ∧
  length (line_text (@result_line ascii_tables Command.SortByPid true 40 r)) = Z.to_nat 40.
Proof.
  intros s r.
  assert (length (shortcut Command.SortByPid) + 4 ≤ Z.to_nat 40)%nat as Hw by (apply (bool_decide_unpack _); vm_compute; exact I).
  assert (palette_selected (palette s) < length (filtered (palette s)))%nat as Hs by (apply (bool_decide_unpack _); vm_compute; exact I).
  split; [exact Hw|]. split; [exact Hs|].
  apply (@palette_explains_itself ascii_tables Command.SortByPid true 40 false s Theme_default Sm 1); [exact Hw|lia|exact Hs].
Defined.

(** *** Help *)

Definition ascii_row (row : str * str * Group) : bool :=
  let '(keys, lbl, _) := row in
  is_ascii (replace_char 8594 (lit "Right") (replace_char 8592 (lit "Left")
    (replace_char 8595 (lit "Down") (replace_char 8593 (lit "Up") keys)))) && is_ascii lbl.

Lemma help_rows_ascii t sc row : sc = Scope.Global ∨ sc = Scope.Tab t → row ∈ help_rows t sc → ascii_row row = true.
Proof.
  intros Hsc Hr. apply (List.forallb_forall ascii_row (help_rows t sc)); [|by apply list_elem_of_In].
  destruct Hsc as [-> | ->]; destruct t; vm_compute; reflexivity.
Qed.

Definition ascii_line (l : Line) : Prop := Forall (λ sp, is_ascii (span_text sp) = true) l.

Lemma in_group_lines rows row r :
  row ∈ rows → binding_line (fst (fst row)) (snd (fst row)) r ∈ group_lines rows (snd row) r.
Proof.
  intros Hr. unfold group_lines. set (in_group := List.filter _ _).
  assert (row ∈ in_group) as Hin.
  { apply list_elem_of_In, List.filter_In. split; [by apply list_elem_of_In|]. by apply bool_decide_eq_true. }
  case_bool_decide as E; [rewrite E in Hin; by apply elem_of_nil in Hin|].
  apply elem_of_cons. right. apply elem_of_app. left. apply list_elem_of_fmap. exists row.
  split; [by destruct row as [[??]?]|done].
Qed.

Lemma ascii_glyph (f : Glyphs → str) : is_ascii (f ASCII) = true → is_ascii (f (Glyphs_new false)) = true.
Proof. done. Qed.

Lemma is_ascii_app a b : is_ascii a = true → is_ascii b = true → is_ascii (a ++ b) = true.
Proof. intros Ha Hb. unfold is_ascii in *. by rewrite forallb_app, Ha, Hb. Qed.

Lemma is_ascii_spaces n : is_ascii (spaces n) = true.
Proof. by induction n. Qed.

Lemma ascii_lines_of rows r :
  unicode (r_glyphs r) = false → (∀ row, row ∈ rows → ascii_row row = true) → Forall ascii_line (binding_lines r rows).
Proof.
  intros Hu Hr. unfold binding_lines. apply Forall_fmap, Forall_forall. intros [[keys lbl] g] Hin.
  specialize (Hr _ Hin). apply andb_true_iff in Hr as [Hk Hl]. cbn.
  unfold binding_line, spelled_keys. rewrite Hu. apply Forall_cons. split; [|by apply Forall_singleton].
  cbn [span_text]. unfold pad_right. apply is_ascii_app; [exact Hk|apply is_ascii_spaces].
Qed.

Lemma ascii_group_lines rows g r :
  unicode (r_glyphs r) = false → (∀ row, row ∈ rows → ascii_row row = true) → Forall ascii_line (group_lines rows g r).
Proof.
  intros Hu Hr. unfold group_lines. case_bool_decide; [constructor|]. constructor.
  { apply Forall_singleton. by destruct g. }
  apply Forall_app. split; [|by repeat constructor]. apply ascii_lines_of; [done|].
  intros row Hin. apply list_elem_of_In, List.filter_In in Hin as [Hin _]. by apply Hr, list_elem_of_In.
Qed.

(** How a key reads on a terminal with the arrows, and on one without. *)
Definition arrow_name (c : Z) : str :=
  if c =? 8593 then lit "Up" else if c =? 8595 then lit "Down"
  else if c =? 8592 then lit "Left" else if c =? 8594 then lit "Right" else [c].

Definition key_name (u : bool) (key : str) : str := if u then key else key ≫= arrow_name.

Lemma spelled_is_named r keys : spelled_keys r keys = key_name (unicode (r_glyphs r)) keys.
Proof.
  unfold spelled_keys, key_name. destruct (unicode (r_glyphs r)); [done|]. unfold replace_char.
  induction keys as [|c keys IH]; [done|]. csimpl. rewrite !bind_app, IH. f_equal. unfold arrow_name.
  destruct (Z.eqb_spec c 8593) as [->|]; [reflexivity|]. csimpl. rewrite app_nil_r.
  destruct (Z.eqb_spec c 8595) as [->|]; [reflexivity|]. csimpl. rewrite app_nil_r.
  destruct (Z.eqb_spec c 8592) as [->|]; [reflexivity|]. csimpl. rewrite app_nil_r.
  by destruct (Z.eqb_spec c 8594) as [->|].
Qed.

Lemma key_name_contains u keys key :
  contains keys key = true → contains (key_name u keys) (key_name u key) = true.
Proof.
  rewrite !contains_spec. intros (x & y & ->). unfold key_name. destruct u; [by exists x, y|].
  exists (x ≫= arrow_name), (y ≫= arrow_name). by rewrite !bind_app.
Qed.

Lemma binding_line_text keys lbl r :
  line_text (binding_line keys lbl r)
  = pad_right HELP_KEY_WIDTH (key_name (unicode (r_glyphs r)) keys) ++ lbl.
Proof. unfold binding_line, line_text. cbn. by rewrite app_nil_r, spelled_is_named. Qed.

(** A binding in force has its line in one of the two columns. *)
Lemma binding_listed app theme u bp b :
  let r := mkRender app theme (Glyphs_new u) bp in
  b ∈ BINDINGS → matches (scope b) (tab app) = true →
  ∃ keys o, o ∈ BINDINGS ∧ Keymap.action o = Keymap.action b ∧
    binding_line keys (Keymap.label o) r ∈ fst (sections r) ++ snd (sections r) ∧
    contains keys (display b) = true.
Proof.
  intros r Hb Hm. destruct (help_is_complete b (tab app) Hb Hm) as ([[keys lbl] g] & o & Hin & Ho & Ha & Hl & Hk).
  cbn [fst snd] in Hl, Hk. subst lbl.
  exists keys, o. split; [done|]. split; [done|]. split; [|done].
  unfold sections. change (r_app r) with app. cbn [fst snd].
  destruct (scope b) as [|t] eqn:Es.
  + pose proof (in_group_lines _ _ r Hin) as Hg. cbn [fst snd] in Hg.
    rewrite !elem_of_app, !list_elem_of_bind.
    destruct g; [right; left; exists Group.Navigation|left; right; exists Group.Table|right; left; exists Group.SortFilter
                |left; right; exists Group.Actions|right; left; exists Group.App]; (split; [exact Hg|by repeat constructor]).
  + cbn [matches] in Hm. apply bool_decide_eq_true in Hm as ->.
    rewrite bool_decide_eq_false_2 by (intros E; rewrite E in Hin; by apply elem_of_nil in Hin).
    rewrite !elem_of_app. left. left. apply elem_of_cons. right. apply elem_of_app. left.
    apply list_elem_of_fmap. by exists (keys, Keymap.label o, g).
Qed.

Lemma sections_ascii app theme bp :
  let r := mkRender app theme (Glyphs_new false) bp in
  Forall ascii_line (fst (sections r)) ∧ Forall ascii_line (snd (sections r)).
Proof.
  intros r. assert (∀ g, Forall ascii_line (group_lines (help_rows (tab app) Scope.Global) g r)) as Hg.
  { intros g. apply ascii_group_lines; [done|]. intros row. apply help_rows_ascii. by left. }
  unfold sections. change (r_app r) with app. cbn [fst snd]. rewrite !Forall_app. split_and!.
  + case_bool_decide; [constructor|]. constructor; [|apply Forall_app; split; [|by repeat constructor]].
    * apply Forall_singleton. destruct (tab app); vm_compute; reflexivity.
    * apply ascii_lines_of; [done|]. intros row. apply help_rows_ascii. by right.
  + apply Forall_bind. by repeat constructor.
  + apply Forall_bind. by repeat constructor.
  + destruct (is_remote app); by repeat constructor.
Qed.

(** What is drawn after [f] is ASCII: titles and borders included. *)
Section Ascii.
Context `{!Layouts}.

Definition draws_ascii (f f' : Frame) : Prop :=
  ∃ ops, f' = f ++ ops ∧ Forall (λ op, Forall (λ t, is_ascii t = true) (widget_texts (snd op))) ops.

Lemma draws_ascii_refl f : draws_ascii f f.
Proof. exists []. by rewrite app_nil_r. Qed.

Lemma draws_ascii_widget w area f f' :
  Forall (λ t, is_ascii t = true) (widget_texts w) → draws_ascii f f' →
  draws_ascii f (render_widget w area f').
Proof.
  intros Hw (ops & -> & Ho). exists (ops ++ [(area, w)]). unfold render_widget. rewrite <- app_assoc.
  split; [done|]. apply Forall_app. split; [done|]. by apply Forall_singleton.
Qed.

Lemma ascii_paragraph lines :
  Forall ascii_line lines → Forall (λ t, is_ascii t = true) (widget_texts (paragraph lines)).
Proof.
  intros Hl. cbn [paragraph widget_texts]. apply Forall_bind. eapply Forall_impl; [exact Hl|].
  intros l Hline. apply Forall_fmap. exact Hline.
Qed.

Lemma draws_ascii_column area lines scroll f f' :
  Forall ascii_line lines → draws_ascii f f' → draws_ascii f (render_column area lines scroll f').
Proof.
  intros Hl Hf. unfold render_column. destruct (_ =? 0); [done|].
  apply draws_ascii_widget; [|done]. apply ascii_paragraph. unfold scrolled. by apply Forall_take, Forall_drop.
Qed.

Lemma help_draws_ascii app theme bp screen f f' :
  draw_help screen (mkRender app theme (Glyphs_new false) bp) f = Some f' → draws_ascii f f'.
Proof.
  set (r := mkRender app theme (Glyphs_new false) bp). unfold draw_help, popup.
  destruct (sections_ascii app theme bp) as [Hl Hr]. fold r in Hl, Hr.
  destruct ((r_width _ <? 3) || (r_height _ <? 3)).
  { intros [= <-]. apply draws_ascii_refl. }
  set (f1 := render_widget (block _ _ _ _) _ _). assert (draws_ascii f f1) as H1.
  { apply draws_ascii_widget; [|apply draws_ascii_widget; [constructor|apply draws_ascii_refl]].
    repeat constructor. }
  generalize dependent f1. intros f1 H1. set (inner := block_inner _). clearbody inner.
  destruct (_ || _); [by intros [= <-]|].
  destruct (vertical _ inner) as [|body [|footer [|? ?]]]; try done.
  destruct (sections r) as [ls rs]. cbn [fst snd] in Hl, Hr.
  assert (ascii_line (ascii_safe (help_hint r) r)) as Hh by (unfold ascii_safe; by repeat constructor).
  assert (Forall (λ t, is_ascii t = true) (widget_texts (paragraph [ascii_safe (help_hint r) r]))) as Hw
    by (apply ascii_paragraph; by apply Forall_singleton).
  destruct (TWO_COLUMN_WIDTH <=? r_width body).
  - destruct (horizontal _ body) as [|l [|? [|rr [|? ?]]]]; try done. intros [= <-].
    apply draws_ascii_widget; [done|]. by do 2 (apply draws_ascii_column; [done|]).
  - intros [= <-]. apply draws_ascii_widget; [done|]. apply draws_ascii_column; [|done].
    apply Forall_app. split; [done|]. constructor; [by repeat constructor|done].
Qed.

(** C40: The help screen documents the keymap.  Every binding in force on the tab
    has a line in one of its two columns that reads: the keys of the line, padded,
    among which is the key of the binding, with its arrows spelled out on a
    terminal without Unicode; then, to the end, the label of its action.  And on
    such a terminal everything the help draws is ASCII, title, borders, both
    columns and the hint. *)
Theorem help_documents_the_keymap app theme u bp :
  let r := mkRender app theme (Glyphs_new u) bp in
  (∀ b, b ∈ BINDINGS → matches (scope b) (tab app) = true →
     ∃ line keys o, line ∈ fst (sections r) ++ snd (sections r) ∧
       o ∈ BINDINGS ∧ Keymap.action o = Keymap.action b ∧
       line_text line = pad_right HELP_KEY_WIDTH keys ++ Keymap.label o ∧
       contains keys (key_name u (display b)) = true) ∧
  (u = false → ∀ screen f f', draw_help screen r f = Some f' → draws_ascii f f').
Proof.
  intros r. split.
  - intros b Hb Hm. destruct (binding_listed app theme u bp b Hb Hm) as (keys & o & Ho & Ha & Hin & Hk).
    fold r in Hin. exists (binding_line keys (Keymap.label o) r), (key_name u keys), o.
    split_and!; [done|done|done| |by apply key_name_contains].
    rewrite binding_line_text. by destruct u.
  - intros -> screen f f'. apply help_draws_ascii.
Qed.
End Ascii.

(** The help of the process tab on the kernel's console. *)
Lemma help_documents_the_keymap_witness :
  let r := mkRender AppState_new Theme_default (Glyphs_new false) Sm in
  (∃ line keys o, line ∈ fst (sections r) ++ snd (sections r) ∧ o ∈ BINDINGS ∧
     Keymap.action o = Keymap.action quit_key ∧
     line_text line = pad_right HELP_KEY_WIDTH keys ++ Keymap.label o ∧
     contains keys (key_name false (display quit_key)) = true) ∧
  ∃ f, @draw_help greedy_layouts (mkRect 0 0 80 24) r [] = Some f ∧ draws_ascii [] f.
Proof.
  intros r. destruct (@help_documents_the_keymap greedy_layouts AppState_new Theme_default false Sm) as [H1 H2]. split.
  - apply (H1 quit_key); [|vm_compute; reflexivity].
    apply list_elem_of_In; unfold BINDINGS; vm_compute; tauto.
  - destruct (@draw_help greedy_layouts (mkRect 0 0 80 24) r []) as [f|] eqn:E; [|vm_compute in E; discriminate E].
    exists f. split; [reflexivity|]. exact (H2 eq_refl (mkRect 0 0 80 24) [] f E).
Defined.

(** *** Drawing *)

Definition confirm_clean {To : Tolerance} (action : ConfirmAction) : Prop :=
  match action with
  | StopContainer id _ | KillContainer id _ | RestartContainer id _ => clean (short_id id)
  | _ => True
  end.

Definition toasts_clean {To : Tolerance} (n : Notifier) : Prop :=
  Forall (λ toast, clean (text toast)) (log n) ∧ Forall (λ toast, clean (text toast)) (active n).

Definition palette_clean {To : Tolerance} (p : PaletteState) : Prop :=
  clean (input p) ∧ (∀ a, arg p = Some a → clean a).

Lemma clean_prompt {To : Tolerance} action : confirm_clean action → clean (prompt action).
Proof.
  destruct action; simpl; intros Hc; unfold signal_name; repeat case_match; solve_clean.
Qed.

Lemma clean_concat_map {To : Tolerance} f s : (∀ c, harmless c → clean (f c)) → clean s → clean (s ≫= f).
Proof. intros Hf Hs. apply Forall_bind. eapply Forall_impl; [exact Hs|]. intros c. apply Hf. Qed.

Lemma clean_replace {To : Tolerance} c by_ s : clean by_ → clean s → clean (replace_char c by_ s).
Proof.
  intros Hb Hs. apply clean_concat_map; [|done]. intros d Hd.
  destruct (d =? c); [done|by apply Forall_singleton].
Qed.

Section Paint.
Context {Uc : Unicode} {To : Tolerance} `{!Layouts}.
Variables (u : bool) (s : AppState) (theme : Theme) (bp : Breakpoint).
Let r := mkRender s theme (Glyphs_new u) bp.

Lemma clean_tab_label t : clean (Tab_label t).
Proof. destruct t; by apply clean_check. Qed.

Lemma clean_dash_titled kind name : clean kind → clean name → clean (titled r kind name).
Proof. intros. unfold titled, r. cbn [r_glyphs]. solve_clean. Qed.

(** A popup in a place on the screen, its body in what the frame leaves. *)
Lemma popup_painted screen place title f (k : Rect → Frame → option Frame) :
  within screen place → rect_ok screen → clean title →
  (∀ inner f, rect_ok inner → painted inner f (k inner f)) →
  painted screen f (let '(inner, f') := popup place title theme (Glyphs_new u) f in
                    if (r_height inner =? 0) || (r_width inner =? 0) then Some f' else k inner f').
Proof.
  intros Hp Hok Ht Hk. assert (rect_ok place) as Hpo by by eapply within_ok.
  pose proof (paints_popup u place title theme f Hpo Ht) as Hpop.
  destruct (popup place title theme (Glyphs_new u) f) as [inner f1]. destruct Hpop as (Hi & Hio & Hf1).
  eapply painted_mono; [exact Hp|]. eapply painted_after; [exact Hf1|].
  destruct (_ || _); [apply painted_Some, paints_refl|]. eapply painted_mono; [exact Hi|by apply Hk].
Qed.

Lemma confirm_painted screen f :
  rect_ok screen → (∀ a, confirm s = Some a → confirm_clean a) → painted screen f (draw_confirm screen r f).
Proof.
  intros Hok Hc. unfold draw_confirm. change (r_app r) with s.
  destruct (confirm s) as [a|]; [|apply painted_Some, paints_refl]. specialize (Hc a eq_refl).
  set (place := confirm_place (prompt a) screen).
  assert (within screen place) as Hp by (apply within_centered; unfold rect_ok in Hok; [lia..|exact Hok]).
  assert (rect_ok place) as Hpo by by eapply within_ok.
  eapply painted_mono; [exact Hp|]. destruct (_ || _); [apply painted_Some, paints_refl|].
  eapply painted_after; [apply (paints_widget _ place Clear); [by apply within_refl|constructor]|].
  eapply painted_after.
  { apply (paints_widget _ place (danger_block r)); [by apply within_refl|].
    cbn [danger_block widget_texts fmap option_fmap option_map option_list app fst].
    apply Forall_cons. split; [by apply clean_check|apply clean_borders]. }
  destruct (inner_parts place Hpo) as [Hi Hio]. destruct (_ =? 0); [apply painted_Some, paints_refl|].
  eapply painted_mono; [exact Hi|].
  edestruct vertical_3 as (ta & ga & ka & -> & [Hta _] & _ & [Hka _]); [exact Hio|].
  eapply painted_after.
  - apply (paints_widget _ ta (Wrapping AlignCenter [[mkSpan (prompt a) (strong theme)]])); [done|].
    cbn [widget_texts]. apply clean_lines, Forall_singleton, clean_line_cons; [by apply clean_prompt|constructor].
  - apply painted_Some, paints_line; [done|]. solve_line.
Qed.

Lemma log_painted screen f :
  rect_ok screen → toasts_clean (notifier s) → painted screen f (draw_log screen r f).
Proof.
  intros Hok [Hl _]. unfold draw_log. change (r_theme r) with theme. change (r_glyphs r) with (Glyphs_new u).
  apply popup_painted; [apply within_centered; [lia..|done]|done|by apply clean_check|].
  intros inner f1 Hio.
  edestruct vertical_2 as (ba & fa & -> & [Hba Hbo] & [Hfa Hfo]); [exact Hio|]. cbn zeta.
  change (r_app r) with s.
  apply painted_Some. eapply paints_trans; [|apply paints_line; [done|solve_line]]. apply paints_if.
  - eapply paints_mono; [exact Hba|]. apply paints_empty; [done|]. solve_empty.
  - apply paints_lines; [done|]. unfold log_lines. apply Forall_fmap, Forall_take, Forall_drop, Forall_reverse.
    eapply Forall_impl; [exact Hl|]. intros toast Ht. cbn. unfold r. cbn [r_glyphs r_theme]. solve_line.
Qed.

Lemma foldl_painted {A} area (f : Frame → A → Frame) l frame :
  Forall (λ a, ∀ f0, paints area f0 (f f0 a)) l → paints area frame (foldl f frame l).
Proof.
  intros Hl. revert frame. induction Hl as [|a l Ha _ IH]; intros frame; [apply paints_refl|].
  simpl. eapply paints_trans; [apply Ha|apply IH].
Qed.

Lemma row_rect_within area i : rect_ok area → (Z.of_nat i < r_height area) → within area (row_rect area i).
Proof.
  unfold rect_ok, within, row_rect, right_of, bottom_of, u16_max, u16. intros Hok Hi. simpl.
  rewrite Z.mod_small by lia. lia.
Qed.

(** Rows one below the other. *)
Lemma rows_painted {A} area (mk : nat → A → Line) (l : list A) f :
  rect_ok area → (Z.of_nat (length l) ≤ r_height area) → (∀ i a, l !! i = Some a → clean_line (mk i a)) →
  paints area f (foldl (λ f '(i, a), render_widget (paragraph [mk i a]) (row_rect area i) f) f (imap pair l)).
Proof.
  intros Hok Hl Hc. apply foldl_painted, Forall_lookup. intros i [j a] E.
  rewrite list_lookup_imap in E. destruct (l !! i) as [a'|] eqn:Ei; [|done]. injection E as <- <-.
  intros f0. apply paints_line; [|by apply Hc]. apply row_rect_within; [done|].
  apply lookup_lt_Some in Ei. lia.
Qed.

Lemma clean_actions : Forall (λ a, clean (fst (fst a)) ∧ clean (snd (fst a))) (tab_actions s).
Proof.
  assert (Forall (λ b, cleanb (display b) && cleanb (Keymap.label b) = true) BINDINGS) as Hb
    by (apply Forall_forall; intros b Hb%list_elem_of_In; revert b Hb;
        apply (List.forallb_forall (λ b, cleanb (display b) && cleanb (Keymap.label b)));
        vm_compute; reflexivity).
  assert (∀ b, b ∈ for_tab (tab s) → b ∈ BINDINGS) as Hin.
  { intros b. unfold for_tab. rewrite !list_elem_of_In, List.filter_In. tauto. }
  unfold tab_actions. apply Forall_fmap, Forall_forall. intros b Hf.
  rewrite !list_elem_of_In, !List.filter_In in Hf. destruct Hf as [[[Hf _] _] _].
  apply list_elem_of_In, Hin in Hf. rewrite Forall_forall in Hb. apply Hb, andb_true_iff in Hf as [H1 H2].
  split; by apply clean_check.
Qed.

Lemma actions_painted screen f : rect_ok screen → painted screen f (draw_actions screen r f).
Proof.
  intros Hok. unfold draw_actions. change (r_theme r) with theme. change (r_glyphs r) with (Glyphs_new u).
  change (r_app r) with s. cbn zeta.
  apply popup_painted; [|done|apply clean_dash_titled; [by apply clean_check|apply clean_tab_label]|].
  { apply within_centered; [|..|done]; [lia|]. unfold rect_ok in Hok. unfold u16.
    pose proof (Z.mod_pos_bound (Z.of_nat (length (tab_actions s)) mod 2 ^ 16 + 4) (2 ^ 16)). lia. }
  intros inner f1 Hio.
  edestruct vertical_2 as (ba & fa & -> & [Hba Hbo] & [Hfa Hfo]); [exact Hio|]. cbn zeta.
  apply painted_Some. eapply paints_trans; [|apply paints_line; [done|solve_line]]. apply paints_if.
  - apply paints_line; [done|]. solve_line.
  - eapply paints_mono; [exact Hba|]. unfold draw_action_rows.
    apply (rows_painted ba (λ i (a : str * str * Action), action_line r (r_width ba)
      (bool_decide (i = actions_selected (r_app r))) (fst (fst a)) (snd (fst a)))); [done| |].
    + rewrite length_take. unfold rect_ok in Hbo. lia.
    + intros i a Ea. pose proof clean_actions as Hc. rewrite Forall_lookup in Hc.
      apply lookup_take_Some in Ea as [Ea _]. destruct (Hc i a Ea) as [H1 H2].
      unfold action_line, r. cbn [r_glyphs r_theme]. solve_line.
Qed.

(** *** Help, drawn *)

Definition clean_row_of (row : str * str * Group) : bool := cleanb (fst (fst row)) && cleanb (snd (fst row)).

Lemma help_rows_clean t sc row : sc = Scope.Global ∨ sc = Scope.Tab t → row ∈ help_rows t sc → clean_row_of row = true.
Proof.
  intros Hsc Hr. apply (List.forallb_forall clean_row_of (help_rows t sc)); [|by apply list_elem_of_In].
  destruct Hsc as [-> | ->]; destruct t; vm_compute; reflexivity.
Qed.

Lemma clean_spelled keys : clean keys → clean (spelled_keys r keys).
Proof.
  intros Hk. unfold spelled_keys. destruct (unicode _); [done|].
  repeat apply clean_replace; try (by apply clean_check). done.
Qed.

Lemma clean_binding_lines rows :
  (∀ row, row ∈ rows → clean_row_of row = true) → Forall clean_line (binding_lines r rows).
Proof.
  intros Hr. apply Forall_fmap, Forall_forall. intros [[keys lbl] g] Hin.
  specialize (Hr _ Hin). apply andb_true_iff in Hr as [Hk%clean_check Hl%clean_check]. cbn in Hk, Hl. cbn.
  unfold binding_line. apply clean_line_cons; [apply clean_pad_right; by apply clean_spelled|].
  by apply clean_line_cons; [|constructor].
Qed.

Lemma clean_blank : Forall clean_line [[raw []]].
Proof. apply Forall_singleton, clean_line_cons; [apply clean_nil|constructor]. Qed.

Lemma clean_heading t : clean t → clean_line (heading t r).
Proof. intros. by apply clean_line_cons; [|constructor]. Qed.

Lemma clean_group_lines rows g :
  (∀ row, row ∈ rows → clean_row_of row = true) → Forall clean_line (group_lines rows g r).
Proof.
  intros Hr. unfold group_lines. case_bool_decide; [constructor|]. apply Forall_cons.
  split; [apply clean_heading; destruct g; by apply clean_check|].
  apply Forall_app. split; [|apply clean_blank]. apply clean_binding_lines.
  intros row Hin. apply list_elem_of_In, List.filter_In in Hin as [Hin _]. by apply Hr, list_elem_of_In.
Qed.

Lemma clean_sections : Forall clean_line (fst (sections r)) ∧ Forall clean_line (snd (sections r)).
Proof.
  assert (∀ gs, Forall clean_line (gs ≫= λ g, group_lines (help_rows (tab s) Scope.Global) g r)) as Hg.
  { intros gs. apply Forall_bind, Forall_true. intros g. apply clean_group_lines. intros row.
    apply help_rows_clean. by left. }
  unfold sections. change (r_app r) with s. cbn [fst snd]. rewrite !Forall_app. split_and!; [|apply Hg|apply Hg|].
  - case_bool_decide; [constructor|]. apply Forall_cons. split.
    + apply clean_heading. unfold r. cbn [r_glyphs]. pose proof (clean_tab_label (tab s)). solve_clean.
    + apply Forall_app. split; [|apply clean_blank]. apply clean_binding_lines. intros row. apply help_rows_clean. by right.
  - destruct (is_remote s); [|constructor]. solve_lines.
Qed.

Lemma column_painted area lines scroll f :
  rect_ok area → Forall clean_line lines → paints area f (render_column area lines scroll f).
Proof.
  intros Hok Hl. unfold render_column. apply paints_if; [apply paints_refl|].
  apply paints_lines; [by apply within_refl|]. by apply Forall_take, Forall_drop.
Qed.

Lemma clean_ascii_safe l : clean_line l → clean_line (ascii_safe l r).
Proof.
  intros Hl. unfold ascii_safe. destruct (unicode _); [done|]. apply Forall_fmap.
  eapply Forall_impl; [exact Hl|]. intros sp Hs. cbn.
  repeat apply clean_replace; [unfold r; cbn [r_glyphs]; auto with clean..|done].
Qed.

Lemma help_painted screen f : rect_ok screen → painted screen f (draw_help screen r f).
Proof.
  intros Hok. unfold draw_help. change (r_theme r) with theme. change (r_glyphs r) with (Glyphs_new u).
  change (r_app r) with s. destruct clean_sections as [Hl Hr]. destruct (sections r) as [left_lines right_lines].
  cbn [fst snd] in Hl, Hr.
  apply popup_painted; [apply within_centered; [lia..|done]|done|apply clean_dash_titled; by apply clean_check|].
  intros inner f1 Hio.
  edestruct vertical_2 as (ba & fa & -> & [Hba Hbo] & [Hfa Hfo]); [exact Hio|]. cbn zeta.
  apply painted_bind.
  - eapply painted_mono; [exact Hba|]. destruct (_ <=? _).
    + edestruct horizontal_3 as (la & ga & ra & -> & [Hla Hlo] & _ & [Hra Hro]); [exact Hbo|].
      apply painted_Some. eapply paints_trans; [|eapply paints_mono; [exact Hra|by apply column_painted]].
      eapply paints_mono; [exact Hla|by apply column_painted].
    + apply painted_Some, column_painted; [done|]. apply Forall_app. split; [done|].
      apply Forall_cons. split; [by apply (Forall_inv clean_blank)|done].
  - intros f2. apply painted_Some, paints_line; [done|]. apply clean_ascii_safe. unfold help_hint. solve_line.
Qed.

(** *** The palette, drawn *)

Lemma clean_command_label c : clean (Command_label c).
Proof. destruct c; by apply clean_check. Qed.

Lemma clean_shortcut c : clean (shortcut c).
Proof. destruct c; by apply clean_check. Qed.

Lemma clean_styled l : Forall (λ cs, harmless (fst cs)) (styled l) → clean_line l.
Proof.
  induction l as [|sp l IH]; [constructor|]. unfold styled. csimpl. intros [H1 H2]%Forall_app.
  apply clean_line_cons; [|by apply IH]. rewrite Forall_fmap in H1. exact H1.
Qed.

Lemma clean_runs hl base q chars : clean chars → clean_line (runs hl base q [] false chars).
Proof.
  intros Hc. apply clean_styled. rewrite runs_spec. apply Forall_app. split; [constructor|].
  unfold marked_by. generalize (matched q chars). induction Hc as [|c chars Hc _ IH]; intros [|m ms]; try constructor;
    [exact Hc|apply IH].
Qed.

Lemma clean_result_line cmd chosen width : clean_line (result_line cmd chosen width r).
Proof.
  unfold result_line, r. cbn [r_glyphs r_theme]. pose proof (clean_shortcut cmd). pose proof (clean_command_label cmd).
  apply clean_line_app; [destruct chosen; solve_line|]. apply clean_line_app; [apply clean_runs; solve_clean|solve_line].
Qed.

Lemma input_painted area f : rect_ok area → palette_clean (palette s) → paints area f (draw_input area r f).
Proof.
  intros Hok [Hin Harg]. unfold draw_input, r. cbn [r_app r_glyphs r_theme]. cbn zeta.
  apply paints_line; [by apply within_refl|]. apply clean_line_app; [destruct (command_mode s); solve_line|].
  destruct (arg (palette s)) as [a|]; [|constructor]. specialize (Harg a eq_refl).
  destruct (bool_decide _); [constructor|]. solve_line.
Qed.

Lemma results_painted area f : rect_ok area → paints area f (draw_results area r f).
Proof.
  intros Hok. unfold draw_results. cbn zeta. apply paints_if; [apply paints_refl|].
  apply (rows_painted area (λ i (result : Command * option Z), result_line (fst result)
    (bool_decide ((result_scroll (palette (r_app r)) _ + i)%nat = palette_selected (palette (r_app r))))
    (r_width area) r)); [done| |].
  - rewrite length_take, length_drop. unfold rect_ok in Hok. lia.
  - intros i a _. apply clean_result_line.
Qed.

Lemma clean_palette_hint : clean_line
    (if command_mode (r_app r) then
       [mkSpan (lit " try ") (subtle theme); mkSpan (lit "kill firefox") (dim theme); mkSpan (lit "  ") (subtle theme);
        mkSpan (lit "sort mem") (dim theme); mkSpan (lit "  ") (subtle theme); mkSpan (lit "theme mono") (dim theme)]
     else
       [mkSpan (lit " Enter ") (key_style theme); mkSpan (lit " run  ") (key_desc theme);
        mkSpan (lit " : ") (key_style theme); mkSpan (lit " command with arguments  ") (key_desc theme);
        mkSpan (lit " Esc ") (key_style theme); mkSpan (lit " close ") (key_desc theme)]).
Proof. destruct (command_mode _); solve_line. Qed.

Lemma palette_painted screen f :
  rect_ok screen → palette_clean (palette s) → painted screen f (draw_palette screen r f).
Proof.
  intros Hok [Hin Harg]. unfold draw_palette. change (r_theme r) with theme. change (r_glyphs r) with (Glyphs_new u).
  change (r_app r) with s. cbn zeta.
  apply popup_painted; [apply within_centered; unfold rect_ok in Hok; [lia..|exact Hok]|done| |].
  { destruct (command_mode s); by apply clean_check. }
  intros inner f1 Hio.
  edestruct vertical_3 as (ia & ra & ha & -> & [Hia Hiao] & [Hra Hrao] & [Hha Hhao]); [exact Hio|]. cbn zeta.
  apply painted_Some. eapply paints_trans; [|apply paints_line; [exact Hha|apply clean_palette_hint]].
  eapply paints_trans; [eapply paints_mono; [exact Hia|apply input_painted; [exact Hiao|by split]]|].
  eapply paints_mono; [exact Hra|]. apply paints_if; [|by apply results_painted].
  apply paints_line; [by apply within_refl|]. solve_line.
Qed.
End Paint.
