(* ===== verification/Chrome.v ===== *)
(** * The chrome: crates/muxtop-tui/src/ui/chrome.rs

    The header line, the tab bar and the status bar, and how the screen is
    split between them and the content. *)

From S2P Require Import Prelude Str RsFloat Num FloatFacts Actions Process Network Gpu.
From S2P Require Import Snapshots Keymap Ui KubeView Palette App Terminal Theme Canvas.
From S2P Require Import Columns Table Meters View GpuView GeneralView Overlays.
Local Open Scope Z_scope.
Local Open Scope record_scope.

Definition COMPACT_WIDTH : Z := 60.

Definition header_rows (width : Z) : Z := if width <? COMPACT_WIDTH then 1 else 2.

(** ** Helpers *)

Definition percent (used total : Z) : f64 :=
  if total =? 0 then f64_of_Z 0 else f64_clamp (f64_of_Z 0) (f64_of_Z 100) (share_of used total).

Definition format_uptime (secs : Z) : str :=
  let days := secs / 86400 in
  let hours := (secs mod 86400) / 3600 in
  let mins := (secs mod 3600) / 60 in
  if 0 <? days then show days ++ lit "d " ++ show hours ++ lit "h " ++ show mins ++ lit "m"
  else if 0 <? hours then show hours ++ lit "h " ++ show mins ++ lit "m"
  else show mins ++ lit "m".

(** [SocketAddr::port], of an address kept as it is displayed. *)
Definition addr_port (addr : str) : Z :=
  let digits := reverse (take_while (λ c, negb (c =? 58)) (reverse addr)) in
  default 0 (parse_uint u16_max digits).

(** ** The header *)

Definition bar (line : Line) (r : Render) : Widget := Paragraph AlignLeft (chrome (r_theme r)) [line].

Definition on_header (r : Render) (s : Style) : Style := with_bg (header_bg (r_theme r)) s.

Section Chrome.
(** [muxtop_core::system::host_name()]. *)
Variable host_name : option str.

Definition connection_spans (r : Render) : list Span :=
  let t := r_theme r in
  let g := r_glyphs r in
  match connection_mode (r_app r) with
  | Local =>
      [mkSpan (lit "  " ++ conn_local g ++ lit " ") (on_header r (level_style t Level.Success));
       mkSpan (default (lit "local") host_name) (chrome t)]
  | Remote hostname addr =>
      let style := on_header r (with_fg (accent_secondary t) Style_default) in
      [mkSpan (lit "  " ++ conn_remote g ++ lit " ") style;
       mkSpan (scrub_ctrl hostname ++ lit ":" ++ show (addr_port addr) ++ lit " ") style;
       mkSpan (lit "read-only ") (on_header r (subtle t))]
  end.

(** A name, its meter and its figure. *)
Definition vital_spans (r : Render) (name : str) (pct : f64) : option (list Span) :=
  let t := r_theme r in
  meter ← inline t (r_glyphs r) pct 8;
  Some (mkSpan name (on_header r (dim t)) :: meter
        ++ [mkSpan (lit " " ++ pad_left 3 (fmt_fixed 0 pct) ++ lit "% ") (on_header r (dim t))]).

Definition snapshot_spans (r : Render) (width : Z) (snapshot : SystemSnapshot) : option (list Span) :=
  let up := mkSpan (lit "  up " ++ format_uptime (uptime_secs (load snapshot)) ++ lit " ")
              (on_header r (dim (r_theme r))) in
  if 90 <=? width then
    let mem := memory snapshot in
    cpu_spans ← vital_spans r (lit " CPU ") (f64_from (global_usage (cpu snapshot)));
    mem_spans ← vital_spans r (lit " MEM ") (percent (mem_used mem) (mem_total mem));
    Some (up :: cpu_spans ++ mem_spans)
  else Some [up].

Definition paused_spans (r : Render) : list Span :=
  if paused (r_app r) then [mkSpan (lit " PAUSED ") (level_fill (r_theme r) Level.Warning)] else [].

Definition draw_header (area : Rect) (r : Render) (frame : Frame) : option Frame :=
  let t := r_theme r in
  vitals ← (match last_snapshot (r_app r) with
            | Some snapshot => snapshot_spans r (r_width area) snapshot
            | None => Some [] end);
  Some (render_widget (bar
    ([mkSpan (lit " muxtop ") (accent_fill t);
      mkSpan (lit " v" ++ CARGO_PKG_VERSION ++ lit " ") (on_header r (dim t))]
     ++ connection_spans r ++ vitals ++ paused_spans r) r) area frame).
End Chrome.

(** ** The tab bar *)

Definition tab_available (app : AppState) (t : Tab) : bool :=
  match t with
  | Tab.Containers => match (s ← last_snapshot app; sys_containers s) with Some c => daemon_up c | None => false end
  | Tab.Kube => match (s ← last_snapshot app; sys_kube s) with Some k => reachable k | None => false end
  | Tab.Gpu => match (s ← last_snapshot app; sys_gpu s) with Some g => available g | None => false end
  | _ => true
  end.

Definition SUP : list str := lit <$> ["¹"; "²"; "³"; "⁴"; "⁵"; "⁶"; "⁷"; "⁸"; "⁹"]%string.

(** [n] is at least 1. *)
Definition tab_number (n : nat) (glyphs : Glyphs) : str :=
  if negb (unicode glyphs) then nat_show n else default (nat_show n) (SUP !! (n - 1)%nat).

Section Counts.
Context {Uc : Unicode}.

(** None before the first snapshot, and none of a source that is down. *)
Definition tab_count (app : AppState) (t : Tab) : option nat :=
  match last_snapshot app with
  | None => None
  | Some _ =>
      match t with
      | Tab.General => None
      | Tab.Processes => Some (process_count app)
      | Tab.Network => Some (net_interface_count app)
      | Tab.Containers => if tab_available app t then Some (containers_count app) else None
      | Tab.Kube => if tab_available app t then Some (kube_count app) else None
      | Tab.Gpu => if tab_available app t then Some (gpu_count app) else None
      end
  end.

Definition tab_spans (r : Render) (compact : bool) (i : nat) (t : Tab) : list Span :=
  let app := r_app r in
  let theme := r_theme r in
  let active := bool_decide (t = tab app) in
  let style := if active then on_header r (accent theme)
               else if tab_available app t then on_header r (dim theme) else on_header r (subtle theme) in
  [mkSpan ((if active then lit " " else lit "  ") ++ tab_number (S i) (r_glyphs r)) (on_header r (subtle theme));
   mkSpan (Tab_label t) style]
  ++ match (if compact then None else tab_count app t) with
     | Some count =>
         [mkSpan (lit " " ++ nat_show count) (on_header r (if active then strong theme else subtle theme))]
     | None => []
     end
  ++ [mkSpan (lit " ") (chrome theme)].

Definition draw_tabbar (area : Rect) (r : Render) (frame : Frame) : Frame :=
  let compact := r_width area <? 100 in
  render_widget (bar (concat (imap (tab_spans r compact) Tab_ALL)) r) area frame.

Definition draw_compact_chrome (area : Rect) (r : Render) (frame : Frame) : Frame :=
  let theme := r_theme r in
  let app := r_app r in
  render_widget (bar
    ([mkSpan (lit " muxtop ") (accent_fill theme);
      mkSpan (lit " " ++ Tab_label (tab app) ++ lit " ") (on_header r (accent theme))]
     ++ match tab_count app (tab app) with
        | Some count => [mkSpan (nat_show count ++ lit " ") (on_header r (dim theme))] | None => [] end
     ++ paused_spans r) r) area frame.

(** ** The status bar *)

Definition selection_of (app : AppState) : nat * nat :=
  match tab app with
  | Tab.Network => (net_selected app, net_scroll_offset app)
  | Tab.Containers => (containers_selected app, containers_scroll_offset app)
  | Tab.Kube => (kube_selected app, kube_scroll_offset app)
  | Tab.Gpu => (gpu_selected app, gpu_scroll_offset app)
  | _ => (App.selected app, scroll_offset app)
  end.

Definition sort_descending (app : AppState) : bool :=
  bool_decide (match tab app with
               | Tab.Network => net_sort_order app
               | Tab.Containers => containers_sort_order app
               | Tab.Kube => kube_sort_order app
               | Tab.Gpu => gpu_sort_order app
               | _ => sort_order app
               end = Desc).

Definition sort_label (app : AppState) : str :=
  match tab app with
  | Tab.Network =>
      match net_sort_field app with
      | NetSort.Name => lit "name" | NetSort.RxRate => lit "rx" | NetSort.TxRate => lit "tx"
      | NetSort.TotalRx => lit "total rx" | NetSort.TotalTx => lit "total tx" | NetSort.Errors => lit "errors"
      end
  | Tab.Containers =>
      match containers_sort_field app with
      | CtrSort.Name => lit "name" | CtrSort.Cpu => lit "cpu" | CtrSort.Mem => lit "mem"
      | CtrSort.NetRx => lit "rx" | CtrSort.NetTx => lit "tx" | CtrSort.Uptime => lit "uptime"
      end
  | Tab.Gpu =>
      match gpu_sort_field app with
      | DeviceIndex => lit "index" | DeviceName | ProcName => lit "name" | DeviceUtil => lit "util"
      | DeviceMem | ProcMem => lit "vram" | DeviceTemp => lit "temp" | DevicePower => lit "power"
      | ProcPid => lit "pid" | ProcDevice => lit "device"
      end
  | Tab.Kube =>
      match kube_sort_field app with
      | PodName | NodeName | DeployName => lit "name"
      | PodCpu | NodeCpuPct => lit "cpu"
      | PodMem | NodeMemPct => lit "mem"
      | PodRestarts => lit "restarts"
      | PodAge | NodeAge | DeployAge => lit "age"
      | PodPhaseField => lit "phase"
      | NodePodCount => lit "pods"
      | DeployNamespace => lit "namespace"
      | DeployReadyRatio => lit "ready"
      end
  | _ =>
      match sort_field app with
      | Cpu => lit "cpu" | Mem => lit "mem" | Pid => lit "pid" | Name => lit "name" | User => lit "user"
      end
  end.

(** Most important first; 34 is the quotation mark. *)
Definition state_segments (r : Render) : list str :=
  let app := r_app r in
  let arrow := if sort_descending app then sort_desc (r_glyphs r) else sort_asc (r_glyphs r) in
  let filter := filter_text app in
  (if paused app then [lit "PAUSED"] else [])
  ++ [lit "sort " ++ sort_label app ++ arrow]
  ++ (if bool_decide (filter = []) then []
      else [lit "filter " ++ [34] ++ filter ++ [34] ++ lit " " ++ nat_show (item_count app)])
  ++ match position_label (fst (selection_of app)) (item_count app) with Some pos => [pos] | None => [] end.

(** The spans so far and the cells they take. *)
Definition push (width : nat) (sp : Span) (st : list Span * nat) : bool * (list Span * nat) :=
  let len := length (span_text sp) in
  if (width <? snd st + len)%nat then (false, st) else (true, (fst st ++ [sp], (snd st + len)%nat)).

Fixpoint push_segments (r : Render) (width : nat) (segments : list str) (st : list Span * nat) : list Span * nat :=
  match segments with
  | [] => st
  | segment :: segments =>
      if (width <? snd st + length segment + 3)%nat then st
      else
        let t := r_theme r in
        let st := snd (push width (mkSpan (lit " " ++ segment ++ lit " ") (on_header r (dim t))) st) in
        let st := snd (push width (mkSpan (sep (r_glyphs r)) (on_header r (subtle t))) st) in
        push_segments r width segments st
  end.

Fixpoint push_hints (r : Render) (width : nat) (hints : list (str * str)) (st : list Span * nat) : list Span * nat :=
  match hints with
  | [] => st
  | (key, label) :: hints =>
      let '(fits, st) := push width (mkSpan (lit " " ++ key ++ lit " ") (key_style (r_theme r))) st in
      if negb fits then st
      else
        let '(fits, st) := push width (mkSpan (label ++ lit " ") (key_desc (r_theme r))) st in
        if negb fits then st else push_hints r width hints st
  end.

Definition status_line (r : Render) (width : nat) : Line :=
  fst (push_hints r width (hints (tab (r_app r)) (is_remote (r_app r)))
         (push_segments r width (state_segments r) ([], 0%nat))).

Definition toast_line (r : Render) (toast : Toast) : Line :=
  let extra := (length (active (notifier (r_app r))) - 1)%nat in
  mkSpan (lit " " ++ text toast ++ lit " ") (level_fill (r_theme r) (level toast))
  :: (if (0 <? extra)%nat
      then [mkSpan (lit " +" ++ nat_show extra ++ lit " more (Ctrl+L) ") (on_header r (dim (r_theme r)))]
      else []).

(** A toast outranks the state. *)
Definition draw_statusbar (area : Rect) (r : Render) (frame : Frame) : Frame :=
  if (r_height area =? 0) || (r_width area =? 0) then frame
  else
    let line := match latest (notifier (r_app r)) with
                | Some toast => toast_line r toast
                | None => status_line r (Z.to_nat (r_width area))
                end in
    render_widget (bar line r) area frame.
End Counts.

(** ** The screen *)

(** Header, tab bar where there are two rows of chrome, content, status. *)
Definition split `{!Layouts} (area : Rect) : option (Rect * option Rect * Rect * Rect) :=
  if header_rows (r_width area) =? 1 then
    match vertical [Length 1; Fill 1; Length 1] area with
    | [chrome_area; content; status] => Some (chrome_area, None, content, status)
    | _ => None
    end
  else
    match vertical [Length 1; Length 1; Fill 1; Length 1] area with
    | [header; tabs; content; status] => Some (header, Some tabs, content, status)
    | _ => None
    end.

(** ** Properties *)

(** *** The status bar fits *)

Definition fits (width : nat) (st : list Span * nat) : Prop :=
  length (line_text (fst st)) = snd st ∧ (snd st ≤ width)%nat.

Lemma push_fits width sp st : fits width st → fits width (snd (push width sp st)).
Proof.
  intros [Hl Hw]. unfold push. destruct (Nat.ltb_spec width (snd st + length (span_text sp))); [done|].
  split; [|done]. cbn [fst snd]. unfold line_text in *. rewrite fmap_app, concat_app, length_app, Hl. csimpl.
  by rewrite app_nil_r.
Qed.

Lemma push_segments_fits r width segments st : fits width st → fits width (push_segments r width segments st).
Proof.
  revert st. induction segments as [|seg segments IH]; intros st Hst; [done|]. cbn [push_segments].
  destruct (_ <? _)%nat; [done|]. by apply IH, push_fits, push_fits.
Qed.

Lemma push_hints_fits r width hs st : fits width st → fits width (push_hints r width hs st).
Proof.
  revert st. induction hs as [|[key label] hs IH]; intros st Hst; [done|]. cbn [push_hints].
  pose proof (push_fits width (mkSpan (lit " " ++ key ++ lit " ") (key_style (r_theme r))) st Hst) as H1.
  destruct (push _ _ st) as [b1 st1]. cbn [snd] in H1. destruct b1; cbn [negb]; [|done].
  pose proof (push_fits width (mkSpan (label ++ lit " ") (key_desc (r_theme r))) st1 H1) as H2.
  destruct (push _ _ st1) as [b2 st2]. cbn [snd] in H2. destruct b2; cbn [negb]; [by apply IH|done].
Qed.

Lemma status_line_fits {Uc : Unicode} r width : (length (line_text (status_line r width)) ≤ width)%nat.
Proof.
  assert (fits width ([], 0%nat)) as H by (split; simpl; lia).
  apply (push_segments_fits r width (state_segments r)) in H.
  apply (push_hints_fits r width (hints (tab (r_app r)) (is_remote (r_app r)))) in H as [Hl Hw].
  unfold status_line. by rewrite Hl.
Qed.

Example uptime_days : format_uptime 273120 = lit "3d 3h 52m".
Proof. reflexivity. Qed.

Example port_of_address : addr_port (lit "[::1]:4242") = 4242.
Proof. reflexivity. Qed.

(** *** Drawing *)

Section Paint.
Context {Uc : Unicode} {To : Tolerance} `{!Layouts}.
Variable host_name : option str.
Variables (u : bool) (s : AppState) (theme : Theme) (bp : Breakpoint).
Let r := mkRender s theme (Glyphs_new u) bp.

Lemma bar_painted area l f : rect_ok area → clean_line l → paints area f (render_widget (bar l r) area f).
Proof. intros Hok Hl. apply paints_line; [by apply within_refl|done]. Qed.

Lemma clean_format_uptime secs : clean (format_uptime secs).
Proof. unfold format_uptime. solve_clean. Qed.

Lemma vital_clean name pct :
  clean name → ∃ l, vital_spans r name pct = Some l ∧ clean_line l.
Proof.
  intros Hn. unfold vital_spans. change (r_theme r) with theme. change (r_glyphs r) with (Glyphs_new u).
  destruct (inline_clean theme u pct 8) as (l & -> & Hl); [unfold is_u16, u16_max; lia|].
  eexists. split; [done|]. apply clean_line_cons; [done|]. apply clean_line_app; [done|]. solve_line.
Qed.

Lemma snapshot_spans_clean width snapshot :
  ∃ l, snapshot_spans r width snapshot = Some l ∧ clean_line l.
Proof.
  pose proof (clean_format_uptime (uptime_secs (load snapshot))) as Hu. unfold snapshot_spans.
  destruct (90 <=? width).
  - destruct (vital_clean (lit " CPU ") (f64_from (global_usage (cpu snapshot)))) as (l & -> & Hl); [by apply clean_check|].
    destruct (vital_clean (lit " MEM ") (percent (mem_used (memory snapshot)) (mem_total (memory snapshot))))
      as (k & E & Hk); [by apply clean_check|].
    cbn [mbind option_bind]. cbn zeta. rewrite E. cbn [mbind option_bind].
    eexists. split; [done|]. apply clean_line_cons; [cbn [span_text]; solve_clean|]. by apply clean_line_app.
  - eexists. split; [done|]. solve_line.
Qed.

Lemma clean_paused : clean_line (paused_spans r).
Proof. unfold paused_spans. destruct (paused _); solve_line. Qed.

Lemma clean_connection : (∀ h, host_name = Some h → clean h) → clean_line (connection_spans host_name r).
Proof.
  intros Hh. unfold connection_spans, r. cbn [r_app r_glyphs r_theme]. destruct (connection_mode s) as [|host addr].
  - assert (clean (default (lit "local") host_name)) as Hd
      by (destruct host_name as [h|]; simpl; [by apply Hh|by apply clean_check]).
    revert Hd. generalize (default (lit "local") host_name). intros h Hd. solve_line.
  - solve_line.
Qed.

Lemma header_painted area f :
  rect_ok area → (∀ h, host_name = Some h → clean h) → painted area f (draw_header host_name area r f).
Proof.
  intros Hok Hh. unfold draw_header. change (r_app r) with s.
  assert (∃ vitals, (match last_snapshot s with
            | Some snapshot => snapshot_spans r (r_width area) snapshot
            | None => Some [] end) = Some vitals ∧ clean_line vitals) as (vitals & -> & Hv).
  { destruct (last_snapshot s); [apply snapshot_spans_clean|]. by exists []; split; [|constructor]. }
  cbn [mbind option_bind]. apply painted_Some, bar_painted; [done|].
  apply clean_line_app; [unfold CARGO_PKG_VERSION; solve_line|]. apply clean_line_app; [by apply clean_connection|].
  by apply clean_line_app; [|apply clean_paused].
Qed.

Lemma clean_tab_number n : clean (tab_number n (Glyphs_new u)).
Proof.
  unfold tab_number. destruct (negb _); [apply clean_nat_show|].
  destruct (SUP !! _) as [t|] eqn:E; [|apply clean_nat_show]. cbn.
  apply clean_check. assert (Forall (λ t, cleanb t = true) SUP) as Hs by (repeat constructor).
  rewrite Forall_lookup in Hs. by eapply Hs.
Qed.

Lemma clean_tab_spans compact i t : clean_line (tab_spans r compact i t).
Proof.
  pose proof (clean_tab_label t). pose proof (clean_tab_number (S i)). unfold tab_spans.
  change (r_glyphs r) with (Glyphs_new u). cbn zeta.
  apply clean_line_cons; [cbn [span_text]; destruct (bool_decide _); solve_clean|].
  apply clean_line_cons; [done|]. cbn [app]. apply clean_line_app; [|solve_line].
  destruct (if compact then _ else _); [solve_line|constructor].
Qed.

Lemma tabbar_painted area f : rect_ok area → paints area f (draw_tabbar area r f).
Proof.
  intros Hok. apply bar_painted; [done|]. generalize (r_width area <? 100). intros compact.
  apply Forall_concat, Forall_lookup. intros i l E. rewrite list_lookup_imap in E.
  destruct (Tab_ALL !! i); [|done]. injection E as <-. apply clean_tab_spans.
Qed.

Lemma compact_painted area f : rect_ok area → paints area f (draw_compact_chrome area r f).
Proof.
  intros Hok. apply bar_painted; [done|]. pose proof (clean_tab_label (tab (r_app r))).
  apply clean_line_app; [solve_line|]. apply clean_line_app; [|apply clean_paused].
  destruct (tab_count _ _); [solve_line|constructor].
Qed.

Lemma push_clean width sp st : clean (span_text sp) → clean_line (fst st) → clean_line (fst (snd (push width sp st))).
Proof.
  intros Hs Hst. unfold push. destruct (_ <? _)%nat; [done|]. apply clean_line_app; [done|].
  by apply clean_line_cons; [|constructor].
Qed.

Lemma push_segments_clean width segments st :
  Forall clean segments → clean_line (fst st) → clean_line (fst (push_segments r width segments st)).
Proof.
  intros Hs. revert st. induction Hs as [|seg segments Hseg _ IH]; intros st Hst; [done|]. cbn [push_segments].
  destruct (_ <? _)%nat; [done|]. apply IH, push_clean; [unfold r; cbn [r_glyphs span_text]; auto with clean|].
  apply push_clean; [cbn [span_text]; solve_clean|done].
Qed.

Lemma push_hints_clean width hs st :
  Forall (λ h, clean (fst h) ∧ clean (snd h)) hs → clean_line (fst st) → clean_line (fst (push_hints r width hs st)).
Proof.
  intros Hh. revert st. induction Hh as [|[key label] hs [Hk Hl] _ IH]; intros st Hst; [done|].
  cbn [fst snd] in Hk, Hl. cbn [push_hints].
  pose proof (push_clean width (mkSpan (lit " " ++ key ++ lit " ") (key_style (r_theme r))) st) as H1.
  destruct (push _ _ st) as [b1 st1]. cbn [snd span_text] in H1.
  assert (clean_line (fst st1)) as Hst1 by (apply H1; [solve_clean|done]).
  destruct b1; cbn [negb]; [|done].
  pose proof (push_clean width (mkSpan (label ++ lit " ") (key_desc (r_theme r))) st1) as H2.
  destruct (push _ _ st1) as [b2 st2]. cbn [snd span_text] in H2.
  assert (clean_line (fst st2)) as Hst2 by (apply H2; [solve_clean|done]).
  destruct b2; cbn [negb]; [by apply IH|done].
Qed.

Lemma clean_hints t remote : Forall (λ h, clean (fst h) ∧ clean (snd h)) (hints t remote).
Proof.
  assert (forallb (λ h, cleanb (fst h) && cleanb (snd h)) (hints t remote) = true) as Hb
    by (destruct t, remote; vm_compute; reflexivity).
  apply Forall_forall. intros h Hin%list_elem_of_In. rewrite forallb_forall in Hb. specialize (Hb h Hin).
  apply andb_true_iff in Hb as [H1 H2]. split; by apply clean_check.
Qed.

Lemma clean_sort_label : clean (sort_label s).
Proof. unfold sort_label. repeat case_match; by apply clean_check. Qed.

Lemma clean_segments : clean (filter_text s) → Forall clean (state_segments r).
Proof.
  intros Hf. pose proof clean_sort_label as Hl. unfold state_segments. change (r_app r) with s.
  change (r_glyphs r) with (Glyphs_new u). rewrite !Forall_app. split_and!.
  - destruct (paused s); [|constructor]. apply Forall_singleton. by apply clean_check.
  - apply Forall_singleton. destruct (sort_descending s); solve_clean.
  - destruct (bool_decide _); [constructor|]. apply Forall_singleton. solve_clean.
  - unfold position_label. destruct (bool_decide _); [|constructor]. apply Forall_singleton. solve_clean.
Qed.

Lemma statusbar_painted area f :
  rect_ok area → clean (filter_text s) → toasts_clean (notifier s) → paints area f (draw_statusbar area r f).
Proof.
  intros Hok Hf [_ Ht]. unfold draw_statusbar. apply paints_if; [apply paints_refl|]. apply bar_painted; [done|].
  change (r_app r) with s. unfold latest. destruct (last (active (notifier s))) as [toast|] eqn:E.
  - apply last_Some_elem_of in E. rewrite Forall_forall in Ht. specialize (Ht toast E).
    unfold toast_line. destruct (0 <? _)%nat; solve_line.
  - apply push_hints_clean; [apply clean_hints|]. apply push_segments_clean; [by apply clean_segments|constructor].
Qed.

Lemma split_parts area :
  rect_ok area → ∃ header tabs content status, split area = Some (header, tabs, content, status) ∧
    (within area header ∧ rect_ok header) ∧ (∀ t, tabs = Some t → within area t ∧ rect_ok t) ∧
    (within area content ∧ rect_ok content) ∧ (within area status ∧ rect_ok status).
Proof.
  intros Hok. unfold split. destruct (_ =? 1).
  - edestruct vertical_3 as (a & b & c & -> & Ha & Hb & Hc); [exact Hok|]. by exists a, None, b, c.
  - edestruct vertical_4 as (a & b & c & d & -> & Ha & Hb & Hc & Hd); [exact Hok|]. exists a, (Some b), c, d.
    split; [done|]. split; [done|]. split; [by intros ? [= <-]|done].
Qed.
End Paint.
