(* ===== verification/Root.v ===== *)
(** * The whole screen: crates/muxtop-tui/src/ui/mod.rs

    [draw_root] puts chrome, content and overlay together.  The terminal's
    capabilities, which the application state carries in the code, are an
    argument. *)

From S2P Require Import Prelude Str RsFloat Num FloatFacts Actions Process Network Gpu.
From S2P Require Import Snapshots Keymap Ui KubeView Palette App Terminal Theme Canvas.
From S2P Require Import Columns Table Meters View ProcessesView NetworkView ContainersView GpuView KubeTable.
From S2P Require Import GeneralView InspectorView Overlays Chrome AppSafety AppViews.
Local Open Scope Z_scope.
Local Open Scope record_scope.

Section Root.
Context {Uc : Unicode} `{!Layouts}.
Variable host_name : option str.

Definition draw_content (area : Rect) (r : Render) (frame : Frame) : option Frame :=
  if (r_height area =? 0) || (r_width area =? 0) then Some frame
  else
    match tab (r_app r) with
    | Tab.General => draw_general_tab area r frame
    | Tab.Processes => draw_processes_tab area r frame
    | Tab.Network => draw_network_tab area r frame
    | Tab.Containers => draw_containers_tab area r frame
    | Tab.Kube => draw_kube_tab area r frame
    | Tab.Gpu => draw_gpu_tab area r frame
    end.

Definition draw_overlay (screen content_area : Rect) (r : Render) (frame : Frame) : option Frame :=
  match overlay (r_app r) with
  | Overlay.None => Some frame
  | Overlay.Palette | Overlay.Command => draw_palette screen r frame
  | Overlay.Help => draw_help screen r frame
  | Overlay.Log => draw_log screen r frame
  | Overlay.Actions => draw_actions screen r frame
  | Overlay.Inspector => draw_inspector screen content_area r frame
  end.

(** What every view is given; the layout class is the frame's. *)
Definition render_of (screen : Rect) (caps : TermCaps) (app : AppState) : Render :=
  mkRender app (with_kind (theme_kind app) (color_support caps)) (Glyphs_new (Terminal.unicode caps))
    (from_width (r_width screen)).

Definition draw_root (screen : Rect) (caps : TermCaps) (app : AppState) (frame : Frame) : option Frame :=
  let r := render_of screen caps app in
  '(header_area, tabbar_area, content_area, status_area) ← split screen;
  frame ← (match tabbar_area with
           | Some tabs =>
               frame ← draw_header host_name header_area r frame;
               Some (draw_tabbar tabs r frame)
           | None => Some (draw_compact_chrome header_area r frame)
           end);
  frame ← draw_content content_area r frame;
  let frame := draw_statusbar status_area r frame in
  frame ← draw_overlay screen content_area r frame;
  if bool_decide (confirm app = None) then Some frame else draw_confirm screen r frame.
End Root.

(** ** Properties *)

(** What the code writes as it comes: typed text, and the foreign text no view
    scrubs. *)
Record sane {Uc : Unicode} {To : Tolerance} (s : AppState) : Prop := {
  sane_toasts : toasts_clean (notifier s);
  sane_filter : clean (filter_text s);
  sane_palette : palette_clean (palette s);
  sane_confirm : ∀ a, confirm s = Some a → confirm_clean a;
  sane_inspected : inspected_clean s;
  sane_cores : ∀ snapshot, last_snapshot s = Some snapshot → cores_clean snapshot;
}.

Section Drawn.
Context {Uc : Unicode} {To : Tolerance} `{!Layouts}.

Lemma content_painted u s theme bp area f :
  rect_ok area → sane s → painted area f (draw_content area (mkRender s theme (Glyphs_new u) bp) f).
Proof.
  intros Hok [_ Hf _ _ (_ & _ & Hr) Hc]. unfold draw_content. destruct (_ || _); [apply painted_Some, paints_refl|].
  cbn [r_app]. destruct (tab s).
  - by apply general_painted.
  - by apply processes_painted.
  - by apply network_painted.
  - by apply containers_painted.
  - by apply kube_painted.
  - by apply gpu_painted.
Qed.

Lemma overlay_painted u s theme bp screen area f :
  rect_ok screen → within screen area → sane s →
  painted screen f (draw_overlay screen area (mkRender s theme (Glyphs_new u) bp) f).
Proof.
  intros Hok Ha [Ht _ Hp _ Hi _]. unfold draw_overlay. cbn [r_app]. destruct (overlay s).
  - apply painted_Some, paints_refl.
  - by apply palette_painted.
  - by apply palette_painted.
  - by apply help_painted.
  - by apply actions_painted.
  - by apply inspector_painted.
  - by apply log_painted.
Qed.

(** Drawing never panics, draws nothing outside the screen and hands the
    terminal no control character but those tolerated in what it takes as it
    comes ([sane]), whatever the state, the tab, the overlay and the size of the
    screen: every other name, command, image, label and message of other hosts and
    processes may hold any bytes. *)
Theorem screen_is_safe host_name screen caps s :
  rect_ok screen → (∀ h, host_name = Some h → clean h) → sane s →
  ∃ frame, draw_root host_name screen caps s [] = Some frame ∧
    Forall (λ op, within screen (fst op) ∧ Forall clean (widget_texts (snd op))) frame.
Proof.
  intros Hok Hh Hs. set (r := render_of screen caps s).
  assert (painted screen [] (draw_root host_name screen caps s [])) as (frame & -> & ops & -> & Ho);
    [|by exists ops].
  unfold draw_root. cbn zeta. fold r.
  destruct (split_parts screen Hok) as (header & tabs & content & status & -> & [Hh1 Hh2] & Ht & [Hc1 Hc2] & [Hs1 Hs2]).
  cbn [mbind option_bind]. apply painted_bind.
  { destruct tabs as [tabs|].
    - destruct (Ht tabs eq_refl) as [Ht1 Ht2].
      apply painted_bind; [eapply painted_mono; [exact Hh1|by apply header_painted]|].
      intros f. apply painted_Some. eapply paints_mono; [exact Ht1|by apply tabbar_painted].
    - apply painted_Some. eapply paints_mono; [exact Hh1|by apply compact_painted]. }
  intros f1. apply painted_bind; [eapply painted_mono; [exact Hc1|by apply content_painted]|].
  intros f2. eapply painted_after.
  { eapply paints_mono; [exact Hs1|]. by apply statusbar_painted; [..|apply Hs|apply Hs]. }
  apply painted_bind; [by apply overlay_painted|].
  intros f3. case_bool_decide; [apply painted_Some, paints_refl|]. apply confirm_painted; [done|apply Hs].
Qed.
End Drawn.

(** *** Counts *)

Lemma length_sort_by {A} (cmp : A → A → comparison) l : length (sort_by cmp l) = length l.
Proof. apply Permutation_length, sort_by_perm. Qed.

Lemma length_sort_rows {A} idx (rows : list A) cmp order : sort_rows idx rows cmp order ≡ₚ idx.
Proof. unfold sort_rows. destruct order; [rewrite reverse_Permutation|]; apply sort_by_perm. Qed.

Lemma filter_ext_length {A} (p q : A → bool) l : (∀ a, p a = q a) → length (List.filter p l) = length (List.filter q l).
Proof. intros E. f_equal. by apply List.filter_ext. Qed.

Lemma filter_all {A} (p : A → bool) l : (∀ a, p a = true) → List.filter p l = l.
Proof. intros E. induction l as [|a l IH]; simpl; [done|]. by rewrite E, IH. Qed.

Section Counts.
Context {Uc : Unicode} {Us : UnstableSort} {Ko : Os}.
Variable describe : Syscall → str.
Variable errno_display : Z → str.
Variable score : str → str → option Z.
Variable tty_ok : bool.

Lemma interfaces_counted s : length (sorted_interfaces s) = net_interface_count s.
Proof.
  rewrite sorted_interfaces_permutation. unfold visible_interfaces, net_interface_count.
  destruct (last_snapshot s) as [snapshot|]; [|done]. cbn zeta.
  set (f := to_lowercase (net_filter_input s)). set (l := interfaces (networks snapshot)).
  assert (f = [] → List.filter (λ i, bool_decide (f = []) || lower_contains (if_name i) f) l = l) as Hall
    by (intros E; apply filter_all; intros i; by rewrite bool_decide_eq_true_2).
  destruct (bool_decide (net_filter_input s = [])) eqn:E.
  - apply bool_decide_eq_true in E. rewrite Hall; [done|]. subst f. rewrite E. by rewrite to_lowercase_ascii.
  - apply filter_ext_length. intros i. destruct (bool_decide (f = [])) eqn:Ef; [|done]. apply bool_decide_eq_true in Ef. unfold lower_contains.
    by rewrite Ef, contains_nil_r.
Qed.

Lemma containers_counted s snapshot cs :
  ctr_ok s → last_snapshot s = Some snapshot → sys_containers snapshot = Some cs → daemon_up cs = true →
  length (sorted_filtered_containers_cache s) = containers_count s.
Proof.
  intros -> Hs Hc Hd. unfold containers_view, containers_count. rewrite Hs. cbn [mbind option_bind]. rewrite Hc, Hd.
  cbn [negb]. cbn zeta. destruct (negb (Bool.eqb _ _)); rewrite ?length_reverse, length_sort_by; by case_bool_decide.
Qed.

Lemma view_index_lt snap sv f field order :
  Forall (λ i, (i < row_count snap sv)%nat) (compute_view_indices snap sv f field order).
Proof.
  assert (∀ A (rows : list A) keep cmp, Forall (λ i, (i < length rows)%nat) (sort_rows (matching keep rows) rows cmp order))
    as H.
  { intros A rows keep cmp. rewrite length_sort_rows. apply Forall_forall. intros i Hi%elem_of_matching.
    destruct (rows !! i) eqn:E; [|done]. by eapply lookup_lt_Some. }
  destruct sv; apply H.
Qed.

Lemma kube_counted s snapshot snap :
  kube_ok s → last_snapshot s = Some snapshot → sys_kube snapshot = Some snap →
  match kube_subview s with
  | KubeSubview.Pods => length (cached s (pods snap))
  | KubeSubview.Nodes => length (cached s (nodes snap))
  | KubeSubview.Deployments => length (cached s (deployments snap))
  end = kube_count s.
Proof.
  intros Hk Hs Hsnap. unfold kube_count.
  assert (Forall (λ i, (i < row_count snap (kube_subview s))%nat) (kube_view_cache s)) as Hlt.
  { rewrite Hk. unfold kube_view. rewrite Hs. cbn [mbind option_bind]. rewrite Hsnap. apply view_index_lt. }
  unfold row_count in Hlt. destruct (kube_subview s); by apply cached_complete.
Qed.

Lemma vendor_lowercase v : to_lowercase (vendor_label v) = GpuVendor_label v.
Proof. destruct v; (rewrite to_lowercase_ascii; reflexivity). Qed.

Lemma devices_counted s snapshot snap :
  last_snapshot s = Some snapshot → sys_gpu snapshot = Some snap → gpu_subview s = GpuSubview.Devices →
  length (shown_devices s snap) = gpu_count s.
Proof.
  intros Hs Hg Hv. unfold gpu_count, shown_devices. rewrite Hs. cbn [mbind option_bind]. rewrite Hg, Hv.
  unfold sort_devices.
  destruct (sort_reported_spec (metric_missing (gpu_sort_field s)) (device_cmp (gpu_sort_field s))
    (device_cmp_preorder (gpu_sort_field s))
    (negb (Bool.eqb (bool_decide (gpu_sort_order s = Asc))
      (bool_decide (gpu_sort_field s = DeviceIndex ∨ gpu_sort_field s = DeviceName))))
    (List.filter (λ d, bool_decide (to_lowercase (gpu_filter_input s) = [])
       || lower_contains (gpu_name d) (to_lowercase (gpu_filter_input s))
       || lower_contains (vendor_label (vendor d)) (to_lowercase (gpu_filter_input s))) (devices snap)))
    as (shown & parked & E & Hp & _).
  rewrite E, Hp. apply filter_ext_length. intros d. f_equal. unfold lower_contains. by rewrite vendor_lowercase.
Qed.

(** A process the count matches by its PID and the table does not by its name. *)
Definition matched_by_pid_alone (s : AppState) (p : GpuProcessSnapshot) : Prop :=
  let f := to_lowercase (gpu_filter_input s) in
  f ≠ [] ∧ contains (show (gpu_pid p)) f = true ∧ lower_contains (gpu_proc_name p) f = false.

Lemma procs_counted s snapshot snap :
  last_snapshot s = Some snapshot → sys_gpu snapshot = Some snap → gpu_subview s = GpuSubview.Procs →
  Forall (λ p, ¬ matched_by_pid_alone s p) (gpu_processes snap) →
  length (shown_procs s snap) = gpu_count s.
Proof.
  intros Hs Hg Hv Hn. unfold gpu_count, shown_procs. rewrite Hs. cbn [mbind option_bind]. rewrite Hg, Hv.
  unfold sort_procs.
  match goal with |- length (sort_reported ?m ?c ?fl ?l) = _ =>
    destruct (sort_reported_spec m c (proc_cmp_preorder (gpu_sort_field s)) fl l) as (shown & parked & E & Hp & _) end.
  rewrite E, Hp. f_equal. clear -Hn. induction Hn as [|p ps Hp _ IH]; [done|]. cbn [List.filter].
  assert (bool_decide (to_lowercase (gpu_filter_input s) = []) || lower_contains (gpu_proc_name p) (to_lowercase (gpu_filter_input s))
          || contains (show (gpu_pid p)) (to_lowercase (gpu_filter_input s))
          = bool_decide (to_lowercase (gpu_filter_input s) = []) || lower_contains (gpu_proc_name p) (to_lowercase (gpu_filter_input s)))
    as ->; [|by rewrite IH].
  case_bool_decide; [done|]. simpl. destruct (lower_contains _ _) eqn:E1; [done|]. simpl.
  destruct (contains _ _) eqn:E2; [|done]. by destruct Hp.
Qed.

(** C8: The counts in the tab bar and the positions in the status bar are those of
    the tables, where they are: after any session the count of the tab is the
    number of rows of its table for the network interfaces; for the containers
    while the daemon answers; for the Kubernetes sub-view shown; for GPU devices;
    and for GPU processes unless the filter matches one by its PID alone, which
    the count does and the table does not. *)
Theorem counts_match_tables config ctr cluster ts :
  let s := session describe errno_display score tty_ok config ctr cluster ts in
  length (sorted_interfaces s) = net_interface_count s ∧
  ∀ snapshot, last_snapshot s = Some snapshot →
    (∀ cs, sys_containers snapshot = Some cs → daemon_up cs = true →
       length (sorted_filtered_containers_cache s) = containers_count s) ∧
    (∀ snap, sys_kube snapshot = Some snap →
       match kube_subview s with
       | KubeSubview.Pods => length (cached s (pods snap))
       | KubeSubview.Nodes => length (cached s (nodes snap))
       | KubeSubview.Deployments => length (cached s (deployments snap))
       end = kube_count s) ∧
    (∀ snap, sys_gpu snapshot = Some snap →
       match gpu_subview s with
       | GpuSubview.Devices => length (shown_devices s snap) = gpu_count s
       | GpuSubview.Procs =>
           Forall (λ p, ¬ matched_by_pid_alone s p) (gpu_processes snap) →
           length (shown_procs s snap) = gpu_count s
       end).
Proof.
  intros s. destruct (coherent_session describe errno_display score tty_ok config ctr cluster ts) as (Hk & Hc & _).
  fold s in Hk, Hc. split; [apply interfaces_counted|]. intros snapshot Hs.
  split_and!; intros; [by eapply containers_counted|by eapply kube_counted|].
  destruct (gpu_subview s) eqn:Ev; [by eapply devices_counted|intros ?; by eapply procs_counted].
Qed.
End Counts.

(** *** Witness, and what is not scrubbed *)

#[local] Existing Instances ascii_tables greedy_layouts.

#[local] Instance nothing_tolerated : Tolerance := λ _, False.

Definition demo_caps : TermCaps := mkCaps TrueColor true true 120 40.

(** A process whose command is an escape sequence, shown by the inspector. *)
Definition hostile_state : AppState :=
  AppState_new <| tab := Tab.Processes |> <| overlay := Overlay.Inspector |>
    <| last_snapshot := Some demo_host |>
    <| visible_processes := [mkProcessInfo 1 None (lit "sh") [27; 93; 48; 59; 104; 7] [] f32_zero 0 f32_zero (lit "Run")] |>.

Lemma hostile_state_sane {To : Tolerance} : sane hostile_state.
Proof.
  split.
  - split; constructor.
  - constructor.
  - split; [constructor|done].
  - done.
  - split; [|split].
    + intros p [= <-]. by apply clean_check.
    + done.
    + intros snapshot snap [= <-] [= <-]. constructor.
  - intros snapshot [= <-]. constructor.
Qed.

Lemma screen_is_safe_witness :
  let screen := mkRect 0 0 120 40 in
  rect_ok screen ∧
  ∃ frame, draw_root None screen demo_caps hostile_state [] = Some frame ∧
    Forall (λ op, within screen (fst op) ∧ Forall clean (widget_texts (snd op))) frame.
Proof.
  intros screen. assert (rect_ok screen) as Hok by (unfold rect_ok, right_of, bottom_of, u16_max; simpl; lia).
  split; [exact Hok|].
  apply (screen_is_safe None screen demo_caps hostile_state Hok); [discriminate|apply hostile_state_sane].
Defined.

(** The channels nothing scrubs: a core's name, a node's role, the status of a
    process and the identifier of a container reach the terminal as they came. *)
Example unscrubbed r :
  let esc := [27; 93] in
  (∃ l, core_bar esc (f64_of_Z 0) 4 r = Some l ∧ ¬ clean_line l) ∧
  (∃ l, render_row (Kv (lit "Status") esc) 40 r = Some l ∧ ¬ Forall clean_line l) ∧
  Kv (lit "Status") esc ∈ process_rows (mkProcessInfo 1 None [] [] [] f32_zero 0 f32_zero esc) r ∧
  Kv (lit "ID") esc ∈ container_rows (demo_container esc 0) ∧
  Cell_new esc ∈ node_row (mkNode [] NodeReady [esc] 0 [] 0 0 None 0 0 None 0 0) r.
Proof.
  intros esc. assert (¬ clean esc) as Hesc by (intros Hc%Forall_inv; by apply Hc).
  split_and!.
  - eexists. split; [reflexivity|]. intros Hc%Forall_inv. apply Hesc. 
    unfold clean in *. apply (Forall_take _ 2) in Hc. exact Hc.
  - eexists. split; [reflexivity|]. intros Hc%Forall_inv. apply Forall_inv_tail, Forall_inv in Hc. by apply Hesc.
  - unfold process_rows. do 3 right. left.
  - unfold container_rows. left.
  - unfold node_row. do 2 right. left.
Qed.

#[local] Existing Instances insertion_unstable.

(** One snapshot arrives. *)
Definition one_snapshot : list Turn := [mkTurn 0 [] [demo_host] None].

Lemma counts_match_tables_witness :
  let os := os_without_42 in
  let s := session (λ _, []) (λ _, []) (λ _ _, None) true demo_remote true true one_snapshot in
  last_snapshot s = Some demo_host ∧ net_interface_count s = 2%nat ∧
  length (sorted_interfaces s) = net_interface_count s ∧
  ∃ cs, sys_containers demo_host = Some cs ∧ daemon_up cs = true ∧
        length (sorted_filtered_containers_cache s) = containers_count s.
Proof.
  intros os s.
  destruct (counts_match_tables (λ _, []) (λ _, []) (λ _ _, None) true demo_remote true true one_snapshot) as [Hn Hs].
  assert (last_snapshot s = Some demo_host) as Hl by (vm_compute; reflexivity).
  destruct (Hs demo_host Hl) as [Hc _].
  split; [exact Hl|]. split; [vm_compute; reflexivity|]. split; [exact Hn|].
  set (cs := mkContainers UnknownEngine true [demo_container (lit "c1") 10; demo_container (lit "c2") 90]).
  exists cs. split; [reflexivity|]. split; [reflexivity|]. apply (Hc cs); reflexivity.
Defined.

(** The count of GPU processes also matches their PIDs, and their table only
    their names: filtered by a PID, the tab announces a row it does not show. *)
Example process_filter_miscounts :
  let gpu := mkGpus [] true [] [mkGpuProcess 4242 0 (lit "blender") Compute None] [] in
  let s := AppState_new <| tab := Tab.Gpu |> <| gpu_subview := GpuSubview.Procs |> <| gpu_filter_input := lit "42" |>
             <| last_snapshot := Some (mkSystem (mkCpu f32_zero []) (mkMemory 0 0 0 0 0)
                  (mkLoad (f64_of_Z 0) (f64_of_Z 0) (f64_of_Z 0) 0) [] (mkNetworkSnapshot [] 0 0) None None (Some gpu) 0) |> in
  gpu_count s = 1%nat ∧ shown_procs s gpu = [].
Proof. split; vm_compute; reflexivity. Qed.
