(* ===== verification/Shown.v ===== *)
(** * Which snapshot the application shows

    Every handler of App.v leaves the snapshot on the screen alone, except
    [apply_snapshot]: after a turn it is the latest that waited in the channel,
    unless the application is paused. *)

From S2P Require Import Prelude Str RsFloat Actions Clipboard Process Network Gpu Snapshots.
From S2P Require Import Keymap Ui KubeView Palette App.
Local Open Scope Z_scope.
Local Open Scope record_scope.

Create HintDb shown.

Section Shown.
Context {Uc : Unicode} {Us : UnstableSort} {Ko : Os}.
Variable describe : Syscall → str.
Variable errno_display : Z → str.
Variable score : str → str → option Z.
Variable tty_ok : bool.
Implicit Types s : AppState.

(** ** What handlers keep *)

Section Kept.
Variable shown : option SystemSnapshot.

Definition shows s : Prop := last_snapshot s = shown.

(** What a handler does not touch computes away. *)
#[local] Hint Extern 9 (shows _) => match goal with Hs : shows _ |- _ => exact Hs end : shown.

Lemma shows_visible s : shows s → shows (recompute_visible s).
Proof.
  intros Hs. unfold recompute_visible. destruct (last_snapshot s) eqn:E; [|exact Hs].
  case_bool_decide; exact Hs.
Qed.
Lemma shows_set_selected n s : shows s → shows (set_selected n s).
Proof. intros Hs. unfold set_selected. destruct (tab s); exact Hs. Qed.
Lemma shows_set_offset n s : shows s → shows (set_offset n s).
Proof. intros Hs. unfold set_offset. destruct (tab s); exact Hs. Qed.
Lemma shows_filter_editing b s : shows s → shows (set_filter_editing b s).
Proof. intros Hs. unfold set_filter_editing. destruct (tab s); exact Hs. Qed.
Lemma shows_filter_text f s : shows s → shows (update_filter_text f s).
Proof. intros Hs. unfold update_filter_text. destruct (tab s); exact Hs. Qed.
Lemma shows_notify lv m s : shows s → shows (notify lv m s).
Proof. intros Hs. exact Hs. Qed.
Lemma shows_mark_dirty s : shows s → shows (mark_dirty s).
Proof. intros Hs. exact Hs. Qed.
Lemma shows_containers_view s : shows s → shows (recompute_containers_view s).
Proof. intros Hs. exact Hs. Qed.
Lemma shows_kube_view s : shows s → shows (recompute_kube_view s).
Proof. intros Hs. exact Hs. Qed.
#[local] Hint Resolve shows_visible shows_set_selected shows_set_offset shows_filter_editing
  shows_filter_text shows_notify shows_mark_dirty shows_containers_view shows_kube_view : shown.

(** The steps every proof below is made of. *)
Local Tactic Notation "kept" reference(f) := intros; unfold f; repeat case_match; simplify_eq; auto with shown.

Lemma shows_debounced s : shows s → shows (recompute_visible_debounced s).
Proof. kept recompute_visible_debounced. Qed.
#[local] Hint Resolve shows_debounced : shown.

Lemma shows_after_filter b s : shows s → shows (after_filter_change b s).
Proof.
  intros Hs. unfold after_filter_change. apply shows_mark_dirty, shows_set_offset, shows_set_selected.
  destruct (tab s), b; auto with shown.
Qed.
#[local] Hint Resolve shows_after_filter : shown.
Lemma shows_clear_filter s : shows s → shows (clear_filter s).
Proof. kept clear_filter. Qed.
Lemma shows_set_filter t s : shows s → shows (set_filter t s).
Proof. kept set_filter. Qed.
Lemma shows_cycle_sort s : shows s → shows (cycle_sort s).
Proof. kept cycle_sort. Qed.
Lemma shows_reverse_sort s : shows s → shows (reverse_sort s).
Proof. kept reverse_sort. Qed.
Lemma shows_sort_by_name f s : shows s → shows (sort_by_name f s).
Proof. intros Hs. unfold sort_by_name. destruct (tab s); repeat case_match; simplify_eq; auto with shown. Qed.
Lemma shows_go_to_tab t s : shows s → shows (go_to_tab t s).
Proof. kept go_to_tab. Qed.
Lemma shows_switch_kube sv s : shows s → shows (switch_kube_subview sv s).
Proof. intros Hs. exact Hs. Qed.
Lemma shows_switch_gpu sv s : shows s → shows (switch_gpu_subview sv s).
Proof. intros Hs. exact Hs. Qed.
Lemma shows_close s : shows s → shows (close_overlay s).
Proof. intros Hs. exact Hs. Qed.
#[local] Hint Resolve shows_clear_filter shows_set_filter shows_cycle_sort shows_reverse_sort
  shows_sort_by_name shows_go_to_tab shows_switch_kube shows_switch_gpu shows_close : shown.

Lemma shows_cycle_subview d s : shows s → shows (cycle_subview d s).
Proof. kept cycle_subview. Qed.
Lemma shows_move d s : shows s → shows (move_selection d s).
Proof. kept move_selection. Qed.
Lemma shows_index i s : shows s → shows (select_index i s).
Proof. kept select_index. Qed.
Lemma shows_scroll d s : shows s → shows (scroll_rows d s).
Proof. kept scroll_rows. Qed.
Lemma shows_go_back s : shows s → shows (go_back s).
Proof. kept go_back. Qed.
Lemma shows_prompt o s : shows s → shows (open_prompt score o s).
Proof. intros Hs. exact Hs. Qed.
Lemma shows_copy s : shows s → shows (copy_selection tty_ok s).
Proof. kept copy_selection. Qed.
Lemma shows_request_kill sig s : shows s → shows (request_kill sig s).
Proof. kept request_kill. Qed.
Lemma shows_request_renice d s : shows s → shows (request_renice d s).
Proof. kept request_renice. Qed.
Lemma shows_request_container b s : shows s → shows (request_container_action b s).
Proof. kept request_container_action. Qed.
Lemma shows_scope s : shows s → shows (toggle_kube_scope s).
Proof. kept toggle_kube_scope. Qed.
Lemma shows_refresh s : shows s → shows (refresh s).
Proof. kept refresh. Qed.
Lemma shows_set_theme n s : shows s → shows (set_theme n s).
Proof. kept set_theme. Qed.
Lemma shows_tab_named n s : shows s → shows (go_to_tab_named n s).
Proof. kept go_to_tab_named. Qed.
Lemma shows_kill_named n s : shows s → shows (kill_named n s).
Proof. kept kill_named. Qed.
Lemma shows_container_named n b s : shows s → shows (container_named n b s).
Proof. kept container_named. Qed.
#[local] Hint Resolve shows_cycle_subview shows_move shows_index shows_scroll shows_go_back shows_prompt
  shows_copy shows_request_kill shows_request_renice shows_request_container shows_scope shows_refresh
  shows_set_theme shows_tab_named shows_kill_named shows_container_named : shown.

(** ** Actions, commands and events *)

Lemma shows_dispatch a s : shows s → shows (dispatch score tty_ok a s).
Proof.
  intros Hs. unfold dispatch. case_match; [auto with shown|].
  destruct a; try case_bool_decide; unfold open_palette, open_command_line, request_container_stop,
    request_container_kill, request_container_restart; auto with shown.
Qed.
#[local] Hint Resolve shows_dispatch : shown.

Lemma shows_execute_command c s : shows s → shows (execute_command score tty_ok c s).
Proof.
  intros Hs. unfold execute_command. case_match; [auto with shown|].
  destruct c; unfold set_process_sort, set_container_sort, kube_command, usage, request_container_stop,
    request_container_kill, request_container_restart; auto with shown.
Qed.
#[local] Hint Resolve shows_execute_command : shown.

Lemma shows_invocation c a s : shows s → shows (execute_invocation score tty_ok c a s).
Proof.
  intros Hs. assert (shows (if is_verb_only c then usage c s else execute_command score tty_ok c s)) as Hd
    by (destruct (is_verb_only c); [exact Hs|auto with shown]).
  destruct a as [a|], c; try exact Hd; cbn [execute_invocation]; auto with shown.
Qed.
#[local] Hint Resolve shows_invocation : shown.

Lemma shows_execute_confirm a s : shows s → shows (execute_confirm describe errno_display a s).
Proof.
  intros Hs. unfold execute_confirm, execute_container_action, set_error. destruct a.
  - destruct (kill_process _ _ _ _) as [[]]; auto with shown.
  - destruct (get_process_priority _ _ _), (renice_process _ _ _ _) as [[]]; auto with shown.
  - destruct (container_engine s); cbn [negb]; auto with shown.
  - destruct (container_engine s); cbn [negb]; auto with shown.
  - destruct (container_engine s); cbn [negb]; auto with shown.
Qed.
#[local] Hint Resolve shows_execute_confirm : shown.

Lemma shows_palette_key key s : shows s → shows (handle_palette_key score tty_ok key s).
Proof.
  intros Hs. unfold handle_palette_key, palette_enter. apply shows_mark_dirty.
  destruct (key_code key); repeat case_match; auto with shown.
Qed.
Lemma shows_filter_key key s : shows s → shows (handle_filter_key key s).
Proof.
  intros Hs. unfold handle_filter_key. apply shows_mark_dirty.
  destruct (key_code key); repeat case_match; auto with shown.
Qed.
Lemma shows_scrollable key s : shows s → shows (handle_scrollable_overlay_key tty_ok key s).
Proof.
  intros Hs. unfold handle_scrollable_overlay_key. apply shows_mark_dirty.
  repeat (case_match; [auto with shown; fail|]). exact Hs.
Qed.
Lemma shows_actions key s : shows s → shows (handle_actions_key score tty_ok key s).
Proof.
  intros Hs. unfold handle_actions_key. apply shows_mark_dirty.
  destruct (key_code key); repeat case_match; auto with shown.
Qed.
Lemma shows_confirm_key key s : shows s → shows (handle_confirm_key describe errno_display key s).
Proof.
  intros Hs. unfold handle_confirm_key. apply shows_mark_dirty.
  destruct (key_code key); repeat case_match; auto with shown.
Qed.
#[local] Hint Resolve shows_palette_key shows_filter_key shows_scrollable shows_actions shows_confirm_key : shown.

Lemma shows_key key s : shows s → shows (handle_key_event describe errno_display score tty_ok key s).
Proof.
  intros Hs. unfold handle_key_event. set (s0 := s <| notifier ::= _ |>).
  assert (shows s0) as H0 by exact Hs. clearbody s0.
  case_match; [exact H0|]. case_bool_decide; [auto with shown|].
  destruct (overlay s0); [|auto with shown..].
  destruct (filter_editing s0); [auto with shown|]. apply shows_mark_dirty.
  destruct (resolve _ _ _); auto with shown.
Qed.

Lemma shows_mouse m s : shows s → shows (handle_mouse_event m s).
Proof. intros Hs. unfold handle_mouse_event. case_match; destruct m; auto with shown. Qed.
End Kept.

(** ** Turns *)

(** The work before the event touches neither the snapshot nor the pause. *)
Definition same_view (s s' : AppState) : Prop := last_snapshot s' = last_snapshot s ∧ paused s' = paused s.

Lemma same_view_reports (l : list (Task * outcome)) s : same_view s (foldl (λ self r, task_done r.1 r.2 self) s l).
Proof.
  revert s. induction l as [|r l IH]; intros s; [done|]. cbn [foldl]. unfold same_view in *.
  destruct (IH (task_done r.1 r.2 s)) as [-> ->]. unfold task_done.
  by destruct (shutdown_token s), (task_message r.1 r.2).
Qed.

Lemma same_view_pump s : same_view s (pump_action_results s).
Proof.
  unfold pump_action_results. set (s1 := s <| action_rx := [] |>).
  assert (same_view s (foldl (λ self m, notify m.1 m.2 self) s1 (action_rx s))) as H.
  { change (same_view s1 (foldl (λ self m, notify m.1 m.2 self) s1 (action_rx s))). clearbody s1.
    generalize (action_rx s). intros l. revert s1. induction l as [|m l IH]; intros s1; [done|].
    exact (IH (notify m.1 m.2 s1)). }
  case_bool_decide; exact H.
Qed.

Lemma apply_snapshot_shows snapshot s :
  last_snapshot (apply_snapshot snapshot s) = if paused s then last_snapshot s else Some snapshot.
Proof.
  unfold apply_snapshot. destruct (paused s); [done|].
  set (s1 := match sys_containers snapshot with Some _ => _ | None => _ end). clearbody s1.
  assert (shows (Some snapshot) (s1 <| last_snapshot := Some snapshot |>)) as H by reflexivity.
  revert H. generalize (s1 <| last_snapshot := Some snapshot |>). intros s2 H.
  by apply (shows_mark_dirty (Some snapshot)), shows_kube_view, shows_containers_view, shows_visible.
Qed.

(** One turn: the latest snapshot that waited, and nothing else, replaces the one
    shown, unless the application is paused. *)
Lemma turn_shows t s :
  last_snapshot (turn describe errno_display score tty_ok t s).2
  = match last (pending t) with
    | Some snapshot => if paused s then last_snapshot s else Some snapshot
    | None => last_snapshot s
    end.
Proof.
  unfold turn, event, poll_event, take_needs_redraw.
  destruct (same_view_reports (reports t) (s <| clock := at_time t |>)) as [E1 E2].
  destruct (same_view_pump (foldl (λ self r, task_done r.1 r.2 self) (s <| clock := at_time t |>) (reports t)))
    as [E3 E4].
  set (s1 := pump_action_results _) in *. rewrite E1 in E3. rewrite E2 in E4. clear E1 E2.
  change (last_snapshot s1 = last_snapshot s) in E3. change (paused s1 = paused s) in E4.
  set (s2 := s1 <| needs_redraw := false |>).
  assert (shows (last_snapshot s) s2) as Hs by exact E3.
  destruct (last (pending t)) as [snapshot|].
  - cbn [handle_event]. pose proof (apply_snapshot_shows snapshot s2) as Ha.
    change (last_snapshot s2) with (last_snapshot s1) in Ha. change (paused s2) with (paused s1) in Ha.
    rewrite E3, E4 in Ha. destruct (needs_redraw s1 || true); exact Ha.
  - assert (∀ e b s3, handle_event describe errno_display score tty_ok e s2 = (b, s3) →
        (∀ x, e ≠ SnapshotEvent x) → last_snapshot s3 = last_snapshot s) as Hk.
    { intros e b s3 He Hn. destruct e as [|key|m|w h|x]; [| | | |by destruct (Hn x)]; cbn [handle_event] in He.
      - unfold status_message_just_expired in He. destruct (expire _ _). by injection He as _ <-.
      - injection He as _ <-. by apply shows_key.
      - injection He as _ <-. by apply shows_mouse.
      - by injection He as _ <-. }
    set (e := match polled t with Some _ => _ | None => _ end).
    assert (∀ x, e ≠ SnapshotEvent x) as Hn by (intros x; unfold e; by repeat case_match).
    destruct (handle_event _ _ _ _ e s2) as [b s3] eqn:He. pose proof (Hk _ _ _ He Hn) as H3.
    destruct (needs_redraw s1 || b); exact H3.
Qed.

(** Over a run: what is shown at the end was shown at the start, or waited. *)
Lemma run_shows ts s x :
  last_snapshot (run_turns describe errno_display score tty_ok ts s) = Some x →
  last_snapshot s = Some x ∨ x ∈ ts ≫= pending.
Proof.
  revert s. induction ts as [|t ts IH]; intros s; [by left|]. cbn [run_turns mbind list_bind].
  destruct (running s); [|by left]. intros [E|Hin]%IH; [|right; apply elem_of_app; by right].
  rewrite turn_shows in E. destruct (last (pending t)) as [y|] eqn:Hl; [|by left].
  destruct (paused s); [by left|]. injection E as ->. right. apply elem_of_app. left.
  by apply last_Some_elem_of.
Qed.
End Shown.
