(* ===== verification/Session.v ===== *)
(** * A session on the screen

    The application (App.v) and what is drawn of it (Root.v) together: through
    every turn of a session, the texts the screen takes unscrubbed hold no control
    characters but those that came in with the few texts taken as they come, so
    that every frame of the session is safe; and the tables are sorted by
    comparisons that are orders, as long as what came holds numbers. *)

From S2P Require Import Prelude Str RsFloat FloatFacts Actions Clipboard Process Network Gpu Snapshots.
From S2P Require Import Terminal Theme Canvas Keymap Ui KubeView Palette App AppSafety AppViews.
From S2P Require Import View NetworkView GpuView KubeTable GeneralView InspectorView Overlays Chrome Root.
Local Open Scope Z_scope.
Local Open Scope record_scope.

(** ** What comes from outside *)

(** What a snapshot is held to besides. *)
Class Measured := measured : SystemSnapshot → Prop.

Section Inputs.
Context {To : Tolerance} {Me : Measured}.

Definition process_ok (p : ProcessInfo) : Prop := clean (status p).
Definition container_ok (c : ContainerSnapshot) : Prop := clean (ctr_id c) ∧ clean (id_full c).

(** The fields of a snapshot no view scrubs. *)
Definition foreign_ok (snapshot : SystemSnapshot) : Prop :=
  Forall process_ok (processes snapshot) ∧
  (∀ cs, sys_containers snapshot = Some cs → Forall container_ok (containers cs)) ∧
  (∀ k, sys_kube snapshot = Some k → roles_clean k) ∧ cores_clean snapshot ∧ measured snapshot.

(** A terminal reports a control character as a letter with the modifier. *)
Definition typed_ok (e : CrosstermEvent) : Prop :=
  match e with
  | TermKey key => ∀ c, key_code key = KChar c → control (modifiers key) = false → harmless c
  | _ => True
  end.

Definition turn_ok (t : Turn) : Prop :=
  Forall foreign_ok (pending t) ∧ (∀ e, polled t = Some e → typed_ok e).

Definition config_ok (config : CliConfig) : Prop := ∀ f, cfg_filter config = Some f → clean f.

(** ** The invariant *)

Definition filters_ok (s : AppState) : Prop :=
  clean (filter_input s) ∧ clean (net_filter_input s) ∧ clean (containers_filter_input s) ∧
  clean (kube_filter_input s) ∧ clean (gpu_filter_input s).

Definition confirm_ok (s : AppState) : Prop := ∀ a, confirm s = Some a → confirm_clean a.

(** The snapshot shown, and those the rates are computed from. *)
Definition snapshot_ok (s : AppState) : Prop :=
  (∀ snapshot, last_snapshot s = Some snapshot → foreign_ok snapshot) ∧
  Forall (λ t, ∃ snapshot, networks snapshot = Network.snapshot t ∧ measured snapshot) (samples (network_history s)).

Definition rows_ok (s : AppState) : Prop :=
  Forall process_ok (visible_processes s) ∧ Forall process_ok (visible_tree s).*1 ∧
  Forall container_ok (sorted_filtered_containers_cache s).

Definition hygienic (s : AppState) : Prop :=
  toasts_clean (notifier s) ∧ filters_ok s ∧ palette_clean (palette s) ∧ confirm_ok s ∧ snapshot_ok s ∧ rows_ok s.
End Inputs.

(** *** Text *)

Section Texts.
Context {To : Tolerance}.

Lemma toasts_post now lv msg n : toasts_clean n → toasts_clean (post now lv msg n).
Proof.
  intros [Hl Ha]. unfold post, toasts_clean, keep_last. cbn.
  split; apply Forall_drop, Forall_app; (split; [done|]); repeat constructor; apply clean_scrub.
Qed.

Lemma toasts_expire now n : toasts_clean n → toasts_clean (expire now n).2.
Proof.
  intros [Hl Ha]. unfold expire, toasts_clean. cbn. split; [done|].
  apply Forall_forall. intros t Ht%list_elem_of_In%List.filter_In. rewrite Forall_forall in Ha.
  apply Ha, list_elem_of_In, Ht.
Qed.

Lemma clean_reverse s : clean s → clean (reverse s).
Proof. unfold clean. by rewrite reverse_Permutation. Qed.

Lemma clean_trim_start s : clean s → clean (trim_start s).
Proof. induction 1 as [|c s Hc Hs IH]; simpl; [constructor|]. destruct (is_whitespace c); [done|by constructor]. Qed.

Lemma clean_trim s : clean s → clean (trim s).
Proof. intros Hs. unfold trim. by apply clean_reverse, clean_trim_start, clean_reverse, clean_trim_start. Qed.

Lemma clean_split s h t : split_once_whitespace s = Some (h, t) → clean s → clean t.
Proof.
  revert h. induction s as [|c s IH]; intros h; simpl; [done|]. intros E Hs%Forall_inv_tail.
  destruct (is_whitespace c); [by simplify_eq|].
  destruct (split_once_whitespace s) as [[h' t']|]; simplify_eq/=. by eapply IH.
Qed.

Lemma clean_snoc t c : clean t → harmless c → clean (t ++ [c]).
Proof. intros Ht Hc. apply clean_app; [done|]. by apply Forall_singleton. Qed.

Lemma typed_char key c : typed_ok (TermKey key) → key_code key = KChar c → control (modifiers key) = false →
  ∀ t, clean t → clean (t ++ [c]).
Proof. intros Hk Hc Hm t Ht. apply clean_snoc; [done|by apply Hk]. Qed.
End Texts.

Section Kept.
Context {Uc : Unicode} {Us : UnstableSort} {Ko : Os} {To : Tolerance} {Me : Measured}.
Variable describe : Syscall → str.
Variable errno_display : Z → str.
Variable score : str → str → option Z.
Variable tty_ok : bool.
Implicit Types s : AppState.

Lemma palette_refiltered excluded t p : palette_clean p → palette_clean (refilter_ctx score excluded t p).
Proof.
  intros [Hi Ha]. split.
  - assert (input (refilter_ctx score excluded t p) = input p) as ->; [|done].
    unfold refilter_ctx. by repeat case_match.
  - intros a E. destruct (refilter_cases score excluded t p) as [(cmd & a' & Hv & _ & _ & Ea & _)|(Ea & _)];
      rewrite Ea in E; [|done]. injection E as ->.
    unfold parse_verb in Hv. destruct (split_once_whitespace (input p)) as [[h rest]|] eqn:Es; [|done].
    cbn [mbind option_bind] in Hv. destruct (find _ _); simplify_eq/=. apply clean_trim. by eapply clean_split.
Qed.

(** *** Views *)

Lemma filter_processes_ok l f : Forall process_ok l → Forall process_ok (filter_processes l f).
Proof. intros Hl. unfold filter_processes. case_bool_decide; [done|].
  apply Forall_forall. intros p [_ Hp]%list_elem_of_filter. rewrite Forall_forall in Hl. by apply Hl. Qed.

Lemma tree_ok l : Forall process_ok l → Forall process_ok (flatten_tree (build_process_tree l)).*1.
Proof.
  intros Hl. destruct (forest_indices l _ eq_refl) as (js & Hjs & ->). rewrite Hjs.
  rewrite Forall_fmap. apply Forall_forall. intros i Hi%elem_of_seq. simpl.
  destruct (lookup_lt_is_Some_2 l i) as [p Hp]; [lia|]. rewrite (list_lookup_total_correct _ _ _ Hp).
  by eapply Forall_lookup_1.
Qed.

Lemma containers_view_ok s : snapshot_ok s → Forall container_ok (containers_view s).
Proof.
  intros Hs. unfold containers_view. destruct (last_snapshot s) as [snapshot|] eqn:E; [|constructor].
  cbn [mbind option_bind]. destruct (sys_containers snapshot) as [cs|] eqn:Ec; [|constructor].
  destruct (proj1 Hs _ E) as (_ & Hc & _). specialize (Hc _ Ec). destruct (negb _); [constructor|]. cbn zeta.
  assert (∀ p, Forall container_ok (List.filter p (containers cs))) as Hf.
  { intros p. apply Forall_forall. intros c Hi%list_elem_of_In%List.filter_In. rewrite Forall_forall in Hc.
    apply Hc, list_elem_of_In, Hi. }
  destruct (negb _); rewrite ?reverse_Permutation, sort_by_perm; by case_bool_decide.
Qed.

(** *** Handlers *)

Lemma hygienic_rows_shown rows tree s :
  hygienic s → Forall process_ok rows → Forall process_ok tree.*1 →
  hygienic (s <| visible_processes := rows |> <| visible_tree := tree |>).
Proof.
  intros (H1 & H2 & H3 & H4 & H5 & H6 & H7 & H8) Hr Ht.
  exact (conj H1 (conj H2 (conj H3 (conj H4 (conj H5 (conj Hr (conj Ht H8))))))).
Qed.

Lemma hygienic_visible s : hygienic s → hygienic (recompute_visible s).
Proof.
  intros Hs. unfold recompute_visible. destruct (last_snapshot s) as [snapshot|] eqn:E.
  - pose proof Hs as (_ & _ & _ & _ & H5 & _). destruct (proj1 H5 _ E) as (Hp & _). apply (filter_processes_ok _ (filter_input s)) in Hp.
    set (sorted := sort_processes _ _ _). set (tree := if tree_mode s then _ else _).
    assert (Forall process_ok sorted) as Hr by (unfold sorted; by rewrite sort_processes_perm).
    assert (Forall process_ok tree.*1) as Ht by (unfold tree; destruct (tree_mode s); [by apply tree_ok|constructor]).
    clearbody sorted tree. pose proof (hygienic_rows_shown sorted tree s Hs Hr Ht) as H. case_bool_decide; exact H.
  - exact (hygienic_rows_shown [] [] s Hs (Forall_nil_2 _) (Forall_nil_2 _)).
Qed.

Lemma hygienic_containers_view s : hygienic s → hygienic (recompute_containers_view s).
Proof.
  intros (H1 & H2 & H3 & H4 & H5 & H6 & H7 & H8).
  refine (conj H1 (conj H2 (conj H3 (conj H4 (conj H5 (conj H6 (conj H7 _))))))).
  by apply containers_view_ok.
Qed.

Lemma hygienic_kube_view s : hygienic s → hygienic (recompute_kube_view s).
Proof. intros Hs. exact Hs. Qed.

Lemma hygienic_notify lv m s : hygienic s → hygienic (notify lv m s).
Proof. intros (H1 & H2). split; [by apply toasts_post|exact H2]. Qed.

Lemma hygienic_mark_dirty s : hygienic s → hygienic (mark_dirty s).
Proof. intros Hs. exact Hs. Qed.

Lemma hygienic_set_selected n s : hygienic s → hygienic (set_selected n s).
Proof. intros Hs. unfold set_selected. destruct (tab s); exact Hs. Qed.

Lemma hygienic_set_offset n s : hygienic s → hygienic (set_offset n s).
Proof. intros Hs. unfold set_offset. destruct (tab s); exact Hs. Qed.

Lemma hygienic_filter_editing b s : hygienic s → hygienic (set_filter_editing b s).
Proof. intros Hs. unfold set_filter_editing. destruct (tab s); exact Hs. Qed.

Lemma hygienic_filter_text f s : (∀ t, clean t → clean (f t)) → hygienic s → hygienic (update_filter_text f s).
Proof.
  intros Hf (H1 & (F1 & F2 & F3 & F4 & F5) & H2). unfold update_filter_text.
  destruct (tab s); (refine (conj H1 (conj (conj _ (conj _ (conj _ (conj _ _)))) H2)); cbn; auto).
Qed.

Lemma hygienic_confirm a s : confirm_clean a → hygienic s → hygienic (s <| confirm := Some a |>).
Proof. intros Ha (H1 & H2 & H3 & _ & H5). refine (conj H1 (conj H2 (conj H3 (conj _ H5)))). by intros a' [= <-]. Qed.

Lemma hygienic_no_confirm s : hygienic s → hygienic (s <| confirm := None |>).
Proof. intros (H1 & H2 & H3 & _ & H5). by refine (conj H1 (conj H2 (conj H3 (conj _ H5)))). Qed.

Lemma hygienic_palette f s : (palette_clean (palette s) → palette_clean (f (palette s))) →
  hygienic s → hygienic (s <| palette ::= f |>).
Proof. intros Hf (H1 & H2 & H3 & H4). exact (conj H1 (conj H2 (conj (Hf H3) H4))). Qed.

#[local] Hint Resolve hygienic_visible hygienic_containers_view hygienic_kube_view hygienic_notify
  hygienic_mark_dirty hygienic_set_selected hygienic_set_offset hygienic_filter_editing : hygiene.
(** What a handler does not touch computes away. *)
#[local] Hint Extern 9 (hygienic _) => match goal with Hs : hygienic _ |- _ => exact Hs end : hygiene.

Lemma hygienic_debounced s : hygienic s → hygienic (recompute_visible_debounced s).
Proof. intros Hs. unfold recompute_visible_debounced. case_match; auto with hygiene. Qed.
#[local] Hint Resolve hygienic_debounced : hygiene.

Lemma hygienic_after_filter b s : hygienic s → hygienic (after_filter_change b s).
Proof.
  intros Hs. unfold after_filter_change. apply hygienic_mark_dirty, hygienic_set_offset, hygienic_set_selected.
  destruct (tab s), b; auto with hygiene.
Qed.

Lemma hygienic_clear_filter s : hygienic s → hygienic (clear_filter s).
Proof. intros Hs. apply hygienic_after_filter, hygienic_filter_text; [constructor|done]. Qed.

Lemma hygienic_set_filter t s : clean t → hygienic s → hygienic (set_filter t s).
Proof. intros Ht Hs. by apply hygienic_after_filter, hygienic_filter_text. Qed.

Lemma hygienic_process_sort f s : hygienic s → hygienic (recompute_visible (s <| sort_field := f |>)).
Proof. auto with hygiene. Qed.

Lemma hygienic_cycle_sort s : hygienic s → hygienic (cycle_sort s).
Proof. intros Hs. unfold cycle_sort. destruct (tab s); auto with hygiene. Qed.

Lemma hygienic_reverse_sort s : hygienic s → hygienic (reverse_sort s).
Proof. intros Hs. unfold reverse_sort. destruct (tab s); auto with hygiene. Qed.

Lemma hygienic_container_sort f s : hygienic s → hygienic (set_container_sort f s).
Proof. intros Hs. unfold set_container_sort. auto with hygiene. Qed.

Lemma hygienic_sort_by_name f s : hygienic s → hygienic (sort_by_name f s).
Proof.
  intros Hs. unfold sort_by_name. destruct (tab s); repeat case_match; simplify_eq; auto with hygiene.
Qed.

Lemma hygienic_go_to_tab t s : hygienic s → hygienic (go_to_tab t s).
Proof. intros Hs. unfold go_to_tab. case_bool_decide; auto with hygiene. Qed.

(** Part by part: the updates of the sub-view are deep. *)
Lemma hygienic_switch_kube sv s : hygienic s → hygienic (switch_kube_subview sv s).
Proof.
  intros (H1 & (F1 & F2 & F3 & _ & F5) & H2 & H3 & H4 & H5 & H6 & H7). apply hygienic_kube_view.
  split; [exact H1|]. split; [exact (conj F1 (conj F2 (conj F3 (conj clean_nil F5))))|].
  split; [exact H2|]. split; [exact H3|]. split; [exact H4|]. split; [exact H5|]. split; [exact H6|exact H7].
Qed.

Lemma hygienic_switch_gpu sv s : hygienic s → hygienic (switch_gpu_subview sv s).
Proof.
  intros (H1 & (F1 & F2 & F3 & F4 & _) & H2 & H3 & H4 & H5 & H6 & H7).
  split; [exact H1|]. split; [exact (conj F1 (conj F2 (conj F3 (conj F4 clean_nil))))|].
  split; [exact H2|]. split; [exact H3|]. split; [exact H4|]. split; [exact H5|]. split; [exact H6|exact H7].
Qed.
#[local] Hint Resolve hygienic_after_filter hygienic_clear_filter hygienic_process_sort hygienic_cycle_sort
  hygienic_reverse_sort hygienic_container_sort hygienic_sort_by_name hygienic_go_to_tab
  hygienic_switch_kube hygienic_switch_gpu : hygiene.

Lemma hygienic_cycle_subview d s : hygienic s → hygienic (cycle_subview d s).
Proof. intros Hs. unfold cycle_subview. destruct (tab s); auto with hygiene. Qed.

Lemma hygienic_move d s : hygienic s → hygienic (move_selection d s).
Proof. intros Hs. unfold move_selection. case_bool_decide; auto with hygiene. Qed.

Lemma hygienic_index i s : hygienic s → hygienic (select_index i s).
Proof. intros Hs. unfold select_index. case_bool_decide; auto with hygiene. Qed.

Lemma hygienic_scroll d s : hygienic s → hygienic (scroll_rows d s).
Proof. intros Hs. unfold scroll_rows. case_bool_decide; auto with hygiene. Qed.

Lemma hygienic_close s : hygienic s → hygienic (close_overlay s).
Proof.
  intros Hs. unfold close_overlay. apply hygienic_mark_dirty, hygienic_palette; [|exact Hs].
  intros _. split; [constructor|done].
Qed.

Lemma hygienic_dismiss s : hygienic s → hygienic (s <| notifier ::= dismiss_all |>).
Proof. intros ([Hl _] & H2). by refine (conj (conj Hl _) H2). Qed.

Lemma hygienic_go_back s : hygienic s → hygienic (go_back s).
Proof.
  intros Hs. unfold go_back. case_match; [by apply hygienic_close|].
  case_match; [by apply hygienic_dismiss|]. repeat case_match; auto with hygiene.
Qed.

Lemma hygienic_refilter s : hygienic s → hygienic (refilter_palette score s).
Proof. intros Hs. apply hygienic_palette; [apply palette_refiltered|exact Hs]. Qed.

Lemma hygienic_prompt o s : hygienic s → hygienic (open_prompt score o s).
Proof.
  intros Hs. apply hygienic_mark_dirty, hygienic_refilter, hygienic_palette; [|exact Hs].
  intros [_ Ha]. split; [constructor|done].
Qed.

Lemma hygienic_copy s : hygienic s → hygienic (copy_selection tty_ok s).
Proof.
  intros Hs. unfold copy_selection. destruct (selected_identifier s); [|auto with hygiene].
  destruct (copy_sequence _), (copy tty_ok _), tty_ok; auto with hygiene.
Qed.
#[local] Hint Resolve hygienic_cycle_subview hygienic_move hygienic_index hygienic_scroll hygienic_close
  hygienic_go_back hygienic_prompt hygienic_copy : hygiene.

(** *** Requests *)

Lemma named_container_ok s c : hygienic s → c ∈ sorted_filtered_containers_cache s → clean (short_id (id_full c)).
Proof. intros (_ & _ & _ & _ & _ & _ & _ & H) Hc. rewrite Forall_forall in H. by apply clean_take, H. Qed.

Lemma hygienic_request_container b s :
  (∀ id n, clean (short_id id) → confirm_clean (b id n)) → hygienic s → hygienic (request_container_action b s).
Proof.
  intros Hb Hs. unfold request_container_action. destruct (is_remote s); [auto with hygiene|].
  destruct (selected_container s) as [c|] eqn:E; [|exact Hs]. apply hygienic_confirm; [|exact Hs].
  apply Hb, (named_container_ok s); [exact Hs|]. unfold selected_container in E.
  destruct (last_snapshot s) as [snapshot|]; [|done]. simpl in E. destruct (sys_containers snapshot); [|done].
  simpl in E. case_match; [done|]. by eapply list_elem_of_lookup_2.
Qed.

Lemma hygienic_request_kill sig s : hygienic s → hygienic (request_kill sig s).
Proof. intros Hs. unfold request_kill. destruct (selected_process s); [by apply hygienic_confirm|auto with hygiene]. Qed.

Lemma hygienic_request_renice d s : hygienic s → hygienic (request_renice d s).
Proof. intros Hs. unfold request_renice. destruct (selected_process s); [by apply hygienic_confirm|auto with hygiene]. Qed.

Lemma hygienic_stop s : hygienic s → hygienic (request_container_stop s).
Proof. by apply hygienic_request_container. Qed.
Lemma hygienic_kill s : hygienic s → hygienic (request_container_kill s).
Proof. by apply hygienic_request_container. Qed.
Lemma hygienic_restart s : hygienic s → hygienic (request_container_restart s).
Proof. by apply hygienic_request_container. Qed.

Lemma hygienic_scope s : hygienic s → hygienic (toggle_kube_scope s).
Proof. intros Hs. unfold toggle_kube_scope. destruct (cluster_engine s); cbn [negb]; auto with hygiene. Qed.

Lemma hygienic_pause s : hygienic s → hygienic (toggle_pause s).
Proof. intros Hs. unfold toggle_pause. auto with hygiene. Qed.

Lemma hygienic_refresh s : hygienic s → hygienic (refresh s).
Proof. intros Hs. unfold refresh. destruct (paused s); auto with hygiene. Qed.
#[local] Hint Resolve hygienic_request_kill hygienic_request_renice hygienic_stop hygienic_kill hygienic_restart
  hygienic_scope hygienic_pause hygienic_refresh : hygiene.

(** *** Keys *)

Lemma hygienic_dispatch a s : hygienic s → hygienic (dispatch score tty_ok a s).
Proof.
  intros Hs. unfold dispatch. case_match; [auto with hygiene|].
  destruct a; try case_bool_decide; unfold open_palette, open_command_line; auto with hygiene.
Qed.
#[local] Hint Resolve hygienic_dispatch : hygiene.

Lemma hygienic_execute_command c s : hygienic s → hygienic (execute_command score tty_ok c s).
Proof.
  intros Hs. unfold execute_command. case_match; [auto with hygiene|].
  destruct c; unfold set_process_sort, kube_command, usage; auto with hygiene.
Qed.

Lemma hygienic_kill_named n s : hygienic s → hygienic (kill_named n s).
Proof.
  intros Hs. unfold kill_named. destruct (List.filter _ _); [auto with hygiene|].
  apply hygienic_confirm; [done|]. case_bool_decide; auto with hygiene.
Qed.

Lemma hygienic_container_named n b s :
  (∀ id n, clean (short_id id) → confirm_clean (b id n)) → hygienic s → hygienic (container_named n b s).
Proof.
  intros Hb Hs. unfold container_named. destruct (is_remote s); [auto with hygiene|].
  destruct (find _ _) as [c|] eqn:E; [|auto with hygiene]. apply hygienic_confirm; [|exact Hs].
  apply Hb, (named_container_ok s); [exact Hs|]. by apply find_Some in E as [E _].
Qed.

Lemma hygienic_set_theme n s : hygienic s → hygienic (set_theme n s).
Proof. intros Hs. unfold set_theme. destruct (ThemeKind_from_str n); auto with hygiene. Qed.

Lemma hygienic_go_to_tab_named n s : hygienic s → hygienic (go_to_tab_named n s).
Proof. intros Hs. unfold go_to_tab_named. destruct (find _ _); auto with hygiene. Qed.

Lemma hygienic_usage c s : hygienic s → hygienic (usage c s).
Proof. intros Hs. unfold usage. by apply hygienic_notify. Qed.

Lemma hygienic_invocation c a s :
  (∀ t, a = Some t → clean t) → hygienic s → hygienic (execute_invocation score tty_ok c a s).
Proof.
  intros Ha Hs.
  assert (hygienic (if is_verb_only c then usage c s else execute_command score tty_ok c s)) as Hd
    by (destruct (is_verb_only c); [by apply hygienic_usage|by apply hygienic_execute_command]).
  destruct a as [a|]; [|destruct c; exact Hd]. specialize (Ha a eq_refl).
  destruct c; try exact Hd; cbn [execute_invocation];
    [by apply hygienic_kill_named|by apply hygienic_container_named|by apply hygienic_container_named
    |by apply hygienic_sort_by_name|by apply hygienic_set_filter|by apply hygienic_set_theme
    |by apply hygienic_go_to_tab_named].
Qed.

Lemma hygienic_palette_key key s :
  typed_ok (TermKey key) → hygienic s → hygienic (handle_palette_key score tty_ok key s).
Proof.
  intros Hk Hs. unfold handle_palette_key. apply hygienic_mark_dirty.
  destruct (key_code key) eqn:E; auto with hygiene.
  - destruct (control _) eqn:Em; [case_match; auto with hygiene|]. case_bool_decide; [|done].
    apply hygienic_refilter, hygienic_palette; [|exact Hs]. intros [Hi Ha].
    split; [by eapply (typed_char key)|exact Ha].
  - apply hygienic_refilter, hygienic_palette; [|exact Hs]. intros [Hi Ha].
    split; [exact (clean_take (length (input (palette s)) - 1) _ Hi)|exact Ha].
  - unfold palette_enter. destruct (filtered (palette s) !! _) as [[cmd sc]|]; [|done].
    apply hygienic_invocation; [apply Hs|]. apply hygienic_close, hygienic_palette; [|exact Hs]. done.
Qed.

Lemma hygienic_filter_key key s : typed_ok (TermKey key) → hygienic s → hygienic (handle_filter_key key s).
Proof.
  intros Hk Hs. unfold handle_filter_key. apply hygienic_mark_dirty.
  destruct (key_code key) eqn:E; auto with hygiene.
  - destruct (control _) eqn:Em; [done|]. case_bool_decide; [|done].
    apply hygienic_after_filter, hygienic_filter_text; [by apply (typed_char key)|done].
  - apply hygienic_after_filter, hygienic_filter_text; [|done]. intros t Ht. by apply clean_take.
Qed.

Lemma hygienic_scrollable key s : hygienic s → hygienic (handle_scrollable_overlay_key tty_ok key s).
Proof.
  intros Hs. unfold handle_scrollable_overlay_key. apply hygienic_mark_dirty.
  repeat (case_match; [auto with hygiene; fail|]). exact Hs.
Qed.

Lemma hygienic_actions key s : hygienic s → hygienic (handle_actions_key score tty_ok key s).
Proof.
  intros Hs. unfold handle_actions_key. apply hygienic_mark_dirty.
  destruct (key_code key); repeat case_match; auto with hygiene.
Qed.

Lemma hygienic_execute_confirm a s : hygienic s → hygienic (execute_confirm describe errno_display a s).
Proof.
  intros Hs. unfold execute_confirm, execute_container_action, set_error. destruct a.
  - destruct (kill_process _ _ _ _) as [[]]; auto with hygiene.
  - destruct (get_process_priority _ _ _), (renice_process _ _ _ _) as [[]]; auto with hygiene.
  - destruct (container_engine s); cbn [negb]; auto with hygiene.
  - destruct (container_engine s); cbn [negb]; auto with hygiene.
  - destruct (container_engine s); cbn [negb]; auto with hygiene.
Qed.

Lemma hygienic_confirm_key key s : hygienic s → hygienic (handle_confirm_key describe errno_display key s).
Proof.
  intros Hs. unfold handle_confirm_key. apply hygienic_mark_dirty.
  pose proof (hygienic_no_confirm s Hs) as Hn.
  destruct (key_code key); try done; [repeat case_match; try done|destruct (confirm s); [|done]];
    by apply hygienic_execute_confirm.
Qed.

Lemma hygienic_key key s :
  typed_ok (TermKey key) → hygienic s → hygienic (handle_key_event describe errno_display score tty_ok key s).
Proof.
  intros Hk (H1 & H2). unfold handle_key_event. set (s0 := s <| notifier ::= _ |>).
  assert (hygienic s0) as Hs by (split; [by apply toasts_expire|exact H2]). clearbody s0.
  case_match; [exact Hs|]. case_bool_decide; [by apply hygienic_confirm_key|].
  destruct (overlay s0);
    [|by apply hygienic_palette_key|by apply hygienic_palette_key|by apply hygienic_scrollable
     |by apply hygienic_actions|by apply hygienic_scrollable|by apply hygienic_scrollable].
  destruct (filter_editing s0); [by apply hygienic_filter_key|]. apply hygienic_mark_dirty.
  destruct (resolve _ _ _); auto with hygiene.
Qed.

Lemma hygienic_mouse m s : hygienic s → hygienic (handle_mouse_event m s).
Proof. intros Hs. unfold handle_mouse_event. case_match; destruct m; auto with hygiene. Qed.

(** *** Turns *)

Lemma hygienic_record_all (l : list ContainerSnapshot) s : hygienic s → hygienic (foldl record_container s l).
Proof.
  revert s. induction l as [|c l IH]; intros s Hs; [exact Hs|]. cbn [foldl]. apply IH.
  unfold record_container. exact Hs.
Qed.

Lemma hygienic_push_history cs s : hygienic s → hygienic (push_container_history cs s).
Proof. intros Hs%(hygienic_record_all (containers cs)). unfold push_container_history. exact Hs. Qed.

Lemma hygienic_new_snapshot snapshot s : foreign_ok snapshot → hygienic s → hygienic (s <| last_snapshot := Some snapshot |>).
Proof.
  intros Hf (H1 & H2 & H3 & H4 & [_ H5] & H6). refine (conj H1 (conj H2 (conj H3 (conj H4 (conj (conj _ H5) H6))))).
  by intros ? [= <-].
Qed.

Lemma hygienic_sampled snapshot now s :
  foreign_ok snapshot → hygienic s → hygienic (s <| network_history ::= λ h, Network.push h (networks snapshot) now |>).
Proof.
  intros (_ & _ & _ & _ & Hf) (H1 & H2 & H3 & H4 & [H5 Hh] & H6).
  refine (conj H1 (conj H2 (conj H3 (conj H4 (conj (conj H5 _) H6))))).
  set (h := network_history s) in *. change (network_history _) with (Network.push h (networks snapshot) now).
  cbn [Network.push samples]. apply Forall_app. split; [|by apply Forall_singleton; exists snapshot].
  case_bool_decide; [|done]. by destruct Hh.
Qed.

Lemma hygienic_apply_snapshot snapshot s : foreign_ok snapshot → hygienic s → hygienic (apply_snapshot snapshot s).
Proof.
  intros Hf Hs. unfold apply_snapshot. destruct (paused s); [done|].
  apply hygienic_mark_dirty, hygienic_kube_view, hygienic_containers_view, hygienic_visible, hygienic_new_snapshot; [done|].
  apply (hygienic_sampled snapshot (clock s)) in Hs; [|done].
  destruct (sys_containers snapshot); [apply hygienic_push_history|]; exact Hs.
Qed.

Lemma hygienic_reports (l : list (Task * outcome)) s :
  hygienic s → hygienic (foldl (λ self r, task_done r.1 r.2 self) s l).
Proof.
  revert s. induction l as [|r l IH]; intros s Hs; [exact Hs|]. cbn [foldl]. apply IH.
  unfold task_done. destruct (shutdown_token s), (task_message r.1 r.2); exact Hs.
Qed.

Lemma hygienic_notify_all (l : list (Level * str)) s :
  hygienic s → hygienic (foldl (λ self m, notify m.1 m.2 self) s l).
Proof. revert s. induction l as [|m l IH]; intros s Hs; [exact Hs|]. cbn [foldl]. by apply IH, hygienic_notify. Qed.

Lemma hygienic_pump s : hygienic s → hygienic (pump_action_results s).
Proof.
  intros Hs. unfold pump_action_results. set (s1 := s <| action_rx := [] |>).
  assert (hygienic s1) as H1 by exact Hs. clearbody s1.
  pose proof (hygienic_notify_all (action_rx s) s1 H1). case_bool_decide; done.
Qed.

Lemma event_ok t : turn_ok t →
  match event t with
  | Key key => typed_ok (TermKey key)
  | SnapshotEvent snapshot => foreign_ok snapshot
  | _ => True
  end.
Proof.
  intros [Hp Ht]. unfold event, poll_event. destruct (last (pending t)) as [snapshot|] eqn:E.
  - rewrite Forall_forall in Hp. by apply Hp, last_Some_elem_of.
  - destruct (polled t) as [[]|]; try done. by apply (Ht (TermKey key)).
Qed.

Lemma hygienic_turn t s : turn_ok t → hygienic s → hygienic (turn describe errno_display score tty_ok t s).2.
Proof.
  intros Ht%event_ok Hs. unfold turn. set (s0 := pump_action_results _).
  assert (hygienic s0) as H0 by (apply hygienic_pump, hygienic_reports; exact Hs).
  clearbody s0. unfold take_needs_redraw. set (s1 := s0 <| needs_redraw := false |>).
  assert (hygienic s1) as H1 by exact H0. clearbody s1.
  assert (hygienic (handle_event describe errno_display score tty_ok (event t) s1).2) as H2.
  { destruct (event t); cbn [handle_event snd]; [|by apply hygienic_key|by apply hygienic_mouse|exact H1
                                |by apply hygienic_apply_snapshot].
    unfold status_message_just_expired. destruct H1 as (Hn & H1). pose proof (toasts_expire (clock s1) _ Hn) as He.
    destruct (expire (clock s1) (notifier s1)) as [b n]. exact (conj He H1). }
  destruct (handle_event _ _ _ _ _ s1) as [b s2]. cbn [snd] in *. destruct (needs_redraw s0 || b); exact H2.
Qed.

Lemma hygienic_run ts s :
  Forall turn_ok ts → hygienic s → hygienic (run_turns describe errno_display score tty_ok ts s).
Proof.
  intros Hts. revert s. induction Hts as [|t ts Ht Hts IH]; intros s Hs; [exact Hs|]. cbn [run_turns].
  destruct (running s); [by apply IH, hygienic_turn|exact Hs].
Qed.

Lemma hygienic_initial config : config_ok config → hygienic (with_config config).
Proof.
  intros Hc.
  assert (clean (default [] (cfg_filter config))) as Hf.
  { destruct (cfg_filter config) eqn:E; [by apply Hc|constructor]. }
  split; [split; constructor|]. split; [exact (conj Hf (conj clean_nil (conj clean_nil (conj clean_nil clean_nil))))|].
  split; [split; [constructor|done]|]. split; [done|]. split; [by split; [|constructor]|]. repeat split; constructor.
Qed.

Lemma hygienic_engines ctr cluster s :
  hygienic s → hygienic (s <| container_engine := ctr |> <| cluster_engine := cluster |>).
Proof. intros Hs. exact Hs. Qed.

Lemma hygienic_session config ctr cluster ts :
  config_ok config → Forall turn_ok ts →
  hygienic (session describe errno_display score tty_ok config ctr cluster ts).
Proof. intros Hc Hts. apply hygienic_run; [done|]. by apply hygienic_engines, hygienic_initial. Qed.

(** A hygienic state has nothing unclean to show as it came. *)
Lemma hygienic_sane s : hygienic s → sane s.
Proof.
  intros (H1 & (F1 & F2 & F3 & F4 & F5) & H3 & H4 & [H5 _] & (R1 & R2 & R3)). split; try done.
  - unfold filter_text. by destruct (tab s).
  - split; [|split].
    + intros p Hp. unfold selected_process in Hp. destruct (tree_mode s).
      * rewrite <-list_lookup_fmap in Hp. exact (Forall_lookup_1 _ _ _ _ R2 Hp).
      * exact (Forall_lookup_1 _ _ _ _ R1 Hp).
    + intros c Hc. by apply (Forall_lookup_1 _ _ _ _ R3 Hc).
    + intros snapshot snap E Hk. by apply (H5 _ E).
  - intros snapshot E. by apply (H5 _ E).
Qed.
End Kept.

(** ** What is taken as it comes *)

Definition foreign_chars (snapshot : SystemSnapshot) : str :=
  (processes snapshot ≫= status)
  ++ from_option (λ cs, containers cs ≫= λ c, ctr_id c ++ id_full c) [] (sys_containers snapshot)
  ++ from_option (λ k, nodes k ≫= λ n, concat (node_roles n)) [] (sys_kube snapshot)
  ++ (cores (cpu snapshot) ≫= core_name_of).

Definition typed_chars (e : CrosstermEvent) : str :=
  match e with
  | TermKey key => match key_code key with KChar c => if control (modifiers key) then [] else [c] | _ => [] end
  | _ => []
  end.

Definition turn_chars (t : Turn) : str := (pending t ≫= foreign_chars) ++ from_option typed_chars [] (polled t).

Definition unscrubbed_chars (host_name : option str) (config : CliConfig) (ts : list Turn) : str :=
  default [] host_name ++ default [] (cfg_filter config) ++ (ts ≫= turn_chars).

Section Covered.
Context {To : Tolerance} {Me : Measured}.

Lemma clean_parts l : clean (concat l) → Forall clean l.
Proof. induction l as [|t l IH]; simpl; [constructor|]. intros [H1 H2]%Forall_app. constructor; [done|by apply IH]. Qed.

Lemma covered_foreign snapshot : clean (foreign_chars snapshot) → measured snapshot → foreign_ok snapshot.
Proof.
  unfold clean, foreign_chars. rewrite !Forall_app, !Forall_bind. intros (Hp & Hc & Hk & Hn) Hm. split_and!; try done.
  - intros cs E. rewrite E in Hc. cbn in Hc. apply Forall_bind in Hc. eapply Forall_impl; [exact Hc|].
    intros c H. by apply Forall_app in H.
  - intros k E. rewrite E in Hk. cbn in Hk. apply Forall_bind in Hk. eapply Forall_impl; [exact Hk|].
    intros n. apply clean_parts.
Qed.

Lemma covered_turn t : clean (turn_chars t) → Forall measured (pending t) → turn_ok t.
Proof.
  unfold clean, turn_chars. rewrite Forall_app, Forall_bind. intros [Hp He] Hm. split.
  - rewrite Forall_forall in Hp. rewrite Forall_forall in Hm. apply Forall_forall. intros snapshot Hs.
    by apply covered_foreign; [apply Hp|apply Hm].
  - intros e E. rewrite E in He. cbn in He. destruct e; try done. intros c Hc Hk. cbn in He. rewrite Hc, Hk in He.
    by apply Forall_inv in He.
Qed.

Lemma covered_session host_name config ts :
  clean (unscrubbed_chars host_name config ts) → Forall (λ t, Forall measured (pending t)) ts →
  (∀ h, host_name = Some h → clean h) ∧ config_ok config ∧ Forall turn_ok ts.
Proof.
  unfold clean, unscrubbed_chars. rewrite !Forall_app, Forall_bind. intros (Hh & Hf & Ht) Hm. split_and!.
  - intros h ->. exact Hh.
  - intros f E. rewrite E in Hf. exact Hf.
  - rewrite Forall_forall in Ht. rewrite Forall_forall in Hm. apply Forall_forall. intros t Hi.
    by apply covered_turn; [apply Ht|apply Hm].
Qed.
End Covered.

(** ** Sorts that cannot panic *)

(** A snapshot as a host measures it: loads that are numbers, and counters of
    their widths. *)
Definition figures_ok (snapshot : SystemSnapshot) : Prop :=
  Forall (λ p, is_nan (cpu_percent p) = false) (processes snapshot) ∧
  Forall (λ i, is_u64 (bytes_rx i) ∧ is_u64 (bytes_tx i)) (interfaces (networks snapshot)) ∧
  (∀ cs, sys_containers snapshot = Some cs → Forall (λ c, is_nan (cpu_pct c) = false) (containers cs)) ∧
  (∀ k, sys_kube snapshot = Some k →
     Forall (λ d, is_u32 (replicas_ready d) ∧ is_u32 (replicas_desired d)) (deployments k)).

(** Every comparison the tables and the dashboard sort by orders what it sorts. *)
Definition sorts_consistent {Uc : Unicode} (s : AppState) : Prop :=
  ∀ snapshot, last_snapshot s = Some snapshot →
    ((∀ f, consistent_on (field_cmp f) (processes snapshot)) ∧ consistent_on busier (processes snapshot)) ∧
    (∀ f, consistent_on (interface_cmp (network_history s) f) (interfaces (networks snapshot))) ∧
    (∀ cs, sys_containers snapshot = Some cs → ∀ f, consistent_on (container_cmp f) (containers cs)) ∧
    (∀ k, sys_kube snapshot = Some k → ∀ f,
       consistent_on (pod_cmp f) (pods k) ∧ consistent_on (node_cmp f) (nodes k) ∧
       consistent_on (deployment_cmp f) (deployments k)) ∧
    (∀ g, sys_gpu snapshot = Some g → ∀ f,
       consistent_on (device_cmp f) (devices g) ∧ consistent_on (proc_cmp f) (gpu_processes g)).

Lemma total_consistent {A} (cmp : A → A → comparison) l : total_preorder (λ _, True) cmp → consistent_on cmp l.
Proof. intros H. apply (consistent_of _ _ _ H). by apply Forall_true. Qed.

(** The larger first. *)
Lemma falling_consistent {A} (key : A → spec_float) (l : list A) :
  Forall (λ a, is_nan (key a) = false) l →
  consistent_on (λ a b, default Eq (float_partial_cmp (key b) (key a))) l.
Proof.
  intros Hl. eapply consistent_of; [|exact Hl].
  destruct (by_key_total_preorder (λ a, is_nan (key a) = false) _ float_cmp_or_eq key (λ _ H, H)
    float_cmp_total_preorder) as [Ha Ht].
  split; [intros x y Hx Hy; by apply (Ha y x)|]. intros x y z Hx Hy Hz H1 H2. by apply (Ht z y x).
Qed.

Lemma ratio_number d : is_u32 (replicas_ready d) → is_u32 (replicas_desired d) → is_nan (ratio d) = false.
Proof.
  unfold is_u32, u32_max. intros Hr Hd. unfold ratio. destruct (Z.eqb_spec (replicas_desired d) 0); [done|].
  destruct (f64_of_Z_size (replicas_desired d) ltac:(lia)) as (m & e & E & _). rewrite E.
  apply div_not_nan; [apply u64_finite; unfold is_u64, u64_max; lia|done..].
Qed.

Lemma found_counter snapshot iface (extract : NetworkInterfaceSnapshot → Z) :
  Forall (λ i, is_u64 (extract i)) (interfaces snapshot) →
  is_u64 (default 0 (find_iface_value snapshot iface extract)).
Proof.
  intros Hs. unfold find_iface_value. destruct (find _ _) as [i|] eqn:E; [|done].
  apply find_some in E as [E _]. rewrite Forall_forall in Hs. apply Hs, list_elem_of_In, E.
Qed.

Lemma bandwidth_number h iface (extract : NetworkInterfaceSnapshot → Z) :
  Forall (λ t, Forall (λ i, is_u64 (extract i)) (interfaces (Network.snapshot t))) (samples h) →
  is_nan (bandwidth h iface extract) = false.
Proof.
  intros Hs. unfold bandwidth. case_bool_decide as Hn; [done|]. cbn zeta.
  destruct (lookup_lt_is_Some_2 (samples h) (length (samples h) - 1)) as [cur Hc]; [lia|].
  destruct (lookup_lt_is_Some_2 (samples h) (length (samples h) - 2)) as [prev Hp]; [lia|].
  rewrite (list_lookup_total_correct _ _ _ Hc), (list_lookup_total_correct _ _ _ Hp).
  pose proof (found_counter _ iface _ (Forall_lookup_1 _ _ _ _ Hs Hc)) as H1.
  pose proof (found_counter _ iface _ (Forall_lookup_1 _ _ _ _ Hs Hp)) as H2.
  destruct (float_gt _ _) eqn:E; [|done]. apply div_not_nan.
  - apply u64_finite. unfold iface_value, saturating_sub, is_u64 in *. lia.
  - revert E. by destruct (as_secs_f64 _).
  - revert E. by destruct (as_secs_f64 _) as [|[]| |[]].
Qed.

Section Sorted.
Context {Uc : Unicode}.

Lemma interfaces_consistent h f l :
  Forall (λ t, Forall (λ i, is_u64 (bytes_rx i) ∧ is_u64 (bytes_tx i)) (interfaces (Network.snapshot t))) (samples h) →
  consistent_on (interface_cmp h f) l.
Proof.
  intros Hs. destruct f; cbn [interface_cmp];
    try (apply total_consistent; first [apply desc_preorder|apply by_name_preorder]).
  - apply (falling_consistent (λ i, bandwidth_rx h (if_name i))), Forall_true. intros i. apply bandwidth_number.
    eapply Forall_impl; [exact Hs|]. intros t Ht. eapply Forall_impl; [exact Ht|]. by intros j [].
  - apply (falling_consistent (λ i, bandwidth_tx h (if_name i))), Forall_true. intros i. apply bandwidth_number.
    eapply Forall_impl; [exact Hs|]. intros t Ht. eapply Forall_impl; [exact Ht|]. by intros j [].
Qed.

Lemma containers_consistent f l : Forall (λ c, is_nan (cpu_pct c) = false) l → consistent_on (container_cmp f) l.
Proof.
  intros Hl. destruct f; cbn [container_cmp];
    try (apply total_consistent; first [apply desc_preorder|apply asc_preorder|apply by_name_preorder]).
  by apply falling_consistent.
Qed.

Lemma processes_consistent f l : Forall (λ p, is_nan (cpu_percent p) = false) l → consistent_on (field_cmp f) l.
Proof.
  intros Hl. eapply consistent_of; [apply field_cmp_total_preorder|]. eapply Forall_impl; [exact Hl|]. by intros p H _.
Qed.

Lemma figures_consistent s :
  @snapshot_ok (λ _, True) figures_ok s → sorts_consistent s.
Proof.
  intros [Hs Hh] snapshot E. destruct (Hs _ E) as (_ & _ & _ & _ & Hp & Hn & Hc & Hk). split; [|split_and!].
  - split; [intros f; by apply processes_consistent|by apply falling_consistent].
  - intros f. apply interfaces_consistent. eapply Forall_impl; [exact Hh|]. cbn. intros t (sn & <- & Hm). apply Hm.
  - intros cs Ec f. by apply containers_consistent, Hc.
  - intros k Ek f. split_and!; [apply total_consistent, pod_cmp_preorder|apply total_consistent, node_cmp_preorder|].
    eapply consistent_of; [apply deployment_cmp_preorder|]. eapply Forall_impl; [by apply Hk|].
    intros d [Hr Hd] _. by apply ratio_number.
  - intros g _ f. split; apply total_consistent; [apply device_cmp_preorder|apply proc_cmp_preorder].
Qed.
End Sorted.

(** ** The property *)

Section Shown.
Context {Uc : Unicode} {Us : UnstableSort} {Ko : Os} `{!Layouts}.
Variable describe : Syscall → str.
Variable errno_display : Z → str.
Variable score : str → str → option Z.
Variable tty_ok : bool.

(** C7: Whatever a session went through (keys, mouse, commands, answers of
    engines, snapshots of a server, on any tab, with any overlay or dialog open,
    on a screen of any size), the screen is drawn, nothing is drawn outside it,
    and a control character that reaches the terminal is one the views were
    handed in a text they take as it comes: the host's own name, the filter of the
    command line, a character typed, and of a snapshot the status of processes,
    the identifiers of containers, the roles of nodes and the names of cores.
    Every other name, command, image, label and message of other hosts and
    processes may hold any bytes.  Nor does a sort of the tables or the dashboard
    panic, as long as no load of a process or a container that arrived is a NaN
    (counters being of their widths): every comparison is an order of what it
    sorts.  [nan_confuses_the_sorts] is what a NaN does. *)
Theorem session_screen_is_safe host_name screen caps config ctr cluster ts :
  rect_ok screen →
  let s := session describe errno_display score tty_ok config ctr cluster ts in
  (∃ frame, draw_root host_name screen caps s [] = Some frame ∧
     Forall (λ op, within screen (fst op) ∧
       ∀ t c, t ∈ widget_texts (snd op) → c ∈ t → control_char c = true →
         c ∈ unscrubbed_chars host_name config ts) frame) ∧
  (Forall (λ t, Forall figures_ok (pending t)) ts → sorts_consistent s).
Proof.
  intros Hr s. split.
  - set (taken := unscrubbed_chars host_name config ts). pose (To := (λ c, c ∈ taken) : Tolerance).
    pose (Me := (λ _, True) : Measured).
    destruct (covered_session host_name config ts) as (Hh & Hc & Hts).
    { apply Forall_forall. intros c Hc _. exact Hc. }
    { apply Forall_true. intros t. by apply Forall_true. }
    destruct (screen_is_safe host_name screen caps s Hr Hh) as (frame & E & Hf).
    { by apply hygienic_sane, hygienic_session. }
    exists frame. split; [exact E|]. eapply Forall_impl; [exact Hf|]. intros op [Hw Ht]. split; [exact Hw|].
    intros t c Hi. rewrite Forall_forall in Ht. specialize (Ht t Hi). unfold clean in Ht. rewrite Forall_forall in Ht.
    apply Ht.
  - intros Hm. pose (To := (λ _, True) : Tolerance). pose (Me := figures_ok : Measured). apply figures_consistent.
    destruct (covered_session host_name config ts) as (_ & Hc & Hts); [|exact Hm|].
    { apply Forall_true. intros c _. exact I. }
    by apply hygienic_session.
Qed.
End Shown.

(** ** Witness *)

#[local] Existing Instances ascii_tables insertion_unstable greedy_layouts os_without_42.

(** A process whose name is an escape sequence. *)
Definition hostile_host : SystemSnapshot :=
  mkSystem (mkCpu f32_zero []) (mkMemory 0 0 0 0 0) (mkLoad (f64_of_Z 0) (f64_of_Z 0) (f64_of_Z 0) 0)
    [mkProcessInfo 7 None [115; 27; 93; 48; 59; 7] [27; 91; 50; 74] [] f32_zero 0 f32_zero (lit "Run")]
    (mkNetworkSnapshot [] 0 0) None None None 0.

(** It arrives; [2] opens its tab, [/], [s] and Enter filter by a letter of the
    name, Enter inspects it and [q] is still to come. *)
Definition hostile_session : list Turn :=
  mkTurn 0 [] [hostile_host] None ::
  demo_turns [demo_key 50 false; demo_key 47 false; demo_key 115 false; TermKey (mkKey KEnter NONE);
              TermKey (mkKey KEnter NONE)].

Lemma hostile_session_measured : Forall (λ t, Forall figures_ok (pending t)) hostile_session.
Proof. by repeat constructor. Qed.

Lemma session_screen_is_safe_witness :
  let screen := mkRect 0 0 120 40 in
  let s := session (λ _, []) (λ _, []) (λ _ _, None) true demo_remote true true hostile_session in
  rect_ok screen ∧ Forall (λ t, Forall figures_ok (pending t)) hostile_session ∧
  unscrubbed_chars None demo_remote hostile_session = lit "Run2/s" ∧
  (overlay s = Overlay.Inspector ∧ filter_text s = lit "s" ∧ selected_process s = head (processes hostile_host)) ∧
  (∃ frame, draw_root None screen demo_caps s [] = Some frame ∧
     Forall (λ op, within screen (fst op) ∧
       ∀ t c, t ∈ widget_texts (snd op) → c ∈ t → control_char c = true → c ∈ lit "Run2/s") frame) ∧
  sorts_consistent s.
Proof.
  intros screen s. assert (rect_ok screen) as Hok by (unfold rect_ok, right_of, bottom_of, u16_max; simpl; lia).
  pose proof hostile_session_measured as Hm.
  assert (unscrubbed_chars None demo_remote hostile_session = lit "Run2/s") as E by (vm_compute; reflexivity).
  split; [exact Hok|]. split; [exact Hm|]. split; [exact E|]. split; [split_and!; vm_compute; reflexivity|].
  rewrite <-E.
  destruct (session_screen_is_safe (λ _, []) (λ _, []) (λ _ _, None) true None screen demo_caps demo_remote true true
           hostile_session Hok) as [H1 H2].
  split; [exact H1|exact (H2 Hm)].
Defined.

(** A load that is a NaN ranks equal to both of two that differ: the sorts of
    the process table, of the dashboard and of the containers are then given no
    order, and may panic.  A server can send one. *)
Example nan_confuses_the_sorts :
  let loads := [f32_of_Z 2; S754_nan; f32_one] in
  let process (c : f32) := mkProcessInfo 1 None [] [] [] c 0 f32_zero [] in
  let container (c : f32) := mkContainer [] [] [] [] CtrRunning [] c 0 0 0 0 0 0 0 in
  ¬ consistent_on (field_cmp Cpu) (process <$> loads) ∧ ¬ consistent_on busier (process <$> loads) ∧
  ¬ consistent_on (container_cmp CtrSort.Cpu) (container <$> loads).
Proof.
  intros loads process container.
  assert (∀ A (f : f32 → A) c, c ∈ loads → f c ∈ f <$> loads) as Hin by (intros; by apply list_elem_of_fmap_2).
  assert (f32_of_Z 2 ∈ loads ∧ S754_nan ∈ loads ∧ f32_one ∈ loads) as (H2 & Hn & H1) by (unfold loads; set_solver).
  split_and!; intros [_ Ht].
  - by apply (Ht (process (f32_of_Z 2)) (process S754_nan) (process f32_one)); auto.
  - by apply (Ht (process f32_one) (process S754_nan) (process (f32_of_Z 2))); auto.
  - by apply (Ht (container f32_one) (container S754_nan) (container (f32_of_Z 2))); auto.
Qed.
