(* ===== verification/DockerCalls.v ===== *)
(** * Calls to the container engine

    The rest of crates/muxtop-core/src/container_engine.rs and docker_engine.rs:
    whether a URL stays on this machine, and the calls into bollard under their
    timeouts; and the futures of app.rs that make them for a confirmed dialog. *)

From S2P Require Import Prelude Str RsFloat RateLimit Num Process Network Gpu Snapshots.
From S2P Require Import Addr Tls Docker Actions Clipboard Keymap Ui KubeView Palette.
From S2P Require Import App.
Local Open Scope Z_scope.
Local Open Scope record_scope.

(** ** Is it this machine? *)

Definition is_loopback (ip : IpAddr) : bool :=
  match ip with V4 a => a / 2 ^ 24 =? 127 | V6 a => a =? 1 end.

(** [s.split(stop).next()]. *)
Fixpoint before (stop : Z → bool) (s : str) : str :=
  match s with
  | [] => []
  | c :: s => if stop c then [] else c :: before stop s
  end.

Definition is_localhost (host : str) : bool := bool_decide (to_ascii_lowercase <$> host = lit "localhost").

Definition local_host (host : str) : bool :=
  is_localhost host || match ip_from_str host with Some ip => is_loopback ip | None => false end.

Definition http_host_is_loopback (url : str) : bool :=
  let after_scheme :=
    match strip_prefix url (lit "http://") with
    | Some rest => rest
    | None => default url (strip_prefix url (lit "https://"))
    end in
  let after_userinfo := match rsplit_once 64 after_scheme with Some (_, rest) => rest | None => after_scheme end in
  let host_port := before (λ c, (c =? 47) || (c =? 63)) after_userinfo in
  local_host
    match strip_prefix host_port (lit "[") with
    | Some stripped => before (λ c, c =? 93) stripped
    | None => before (λ c, c =? 58) host_port
    end.

(** The URL [detect_with] warns about. *)
Definition detect_warning (env : str → option str) : option str :=
  match (raw ← env (lit "DOCKER_HOST"); parse_docker_host raw) with
  | Some (Http url) => if http_host_is_loopback url then None else Some url
  | _ => None
  end.

(** ** Texts *)

(** [Debug] of a duration: a decimal without trailing zeros. *)
Definition trim_end_zeros (s : str) : str :=
  reverse ((fix go s := match s with 48 :: s => go s | _ => s end) (reverse s)).

Definition fmt_decimal (integer fraction : Z) (width : nat) : str :=
  show integer ++
  (if fraction =? 0 then []
   else lit "." ++ trim_end_zeros (replicate (width - length (show fraction)) 48 ++ show fraction)).

Definition duration_debug (d : Duration) : str :=
  if NANOS_PER_SEC <=? d then fmt_decimal (d / NANOS_PER_SEC) (d mod NANOS_PER_SEC) 9 ++ lit "s"
  else if 1000000 <=? d then fmt_decimal (d / 1000000) (d mod 1000000) 6 ++ lit "ms"
  else if 1000 <=? d then fmt_decimal (d / 1000) (d mod 1000) 3 ++ lit "µs"
  else show d ++ lit "ns".

Definition EngineError_fmt (e : EngineError) : str :=
  match e with
  | ConnectFailed m => lit "container engine connection failed: " ++ m
  | ContainerNotFound m => lit "container not found: " ++ m
  | PermissionDenied m => lit "permission denied: " ++ m
  | TimedOut d => lit "operation timed out after " ++ duration_debug d
  | OtherEngine m => lit "engine error: " ++ m
  end.

(** ** Calls *)

(** What bollard is asked. *)
Inductive DockerCall : Type :=
| StopCall (id : str) (t : option Z)
| KillCall (id signal : str)
| RestartCall (id : str).

Section Calls.
(** The daemon's answers, and the first item of a container's stats stream. *)
Variable daemon : DockerCall → Future (result unit BollardError).
Variable stats : str → Future (option (result ContainerStatsResponse BollardError)).

(** A call under [ACTION_TIMEOUT]: how long it takes, and its result. *)
Definition act (c : DockerCall) : Duration * result unit EngineError :=
  (waited ACTION_TIMEOUT (daemon c),
   match timeout ACTION_TIMEOUT (daemon c) with
   | None => Err (TimedOut ACTION_TIMEOUT)
   | Some r => map_err map_bollard_error r
   end).

Definition stop (id : str) (timeout_secs : option Z) : Duration * result unit EngineError :=
  act (StopCall id ((λ t, if t <=? i32_max then t else i32_max) <$> timeout_secs)).

Definition kill (id : str) : Duration * result unit EngineError := act (KillCall id (lit "KILL")).
Definition restart (id : str) : Duration * result unit EngineError := act (RestartCall id).

Definition fetch_stats (id : str) : result ContainerStatsResponse EngineError :=
  match timeout STATS_TIMEOUT (stats id) with
  | None => Err (TimedOut STATS_TIMEOUT)
  | Some (Some (Ok s)) => Ok s
  | Some (Some (Err e)) => Err (map_bollard_error e)
  | Some None => Err (OtherEngine (lit "stats stream ended immediately"))
  end.

(** The future [execute_container_action] spawns: when it is done, and with
    what; the other dialogs have none. *)
Definition container_future (a : ConfirmAction) : option (Duration * outcome) :=
  let report '(t, r) := Some (t, Finished (map_err EngineError_fmt r)) in
  match a with
  | StopContainer id _ => report (stop id (Some 10))
  | KillContainer id _ => report (kill id)
  | RestartContainer id _ => report (restart id)
  | _ => None
  end.
End Calls.

(** ** Properties *)

(** *** URLs *)

Lemma before_stop stop a b : Forall (λ c, stop c = false) a → (∀ c, head b = Some c → stop c = true) →
  before stop (a ++ b) = a.
Proof.
  intros Ha Hb. induction Ha as [|c a Hc Ha IH]; simpl.
  - destruct b as [|c b]; [done|]. simpl. by rewrite (Hb c eq_refl).
  - by rewrite Hc, IH.
Qed.

(** A host as a URL has it, and what may follow it. *)
Definition bare_host (h : str) : Prop := Forall (λ c, c ∉ [64; 47; 63; 58; 91]) h.
Definition url_port (p : str) : Prop := p = [] ∨ ∃ digits, p = 58 :: digits ∧ Forall (λ c, is_digit c = true) digits.
Definition url_path (q : str) : Prop := (q = [] ∨ ∃ c q', q = c :: q' ∧ (c = 47 ∨ c = 63)) ∧ 64 ∉ q.

Lemma rsplit_once_absent c s : c ∉ s → rsplit_once c s = None.
Proof.
  intros Hs. destruct (rsplit_once c s) as [[a b]|] eqn:E; [|done].
  apply rsplit_once_Some in E as [-> _]. exfalso. apply Hs, elem_of_app. right. left.
Qed.

Lemma after_userinfo_is user rest :
  (user = [] ∨ ∃ u, user = u ++ [64]) → 64 ∉ rest →
  match rsplit_once 64 (user ++ rest) with Some (_, r) => r | None => user ++ rest end = rest.
Proof.
  intros [->|[u ->]] Hr; [by rewrite rsplit_once_absent|].
  rewrite <- app_assoc. by rewrite (proj2 (rsplit_once_Some 64 _ u rest)).
Qed.

Lemma avoids (l cs : list Z) (P : Z → bool) :
  Forall (λ c, c ∉ cs) l → (∀ c, P c = true → c ∈ cs) → Forall (λ c, P c = false) l.
Proof. intros Hl Hp. eapply Forall_impl; [exact Hl|]. intros c Hc. destruct (P c) eqn:E; [|done]. by destruct Hc; auto. Qed.

Lemma port_plain p (P : Z → bool) :
  url_port p → P 58 = false → (∀ c, is_digit c = true → P c = false) → Forall (λ c, P c = false) p.
Proof. intros [->|(ds & -> & Hd)] Hc Hds; constructor; [done|]. eapply Forall_impl; [exact Hd|]. auto. Qed.

Lemma not_in_plain (l : str) (c : Z) : Forall (λ x, (x =? c) = false) l → c ∉ l.
Proof. intros Hl Hin. rewrite Forall_forall in Hl. specialize (Hl c Hin). by rewrite Z.eqb_refl in Hl. Qed.

Lemma digit_is_not (c : Z) k : k < 48 ∨ 57 < k → is_digit c = true → (c =? k) = false.
Proof. unfold is_digit. intros Hk [H1 H2]%andb_true_iff. apply Z.eqb_neq. lia. Qed.

Lemma before_path hp path :
  Forall (λ c, (c =? 47) || (c =? 63) = false) hp → url_path path → before (λ c, (c =? 47) || (c =? 63)) (hp ++ path) = hp.
Proof.
  intros Hh [Hq _]. apply before_stop; [done|]. intros c Hc. destruct Hq as [->|(x & q & -> & Hx)]; [done|].
  injection Hc as <-. by destruct Hx as [-> | ->].
Qed.

Lemma before_port stop_at h p : url_port p → Forall (λ c, stop_at c = false) h → stop_at 58 = true → before stop_at (h ++ p) = h.
Proof. intros Hp Hh Hs. apply before_stop; [done|]. intros c Hc. destruct Hp as [->|(ds & -> & _)]; [done|]. by injection Hc as <-. Qed.

(** Whether a URL is warned about is decided by its host alone: with or
    without userinfo, port, path and query, an address is local when it is a
    loopback address (in brackets or not), a name when it is [localhost] in any
    case, as long as the path holds no [@]. *)
Theorem loopback_judged_by_host scheme user h p q :
  scheme = lit "http://" ∨ scheme = lit "https://" → (user = [] ∨ ∃ u, user = u ++ [64]) →
  url_port p → url_path q →
  (bare_host h → http_host_is_loopback (scheme ++ user ++ h ++ p ++ q) = local_host h) ∧
  (Forall (λ c, c ∉ [64; 47; 63; 93]) h →
   http_host_is_loopback (scheme ++ user ++ lit "[" ++ h ++ lit "]" ++ p ++ q) = local_host h).
Proof.
  intros Hs Hu Hp Hq.
  assert (∀ rest, match strip_prefix (scheme ++ rest) (lit "http://") with
                  | Some rest => rest
                  | None => default (scheme ++ rest) (strip_prefix (scheme ++ rest) (lit "https://")) end = rest) as Hscheme.
  { intros rest. destruct Hs as [->| ->]; by rewrite ?strip_prefix_app. }
  assert (Forall (λ c, (c =? 64) = false) p) as Hp64 by (apply port_plain; [done|done|intros c; apply digit_is_not; lia]).
  assert (Forall (λ c, (c =? 47) || (c =? 63) = false) p) as Hpq.
  { apply port_plain; [done|done|]. intros c Hc. by rewrite !(digit_is_not c) by (lia || done). }
  assert (∀ l, Forall (λ c, c ∉ [64; 47; 63]) l → 64 ∉ l ++ p ++ q ∧ Forall (λ c, (c =? 47) || (c =? 63) = false) l) as Hl.
  { intros l Hl. split.
    - rewrite !elem_of_app. intros [Hx|[Hx|Hx]]; [|by apply (not_in_plain p 64)|by apply Hq].
      rewrite Forall_forall in Hl. apply (Hl 64 Hx). left.
    - apply (avoids _ [64; 47; 63]); [done|]. intros c [->%Z.eqb_eq| ->%Z.eqb_eq]%orb_true_iff; set_solver. }
  split; intros Hh; unfold http_host_is_loopback; rewrite Hscheme.
  - destruct (Hl h) as [H64 Hq1]; [eapply Forall_impl; [exact Hh|set_solver]|].
    rewrite after_userinfo_is by done. rewrite app_assoc, before_path by (done || by apply Forall_app).
    assert (strip_prefix (h ++ p) (lit "[") = None) as ->.
    { destruct (strip_prefix _ _) as [k|] eqn:E; [|done]. apply strip_prefix_spec in E.
      destruct h as [|c h]; [destruct Hp as [->|(ds & -> & _)]; discriminate|].
      injection E as -> _. apply Forall_inv in Hh. exfalso. apply Hh. set_solver. }
    rewrite before_port; [done|done| |done]. apply (avoids _ _ _ Hh). intros c ->%Z.eqb_eq. set_solver.
  - destruct (Hl (lit "[" ++ h ++ lit "]")) as [H64 Hq1].
    { constructor; [set_solver|]. apply Forall_app. split; [eapply Forall_impl; [exact Hh|set_solver]|repeat constructor; set_solver]. }
    replace (lit "[" ++ h ++ lit "]" ++ p ++ q) with ((lit "[" ++ h ++ lit "]") ++ p ++ q) by (by rewrite <- !app_assoc).
    rewrite after_userinfo_is by done. rewrite (app_assoc _ p q), before_path by (done || by apply Forall_app).
    rewrite <- !app_assoc, strip_prefix_app. rewrite before_stop; [done| |by intros c [= <-]].
    apply (avoids _ _ _ Hh). intros c ->%Z.eqb_eq. set_solver.
Qed.

(** The userinfo is looked for in the path too: a remote host whose path ends
    like this is taken for this machine, and nothing is said. *)
Example path_passes_for_host :
  http_host_is_loopback (lit "http://evil.example:2375/@localhost") = true ∧
  http_host_is_loopback (lit "http://evil.example:2375/") = false ∧
  http_host_is_loopback (lit "http://user:secret@[::1]:2375") = true ∧
  http_host_is_loopback (lit "tcp://10.0.0.1:2375") = false.
Proof. split_and!; vm_compute; reflexivity. Qed.

(** *** Confirmed actions are answered *)

(** The container a dialog is about, and the one call it stands for. *)
Definition call_of (a : ConfirmAction) : option (str * DockerCall) :=
  match a with
  | StopContainer id name => Some (name, StopCall id (Some 10))
  | KillContainer id name => Some (name, KillCall id (lit "KILL"))
  | RestartContainer id name => Some (name, RestartCall id)
  | _ => None
  end.

Lemma container_future_act daemon a name c :
  call_of a = Some (name, c) →
  container_future daemon a = Some ((act daemon c).1, Finished (map_err EngineError_fmt (act daemon c).2)).
Proof. destruct a; simpl; intros [= <- <-]; reflexivity. Qed.

Lemma container_message a name c (r : result unit str) :
  call_of a = Some (name, c) →
  ∃ lv before_ after, task_message (ContainerTask a) (Finished r) = Some (lv, before_ ++ name ++ after) ∧
    lv = match r with Ok _ => Level.Success | Err _ => Level.Error end.
Proof.
  destruct a; intros [= <- <-]; destruct r as [[]|e];
    [exists Level.Success, (lit "Container "), (lit " stopped")|exists Level.Error, (lit "Failed to stop "), (lit ": " ++ e)
    |exists Level.Success, (lit "Container "), (lit " killed")|exists Level.Error, (lit "Failed to kill "), (lit ": " ++ e)
    |exists Level.Success, (lit "Container "), (lit " restarted")|exists Level.Error, (lit "Failed to restart "), (lit ": " ++ e)];
    split; reflexivity.
Qed.

Lemma last_log_notify_all (l : list (Level * str)) lv m s :
  last (log (notifier (foldl (λ self m, notify m.1 m.2 self) s (l ++ [(lv, m)])))) = Some (mkToast lv (scrub_ctrl m) (clock s)).
Proof.
  rewrite foldl_app. cbn [foldl fst snd].
  assert (clock (foldl (λ self m, notify m.1 m.2 self) s l) = clock s) as <-.
  { revert s. induction l as [|x l IH]; intros s; [done|]. simpl. by rewrite IH. }
  set (s' := foldl _ s l). cbn. unfold keep_last. rewrite drop_app_le; [by rewrite last_snoc|].
  rewrite length_app. cbn. unfold LOG_CAPACITY. lia.
Qed.

(** C21: Every confirmed container action is answered: whatever the daemon does,
    silence included, its future ends within ten seconds, having made one call,
    about that container; its message names the container, reports success
    exactly when the daemon granted the call in time, and is the last entry of
    the log once the application takes it, unless it is shutting down. *)
Theorem container_action_is_answered daemon a name c s :
  call_of a = Some (name, c) → shutdown_token s = false →
  ∃ t o lv before_ after,
    container_future daemon a = Some (t, o) ∧ t ≤ from_secs 10 ∧
    task_message (ContainerTask a) o = Some (lv, before_ ++ name ++ after) ∧
    (lv = Level.Success ↔ ∃ t', daemon c = Some (t', Ok tt) ∧ t' ≤ from_secs 10) ∧
    (lv = Level.Success ∨ lv = Level.Error) ∧
    last (log (notifier (pump_action_results (task_done (ContainerTask a) o s))))
      = Some (mkToast lv (scrub_ctrl (before_ ++ name ++ after)) (clock s)).
Proof.
  intros Hc Hs. set (r := (act daemon c).2).
  destruct (container_message a name c (map_err EngineError_fmt r) Hc) as (lv & b & e & Hm & Hlv).
  exists (act daemon c).1, (Finished (map_err EngineError_fmt r)), lv, b, e.
  split; [exact (container_future_act daemon a name c Hc)|]. split.
  { unfold act, waited. simpl. change (from_secs 10) with ACTION_TIMEOUT. destruct (daemon c) as [[t x]|]; lia. }
  split; [exact Hm|]. split; [|split].
  - rewrite Hlv. unfold r, act, timeout. change (from_secs 10) with ACTION_TIMEOUT. cbn [snd].
    destruct (daemon c) as [[t [[]|x]]|]; simpl; [|destruct (Z.leb_spec t ACTION_TIMEOUT); simpl|];
      try (split; [discriminate|intros (t' & E & Ht); by simplify_eq]).
    destruct (Z.leb_spec t ACTION_TIMEOUT); simpl.
    + split; [by exists t|done].
    + split; [discriminate|]. intros (t' & E & Ht). simplify_eq. lia.
  - subst lv. destruct (map_err EngineError_fmt r) as [[]|]; [by left|by right].
  - unfold task_done. rewrite Hs, Hm. unfold pump_action_results. cbn.
    rewrite bool_decide_eq_false_2 by (by destruct (action_rx s)). cbn.
    pose proof (last_log_notify_all (action_rx s) lv (b ++ name ++ e)
                  (s <| action_rx := [] |>)) as H. exact H.
Qed.

(** ** Witnesses *)

Definition web : ConfirmAction := StopContainer (lit "0123456789abcdef") (lit "web").

(** A daemon that never answers. *)
Lemma container_action_is_answered_witness :
  call_of web = Some (lit "web", StopCall (lit "0123456789abcdef") (Some 10)) ∧ shutdown_token AppState_new = false ∧
  ∃ o, container_future (λ _, None) web = Some (from_secs 10, o) ∧
       text <$> last (log (notifier (pump_action_results (task_done (ContainerTask web) o AppState_new))))
       = Some (lit "Failed to stop web: operation timed out after 10s").
Proof.
  split; [reflexivity|]. split; [reflexivity|].
  destruct (container_action_is_answered (λ _, None) web _ _ AppState_new eq_refl eq_refl)
    as (t & o & lv & b & e & Hf & _ & Hm & _ & _ & Hl).
  assert (o = Finished (Err (lit "operation timed out after 10s")) ∧ t = from_secs 10) as [-> ->].
  { assert (container_future (λ _, None) web = Some (from_secs 10, Finished (Err (lit "operation timed out after 10s"))))
      as E by (vm_compute; reflexivity).
    rewrite E in Hf. by simplify_eq. }
  eexists. split; [exact Hf|]. rewrite Hl. cbn [fmap option_fmap option_map text].
  assert (b ++ lit "web" ++ e = lit "Failed to stop web: operation timed out after 10s") as ->; [|vm_compute; reflexivity].
  assert (task_message (ContainerTask web) (Finished (Err (lit "operation timed out after 10s")))
          = Some (Level.Error, lit "Failed to stop web: operation timed out after 10s")) as E by (vm_compute; reflexivity).
  rewrite E in Hm. by simplify_eq.
Defined.

(** The daemon is given ten seconds to stop a container before it kills it, and
    the call is given the same ten: a container that has to be killed is stopped
    and reported as a failure. *)
Example killed_after_grace_is_a_failure :
  let daemon (c : DockerCall) : Future (result unit BollardError) :=
    match c with StopCall _ (Some grace) => Some (from_secs grace + from_millis 200, Ok tt) | _ => None end in
  container_future daemon web
  = Some (from_secs 10, Finished (Err (lit "operation timed out after 10s"))).
Proof. vm_compute. reflexivity. Qed.

Lemma loopback_judged_by_host_witness :
  let user := lit "user:pw" ++ [64] in
  url_port (lit ":2375") ∧ url_path (lit "/v1") ∧ bare_host (lit "LocalHost") ∧
  http_host_is_loopback (lit "http://" ++ user ++ lit "LocalHost" ++ lit ":2375" ++ lit "/v1") = true ∧
  http_host_is_loopback (lit "http://" ++ user ++ lit "[" ++ lit "::1" ++ lit "]" ++ lit ":2375" ++ lit "/v1") = true.
Proof.
  intros user.
  assert (url_port (lit ":2375")) as Hp by (right; exists (lit "2375"); split; [reflexivity|repeat constructor]).
  assert (url_path (lit "/v1")) as Hq.
  { split; [right; exists 47, (lit "v1"); split; [reflexivity|by left]|]. refine (bool_decide_unpack _ _). vm_compute. exact I. }
  assert (bare_host (lit "LocalHost")) as Hh by (refine (bool_decide_unpack _ _); vm_compute; exact I).
  assert (Forall (λ c, c ∉ [64; 47; 63; 93]) (lit "::1")) as Hb by (refine (bool_decide_unpack _ _); vm_compute; exact I).
  split; [exact Hp|]. split; [exact Hq|]. split; [exact Hh|].
  assert (user = [] ∨ ∃ u, user = u ++ [64]) as Hu by (right; by exists (lit "user:pw")).
  destruct (loopback_judged_by_host (lit "http://") user (lit "LocalHost") (lit ":2375") (lit "/v1") (or_introl eq_refl) Hu Hp Hq) as [H1 _].
  destruct (loopback_judged_by_host (lit "http://") user (lit "::1") (lit ":2375") (lit "/v1") (or_introl eq_refl) Hu Hp Hq) as [_ H2].
  rewrite (H1 Hh), (H2 Hb). split; vm_compute; reflexivity.
Defined.
