(* ===== verification/KubeWidths.v ===== *)
(** * The numbers the Kubernetes engine publishes

    KubeEngine.v computes on [Z], with the casts and saturations of the code
    written out.  Here a quantity is shown to be read as the number that was
    written, capped or cut at its width, and every field of a snapshot to be a
    value of the type it has in the code, whatever strings the servers send. *)

From S2P Require Import Prelude Str RsFloat Num FloatFacts Process Network Gpu Snapshots.
From S2P Require Import Cluster KubeEngine.
Local Open Scope Z_scope.
Local Open Scope record_scope.

(** ** Types *)

Definition is_u8 (z : Z) : Prop := 0 ≤ z ≤ u8_max.
Definition is_i32 (z : Z) : Prop := - 2 ^ 31 ≤ z < 2 ^ 31.

(** Cpu in millicores and memory in bytes. *)
Definition reading_typed (r : Z * Z) : Prop := is_u32 (fst r) ∧ is_u64 (snd r).

Definition pod_typed (p : PodSnapshot) : Prop :=
  is_u8 (fst (ready p)) ∧ is_u8 (snd (ready p)) ∧ is_u32 (restarts p) ∧ is_u64 (pod_age_seconds p) ∧
  (∀ c, cpu_millis p = Some c → is_u32 c) ∧ (∀ m, pod_mem_bytes p = Some m → is_u64 m).

Definition node_typed (n : NodeSnapshot) : Prop :=
  is_u64 (node_age_seconds n) ∧ is_u32 (cpu_capacity_millis n) ∧ is_u32 (cpu_allocatable_millis n) ∧
  (∀ c, cpu_used_millis n = Some c → is_u32 c) ∧ is_u64 (mem_capacity_bytes n) ∧ is_u64 (mem_allocatable_bytes n) ∧
  (∀ m, node_mem_used_bytes n = Some m → is_u64 m) ∧ is_u32 (pod_count n) ∧ is_u32 (pod_capacity n).

Definition deployment_typed (d : DeploymentSnapshot) : Prop :=
  is_u32 (replicas_desired d) ∧ is_u32 (replicas_ready d) ∧ is_u32 (replicas_uptodate d) ∧
  is_u32 (replicas_available d) ∧ is_u64 (dep_age_seconds d).

Definition kube_typed (s : KubeSnapshot) : Prop :=
  Forall pod_typed (pods s) ∧ Forall node_typed (nodes s) ∧ Forall deployment_typed (deployments s).

(** k8s-openapi has the replicas of a deployment as [i32]. *)
Definition replicas_of (d : Deployment) : list (option Z) :=
  spec_replicas d :: match dep_status d with Some (r, u, a) => [r; u; a] | None => [] end.

Definition k8s_deployment_typed (d : Deployment) : Prop := Forall (λ o, ∀ z, o = Some z → is_i32 z) (replicas_of d).

Definition event_typed (ev : kube_event) : Prop :=
  match ev with
  | PollDone _ _ (Some ds) _ => Forall k8s_deployment_typed ds
  | _ => True
  end.

Definition engine_typed (self : KubeEngine) : Prop :=
  Forall k8s_deployment_typed (cached_deployments (resources self)) ∧
  map_Forall (λ _ r, reading_typed r) (metrics_pods (metrics self)) ∧
  map_Forall (λ _ r, reading_typed r) (metrics_nodes (metrics self)).

(** ** Quantities *)

Lemma as_u32_typed z : is_u32 (as_u32 z).
Proof. unfold is_u32, as_u32, u32_max. pose proof (Z.mod_pos_bound z (2 ^ 32)). lia. Qed.

Lemma float_as_uint_bounds max x : 0 ≤ max → 0 ≤ float_as_uint max x ≤ max.
Proof.
  intros Hm. split; [by apply float_as_uint_nonneg|].
  destruct x as [| [] | | [] m e]; cbn [float_as_uint]; try lia.
Qed.

Lemma default_typed {A} (P : A → Prop) d o : P d → (∀ a, o = Some a → P a) → P (default d o).
Proof. destruct o; auto. Qed.

Lemma quantity_millis_typed raw : is_u32 (parse_quantity_to_millis raw).
Proof.
  unfold parse_quantity_to_millis, is_u32. destruct (strip_suffix _ _).
  - apply default_typed; [unfold u32_max; lia|]. intros v Hv. by apply parse_uint_bounds in Hv.
  - destruct (parse_uint _ _) as [v|] eqn:E; [apply parse_uint_bounds in E; unfold u32_max in *; lia|].
    destruct (parse_f64 _); [|unfold u32_max; lia]. apply float_as_uint_bounds. done.
Qed.

Lemma with_suffix_typed ms s : Forall (λ m, 0 ≤ snd m) ms → is_u64 (with_suffix ms s).
Proof.
  unfold is_u64. induction 1 as [|[suffix mult] ms Hm _ IH]; simpl.
  - apply default_typed; [done|]. intros v Hv. by apply parse_uint_bounds in Hv.
  - destruct (strip_suffix _ _) as [st|]; [|exact IH].
    destruct (parse_uint u64_max st) as [v|] eqn:E; [|done]. apply parse_uint_bounds in E. simpl in Hm.
    unfold u64_max in *. nia.
Qed.

Lemma quantity_bytes_typed raw : is_u64 (parse_quantity_to_bytes raw).
Proof. apply with_suffix_typed. unfold multipliers. repeat constructor; simpl; lia. Qed.

Lemma metrics_cpu_typed raw : is_u32 (parse_metrics_cpu_to_millis raw).
Proof.
  unfold parse_metrics_cpu_to_millis.
  repeat (destruct (strip_suffix _ _);
    [apply default_typed; [unfold is_u32, u32_max; lia|]; intros v (n & _ & ->)%fmap_Some; apply as_u32_typed|]).
  apply quantity_millis_typed.
Qed.
#[local] Hint Resolve as_u32_typed quantity_millis_typed quantity_bytes_typed metrics_cpu_typed : widths.

Lemma zero_typed : is_u32 0 ∧ is_u64 0 ∧ is_u8 0.
Proof. unfold is_u32, is_u64, is_u8, u32_max, u64_max, u8_max. lia. Qed.

(** ** What a quantity is worth *)

(** A count of [unit]s, or nothing when it is too long for its integer. *)
Definition counted (max v : Z) (f : Z → Z) : Z := if v <=? max then f v else 0.

Lemma digits_then ds c :
  forallb is_digit ds = true → is_whitespace c = false →
  trim (ds ++ [c]) = ds ++ [c] ∧ strip_suffix (ds ++ [c]) [c] = Some ds.
Proof.
  intros Hd Hc. split; [|apply strip_suffix_app]. apply quantity_trim; [done|]. by repeat constructor.
Qed.

Lemma default_counted max v f :
  default 0 (f <$> (if v <=? max then Some v else None)) = counted max v f.
Proof. unfold counted. by destruct (v <=? max). Qed.

Lemma millis_read ds :
  ds ≠ [] → forallb is_digit ds = true →
  parse_quantity_to_millis (ds ++ lit "m") = counted u32_max (digits_value ds) (λ v, v) ∧
  (digits_value ds ≤ u32_max →
   parse_quantity_to_millis ds = Z.min (digits_value ds * 1000) u32_max).
Proof.
  intros Hne Hd. pose proof (parse_uint_digits u32_max ds Hne Hd) as Hp.
  unfold parse_quantity_to_millis. change (lit "m") with [109]. split.
  - destruct (digits_then ds 109 Hd eq_refl) as [-> ->]. rewrite Hp, <- (default_counted u32_max).
    by destruct (digits_value ds <=? u32_max).
  - intros Hv. rewrite trim_id by (by apply digits_no_space).
    pose proof (digits_strip_suffix ds [] 109 Hne Hd eq_refl) as Hn. simpl in Hn. rewrite Hn, Hp. by destruct (Z.leb_spec (digits_value ds) u32_max); [|lia].
Qed.

Lemma metrics_cpu_read ds :
  ds ≠ [] → forallb is_digit ds = true →
  parse_metrics_cpu_to_millis (ds ++ lit "n")
    = counted u64_max (digits_value ds) (λ v, as_u32 (v / 1000000)) ∧
  parse_metrics_cpu_to_millis (ds ++ lit "u")
    = counted u64_max (digits_value ds) (λ v, as_u32 (v / 1000)) ∧
  parse_metrics_cpu_to_millis (ds ++ lit "m") = counted u32_max (digits_value ds) (λ v, v).
Proof.
  intros Hne Hd. pose proof (parse_uint_digits u64_max ds Hne Hd) as Hp.
  unfold parse_metrics_cpu_to_millis.
  change (lit "n") with [110]. change (lit "u") with [117]. change (lit "m") with [109].
  assert (∀ c d : Z, c ≠ d → strip_suffix (ds ++ [c]) [d] = None) as Hno
    by (intros c d Hc; by apply (strip_suffix_last ds c [] d)).
  split; [|split].
  - destruct (digits_then ds 110 Hd eq_refl) as [-> ->]. by rewrite Hp, default_counted.
  - destruct (digits_then ds 117 Hd eq_refl) as [-> ->]. rewrite (Hno 117 110) by done.
    by rewrite Hp, default_counted.
  - destruct (digits_then ds 109 Hd eq_refl) as [-> _]. rewrite (Hno 109 110), (Hno 109 117) by done.
    by apply (millis_read ds).
Qed.

(** Saturating additions, one by one, are the sum, saturated. *)
Definition total (f : str → Z) (qs : list (option str)) : Z :=
  foldr (λ q acc, match q with Some q => f q | None => 0 end + acc) 0 qs.

Lemma total_nonneg f qs : (∀ q, 0 ≤ f q) → 0 ≤ total f qs.
Proof. intros Hf. induction qs as [|[q|] qs IH]; simpl; [done| |done]. specialize (Hf q). lia. Qed.

Lemma pod_usage_total cs :
  pod_usage cs = (Z.min (total parse_metrics_cpu_to_millis cs.*1) u32_max,
                  Z.min (total parse_quantity_to_bytes cs.*2) u64_max).
Proof.
  assert (∀ q, 0 ≤ parse_metrics_cpu_to_millis q) as Hc by (intros q; apply (metrics_cpu_typed q)).
  assert (∀ q, 0 ≤ parse_quantity_to_bytes q) as Hm by (intros q; apply (quantity_bytes_typed q)).
  unfold pod_usage.
  assert (∀ cpu mem, 0 ≤ cpu ≤ u32_max → 0 ≤ mem ≤ u64_max →
    foldl (λ '(cpu, mem) '(c, m),
      (match c with Some c => Z.min (cpu + parse_metrics_cpu_to_millis c) u32_max | None => cpu end,
       match m with Some m => u64_saturating_add mem (parse_quantity_to_bytes m) | None => mem end))
      (cpu, mem) cs
    = (Z.min (cpu + total parse_metrics_cpu_to_millis cs.*1) u32_max,
       Z.min (mem + total parse_quantity_to_bytes cs.*2) u64_max)) as H.
  { induction cs as [|[c m] cs IH]; intros cpu mem Hcpu Hmem; cbn [foldl].
    - simpl. rewrite !Z.add_0_r, !Z.min_l by lia. done.
    - assert (0 ≤ total parse_metrics_cpu_to_millis cs.*1) as T1 by (by apply total_nonneg).
      assert (0 ≤ total parse_quantity_to_bytes cs.*2) as T2 by (by apply total_nonneg).
      rewrite IH; csimpl.
      + unfold u64_saturating_add. f_equal; [destruct c as [c|]|destruct m as [m|]];
          rewrite ?Z.add_0_l; try done; [specialize (Hc c)|specialize (Hm m)]; lia.
      + destruct c as [c|]; [|done]. specialize (Hc c). lia.
      + unfold u64_saturating_add. destruct m as [m|]; [|done]. specialize (Hm m). lia. }
  rewrite H by (unfold u32_max, u64_max; lia). by rewrite !Z.add_0_l.
Qed.


(** ** The metrics *)

Lemma pod_usage_typed cs : reading_typed (pod_usage cs).
Proof.
  unfold pod_usage. assert (reading_typed (0, 0)) as H0 by (split; apply zero_typed).
  revert H0. generalize (0, 0). induction cs as [|[c m] cs IH]; intros [cpu mem] [Hc Hm]; [by split|].
  cbn [foldl]. apply IH. split; cbn [fst snd] in *.
  - destruct c as [c|]; [|done]. pose proof (metrics_cpu_typed c). unfold is_u32 in *. lia.
  - destruct m as [m|]; [|done]. pose proof (quantity_bytes_typed m). unfold is_u64, u64_saturating_add in *. lia.
Qed.

Lemma foldl_kept {A B} (P : B → Prop) (f : B → A → B) acc (l : list A) :
  P acc → (∀ b a, P b → P (f b a)) → P (foldl f acc l).
Proof. intros Hp Hf. revert acc Hp. induction l; simpl; auto. Qed.

Lemma tick_metrics_typed pr nr :
  map_Forall (λ _ r, reading_typed r) (metrics_pods (tick_metrics pr nr)) ∧
  map_Forall (λ _ r, reading_typed r) (metrics_nodes (tick_metrics pr nr)).
Proof.
  assert (∀ items, map_Forall (λ _ r, reading_typed r) (foldl add_pod_metrics ∅ items)) as Hp.
  { intros items. apply foldl_kept; [apply map_Forall_empty|]. intros m i Hm. unfold add_pod_metrics.
    case_match; [|done]. apply map_Forall_insert_2; [apply pod_usage_typed|done]. }
  assert (∀ items, map_Forall (λ _ r, reading_typed r) (foldl add_node_metrics ∅ items)) as Hn.
  { intros items. apply foldl_kept; [apply map_Forall_empty|]. intros m i Hm. unfold add_node_metrics.
    case_bool_decide; [done|]. apply map_Forall_insert_2; [|done].
    split; cbn [fst snd]; (apply default_typed; [apply zero_typed|]); intros v (q & _ & ->)%fmap_Some; auto with widths. }
  unfold tick_metrics. destruct pr, nr; split; simpl; auto; apply map_Forall_empty.
Qed.

(** ** Conversions *)

Lemma age_typed creation now : is_u64 now → is_u64 (creation_age_seconds creation now).
Proof.
  unfold is_u64, creation_age_seconds, saturating_sub. intros Hn. destruct creation as [c|]; [|lia].
  destruct (Z.leb_spec c 0); [lia|]. split; [apply Z.div_pos; lia|].
  apply Z.div_le_upper_bound; [lia|]. unfold u64_max in *. lia.
Qed.

Lemma reading_lookup {K} `{Countable K} (m : gmap K (Z * Z)) k :
  map_Forall (λ _ r, reading_typed r) m →
  (∀ c, fst <$> m !! k = Some c → is_u32 c) ∧ (∀ b, snd <$> m !! k = Some b → is_u64 b).
Proof. intros Hm. destruct (m !! k) as [r|] eqn:E; [|done]. by destruct (Hm k r E); split; intros ? [= <-]. Qed.

Lemma pod_snapshot_typed p m now :
  is_u64 now → map_Forall (λ _ r, reading_typed r) (metrics_pods m) → pod_typed (pod_to_snapshot p m now).
Proof.
  intros Hn Hm. unfold pod_typed, pod_to_snapshot, pod_ready_ratio, pod_restart_count, is_u8, u8_max. cbn.
  split; [destruct (container_statuses p); simpl; lia|]. split; [destruct (container_statuses p); simpl; lia|].
  split; [|split; [by apply age_typed|by apply reading_lookup]].
  destruct (container_statuses p) as [l|]; [|apply zero_typed].
  apply foldl_kept; [apply zero_typed|]. auto with widths.
Qed.

Lemma cpu_of_typed m : is_u32 (cpu_of m).
Proof. unfold cpu_of, memory_of. apply default_typed; [apply zero_typed|]. intros v (q & _ & ->)%fmap_Some. auto with widths. Qed.

Lemma memory_of_typed m : is_u64 (memory_of m).
Proof. unfold cpu_of, memory_of. apply default_typed; [apply zero_typed|]. intros v (q & _ & ->)%fmap_Some. auto with widths. Qed.

Lemma pods_per_node_typed ps : map_Forall (λ _ n, is_u32 n) (pods_per_node ps).
Proof.
  unfold pods_per_node. apply foldl_kept; [apply map_Forall_empty|]. intros m p Hm. destruct (occupies p); [|done].
  by apply map_Forall_insert_2; [apply as_u32_typed|].
Qed.

Lemma node_snapshot_typed n m now scheduled :
  is_u64 now → map_Forall (λ _ r, reading_typed r) (metrics_nodes m) → map_Forall (λ _ n, is_u32 n) scheduled →
  node_typed (with_pod_count scheduled (node_to_snapshot n m now)).
Proof.
  intros Hn Hm Hs. unfold node_typed, with_pod_count, node_to_snapshot. cbn -[lit].
  destruct (reading_lookup (metrics_nodes m) (default [] (meta_name (node_metadata n))) Hm) as [Hc Hb].
  split_and!; try done; [by apply age_typed| | | | | |].
  1-4: (apply default_typed; [apply zero_typed|]; intros v (q & _ & ->)%fmap_Some; first [apply cpu_of_typed|apply memory_of_typed]).
  - apply default_typed; [apply zero_typed|]. intros v Hv. exact (Hs _ _ Hv).
  - apply default_typed; [apply zero_typed|]. intros v Hv. destruct (capacity n) as [caps|]; [|done]. cbn [mbind option_bind] in Hv.
    destruct (caps !! lit "pods") as [q|]; [|done]. by apply parse_uint_bounds in Hv.
Qed.

Lemma count_typed (o : option Z) : (∀ z, o = Some z → is_i32 z) → is_u32 (Z.max (default 0 o) 0).
Proof. intros Ho. unfold is_u32, u32_max. destruct o as [z|]; simpl; [|lia]. specialize (Ho z eq_refl). unfold is_i32 in Ho. lia. Qed.

Lemma deployment_snapshot_typed d now : is_u64 now → k8s_deployment_typed d → deployment_typed (deployment_to_snapshot d now).
Proof.
  unfold k8s_deployment_typed, replicas_of, deployment_typed, deployment_to_snapshot. intros Hn Hd.
  destruct (dep_status d) as [[[r u] a]|]; cbn; decompose_Forall; split_and!;
    first [by apply count_typed|by apply age_typed|apply zero_typed].
Qed.

(** ** The engine *)

Lemma snapshot_typed self now : engine_typed self → is_u64 now → kube_typed (snapshot now self).
Proof.
  intros (Hd & Hp & Hn) Hnow. unfold kube_typed, snapshot. cbn. rewrite !Forall_fmap. split_and!.
  - apply Forall_true. intros p. by apply pod_snapshot_typed.
  - apply Forall_true. intros n. apply node_snapshot_typed; [done..|apply pods_per_node_typed].
  - eapply Forall_impl; [exact Hd|]. intros d Hk. by apply deployment_snapshot_typed.
Qed.

Lemma kube_step_typed st ev : event_typed ev → engine_typed st.1 → engine_typed (kube_step st ev).1.
Proof.
  destruct st as [self listing]. intros He (Hd & Hp & Hn). destruct ev as [|ps ns ds t|pr nr|]; simpl in *.
  - by split_and!.
  - destruct listing; [|by split_and!]. unfold engine_typed, tick_resources. destruct ps, ns, ds; by split_and!.
  - unfold engine_typed. cbn. by destruct (tick_metrics_typed pr nr).
  - unfold engine_typed. cbn. by split_and!; [constructor| |].
Qed.

(** Every number of a snapshot is a value of its type in the code, whatever
    polls, partial failures and changes of scope came before, and whatever
    strings the API server and the metrics server wrote as quantities: nothing
    is out of the range a field of the message has on the wire. *)
Lemma kube_snapshot_typed kind version namespace resolved evs now :
  Forall event_typed evs → is_u64 now →
  kube_typed (snapshot now (kube_run evs (connected kind version namespace resolved)).1).
Proof.
  intros Hevs Hnow. apply snapshot_typed; [|done]. unfold kube_run.
  assert (engine_typed (connected kind version namespace resolved, @None KubeScope).1) as Hs
    by (split_and!; [constructor|apply map_Forall_empty..]).
  revert Hs. generalize (connected kind version namespace resolved, @None KubeScope).
  induction Hevs as [|ev evs Hev _ IH]; intros st Hs; [done|]. simpl. by apply IH, kube_step_typed.
Qed.

(** ** Witnesses *)



(** Quantities beyond every range. *)
Definition huge_replies : list kube_event :=
  [PollStart;
   PollDone (Some [mkK8sPod (mkMeta (Some (lit "web")) (Some (lit "team")) None None None) None None])
     (Some [mkK8sNode (mkMeta (Some (lit "n1")) None None None None) None None None
              (Some {[lit "memory" := lit "18446744073709551615Ti"; lit "cpu" := lit "9999999"]}) None])
     (Some [mkK8sDeployment (mkMeta (Some (lit "api")) None None None None) (Some (-1)) None None]) 1;
   MetricsDone (Some [mkPodMetrics (Some (lit "team")) (Some (lit "web"))
                        [(Some (lit "4000000000m"), Some (lit "18446744073709551615")); (Some (lit "4000000000m"), Some (lit "1Ki"))]])
               None].

Lemma huge_snapshot_typed :
  let snap := snapshot 5 (kube_run huge_replies (connected Generic None None (lit "team"))).1 in
  (cpu_millis <$> pods snap = [Some u32_max] ∧ pod_mem_bytes <$> pods snap = [Some u64_max] ∧
   mem_capacity_bytes <$> nodes snap = [u64_max] ∧ cpu_capacity_millis <$> nodes snap = [u32_max] ∧
   replicas_desired <$> deployments snap = [0]) ∧ kube_typed snap.
Proof.
  intros snap. split; [split_and!; vm_compute; reflexivity|].
  apply (kube_snapshot_typed Generic None None (lit "team") huge_replies 5).
  - assert (∀ d, spec_replicas d = Some (-1) → dep_status d = None → k8s_deployment_typed d) as Hd.
    { intros d E1 E2. unfold k8s_deployment_typed, replicas_of. rewrite E1, E2.
      apply Forall_cons; split; [|by apply Forall_nil]. intros z [= <-]. unfold is_i32. lia. }
    apply Forall_cons_2; [done|]. apply Forall_cons_2; [|apply Forall_cons_2; [done|by apply Forall_nil_2]].
    cbn [event_typed]. apply Forall_cons_2; [by apply Hd|by apply Forall_nil_2].
  - unfold is_u64, u64_max. lia.
Defined.
