(* ===== verification/Lifetime.v ===== *)
(** * The life of the two programs, from start to exit

    What src/main.rs and crates/muxtop-server/src/main.rs do once everything is
    set up: the tasks of the server (signal handler, collector, relay, accept
    loop, [main] itself) around one cancellation token and one channel, and the
    end of the terminal program around its collector.  The collector is that of
    Collector.v, the relay and the accept loop those of Server.v, the session at
    the terminal that of Terminal.v; here they run together. *)

From S2P Require Import Prelude Str RsFloat Network Frame RateLimit Snapshots Wire.
From S2P Require Import Collector Server Startup.
From S2P Require ServerMain Terminal.
Local Open Scope Z_scope.
Local Open Scope record_scope.
Local Open Scope main_scope.

(** ** The server *)

(** The capacity of the channel between collector and relay. *)
Definition SNAPSHOT_CAPACITY : nat := 4.

(** Where [main] is: inside [server::run], at the collector's join handle, or
    gone; [Aborted] is the process killed by a panic of any task. *)
Inductive phase : Type :=
| Serving
| AwaitingCollector
| Ended (status : result unit Anyhow)
| Aborted.

Record ServerLife (S : Type) := mkLife {
  doors : AcceptState S;
  gathering : CollectorState;
  gatherer_panicked : bool;
  queue : list SystemSnapshot;
  relaying : bool;
  broadcast : list Frame;
  handler : bool;
  at_ : phase;
}.
Arguments mkLife {S}.
Arguments doors {S}.
Arguments gathering {S}.
Arguments gatherer_panicked {S}.
Arguments queue {S}.
Arguments relaying {S}.
Arguments broadcast {S}.
Arguments handler {S}.
Arguments at_ {S}.

#[export] Instance ServerLife_eta S : Eta (ServerLife S) := λ s,
  mkLife (doors s) (gathering s) (gatherer_panicked s) (queue s) (relaying s) (broadcast s)
    (handler s) (at_ s).

Inductive life_event : Type :=
| CtrlC
| HandlerFails
| Doors (ev : server_event)
| Ticks (sys : System) (nets : list (str * NetworkData)) (unix_ms : option Z)
| Polls (e : collector_event)
| CollectorPanics
| Relays
| RelayNotices
| Joins.

(** An error of the listener goes through [?] into [anyhow] as it is. *)
Definition listener_error (e : str) : result unit Anyhow := Err [e].

Section Life.
Context {S : Type} `{!Semaphore S} `{!Bincode SystemSnapshot}.
(** Releases are built to abort on a panic, other builds unwind. *)
Variable unwinds : bool.
Variables (collector : Collector) (rate_limiter : RateLimiter).
Variable accept_error : str.
Implicit Types s : ServerLife S.

(** The token is the one the collector holds; cancelling it twice is no more
    than once. *)
Definition token_cancelled s : bool := cancelled (gathering s).
Definition cancel_token s : ServerLife S := s <| gathering ::= λ g, collector_step collector g Cancel |>.

Definition try_send s : send_result :=
  if negb (relaying s) then Closed
  else if bool_decide (length (queue s) < SNAPSHOT_CAPACITY)%nat then Sent else Full.

(** The collector's end of the channel is dropped with its task. *)
Definition sender_dropped s : bool := finished (gathering s) || gatherer_panicked s.

(** A tick of the system loop, with the channel it sends into. *)
Definition tick (sys : System) (nets : list (str * NetworkData)) (unix_ms : option Z) s
    : ServerLife S :=
  if is_running SystemLoop (gathering s) then
    let g := gathering s in
    let snapshot := SystemSnapshot_collect sys nets (last_containers g) (last_kube g) (last_gpu g) unix_ms in
    let s' := s <| gathering := system_tick sys nets unix_ms (try_send s) g |> in
    match try_send s with Sent => s' <| queue ::= λ q, q ++ [snapshot] |> | _ => s' end
  else s.

(** A turn of the relay; every live client task holds a receiver. *)
Definition relay_turn s : ServerLife S :=
  if relaying s then
    match queue s with
    | snap :: rest =>
        s <| queue := rest |>
          <| broadcast ::= λ b, b ++ relay [(size (live (doors s)), snap)] |>
    | [] => if sender_dropped s then s <| relaying := false |> else s
    end
  else s.

(** The accept loop and the client tasks; its end is the end of [server::run]. *)
Definition door_event (ev : server_event) s : ServerLife S :=
  match ev with
  | ShutDown =>
      if accepting (doors s) && token_cancelled s
      then cancel_token (s <| doors ::= server_step rate_limiter ShutDown |>
                           <| at_ := AwaitingCollector |>)
      else s
  | AcceptFailed =>
      if accepting (doors s)
      then s <| doors ::= server_step rate_limiter AcceptFailed |>
             <| at_ := Ended (listener_error accept_error) |>
      else s
  | _ => s <| doors ::= server_step rate_limiter ev |>
  end.

Definition life_work (e : life_event) s : ServerLife S :=
  match e with
  | CtrlC => if handler s then cancel_token (s <| handler := false |>) else s
  | HandlerFails =>
      if handler s then
        if unwinds then s <| handler := false |> else s <| handler := false |> <| at_ := Aborted |>
      else s
  | Doors ev => door_event ev s
  | Ticks sys nets unix_ms => tick sys nets unix_ms s
  | Polls e =>
      match e with
      | SystemTick _ _ _ _ | Cancel => s
      | _ => s <| gathering ::= λ g, collector_step collector g e |>
      end
  | CollectorPanics =>
      if is_running SystemLoop (gathering s) then
        if unwinds then s <| gathering ::= stop SystemLoop |> <| gatherer_panicked := true |>
        else s <| at_ := Aborted |>
      else s
  | Relays => relay_turn s
  | RelayNotices =>
      if relaying s && token_cancelled s then s <| relaying := false |> <| queue := [] |> else s
  | Joins =>
      match at_ s with
      | AwaitingCollector => if sender_dropped s then s <| at_ := Ended (Ok tt) |> else s
      | _ => s
      end
  end.

Definition over s : bool :=
  match at_ s with Serving | AwaitingCollector => false | _ => true end.

(** When [main] is gone the runtime is, and every task with it. *)
Definition life_step s (e : life_event) : ServerLife S := if over s then s else life_work e s.

Definition life_run (es : list life_event) s : ServerLife S := foldl life_step s es.
End Life.

(** *** What holds at every moment *)

Section LifeProps.
Context {S : Type} `{!Semaphore S} `{!Bincode SystemSnapshot}.
Variable unwinds : bool.
Variables (collector : Collector) (rl : RateLimiter) (accept_error : str) (clients : nat).
Implicit Types s : ServerLife S.

Notation step := (life_step unwinds collector rl accept_error).
Notation lives := (life_run unwinds collector rl accept_error).

(** The snapshots the relay took, with the receivers each found, then those
    that wait, are what the collector sent; only those waiting when the relay
    goes are lost. *)
Definition piped s : Prop :=
  ∃ inputs, broadcast s = relay inputs ∧ (inputs.*2 ++ queue s) `prefix_of` sent (gathering s) ∧
    (relaying s = true → inputs.*2 ++ queue s = sent (gathering s)).

Record life_ok s : Prop := {
  ok_doors : accept_ok clients rl (doors s);
  ok_queue : (length (queue s) ≤ SNAPSHOT_CAPACITY)%nat;
  ok_piped : piped s;
  ok_serving : at_ s = Serving → accepting (doors s) = true;
  ok_told : token_cancelled s = true → handler s = false;
  ok_stopped : at_ s = AwaitingCollector ∨ at_ s = Ended (Ok tt) →
    token_cancelled s = true ∧ accepting (doors s) = false;
  ok_gathered : at_ s = Ended (Ok tt) → sender_dropped s = true;
  ok_panicked : gatherer_panicked s = true → unwinds = true;
}.

Lemma quiet_collector_step g e :
  (∀ sys nets ms a, e ≠ SystemTick sys nets ms a) →
  sent (collector_step collector g e) = sent g ∧
  (e ≠ Cancel → cancelled (collector_step collector g e) = cancelled g).
Proof.
  intros Ht. destruct e as [sys nets ms a|r|r|r| |l]; simpl; [by destruct (Ht sys nets ms a)|..];
    repeat case_match; done.
Qed.

Lemma try_send_Sent s :
  try_send s = Sent → relaying s = true ∧ (length (queue s) < SNAPSHOT_CAPACITY)%nat.
Proof. unfold try_send. destruct (relaying s); [|done]. by case_bool_decide. Qed.

Lemma tick_ok sys nets ms s : life_ok s → life_ok (tick sys nets ms s).
Proof.
  intros [Hd Hq (inputs & Hb & Hp & Hr) Hs Ht Hst Hg Hu]. unfold tick.
  destruct (is_running SystemLoop (gathering s)); [|by split; try done; exists inputs].
  unfold system_tick. destruct (try_send s) eqn:E; split; try done.
  - apply try_send_Sent in E as [_ Hl]. simpl. rewrite length_app. simpl. lia.
  - apply try_send_Sent in E as [Hrel _]. exists inputs. simpl. rewrite app_assoc, (Hr Hrel). by split.
  - by exists inputs.
  - by exists inputs.
  - intros He. specialize (Hg He). unfold sender_dropped in *. rewrite orb_true_iff in *. destruct Hg as [Hg|]; [|by right].
    left. unfold finished in *. apply bool_decide_eq_true in Hg. apply bool_decide_eq_true. simpl. by rewrite Hg.
Qed.

Lemma relay_snoc inputs i : relay (inputs ++ [i]) = relay inputs ++ relay [i].
Proof. unfold relay. apply omap_app. Qed.

Lemma relay_turn_ok s : life_ok s → life_ok (relay_turn s).
Proof.
  intros Hok. unfold relay_turn. destruct (relaying s) eqn:Hrel; [|done].
  destruct (queue s) as [|snap rest] eqn:Eq.
  - destruct (sender_dropped s); [|done]. destruct Hok as [Hd Hq (inputs & Hb & Hp & _) Hs Ht Hst Hg Hu].
    split; try done. by exists inputs.
  - destruct Hok as [Hd Hq (inputs & Hb & Hp & Hr) Hs Ht Hst Hg Hu]. rewrite Eq in *. split; try done; simpl in *; [lia|]. exists (inputs ++ [(size (live (doors s)), snap)]). simpl.
    rewrite relay_snoc, Hb, fmap_app, <- app_assoc. by split_and!.
Qed.

Lemma relay_notices_ok s : life_ok s → life_ok (s <| relaying := false |> <| queue := [] |>).
Proof.
  intros [Hd Hq (inputs & Hb & Hp & Hr) Hs Ht Hst Hg Hu]. split; try done; simpl; [lia|].
  exists inputs. simpl. rewrite app_nil_r. split; [done|]. split; [|done].
  etrans; [by eexists|exact Hp].
Qed.

Lemma cancel_ok s : life_ok s → handler s = false → life_ok (cancel_token collector s).
Proof. intros [Hd Hq Hp Hs Ht Hst Hg Hu] Hh. split; try done. intros Ha. split; [done|]. by apply Hst. Qed.

Lemma polls_ok e s :
  (∀ sys nets ms a, e ≠ SystemTick sys nets ms a) → e ≠ Cancel → over s = false →
  life_ok s → life_ok (s <| gathering ::= λ g, collector_step collector g e |>).
Proof.
  intros He Hc Ho [Hd Hq (inputs & Hb & Hp & Hr) Hs Ht Hst Hg Hu].
  destruct (quiet_collector_step (gathering s) e He) as [Esent Ecan]. specialize (Ecan Hc).
  split; try done; unfold token_cancelled, piped; simpl; rewrite ?Esent, ?Ecan; [|exact Ht|exact Hst|].
  - by exists inputs.
  - intros E. unfold over in Ho. by rewrite E in Ho.
Qed.

Lemma accepting_step ev (self : AcceptState S) :
  ev ≠ AcceptFailed → ev ≠ ShutDown → accepting (server_step rl ev self) = accepting self.
Proof.
  intros Hf Hs. destruct ev; simpl; try done; [|by case_bool_decide..].
  destruct (accepting self) eqn:E; [|done]. unfold accept. destruct (try_admit _ _ _ _) as [[] lim]; [|done].
  simpl. by destruct (try_acquire_owned (semaphore self)).
Qed.

Lemma door_event_ok ev s :
  over s = false → life_ok s → life_ok (door_event collector rl accept_error ev s).
Proof.
  intros Ho Hok.
  assert (ev = AcceptFailed ∨ ev = ShutDown ∨ (ev ≠ AcceptFailed ∧ ev ≠ ShutDown))
    as [->|[->|[Hf Hsd]]] by (destruct ev; auto; by right; right).
  - simpl. destruct (accepting (doors s)) eqn:Ea; [|done]. destruct Hok as [Hd Hq Hp Hs Ht Hst Hg Hu].
    split; try done; [by apply (server_step_ok _ _ AcceptFailed)|by intros [|]].
  - simpl. destruct (accepting (doors s)) eqn:Ea, (token_cancelled s) eqn:Ec; try done. simpl.
    destruct Hok as [Hd Hq Hp Hs Ht Hst Hg Hu].
    split; try done; [by apply (server_step_ok _ _ ShutDown)|by intros; apply Ht].
  - assert (door_event collector rl accept_error ev s = s <| doors ::= server_step rl ev |>) as -> by (by destruct ev).
    destruct Hok as [Hd Hq Hp Hs Ht Hst Hg Hu].
    split; try done; simpl; [by apply server_step_ok|by rewrite accepting_step..].
Qed.

Lemma life_step_ok s e : life_ok s → life_ok (step s e).
Proof.
  intros Hok. unfold life_step. destruct (over s) eqn:Ho; [done|]. destruct e; simpl.
  - destruct (handler s) eqn:Hh; [|done]. apply cancel_ok; [|done]. by destruct Hok; split.
  - destruct (handler s) eqn:Hh; [|done]. destruct Hok as [Hd Hq Hp Hs Ht Hst Hg Hu].
    destruct unwinds eqn:Hw; split; try done; first [by intros [|] | by intros ?%Hu].
  - by apply door_event_ok.
  - by apply tick_ok.
  - destruct e; [done|by apply polls_ok..|done|by apply polls_ok].
  - destruct (is_running SystemLoop (gathering s)); [|done]. destruct Hok as [Hd Hq Hp Hs Ht Hst Hg Hu].
    destruct unwinds eqn:Hw; split; try done; try first [by intros [|] | by intros ?%Hu].
    intros E. unfold over in Ho. simpl in E. by rewrite E in Ho.
  - by apply relay_turn_ok.
  - destruct (relaying s && token_cancelled s); [by apply relay_notices_ok|done].
  - destruct (at_ s) eqn:Ea; try done. destruct (sender_dropped s) eqn:Hsd; [|done].
    destruct Hok as [Hd Hq Hp Hs Ht Hst Hg Hu]. split; try done. intros _. apply Hst. by left.
Qed.

Lemma life_run_ok es s : life_ok s → life_ok (lives es s).
Proof. revert s. induction es as [|e es IH]; intros s Hs; [done|]. by apply IH, life_step_ok. Qed.

(** *** Where [main] can go *)

Inductive moves s : life_event → phase → Prop :=
| stays e : moves s e (at_ s)
| stops : token_cancelled s = true → moves s (Doors ShutDown) AwaitingCollector
| fails : moves s (Doors AcceptFailed) (Ended (listener_error accept_error))
| joins : at_ s = AwaitingCollector → sender_dropped s = true → moves s Joins (Ended (Ok tt))
| aborts e : unwinds = false → e = CollectorPanics ∨ (e = HandlerFails ∧ handler s = true) →
    moves s e Aborted.

Lemma step_moves s e : moves s e (at_ (step s e)).
Proof.
  pose proof (stays s) as Hs. unfold life_step. destruct (over s); [apply Hs|].
  destruct e as [| |ev|sys nets ms|e| | | |]; simpl.
  - destruct (handler s); apply Hs.
  - destruct (handler s) eqn:Hh; [|apply Hs]. destruct unwinds eqn:Hw; [apply Hs|constructor; auto].
  - destruct ev; try apply Hs; simpl.
    + destruct (accepting (doors s)); [constructor|apply Hs].
    + destruct (accepting (doors s)), (token_cancelled s) eqn:Hc; try apply Hs. by constructor.
  - unfold tick. destruct (is_running SystemLoop (gathering s)); [|apply Hs].
    destruct (try_send s); apply Hs.
  - destruct e; apply Hs.
  - destruct (is_running SystemLoop (gathering s)); [|apply Hs].
    destruct unwinds eqn:Hw; [apply Hs|constructor; auto].
  - unfold relay_turn. destruct (relaying s); [|apply Hs]. destruct (queue s); [|apply Hs].
    destruct (sender_dropped s); apply Hs.
  - destruct (relaying s && token_cancelled s); apply Hs.
  - destruct (at_ s) eqn:Ea; try apply Hs; try (rewrite Ea; apply Hs).
    destruct (sender_dropped s) eqn:Hsd; [by constructor|]. try rewrite Ea. apply Hs.
Qed.

(** The token and the loops only ever go one way. *)
Lemma told_step s e :
  (token_cancelled s = true → token_cancelled (step s e) = true) ∧
  (handler (step s e) = true → handler s = true) ∧
  (e ≠ CtrlC → token_cancelled (step s e) = token_cancelled s) ∧
  ∀ l, l ∈ running (gathering (step s e)) → l ∈ running (gathering s).
Proof.
  unfold life_step. destruct (over s); [done|]. unfold token_cancelled.
  destruct e as [| |ev|sys nets ms|e| | | |]; simpl.
  - destruct (handler s) eqn:Hh; split_and!; (done || congruence).
  - destruct (handler s) eqn:Hh, unwinds; split_and!; (done || congruence).
  - destruct ev; try done; simpl; [by destruct (accepting (doors s))|].
    unfold token_cancelled. destruct (accepting (doors s)), (cancelled (gathering s)) eqn:E; simpl; rewrite ?E; done.
  - unfold tick, system_tick. destruct (is_running SystemLoop (gathering s)); [|done].
    destruct (try_send s); try done. simpl. split_and!; try done. by intros l [? _]%elem_of_stop.
  - assert (∀ e', (∀ sys nets ms a, e' ≠ SystemTick sys nets ms a) → e' ≠ Cancel →
      let g := collector_step collector (gathering s) e' in
      cancelled g = cancelled (gathering s) ∧ ∀ l, l ∈ running g → l ∈ running (gathering s)) as Hq.
    { intros e' He Hc g. split; [by apply quiet_collector_step|]. intros l. apply step_monotone. }
    destruct e as [| | | | |l]; try done; simpl;
      [destruct (Hq (ContainerPoll r)) as [E ?]|destruct (Hq (ClusterPoll r)) as [E ?]|destruct (Hq (GpuPoll r)) as [E ?]
      |destruct (Hq (Notices l)) as [E ?]]; try done; simpl in *; rewrite E; done.
  - destruct (is_running SystemLoop (gathering s)); [|done]. destruct unwinds; [|done]. simpl.
    split_and!; try done. by intros l [? _]%elem_of_stop.
  - unfold relay_turn. destruct (relaying s); [|done]. destruct (queue s); [|done]. by destruct (sender_dropped s).
  - by destruct (relaying s && token_cancelled s).
  - destruct (at_ s); try done. by destruct (sender_dropped s).
Qed.

(** *** From a signal to the end *)

Lemma lives_over es s : over s = true → lives es s = s.
Proof. intros Ho. induction es as [|e es IH]; [done|]. simpl. by replace (step s e) with s by (unfold life_step; by rewrite Ho). Qed.

Lemma told_run es s :
  (token_cancelled s = true → token_cancelled (lives es s) = true) ∧
  (handler (lives es s) = true → handler s = true) ∧
  (token_cancelled (lives es s) = true → token_cancelled s = true ∨ CtrlC ∈ es).
Proof.
  revert s. induction es as [|e es IH]; intros s; [by split_and!; auto|]. simpl.
  destruct (IH (step s e)) as (I1 & I2 & I3), (told_step s e) as (T1 & T2 & T3 & _).
  split_and!; [auto|auto|]. intros [Hc|Hin]%I3; [|right; by right].
  destruct e; try (left; by rewrite <-T3). right. by left.
Qed.

(** Where [main] stands after a run, and what took it there. *)
Definition explained (es : list life_event) s : Prop :=
  match at_ (lives es s) with
  | Ended (Err x) => at_ s = Ended (Err x) ∨ Doors AcceptFailed ∈ es
  | Aborted => at_ s = Aborted ∨ (unwinds = false ∧ (CollectorPanics ∈ es ∨ handler s = true))
  | Serving => at_ s = Serving
  | _ => True
  end.

Lemma run_explained es s : explained es s.
Proof.
  unfold explained. revert s. induction es as [|e es IH]; intros s; simpl; [repeat case_match; auto|].
  specialize (IH (step s e)). pose proof (step_moves s e) as Hm. destruct (told_step s e) as (_ & Hh & _).
  destruct (at_ (lives es (step s e))) as [| |[[]|x]|]; try done.
  - rewrite IH in Hm. inversion Hm. done.
  - destruct IH as [E|E]; [|right; by right]. rewrite E in Hm.
    inversion Hm; subst; [by left|right; by left].
  - destruct IH as [E|[? [E|E]]]; [|right; split; [done|left; by right]|right; auto].
    rewrite E in Hm. inversion Hm as [| | | |? Hw [->|[-> ?]]]; subst; [by left|..]; right; (split; [done|]);
      [left; by left|by right].
Qed.

Lemma shut_down_heard es s :
  life_ok s → token_cancelled s = true → Doors ShutDown ∈ es → at_ (lives es s) ≠ Serving.
Proof.
  revert s. induction es as [|e es IH]; intros s Hok Hc Hin; [by apply elem_of_nil in Hin|].
  apply elem_of_cons in Hin as [<-|Hin];
    [|apply IH; [by apply life_step_ok|by apply told_step|done]].
  intros E. pose proof (run_explained es (step s (Doors ShutDown))) as Hx. unfold explained in Hx.
  change (lives (Doors ShutDown :: es) s) with (lives es (step s (Doors ShutDown))) in E.
  rewrite E in Hx. pose proof (step_moves s (Doors ShutDown)) as Hm. rewrite Hx in Hm.
  assert (at_ s = Serving) as Hs by (by inversion Hm).
  unfold life_step, over in Hx. rewrite Hs in Hx. simpl in Hx.
  by rewrite (ok_serving _ Hok Hs), Hc in Hx.
Qed.

Lemma loop_gone es s l :
  token_cancelled s = true → Polls (Notices l) ∈ es →
  over (lives es s) = true ∨ l ∉ running (gathering (lives es s)).
Proof.
  assert (∀ es s, l ∈ running (gathering (lives es s)) → l ∈ running (gathering s)) as Hmono.
  { clear. intros es. induction es as [|e es IH]; intros s; [done|]. intros ?%IH. by apply (told_step s e). }
  revert s. induction es as [|e es IH]; intros s Hc Hin; [by apply elem_of_nil in Hin|].
  apply elem_of_cons in Hin as [<-|Hin]; [|apply IH; [by apply told_step|done]].
  destruct (over s) eqn:Ho; [left; by rewrite lives_over|right]. intros Hr%(Hmono es (step s _)).
  unfold life_step in Hr. rewrite Ho in Hr. simpl in Hr. unfold token_cancelled in Hc. rewrite Hc in Hr.
  by apply elem_of_stop in Hr as [_ ?].
Qed.

(** After Ctrl-C [main] returns, once the accept loop and the loops of the
    collector have had their turn, in any order and among anything else. *)
Lemma told_server_ends s after :
  life_ok s → at_ s = Serving → handler s = true → Doors ShutDown ∈ after →
  (∀ l, Polls (Notices l) ∈ after) →
  match at_ (lives (CtrlC :: after ++ [Joins]) s) with
  | Ended (Ok _) => True
  | Ended (Err _) => Doors AcceptFailed ∈ after
  | Aborted => unwinds = false ∧ CollectorPanics ∈ after
  | _ => False
  end.
Proof.
  intros Hok Hs Hh Hsd Hall. set (s1 := step s CtrlC).
  assert (s1 = cancel_token collector (s <| handler := false |>)) as E1.
  { unfold s1, life_step, over. rewrite Hs. simpl. by rewrite Hh. }
  assert (life_ok s1) as Hok1 by (by apply life_step_ok).
  assert (token_cancelled s1 = true) as Hc1 by (by rewrite E1).
  change (lives (CtrlC :: after ++ [Joins]) s) with (lives (after ++ [Joins]) s1).
  unfold life_run. rewrite foldl_app. simpl. fold (lives after s1).
  pose proof (shut_down_heard after s1 Hok1 Hc1 Hsd) as Hns.
  pose proof (run_explained after s1) as Hx. unfold explained in Hx.
  assert (at_ s1 = Serving) as Hs1 by (by rewrite E1). rewrite Hs1, E1 in Hx. rewrite E1 in Hns.
  pose proof (λ l, loop_gone after s1 l Hc1 (Hall l)) as Hg. rewrite E1 in *.
  set (s2 := lives after _) in *. unfold life_step, over in *.
  destruct (at_ s2) as [| |[[]|x]|] eqn:E2; rewrite ?E2; simpl; try done.
  - rewrite E2. assert (sender_dropped s2 = true) as ->; [|done].
    unfold sender_dropped, finished. apply orb_true_iff. left. apply bool_decide_eq_true.
    destruct (running (gathering s2)) as [|l ls]; [done|]. destruct (Hg l) as [|Hn]; [done|].
    exfalso. apply Hn. by left.
  - by destruct Hx.
  - destruct Hx as [|[? [?|?]]]; done.
Qed.
End LifeProps.

(** The state [main] reaches [server::run] with, and whether its address can be
    bound. *)
Definition life_start {S} `{!Semaphore S} (collector : Collector) (config : ServerConfig) (now : Instant)
    (bound : result unit str) : RateLimiter * ServerLife S :=
  let '(rate_limiter, doors) := start config now in
  (rate_limiter,
   mkLife doors (run collector) false [] true [] true
     (match bound with Ok _ => Serving | Err e => Ended (listener_error e) end)).

Section Program.
Context {H : Host} {T : ServerMain.TlsHost} {S : Type} `{!Semaphore S} `{!Bincode SystemSnapshot}.

(** The whole program: set up, then run. *)
Definition server_program (unwinds : bool) (accept_error : str) (cli : ServerMain.ServerCli)
    (unix now : Z) (bound : result unit str) (es : list life_event) : M (ServerLife S) :=
  st <- ServerMain.server_main cli unix ;;
  let '(rate_limiter, s) := life_start (ServerMain.served st) (ServerMain.server_config st) now bound in
  ret (life_run unwinds (ServerMain.served st) rate_limiter accept_error es s).
End Program.

(** *** Properties of the whole server *)

Section Whole.
Context {S : Type} `{!Semaphore S} `{!Bincode SystemSnapshot} `{!Bincode (str * Z)} `{!Bincode (Z * str)}
  `{!Bincode (str * option str)} `{!Bincode (str * str * Z)} `{!DebugFmt}.
Variable unwinds : bool.
Variables (collector : Collector) (config : ServerConfig) (accept_error : str).
Variables (now : Instant) (bound : result unit str).

Definition start_life : RateLimiter * ServerLife S := life_start collector config now bound.
Definition life_after (es : list life_event) : ServerLife S :=
  life_run unwinds collector start_life.1 accept_error es start_life.2.

Lemma life_after_ok es : life_ok unwinds start_life.1 (max_clients config) (life_after es).
Proof.
  apply life_run_ok. unfold start_life, life_start, start. simpl. split; simpl; try done.
  - split; simpl; [|by intros t [? ?]|].
    + rewrite available_new, map_size_empty. lia.
    + unfold tracked. simpl. rewrite map_size_empty. lia.
  - unfold SNAPSHOT_CAPACITY. lia.
  - exists []. by split_and!; [|apply prefix_nil|].
  - by destruct bound; intros [|].
  - by destruct bound.
Qed.

Lemma sublist_of_prefix {A} (l k : list A) : l `prefix_of` k → l `sublist_of` k.
Proof. intros [r ->]. by apply sublist_inserts_r. Qed.

(** What is broadcast are, in order, encodings of snapshots the collector sent. *)
Lemma broadcast_was_sent es :
  let s := life_after es in
  Forall fits (sent (gathering s)) →
  ∃ snaps, snaps `sublist_of` sent (gathering s) ∧
    Forall2 (λ f x, from_frame f = Ok (Snapshot x)) (broadcast s) snaps.
Proof.
  intros s Hfit. destruct (life_after_ok es) as [_ _ (inputs & Hb & Hpre & _) _ _ _ _ _]. fold s in Hb, Hpre.
  assert (inputs.*2 `prefix_of` sent (gathering s)) as Hin by (etrans; [by eexists|exact Hpre]).
  destruct (relay_faithful inputs) as (snaps & Hsub & Hdec & _).
  { destruct Hin as [r E]. rewrite E in Hfit. apply Forall_app in Hfit as [Hfit _].
    rewrite Forall_fmap in Hfit. exact Hfit. }
  exists snaps. rewrite Hb. split; [|done]. etrans; [exact Hsub|by apply sublist_of_prefix].
Qed.

(** C12: the server as a whole, whatever its tasks do in whatever order: clients
    and permits always add up; the channel never holds more than its four
    snapshots; what is broadcast are, in order, encodings of snapshots the
    collector did send, which, as long as each fits a message, decode to those
    very snapshots; and [main] returns without an error only after Ctrl-C, with
    the accept loop stopped and the collector finished, unless it panicked in a
    build that unwinds.  The relay and the sessions of clients may still be
    running then: they end with the process. *)
Theorem server_life_is_sound es :
  let s := life_after es in
  (available_permits (semaphore (doors s)) + size (live (doors s)))%nat = max_clients config ∧
  (length (queue s) ≤ SNAPSHOT_CAPACITY)%nat ∧
  (Forall fits (sent (gathering s)) →
   ∃ snaps, snaps `sublist_of` sent (gathering s) ∧
     Forall2 (λ f x, from_frame f = Ok (Snapshot x)) (broadcast s) snaps) ∧
  (at_ s = Ended (Ok tt) → CtrlC ∈ es ∧ accepting (doors s) = false ∧
     (finished (gathering s) = true ∨ (gatherer_panicked s = true ∧ unwinds = true))).
Proof.
  cbv zeta. pose proof (broadcast_was_sent es) as Hb.
  destruct (life_after_ok es) as [[Hp _ _] Hq _ _ _ Hst Hg Hu].
  split_and!; [done|done|exact Hb|].
  - intros E. destruct (Hst (or_intror E)) as [Hc Ha]. specialize (Hg E). split_and!; [|done|].
    + destruct (told_run unwinds collector start_life.1 accept_error es start_life.2) as (_ & _ & [Ht|Ht]);
        [exact Hc|discriminate Ht|exact Ht].
    + unfold sender_dropped in Hg. apply orb_true_iff in Hg as [Hg|Hg]; auto.
Qed.

(** C14: Ctrl-C always ends the server: whatever happened before, and whatever
    clients, engines and ticks do in between and after, once the accept loop and
    every loop of the collector have had a turn to notice, [main] returns; and
    it returns success unless the listener failed first, or a panic of the
    collector aborted the process. *)
Theorem ctrl_c_ends_the_server before after :
  let s := life_after before in
  at_ s = Serving → handler s = true →
  Doors ShutDown ∈ after → (∀ l, Polls (Notices l) ∈ after) →
  match at_ (life_after (before ++ CtrlC :: after ++ [Joins])) with
  | Ended (Ok _) => True
  | Ended (Err _) => Doors AcceptFailed ∈ after
  | Aborted => unwinds = false ∧ CollectorPanics ∈ after
  | Serving | AwaitingCollector => False
  end.
Proof.
  intros s Hs Hh Hsd Hall. unfold life_after, life_run. rewrite foldl_app.
  by apply (told_server_ends _ _ _ _ _ _ _ (life_after_ok before)).
Qed.

(** One failed [accept] is the end of everybody's session: [main] returns its
    error at once, without the token, the clients or the collector being told. *)
Lemma failed_accept_ends_the_server before :
  at_ (life_after before) = Serving →
  at_ (life_after (before ++ [Doors AcceptFailed])) = Ended (listener_error accept_error) ∧
  token_cancelled (life_after (before ++ [Doors AcceptFailed])) = token_cancelled (life_after before).
Proof.
  intros Hs. pose proof (ok_serving _ _ _ _ (life_after_ok before) Hs) as Ha.
  unfold life_after, life_run in *. rewrite foldl_app. simpl. set (s := foldl _ _ before) in *.
  unfold life_step, over. rewrite Hs. simpl. rewrite Ha. by split.
Qed.
End Whole.

(** ** The terminal program *)

(** Where [run_app] is: on the TUI's thread (the mouse captured or not), in the
    benchmark loop, at the collector's join handle with what the session said,
    gone, or killed by a panic. *)
Inductive client_phase : Type :=
| InSession (mouse_enabled : bool)
| Benching
| Awaiting (tui_result : result unit Anyhow)
| Left (status : result unit Anyhow)
| Killed.

(** [hooked]: the panic hook of the interface is installed. *)
Record ClientLife := mkClientLife {
  tty : Terminal.Tty;
  fed : CollectorState;
  feeder_panicked : bool;
  hooked : bool;
  client_at : client_phase;
}.

#[export] Instance ClientLife_eta : Eta ClientLife := λ s,
  mkClientLife (tty s) (fed s) (feeder_panicked s) (hooked s) (client_at s).

Inductive client_event : Type :=
| Turns (x : Terminal.turn)     (* a turn of the interface's loop *)
| Quits
| BenchOver
| Gathers (e : collector_event) (* a step of the collector *)
| FeederPanics
| JoinsFeeder.

Section ClientLife.
Variable answers : nat → Terminal.tty_op → Terminal.reply.
(** Releases are built to abort on a panic, other builds unwind. *)
Variable unwinds : bool.
Variable collector : Collector.
Variables (tui_error panic : str).
Implicit Types s : ClientLife.

(** [muxtop_tui::run] has returned, or panicked: a panic is reported before the
    collector is even told. *)
Definition session_over (ended : Terminal.outcome) s : ClientLife :=
  match ended with
  | Terminal.Exited => s <| client_at := Awaiting (Ok tt) |> <| fed ::= λ g, collector_step collector g Cancel |>
  | Terminal.Failed =>
      s <| client_at := Awaiting (Err [lit "TUI error"; tui_error]) |>
        <| fed ::= λ g, collector_step collector g Cancel |>
  | Terminal.Panicked =>
      s <| client_at := if unwinds then Left (Err [lit "TUI thread panicked"; panic]) else Killed |>
  end.

Definition leaves_loop (mouse_enabled : bool) (ended : Terminal.outcome) s : ClientLife :=
  let '(outcome, t) := Terminal.leave answers unwinds mouse_enabled ended (tty s) in
  session_over outcome (s <| tty := t |>).

Definition client_work (e : client_event) s : ClientLife :=
  match e with
  | Turns x =>
      match client_at s with
      | InSession m =>
          let '(ended, t) := Terminal.event_loop answers [x] (tty s) in
          let s := s <| tty := t |> in
          match ended with Terminal.Exited => s | _ => leaves_loop m ended s end
      | _ => s
      end
  | Quits => match client_at s with InSession m => leaves_loop m Terminal.Exited s | _ => s end
  | BenchOver => match client_at s with Benching => session_over Terminal.Exited s | _ => s end
  | Gathers e =>
      match e with Cancel => s | _ => s <| fed ::= λ g, collector_step collector g e |> end
  | FeederPanics =>
      if is_running SystemLoop (fed s) then
        let s := if hooked s then s <| tty ::= Terminal.panic_hook answers |> else s in
        if unwinds then s <| fed ::= stop SystemLoop |> <| feeder_panicked := true |>
        else s <| client_at := Killed |>
      else s
  | JoinsFeeder =>
      match client_at s with
      | Awaiting status =>
          if finished (fed s) || feeder_panicked s then s <| client_at := Left status |> else s
      | _ => s
      end
  end.

Definition client_over s : bool :=
  match client_at s with Left _ | Killed => true | _ => false end.

(** When [run_app] is gone the runtime is, and the collector with it. *)
Definition client_step s (e : client_event) : ClientLife := if client_over s then s else client_work e s.

Definition client_run (es : list client_event) s : ClientLife := foldl client_step s es.

(** A local run: the collector spawned, then the benchmark loop or the session. *)
Definition client_start (want_mouse : bool) (bench : option Z) (t : Terminal.Tty) : ClientLife :=
  let s := mkClientLife t (run collector) false false Benching in
  match bench with
  | Some _ => s
  | None =>
      let s := s <| hooked := true |> in
      match Terminal.init_terminal answers want_mouse t with
      | (Ok m, t) => s <| tty := t |> <| client_at := InSession m |>
      | (Err _, t) => session_over Terminal.Failed (s <| tty := t |>)
      end
  end.

Definition client_life (want_mouse : bool) (bench : option Z) (t : Terminal.Tty) (es : list client_event)
    : ClientLife := client_run es (client_start want_mouse bench t).
End ClientLife.

(** *** What holds at every moment of it *)

Section ClientProps.
Variable answers : nat → Terminal.tty_op → Terminal.reply.
Variable unwinds : bool.
Variable collector : Collector.
Variables (tui_error panic : str).
Hypothesis restores : ∀ n op, Terminal.restoring op = true → answers n op = Terminal.Succeeded.
Hypothesis prepares : ∀ n op, op ≠ Terminal.Draw → answers n op ≠ Terminal.HalfDone.
Implicit Types s : ClientLife.

#[local] Arguments Terminal.event_loop : simpl never.
#[local] Arguments collector_step : simpl never.
Notation step := (client_step answers unwinds collector tui_error panic).
Notation lives := (client_run answers unwinds collector tui_error panic).

(** The state of the terminal fits the phase: only the interface draws on it. *)
Definition tty_ok s : Prop :=
  match client_at s with
  | InSession m => Terminal.captured_by m (tty s)
  | _ => Terminal.cooked (tty s)
  end.

Record client_ok s : Prop := {
  ok_tty : tty_ok s;
  ok_cancelled : ∀ status, client_at s = Awaiting status → cancelled (fed s) = true;
  ok_left : client_at s = Left (Ok tt) → finished (fed s) = true ∨ feeder_panicked s = true;
  ok_unwound : feeder_panicked s = true → unwinds = true;
  ok_killed : client_at s = Killed → unwinds = false;
  ok_hooked : ∀ m, client_at s = InSession m → hooked s = true;
}.

Lemma cooked_ok s : Terminal.cooked (tty s) → tty_ok s.
Proof. unfold tty_ok. intros Hc. destruct (client_at s); try done. by apply Terminal.cooked_captured. Qed.

Lemma session_over_ok ended s :
  Terminal.cooked (tty s) → (feeder_panicked s = true → unwinds = true) →
  client_ok (session_over unwinds collector tui_error panic ended s).
Proof.
  intros Hc Hu. destruct ended; split; try done; simpl; try (by apply cooked_ok); destruct unwinds; done.
Qed.

Lemma leaves_loop_ok m ended s :
  Terminal.captured_by m (tty s) → (feeder_panicked s = true → unwinds = true) →
  client_ok (leaves_loop answers unwinds collector tui_error panic m ended s).
Proof.
  intros Hc Hu. unfold leaves_loop.
  pose proof (Terminal.leave_cooks answers restores unwinds m ended (tty s) Hc) as Hl.
  destruct (Terminal.leave _ _ _ _ _) as [o t]. by apply session_over_ok.
Qed.

Lemma gathers_ok e s :
  (∀ status, client_at s ≠ Left status) → client_ok s →
  client_ok (s <| fed ::= λ g, collector_step collector g e |>).
Proof.
  intros Hn [Ht Hc Hl Hu Hk Hh]. split; try done; simpl.
  - intros status E. apply cancelled_step. by eapply Hc.
  - intros E. by destruct (Hn (Ok tt)).
Qed.

Lemma panicking_ok s :
  client_ok s →
  let s1 := if hooked s then s <| tty ::= Terminal.panic_hook answers |> else s in
  client_ok s1 ∧ client_at s1 = client_at s ∧ Terminal.cooked (tty s1).
Proof.
  intros Hok. destruct (hooked s) eqn:Eh; cbv zeta.
  - pose proof (Terminal.panic_hook_cooks answers restores (tty s)) as Hc. split_and!; [|done|done].
    destruct Hok. split; try done. by apply cooked_ok.
  - split_and!; [done|done|]. destruct Hok as [Ht _ _ _ _ Hh]. unfold tty_ok in Ht.
    destruct (client_at s) as [m| | | |] eqn:Ea; try done. by rewrite (Hh m eq_refl) in Eh.
Qed.

Lemma client_step_ok s e : client_ok s → client_ok (step s e).
Proof.
  intros Hok. unfold client_step. destruct (client_over s) eqn:Ho; [done|].
  assert (∀ status, client_at s ≠ Left status) as Hn
    by (intros st E; unfold client_over in Ho; by rewrite E in Ho).
  destruct e as [x| | |e| |]; simpl.
  - destruct (client_at s) as [m| | | |] eqn:Ea; try done.
    pose proof (ok_tty s Hok) as Ht. unfold tty_ok in Ht. rewrite Ea in Ht.
    pose proof (Terminal.event_loop_captured answers m [x] (tty s) Ht) as He.
    destruct (Terminal.event_loop answers [x] (tty s)) as [ended t]. simpl in He.
    destruct ended; [|apply leaves_loop_ok; [done|apply Hok]..].
    destruct Hok. split; simpl; rewrite ?Ea; try done; [by unfold tty_ok; simpl; rewrite Ea|].
    intros m1 _. by eapply ok_hooked0.
  - destruct (client_at s) as [m| | | |] eqn:Ea; try done.
    pose proof (ok_tty s Hok) as Ht. unfold tty_ok in Ht. rewrite Ea in Ht.
    apply leaves_loop_ok; [done|apply Hok].
  - destruct (client_at s) as [m| | | |] eqn:Ea; try done.
    pose proof (ok_tty s Hok) as Ht. unfold tty_ok in Ht. rewrite Ea in Ht.
    apply (session_over_ok Terminal.Exited); [done|apply Hok].
  - destruct e; try done; by apply gathers_ok.
  - destruct (is_running SystemLoop (fed s)); [|done].
    destruct (panicking_ok s Hok) as (Hok1 & Ea & Hc). cbv zeta.
    set (s1 := if hooked s then _ else s) in *.
    destruct unwinds eqn:Hw.
    + destruct Hok1. split; try done. simpl. intros E. rewrite Ea in E. by destruct (Hn (Ok tt)).
    + destruct Hok1. by split.
  - destruct (client_at s) as [| |status| |] eqn:Ea; try done.
    destruct (finished (fed s) || feeder_panicked s) eqn:Ef; [|done]. apply orb_true_iff in Ef.
    destruct Hok as [Ht Hc Hl Hu Hk Hh]. split; try done; simpl.
    unfold tty_ok in *. simpl. by rewrite Ea in Ht.
Qed.

Lemma client_run_ok es s : client_ok s → client_ok (lives es s).
Proof. revert s. induction es as [|e es IH]; intros s Hs; [done|]. by apply IH, client_step_ok. Qed.

Lemma client_start_ok want_mouse bench t :
  Terminal.cooked t → client_ok (client_start answers unwinds collector tui_error panic want_mouse bench t).
Proof.
  intros Ht. unfold client_start. destruct bench as [n|]; [by split|].
  pose proof (Terminal.init_terminal_ok answers restores prepares want_mouse t Ht) as Hi.
  destruct (Terminal.init_terminal answers want_mouse t) as [[m|[]] t1]; [by split|].
  by apply (session_over_ok Terminal.Failed).
Qed.

(** *** How it can end *)

(** The end a step can bring, from where it was. *)
Definition explains (e : client_event) s (status : result unit Anyhow) : Prop :=
  match status with
  | Ok _ => e = BenchOver ∧ client_at s = Benching ∨ e = Quits ∧ ∃ m, client_at s = InSession m
  | Err _ => True
  end.

Lemma session_over_at ended s status :
  let s' := session_over unwinds collector tui_error panic ended s in
  client_at s' = Awaiting status ∨ client_at s' = Left status → is_ok status = true →
  ended = Terminal.Exited.
Proof.
  destruct ended; [done|..]; simpl; [|destruct unwinds]; intros [E|E]; try discriminate E;
    by injection E as <-.
Qed.

Lemma leaves_loop_at m ended s status :
  let s' := leaves_loop answers unwinds collector tui_error panic m ended s in
  client_at s' = Awaiting status ∨ client_at s' = Left status → is_ok status = true →
  ended = Terminal.Exited.
Proof.
  unfold leaves_loop. destruct (Terminal.leave _ _ _ _ _) as [o t] eqn:E. cbv zeta; intros Hs Hok.
  pose proof (session_over_at o _ status Hs Hok) as ->. destruct ended; [done|discriminate E|].
  simpl in E. by destruct unwinds.
Qed.

Lemma step_explained s e status :
  is_ok status = true →
  client_at (step s e) = Awaiting status ∨ client_at (step s e) = Left status →
  (client_at s = Awaiting status ∨ client_at s = Left status) ∨ explains e s status.
Proof.
  intros Hs. unfold client_step. destruct (client_over s) eqn:Ho; [by left|].
  destruct status as [[]|x]; [|done]. unfold explains.
  destruct e as [x| | |e| |]; simpl.
  - destruct (client_at s) as [m| | | |] eqn:Ea; rewrite ?Ea; try (by left).
    destruct (Terminal.event_loop answers [x] (tty s)) as [ended t].
    destruct ended; [simpl; rewrite Ea; by left|..]; intros H%leaves_loop_at; done.
  - destruct (client_at s) as [m| | | |] eqn:Ea; rewrite ?Ea; try (by left). intros _. right. right. eauto.
  - destruct (client_at s) as [m| | | |] eqn:Ea; rewrite ?Ea; try (by left). intros _. right. by left.
  - destruct e; by left.
  - destruct (is_running SystemLoop (fed s)); [|by left].
    destruct unwinds, (hooked s); simpl; (by left) || by intros [].
  - destruct (client_at s) as [| |st| |] eqn:Ea; rewrite ?Ea; try (by left).
    destruct (finished (fed s) || feeder_panicked s); simpl; rewrite ?Ea; [|by left].
    intros [|[= ->]]; [done|]. left. by left.
Qed.

(** *** From the end of the session to the end *)

(** At the join handle, or past it with the same answer. *)
Definition winding_up (es : list client_event) (status : result unit Anyhow) s : Prop :=
  match client_at s with
  | Awaiting st => st = status ∧ cancelled (fed s) = true
  | Left st => st = status
  | Killed => unwinds = false ∧ FeederPanics ∈ es
  | _ => False
  end.

Lemma winding_up_step status s e :
  winding_up [] status s → winding_up [e] status (step s e).
Proof.
  unfold winding_up, client_step, client_over.
  destruct (client_at s) as [| |st|st|] eqn:Ea; rewrite ?Ea; try done;
    [|by intros [_ ?%elem_of_nil]].
  intros [-> Hc].
  destruct e as [x| | |e| |]; simpl; rewrite ?Ea; try done.
  - destruct e; simpl; rewrite ?Ea; try done; (split; [done|]); by apply cancelled_step.
  - destruct (is_running SystemLoop (fed s)); rewrite ?Ea; [|done].
    destruct unwinds, (hooked s); simpl; rewrite ?Ea; try done; split; try done; by left.
  - destruct (finished (fed s) || feeder_panicked s); simpl; by rewrite ?Ea.
Qed.

Lemma winding_up_more es es' status s : es ⊆ es' → winding_up es status s → winding_up es' status s.
Proof. unfold winding_up. intros Hs. destruct (client_at s); try done. intros [? Hin]. auto. Qed.

Lemma winding_up_run status es s : winding_up [] status s → winding_up es status (lives es s).
Proof.
  intros Hw. assert (∀ done_, winding_up done_ status s → winding_up (done_ ++ es) status (lives es s)) as H;
    [|by apply (H [])].
  clear Hw. revert s. induction es as [|e es IH]; intros s done_ Hw; simpl; [by rewrite app_nil_r|].
  rewrite (cons_middle e done_ es), (assoc_L (++)). apply IH.
  destruct (client_over s) eqn:Ho.
  - unfold client_step. rewrite Ho. eapply winding_up_more, Hw. set_solver.
  - eapply (winding_up_more [e]); [set_solver|]. apply winding_up_step.
    unfold winding_up, client_over in *. by destruct (client_at s).
Qed.

Lemma fed_monotone s e l : l ∈ running (fed (step s e)) → l ∈ running (fed s).
Proof.
  unfold client_step. destruct (client_over s); [done|].
  assert (∀ e', l ∈ running (collector_step collector (fed s) e') → l ∈ running (fed s)) as Hc
    by (intros e'; apply step_monotone).
  assert (∀ o t, l ∈ running (fed (session_over unwinds collector tui_error panic o (s <| tty := t |>))) →
            l ∈ running (fed s)) as Ho by (by intros [] t).
  assert (∀ m o t, l ∈ running (fed (leaves_loop answers unwinds collector tui_error panic m o (s <| tty := t |>))) →
            l ∈ running (fed s)) as Hl.
  { intros m o t. unfold leaves_loop. destruct (Terminal.leave _ _ _ _ _) as [o' t']. apply Ho. }
  destruct e as [x| | |e| |]; simpl.
  - destruct (client_at s); try done. destruct (Terminal.event_loop _ _ _) as [[] t]; [done|apply Hl..].
  - destruct (client_at s) as [m| | | |]; try done. apply (Hl m Terminal.Exited (tty s)).
  - by destruct (client_at s).
  - destruct e; try done; apply Hc.
  - destruct (is_running SystemLoop (fed s)); [|done].
    destruct unwinds, (hooked s); simpl; try done; by intros [? _]%elem_of_stop.
  - destruct (client_at s); try done. by destruct (_ || _).
Qed.

Lemma client_lives_over es s : client_over s = true → lives es s = s.
Proof.
  intros Ho. induction es as [|e es IH]; [done|]. simpl.
  replace (step s e) with s by (unfold client_step; by rewrite Ho). exact IH.
Qed.

Lemma fed_loop_gone status es s l :
  winding_up [] status s → Gathers (Notices l) ∈ es →
  client_over (lives es s) = true ∨ l ∉ running (fed (lives es s)).
Proof.
  assert (∀ es s, l ∈ running (fed (lives es s)) → l ∈ running (fed s)) as Hmono.
  { clear. intros es. induction es as [|e es IH]; intros s; [done|]. intros ?%IH. by eapply fed_monotone. }
  revert s. induction es as [|e es IH]; intros s Hw Hin; [by apply elem_of_nil in Hin|].
  destruct (client_over s) eqn:Ho.
  { left. by rewrite client_lives_over. }
  apply elem_of_cons in Hin as [<-|Hin].
  - right. intros Hr%(Hmono es (step s _)). unfold client_step in Hr. rewrite Ho in Hr. simpl in Hr.
    unfold winding_up, client_over in *. destruct (client_at s) as [| |st| |]; try done.
    destruct Hw as [_ Hc]. unfold collector_step in Hr. rewrite Hc in Hr. by apply elem_of_stop in Hr as [_ ?].
  - apply winding_up_step with (e := e) in Hw as Hw'.
    destruct (client_over (step s e)) eqn:Ho'.
    + left. simpl. by rewrite client_lives_over.
    + apply IH; [|done]. unfold winding_up, client_over in *. by destruct (client_at (step s e)).
Qed.

(** Once it is at the join handle the program does end, with what the session
    said. *)
Lemma awaited_ends status after s :
  client_ok s → client_at s = Awaiting status → (∀ l, Gathers (Notices l) ∈ after) →
  match client_at (lives (after ++ [JoinsFeeder]) s) with
  | Left st => st = status
  | Killed => unwinds = false ∧ FeederPanics ∈ after
  | _ => False
  end.
Proof.
  intros Hok Ha Hall. assert (winding_up [] status s) as Hw.
  { unfold winding_up. rewrite Ha. split; [done|]. by eapply ok_cancelled. }
  pose proof (winding_up_run status after s Hw) as Hr.
  pose proof (λ l, fed_loop_gone status after s l Hw (Hall l)) as Hg.
  unfold client_run. rewrite foldl_app. simpl. fold (lives after s). set (s1 := lives after s) in *.
  unfold winding_up in Hr. unfold client_step, client_over in *.
  destruct (client_at s1) as [| |st|st|] eqn:E; rewrite ?E; try done. destruct Hr as [-> _]. simpl. rewrite E.
  assert (finished (fed s1) = true) as ->; [|done].
  unfold finished. apply bool_decide_eq_true. destruct (running (fed s1)) as [|l ls]; [done|].
  destruct (Hg l) as [|Hn]; [done|]. exfalso. apply Hn. by left.
Qed.

(** Success means the session was quit, or the benchmark over. *)
Lemma run_started es s status :
  is_ok status = true → client_at (lives es s) = Awaiting status ∨ client_at (lives es s) = Left status →
  (client_at s = Awaiting status ∨ client_at s = Left status) ∨ BenchOver ∈ es ∨ Quits ∈ es.
Proof.
  intros Hs. revert s. induction es as [|e es IH]; intros s Hl; [by left|]. simpl in Hl.
  destruct (IH _ Hl) as [H|[|]]; [|right; left; by right|right; right; by right].
  destruct (step_explained s e status Hs H) as [|He]; [by left|right].
  destruct status; [|done]. destruct He as [[-> _]|[-> _]]; [left|right]; by left.
Qed.

(** C31: however a local run ends, if what gives the terminal back works (and what
    prepares it works or leaves it alone), then whenever the interface is not
    running any more the terminal is itself again, killed by a panic of either
    thread included.  The program returns success only if the session was quit,
    or the benchmark ran its time, and the collector has stopped, or panicked in
    a build that unwinds, which is only logged; it is killed only in builds that
    abort.  And once the session is over, when every loop of the collector has
    had its turn to notice the cancellation, the program returns what the session
    said, unless a panic of the collector kills it first. *)
Theorem client_ends_clean want_mouse bench t es :
  Terminal.cooked t →
  let life := client_life answers unwinds collector tui_error panic want_mouse bench t in
  let s := life es in
  ((∀ m, client_at s ≠ InSession m) → Terminal.cooked (tty s)) ∧
  (client_at s = Left (Ok tt) →
     (BenchOver ∈ es ∨ Quits ∈ es) ∧
     (finished (fed s) = true ∨ (feeder_panicked s = true ∧ unwinds = true))) ∧
  (client_at s = Killed → unwinds = false) ∧
  (∀ status after, client_at s = Awaiting status → (∀ l, Gathers (Notices l) ∈ after) →
     match client_at (life (es ++ after ++ [JoinsFeeder])) with
     | Left st => st = status
     | Killed => unwinds = false ∧ FeederPanics ∈ after
     | _ => False
     end).
Proof.
  intros Ht life s. pose proof (client_start_ok want_mouse bench t Ht) as H0.
  pose proof (client_run_ok es _ H0) as Hok. change (lives es _) with s in Hok.
  split_and!.
  - intros Hn. pose proof (ok_tty s Hok) as Hc. unfold tty_ok in Hc.
    destruct (client_at s) as [m| | | |]; try done. by destruct (Hn m).
  - intros E. split.
    + destruct (run_started es _ (Ok tt) eq_refl (or_intror E)) as [H|?]; [|done]. exfalso. revert H.
      unfold client_start. destruct bench; [by intros [|]|].
      destruct (Terminal.init_terminal answers want_mouse t) as [[]]; by intros [|].
    + destruct (ok_left s Hok E) as [|Hp]; [by left|right]. split; [done|]. by apply (ok_unwound s).
  - apply (ok_killed s Hok).
  - intros status after E Hall. unfold life, client_life, client_run. rewrite foldl_app.
    by apply (awaited_ends status after s).
Qed.
End ClientProps.

(** ** Witnesses *)

(** Two places, engines for containers and the cluster, a listener on a free
    address. *)
Definition demo_config : ServerConfig := mkConfig 2 f32_zero.

#[local] Notation demo_lives :=
  (@life_after nat counter_semaphore (known_bincode idle_snapshot) true demo_collector demo_config
     (lit "too many open files") 0 (Ok tt)).

(** A client comes in and the first snapshot reaches it. *)
Definition demo_before : list life_event :=
  [Ticks demo_sys [] None; Doors (Accepted (V4 1) 0); Doors (TlsDone 0); Relays; Ticks demo_sys [] None].

(** The next tick finds the relay gone; the accept loop notices last. *)
Definition demo_after : list life_event :=
  [RelayNotices; Ticks demo_sys [] None; Polls (Notices ClusterLoop); Doors (SessionEnded 0);
   Polls (Notices ContainerLoop); Polls (Notices SystemLoop); Polls (Notices GpuLoop); Doors ShutDown].

Example demo_server_run :
  broadcast (demo_lives demo_before) = [mkFrame MSG_SNAPSHOT [x2a]] ∧
  length (queue (demo_lives demo_before)) = 1%nat ∧
  length (queue (demo_lives (replicate 9 (Ticks demo_sys [] None)))) = 4%nat ∧
  at_ (demo_lives (demo_before ++ CtrlC :: demo_after)) = AwaitingCollector ∧
  at_ (demo_lives (demo_before ++ Doors AcceptFailed :: CtrlC :: demo_after))
    = Ended (listener_error (lit "too many open files")).
Proof. split_and!; vm_compute; reflexivity. Qed.

Lemma ctrl_c_ends_the_server_witness :
  at_ (demo_lives demo_before) = Serving ∧ handler (demo_lives demo_before) = true ∧
  match at_ (demo_lives (demo_before ++ CtrlC :: demo_after ++ [Joins])) with
  | Ended (Ok _) => True
  | Ended (Err _) => Doors AcceptFailed ∈ demo_after
  | Aborted => true = false ∧ CollectorPanics ∈ demo_after
  | Serving | AwaitingCollector => False
  end.
Proof.
  assert (at_ (demo_lives demo_before) = Serving) as Hs by (vm_compute; reflexivity).
  assert (handler (demo_lives demo_before) = true) as Hh by (vm_compute; reflexivity).
  split; [exact Hs|]. split; [exact Hh|].
  refine (@ctrl_c_ends_the_server nat counter_semaphore (known_bincode idle_snapshot) true demo_collector
           demo_config (lit "too many open files") 0 (Ok tt) demo_before demo_after Hs Hh _ _).
  - unfold demo_after. rewrite !elem_of_cons. auto 20.
  - intros []; unfold demo_after; rewrite !elem_of_cons; auto 20.
Defined.

(** The third frame cannot be drawn; the collector is told, and noticed. *)
Definition demo_session : list client_event :=
  [Turns Terminal.Frame; Gathers (ContainerPoll (Ok [])); Turns Terminal.Quiet;
   Turns Terminal.Frame; Turns Terminal.Frame].

#[local] Notation demo_client unwinds :=
  (client_life Terminal.third_frame_fails unwinds demo_collector (lit "terminal: broken pipe") []
     true None Terminal.fresh_tty).

(** Quit; or the collector panics under the session: killed with the terminal
    restored in builds that abort, unnoticed in the others. *)
Example demo_client_runs :
  client_at (demo_client false ([Turns Terminal.Frame; Quits] ++ (Gathers <$> all_notice) ++ [JoinsFeeder]))
    = Left (Ok tt) ∧
  client_at (demo_client false [Turns Terminal.Frame; FeederPanics; Quits]) = Killed ∧
  Terminal.raw (tty (demo_client false [Turns Terminal.Frame; FeederPanics; Quits])) = false ∧
  client_at (demo_client true [Turns Terminal.Frame; FeederPanics; Quits; JoinsFeeder]) = Left (Ok tt).
Proof. split_and!; vm_compute; reflexivity. Qed.

Lemma client_ends_clean_witness :
  let failed := Err [lit "TUI error"; lit "terminal: broken pipe"] in
  client_at (demo_client false demo_session) = Awaiting failed ∧
  Terminal.cooked (tty (demo_client false demo_session)) ∧
  match client_at (demo_client false (demo_session ++ (Gathers <$> all_notice) ++ [JoinsFeeder])) with
  | Left st => st = failed
  | Killed => false = false ∧ FeederPanics ∈ Gathers <$> all_notice
  | _ => False
  end.
Proof.
  intros failed.
  assert (client_at (demo_client false demo_session) = Awaiting failed) as Ha by (vm_compute; reflexivity).
  assert (Terminal.cooked Terminal.fresh_tty) as Ht by (by repeat split).
  destruct (client_ends_clean Terminal.third_frame_fails false demo_collector (lit "terminal: broken pipe") []
              Terminal.third_frame_restores Terminal.third_frame_prepares true None Terminal.fresh_tty
              demo_session Ht) as (Hc & _ & _ & Hw).
  split; [exact Ha|]. split; [apply Hc; intros m E; rewrite Ha in E; discriminate E|].
  apply Hw; [exact Ha|]. intros []; unfold all_notice; simpl; rewrite !elem_of_cons; auto 10.
Defined.
