(* ===== verification/Link.v ===== *)
(** * From the server's collector to the remote screen

    The parts between them, composed: the collector, relay and client sessions of
    a server (Lifetime.v, Client.v), the bytes of the connections (Frame.v), the
    remote collector with its reconnections (Remote.v) and the application
    (App.v).  What is promised is integrity: whatever is shown was collected. *)

From S2P Require Import Prelude Str RsFloat Network Frame RateLimit Snapshots Wire.
From S2P Require Import Client Collector Server Lifetime Remote.
From S2P Require Process Actions Gpu Keymap Ui App AppSafety AppViews Shown.
Local Open Scope Z_scope.
Local Open Scope record_scope.

(** ** Lists *)

Lemma sublist_omap {A B} (f : A → option B) (l k : list A) :
  l `sublist_of` k → omap f l `sublist_of` omap f k.
Proof.
  induction 1 as [|x l k Hs IH|x l k Hs IH]; csimpl; [done|..]; destruct (f x); csimpl; try done;
    by constructor.
Qed.

(** ** Reading a connection that may be cut anywhere *)

Section Reading.
Context {R : Type} `{!AsyncRead R}.
Implicit Types r : R.

(** The head of a stream determines its frame. *)
Lemma frame_bytes_inj f g x y :
  frame_fits f → frame_fits g → frame_bytes f ++ x = frame_bytes g ++ y → f = g ∧ x = y.
Proof.
  intros Hf Hg E. pose proof (decode_frame_bytes f x Hf) as Df. rewrite E in Df.
  rewrite (decode_frame_bytes g y Hg) in Df. injection Df as ->. split; [done|]. by apply app_inv_head in E.
Qed.

(** Of a stream of frames that is cut, only whole frames are read, in order. *)
Lemma read_frame_of_cut r fs f r' :
  Forall frame_fits fs → pending r `prefix_of` concat (frame_bytes <$> fs) →
  read_frame r = (Ok (Some f), r') →
  ∃ fs', fs = f :: fs' ∧ pending r' `prefix_of` concat (frame_bytes <$> fs').
Proof.
  intros Hfs [z Hz] E. destruct (read_frame_bounded _ _ _ _ E) as [Hf _]. apply read_frame_Some in E.
  rewrite E, <- app_assoc in Hz. destruct Hfs as [|g fs Hg Hfs]; csimpl in Hz.
  - by destruct (u32_to_be_bytes (content_len f)) in Hz.
  - apply frame_bytes_inj in Hz as [-> Hz]; [|done..]. exists fs. split; [done|]. by exists z.
Qed.

(** The reads of the streaming loop, with the channel's answer to each; the loop
    is still waiting when they run out. *)
Fixpoint reads (txs : list channel) (r : R) : list remote_event :=
  match txs with
  | [] => []
  | tx :: txs => let '(res, r') := read_frame r in FrameRead res tx :: reads txs r'
  end.

(** An attempt whose Welcome and frames are read from [r]; everything else is
    as in [a]. *)
Definition attempt_over (a : attempt) (txs : list channel) (r : R) : attempt :=
  mkAttempt (tcp a) (tls a) (hello_written a)
    (match welcome_read a with
     | Done _ => Done (read_frame r).1
     | TimedOut => TimedOut
     | CancelledFirst => CancelledFirst
     end)
    (reads txs (read_frame r).2).
End Reading.

Section Link.
Context `{!Bincode SystemSnapshot} `{!Bincode (str * Z)} `{!Bincode (Z * str)}
  `{!Bincode (str * option str)} `{!Bincode (str * str * Z)} `{!DebugFmt}.

Definition snapshot_in (f : Frame) : option SystemSnapshot :=
  match from_frame f with Ok (Snapshot x) => Some x | _ => None end.

Lemma carried_reads {R} `{!AsyncRead R} txs (r : R) fs :
  Forall frame_fits fs → pending r `prefix_of` concat (frame_bytes <$> fs) →
  carried (reads txs r) `sublist_of` omap snapshot_in fs.
Proof.
  revert r fs. induction txs as [|tx txs IH]; intros r fs Hfs Hp; cbn [reads]; [apply sublist_nil_l|].
  destruct (read_frame r) as [[[f|]|e] r'] eqn:E; try apply sublist_nil_l.
  destruct (read_frame_of_cut r fs f r' Hfs Hp E) as (fs' & -> & Hp').
  inversion_clear Hfs as [|? ? _ Hfs']. specialize (IH r' fs' Hfs' Hp'). csimpl. unfold snapshot_in at 1.
  destruct tx, (from_frame f) as [[]|]; csimpl; try exact IH; by constructor.
Qed.

(** ** What a client session puts on the connection *)

(** The frames a schedule takes from the broadcast channel. *)
Definition taken (events : list stream_event) : list Frame :=
  omap (λ e, match e with SnapshotFrame _ f => Some f | _ => None end) events.

Lemma other_messages_carry_none m f :
  to_frame m = Ok f → (∀ x, m ≠ Snapshot x) → snapshot_in f = None.
Proof.
  intros Hf Hm. destruct m as [x| | | |]; [by destruct (Hm x)|..];
    unfold to_frame in Hf;
    match type of Hf with context [encode_to_vec ?a] => destruct (encode_to_vec a) as [bs|]; [|done] end;
    injection Hf as <-; unfold snapshot_in, from_frame; simpl;
    (match goal with |- context [decode_from_slice ?bs] => destruct (decode_from_slice bs) as [[x ?]|]; [|done] end);
    by repeat destruct x as [x ?].
Qed.

Section Sessions.
Context {R W : Type} `{!AsyncRead R} `{!AsyncWrite W}.
Variable state : SharedState.
Implicit Types (r : R) (w : W).

Lemma stream_frames_taken events :
  omap snapshot_in (stream_frames state events) `sublist_of` omap snapshot_in (taken events).
Proof.
  induction events as [|[now f|n| |now|] events IH]; csimpl; try done; try apply sublist_nil_l.
  - destruct (snapshot_in f); [by constructor|done].
  - destruct (to_frame (heartbeat state now)) as [f|] eqn:E; [|apply sublist_nil_l]. csimpl.
    by rewrite (other_messages_carry_none _ _ E).
Qed.

Lemma sends_weaken script ok p : sends script ok p → sends script false p.
Proof. intros [Hs _]. by split. Qed.

Lemma write_one f w : ∃ p, written (write_frame f w).2 = written w ++ p ∧ sends [f] false p.
Proof.
  destruct (write_then_sends f [] w Proto (λ w', (Ok tt, w'))) as (p & Hp & Hs).
  { intros w'. exists []. rewrite app_nil_r. split; [done|]. apply sends_nil. }
  exists p. destruct (write_frame f w) as [[]]; (split; [exact Hp|by eapply sends_weaken]).
Qed.

(** Whatever the peer sent, a session writes the frames of some script, which
    holds no snapshot but those taken from the channel, and none at all for a
    peer that did not authenticate. *)
Lemma handle_sends timed_out at_ events r w :
  ∃ script p, written (handle state timed_out at_ events r w).2 = written w ++ p ∧ sends script false p ∧
    omap snapshot_in script `sublist_of` omap snapshot_in (taken events) ∧
    (¬ authenticated state r → omap snapshot_in script = []).
Proof.
  assert (∃ script p, written w = written w ++ p ∧ sends script false p ∧
    omap snapshot_in script `sublist_of` omap snapshot_in (taken events) ∧
    (¬ authenticated state r → omap snapshot_in script = [])) as Hnone.
  { exists [], []. rewrite app_nil_r. split_and!; [done|apply sends_nil|apply sublist_nil_l|done]. }
  unfold handle, handshake. destruct timed_out; [apply Hnone|].
  destruct (read_frame_with_max_payload _ r) as [[[hf|]|e] r'] eqn:Er; simpl; [|apply Hnone..].
  destruct (from_frame hf) as [m|e] eqn:Ef; [|apply Hnone].
  destruct m as [| | |v t|]; try apply Hnone.
  destruct (constant_time_eq _ _) eqn:Ec; simpl.
  - unfold send. destruct (to_frame (welcome state)) as [wf|e] eqn:Ew; [|apply Hnone].
    destruct (write_then_sends wf (stream_frames state events) w Proto
      (stream state (at_ + HEARTBEAT_INTERVAL) events) (stream_sends _ _ _)) as (p & Hp & Hs).
    exists (wf :: stream_frames state events), p.
    split; [by destruct (write_frame wf w) as [[]]|]. split; [by eapply sends_weaken|].
    csimpl. rewrite (other_messages_carry_none _ _ Ew) by done. split; [apply stream_frames_taken|].
    intros []. exists hf, v, t. rewrite Er. split_and!; [done|done|].
    symmetry. by apply constant_time_eq_spec.
  - destruct (to_frame unauthorized) as [uf|e] eqn:Eu; [|apply Hnone].
    destruct (write_one uf w) as (p & Hp & Hs). exists [uf], p. split; [exact Hp|]. split; [exact Hs|].
    csimpl. rewrite (other_messages_carry_none _ _ Eu) by done. by split; [apply sublist_nil_l|].
Qed.
End Sessions.

(** ** What the remote collector delivers *)

Section Delivery.
Context {R : Type} `{!AsyncRead R}.
Variable proto_display : ProtoError → str.
Variables (client_version : str) (token : option str).

Lemma attempt_over_delivers a txs (r : R) fs :
  Forall frame_fits fs → pending r `prefix_of` concat (frame_bytes <$> fs) →
  delivered (connect_and_stream proto_display client_version token (attempt_over a txs r)).1
    `sublist_of` omap snapshot_in fs.
Proof.
  intros Hfs Hp.
  pose proof (delivered_after_welcome proto_display client_version token (attempt_over a txs r)) as Hd.
  destruct (connect_and_stream _ _ _ _) as [acts res]. simpl.
  destruct Hd as [->|(f & v & h & rr & rest & Hw & _ & _ & -> & Hrest)]; [apply sublist_nil_l|].
  cbn [attempt_over welcome_read streaming] in Hw, Hrest.
  destruct (welcome_read a); try discriminate Hw. injection Hw as Hw.
  destruct (read_frame r) as [res' r'] eqn:Er. simpl in Hw, Hrest. subst res'.
  destruct (read_frame_of_cut r fs f r' Hfs Hp Er) as (fs' & -> & Hp').
  inversion_clear Hfs as [|? ? _ Hfs']. change (delivered rest `sublist_of` omap snapshot_in (f :: fs')).
  etrans; [by apply sublist_of_prefix|]. etrans; [by apply carried_reads|].
  csimpl. by destruct (snapshot_in f); [constructor|].
Qed.

(** The snapshots of a run are those of its attempts. *)
Lemma run_delivers attempts b x :
  x ∈ delivered (run_loop proto_display client_version token b attempts) →
  ∃ a c, (a, c) ∈ attempts ∧ x ∈ delivered (connect_and_stream proto_display client_version token a).1.
Proof.
  revert b. induction attempts as [|[a c] attempts IH]; intros b; [intros []%elem_of_nil|]. cbn [run_loop].
  destruct (connect_and_stream _ _ _ a) as [acts [u|e]] eqn:E; intros Hin.
  - exists a, c. rewrite E. by split; [left|].
  - rewrite delivered_app in Hin. apply elem_of_app in Hin as [Hin|Hin].
    + exists a, c. rewrite E. by split; [left|].
    + destruct c; [by apply elem_of_nil in Hin|]. destruct (IH (next_backoff e b) Hin) as (a' & c' & H1 & H2).
      exists a', c'. by split; [right|].
Qed.
End Delivery.
End Link.

(** ** The two programs *)

(** One connection: the client task of the server with what its channel and its
    timers give it, the remote collector's attempt, and the bytes between. *)
Record Connection (R W R' : Type) := mkConnection {
  timed_out : bool;
  connected_at : Instant;
  schedule : list stream_event;
  server_reader : R;
  server_writer : W;
  client_reader : R';
  answers : list channel;
  otherwise : attempt;
}.
Arguments mkConnection {R W R'}.
Arguments timed_out {R W R'}.
Arguments connected_at {R W R'}.
Arguments schedule {R W R'}.
Arguments server_reader {R W R'}.
Arguments server_writer {R W R'}.
Arguments client_reader {R W R'}.
Arguments answers {R W R'}.
Arguments otherwise {R W R'}.

Section Programs.
Context {S : Type} `{!Semaphore S} `{!Bincode SystemSnapshot} `{!Bincode (str * Z)} `{!Bincode (Z * str)}
  `{!Bincode (str * option str)} `{!Bincode (str * str * Z)} `{!DebugFmt}.
Context {R W R' : Type} `{!AsyncRead R} `{!AsyncWrite W} `{!AsyncRead R'}.
Variables (proto_display : ProtoError → str) (client_version : str) (token : option str).
(** The server, over its life. *)
Variables (unwinds : bool) (collector : Collector) (config : ServerConfig) (accept_error : str).
Variables (started : Instant) (bound : result unit str) (es : list life_event) (state : SharedState).
Implicit Types c : Connection R W R'.

Definition server : ServerLife S := life_after unwinds collector config accept_error started bound es.

Definition server_side c : result unit ServerError * W :=
  handle state (timed_out c) (connected_at c) (schedule c) (server_reader c) (server_writer c).

Definition client_side c : attempt := attempt_over (otherwise c) (answers c) (client_reader c).

(** A new connection to this server: the channel hands the task frames that were
    broadcast, in order, if not all; the network hands the peer what was
    written, if not all. *)
Definition of_this_server c : Prop :=
  written (server_writer c) = [] ∧
  taken (schedule c) `sublist_of` broadcast server ∧
  pending (client_reader c) `prefix_of` written (server_side c).2.

(** One connection. *)
Lemma connection_delivers c :
  of_this_server c → Forall fits (sent (gathering server)) →
  let snaps := delivered (connect_and_stream proto_display client_version token (client_side c)).1 in
  snaps `sublist_of` sent (gathering server) ∧
  (¬ authenticated state (server_reader c) → snaps = []).
Proof.
  intros (Hnew & Htaken & Hnet) Hfit snaps.
  destruct (handle_sends state (timed_out c) (connected_at c) (schedule c) (server_reader c) (server_writer c))
    as (script & p & Hp & [(fs & Hfs & Hfits & Hpre) _] & Hsub & Hanon).
  unfold server_side in Hnet. rewrite Hp, Hnew in Hnet. csimpl in Hnet.
  assert (snaps `sublist_of` omap snapshot_in script) as Hsnaps.
  { etrans; [apply attempt_over_delivers; [exact Hfits|by etrans]|]. by apply sublist_omap, sublist_of_prefix. }
  split.
  - destruct (broadcast_was_sent unwinds collector config accept_error started bound es Hfit)
      as (sent' & Hs & Hdec). fold server in Hs, Hdec.
    assert (omap snapshot_in (broadcast server) = sent') as Ho.
    { clear -Hdec. induction Hdec as [|f x fs l Hf _ IH]; [done|]. csimpl. unfold snapshot_in at 1.
      by rewrite Hf, IH. }
    etrans; [exact Hsnaps|]. etrans; [exact Hsub|]. etrans; [by apply sublist_omap|]. by rewrite Ho.
  - intros Ha. rewrite (Hanon Ha) in Hsnaps. by apply sublist_nil_r in Hsnaps.
Qed.

(** C5: what a remote screen shows was collected by the server it is connected to.
    On each connection nothing is invented, altered, duplicated or reordered:
    whatever the scheduling, the lag of the channel and the moment the connection
    is cut, the snapshots delivered are, in order, snapshots the server's
    collector sent, and none for a peer that did not authenticate.  Over any
    number of connections and reconnections, and any session of keys, mouse and
    commands, the snapshot the application holds is one of those. *)
Theorem remote_screen_shows_the_collected
    `{!Str.Unicode} `{!Process.UnstableSort} `{!Actions.Os} describe errno_display score tty_ok
    (cs : list (Connection R W R' * bool)) app_config ctr cluster ts :
  Forall (λ cb, of_this_server cb.1) cs → Forall fits (sent (gathering server)) →
  (∀ y, y ∈ ts ≫= App.pending →
        y ∈ delivered (Remote.run proto_display client_version token ((λ cb, (client_side cb.1, cb.2)) <$> cs))) →
  Forall (λ cb,
    let snaps := delivered (connect_and_stream proto_display client_version token (client_side cb.1)).1 in
    snaps `sublist_of` sent (gathering server) ∧
    (¬ authenticated state (server_reader cb.1) → snaps = [])) cs ∧
  ∀ x, App.last_snapshot (AppViews.session describe errno_display score tty_ok app_config ctr cluster ts) = Some x →
       x ∈ sent (gathering server).
Proof.
  intros Hcs Hfit Hch. rewrite Forall_forall in Hcs. split.
  { apply Forall_forall. intros cb Hcb. by apply connection_delivers, Hfit; apply Hcs. }
  intros x Hx. apply Shown.run_shows in Hx as [E|Hin]; [discriminate E|]. apply Hch in Hin.
  apply run_delivers in Hin as (a & b & Hab & Hin).
  apply list_elem_of_fmap in Hab as ([c b'] & [= -> ->] & Hc).
  destruct (connection_delivers c (Hcs _ Hc) Hfit) as [Hsub _].
  by eapply elem_of_sublist.
Qed.
End Programs.

(** ** Witness *)

Section Demo.
Definition collected : SystemSnapshot :=
  SystemSnapshot_collect demo_sys [] None None (Some Gpu.gpus_unavailable) None.

#[local] Existing Instance counter_semaphore.
#[local] Instance link_bin1 : Bincode SystemSnapshot := known_bincode collected.
#[local] Instance link_bin2 : Bincode (str * Z) := countable_bincode _.
#[local] Instance link_bin3 : Bincode (Z * str) := countable_bincode _.
#[local] Instance link_bin4 : Bincode (str * option str) := countable_bincode _.
#[local] Instance link_bin5 : Bincode (str * str * Z) := countable_bincode _.
#[local] Existing Instance demo_debug.

Definition demo_life : list life_event :=
  [Ticks demo_sys [] None; Doors (Accepted (V4 1) 0); Doors (TlsDone 0); Relays].

(** The peer knows the token; a heartbeat follows the snapshot, and the connection
    is cut inside a second one. *)
Definition demo_connection : Connection Cursor (list u8) Cursor :=
  let r := demo_peer (lit "t") in
  let events := [SnapshotFrame 1 (mkFrame MSG_SNAPSHOT [x2a]); Client.Tick (from_secs 7);
                 Client.Tick (from_secs 12); Cancelled] in
  let bytes := written (handle demo_server false 0 events r ([] : list u8)).2 in
  mkConnection false 0 events r [] (mkCursor (take (length bytes - 2) bytes) eof)
    [ChanOpen; ChanOpen; ChanOpen] (mkAttempt (Done (Ok tt)) (Done (Ok tt)) (Ok tt) (Done (Ok None)) []).

Definition demo_shown : list App.Turn := [App.mkTurn 0 [] [collected] None].
#[local] Existing Instances ascii_tables Process.insertion_unstable Actions.os_without_42.

#[local] Notation demo_server_life :=
  (server false demo_collector demo_config [] 0 (Ok tt) demo_life : ServerLife nat).

Lemma demo_connection_ok :
  of_this_server false demo_collector demo_config [] 0 (Ok tt) demo_life demo_server demo_connection.
Proof.
  split; [reflexivity|]. split.
  - vm_compute. repeat constructor.
  - eexists. vm_compute. reflexivity.
Qed.

Lemma remote_screen_shows_the_collected_witness :
  let shown := App.last_snapshot (AppViews.session (λ _, []) (λ _, []) (λ _ _, None) true
                 AppSafety.demo_remote false false demo_shown) in
  sent (gathering demo_server_life) = [collected] ∧ shown = Some collected ∧
  ∀ x, shown = Some x → x ∈ sent (gathering demo_server_life).
Proof.
  intros shown.
  assert (sent (gathering demo_server_life) = [collected]) as Hsent by (vm_compute; reflexivity).
  split; [exact Hsent|]. split; [vm_compute; reflexivity|].
  refine (proj2 (remote_screen_shows_the_collected (λ _, []) (lit "1") (Some (lit "t")) false demo_collector
    demo_config [] 0 (Ok tt) demo_life demo_server (λ _, []) (λ _, []) (λ _ _, None) true
    [(demo_connection, false)] AppSafety.demo_remote false false demo_shown _ _ _)).
  - constructor; [exact demo_connection_ok|constructor].
  - rewrite Hsent. repeat constructor.
  - intros y Hy. assert (y = collected) as -> by (by apply list_elem_of_singleton in Hy).
    assert (delivered (Remote.run (λ _, []) (lit "1") (Some (lit "t"))
      ((λ cb, (client_side cb.1, cb.2)) <$> [(demo_connection, false)])) = [collected]) as ->
      by (vm_compute; reflexivity).
    by left.
Defined.
End Demo.
